(* ===== verification/_CoqProject ===== *)
-Q . S2P
Prelude.v
GoStrings.v
GoFloat.v
GoFloatFacts.v
Calculator.v
GoStrconv.v
GoTime.v
GoTimeFacts.v
GoJson.v
JsonText.v
JsonTextFacts.v
HttpMessage.v
External.v
ApiTypes.v
Effects.v
World.v
Http.v
Approval.v
Instances.v
DeepCopy.v
DeepCopyFacts.v
Owner.v
Applier.v
Notifier.v
NotifierFacts.v
Prometheus.v
PrometheusFacts.v
Controller.v
Restart.v
ApiServer.v
Handlers.v
Proxy.v
RecJson.v
Main.v
Scheme.v
Manager.v
Lifecycle.v
LifecycleFacts.v
Cluster.v
ClusterFacts.v
InMemory.v
AuthFacts.v
HandlerFacts.v
PolicyFacts.v
SafetyFacts.v
ReconcileFacts.v
AdviceFacts.v
Oversights.v
ClockFacts.v
RestartLoop.v
ProxyFacts.v
PageFacts.v
MainFacts.v
ManagerFacts.v
Scenario.v
Witnesses.v
ServiceWitnesses.v
