(* ===== verification/Prelude.v ===== *)
(** * OVRO: a verification library for the rightsizing operator

    OVRO is a Kubernetes operator.  A controller watches the cluster's virtual
    machines, asks a Prometheus-compatible server for their utilisation, and keeps
    one RightsizingRecommendation per machine; a REST API lets users read, apply,
    revert and reject recommendations; where a machine has an owner, applying asks
    the owner first, by notifications that link to a public approval proxy; a
    second controller restarts machines at the time agreed on.  This library
    models the Go implementation and proves what makes it correct.

    ** How the program is modelled

    A handler or reconciler is a program: a finite tree of calls to the outside
    (the Kubernetes API, the metrics server, chat services, SMTP servers, the
    clock), each continuing with whatever answer comes back ([Effects]; the calls
    are the constructors of [World.Ev]).  A run is the calls made, with their
    answers, and how it ended: a value, or a panic.  Theorems quantify over all
    runs, so over every failure, delay and stale read; where the state of the
    cluster matters, an environment restricts which answers a call may get
    ([Cluster]).  No program loops: loops range over slices, so every run ends,
    and no fuel is needed ([Effects.run_exec]).  Definitions compute; [Scenario]
    runs them against an in-memory server and [Witnesses] and [ServiceWitnesses]
    apply each theorem with hypotheses to such a run.

    A function [(T, error)] is a [result T]; a nil pointer is [None]; int32 and
    int64 are Z, wrapped where the code can overflow; float64 is IEEE binary64 on
    integers; strings are bytes; a Go map is a [gmap]; two slices that share an
    array are modelled with it ([Manager]).

    ** Which file models what

    - [Prelude] errors, results, integers, shared tactics; [GoStrings], [GoStrconv],
      [GoFloat], [GoTime], [GoJson]: the parts of Go's strings, net/url,
      encoding/base64, strconv, math, time and encoding/json that the code uses:
      [GoJson] decodes documents into structs, [JsonText] is the scanner, as a
      state machine on bytes, and the printer.  [Http] and [HttpMessage]: net/http,
      as a server and as a client; bodies are bytes that may be cut short.
      [GoFloatFacts], [GoTimeFacts] and [JsonTextFacts] prove what is needed of
      rounding, of dates, and that what is printed is read back.
    - [External]: third-party code as classes.  [Platform] is apimachinery's
      Quantity and Unstructured, [PlatformLaws] that nGi parses to n GiB.  The JWT
      library is [Approval.JwtLib], with the laws of signing and expiry.  [GoImpl]
      is Go's implementation-defined conversion of out-of-range floats, [Growth]
      the room [append] allocates.  [Cluster.ApiServer] is the Kubernetes API
      server with [ApiServerLaws], its optimistic concurrency.  [Instances] and
      [InMemory] are concrete instances that satisfy all these laws.
    - [ApiTypes]: api/v1alpha1, the resources and the default policy; [RecJson]:
      a recommendation in JSON, by the struct tags; [DeepCopy]: the structs in
      memory, with their pointers, and all of zz_generated.deepcopy.go as programs
      on a heap; [Scheme]: groupversion_info.go and the init functions.
    - [Calculator]: internal/calculator, percentiles and the analysis.
    - [Approval]: internal/approval, the tokens.  [Owner]: internal/owner.
      [Applier]: internal/applier, patches and restarts of virtual machines.
    - [Notifier]: internal/notifier, the dispatcher and its seven forwarders.
    - [Prometheus]: internal/prometheus, queries and the reading of answers.
    - [Controller] and [Restart]: internal/controller, the two reconcilers.
    - [ApiServer] and [Handlers]: internal/apiserver; middleware.go and
      authorization, list, read and apply handlers in the first, the other
      handlers, the options and routes of server.go in the second.
    - [Proxy]: internal/approvalproxy, the page, the form and the forwarding.
    - [Main]: what cmd/main.go builds from its settings, and all of
      cmd/approval-proxy; [Manager]: the rest of cmd/main.go, the manager's
      options and the sequence of steps that ends in its start or in an exit.

    Operations keep their Go names; a component's record holds the struct's
    fields, with a short prefix.  The pieces of a long function are definitions of
    their own ([handleApply_owner], [await_approval], [expire_or_remind], ...),
    composed in the order of the code.

    ** What is proved

    - The cluster ([Lifecycle], [LifecycleFacts], [Cluster], [ClusterFacts]).  The
      abstract specification is a state machine on recommendations, [transition].
      Each handler and reconciler writes a status only as a transition of an
      object it was given (a logic of programs, [gwp], walks through them); hence,
      for every interleaving of any number of requests, reconciliations and
      restarts, cut short anywhere, on a server with stale reads, the stored
      recommendations stay well-formed and move along the state machine's edges.
    - Who may do what ([AuthFacts], [ProxyFacts], [HandlerFacts]): the middleware is a
      gate and its scope is the object acted on, call by call; lists are cut to what
      the user may read; the proxy acts on a valid token only and on what it names;
      applying asks the owner that a lookup finds.
    - What the owner sees ([PageFacts]): the page shows, field by field, the
      recommendation the API server stores under the key of the link's token,
      followed through both servers and the bytes between them.
    - What operations do ([HandlerFacts], [PolicyFacts], [ReconcileFacts],
      [AdviceFacts], [ClockFacts]): success is answered exactly when the write was
      acknowledged; the wrong state is refused; policies stay within bounds;
      what a reconciliation consults is part of its trace, and from it follow its
      verdict on the machine, the recommendation written, and in automatic mode the
      change of the machine; requests of machines that still get advice expire and
      are reminded of on time; restarts happen on time.
    - A scheduled restart happens ([RestartLoop]): the restart controller inside
      the work queue that calls it, in every fair execution on fresh reads and
      successful writes; with the one gap, the time passing between two readings
      of the clock.
    - Copies ([DeepCopyFacts]): the generated copies of recommendations and their
      lists are deep, by combinators that follow the structs; those of policies
      are not.
    - The analysis ([Calculator]): bounds, direction, covered demand, percentiles
      as a function of the multiset of samples.
    - Services ([NotifierFacts], [PrometheusFacts], [Approval]): delivery to every
      forwarder, encryption of SMTP, confinement of credentials, by comparing two
      runs with different secrets ([Effects.similar]); queries that no name can
      escape; round trips of series and tokens.
    - Nothing panics ([SafetyFacts], [PrometheusFacts]), and what main wires up
      satisfies what the other theorems assume ([MainFacts]); the manager starts
      last, after a list of steps written out in [ManagerFacts].
    - Where the code does not do what it means to, the theorem says what it does:
      [restart_now_never_restarts], [reminder_lost_after_rejection],
      [exclude_never_excludes], [secrets_prevent_start],
      [Analyze_overflow_recommends_one], [server_certificates],
      [policy_copy_shares_storage], [restart_lost_between_readings], the time zone
      in [approval_end_to_end]; [Oversights]
      has the smaller ones: settings nothing reads, fields nothing sets, failures
      that pass for something else.

    ** What is not modelled

    Logging; the text syntax of YAML; template rendering (a page is the template's
    name and data); TLS handshakes, timeouts and the wire protocols below HTTP
    requests and SMTP commands; what controller-runtime does with the controllers
    registered, and its cache, except where a theorem states it; the parsing of
    command-line flags; the digits strconv chooses for a float in JSON (any
    literal that reads back as the float); the helpers of the tests; the console
    plugin, which is not Go.  Outside [DeepCopy] resources are values: the code
    never writes through a pointer that two resources share. *)
From stdpp Require Export prelude strings gmap list.
From Stdlib Require Export ZArith Lia.
From Stdlib Require Import DecimalString DecimalZ.
From Stdlib Require Ascii.
#[export] Set Warnings "-register-all,-clear-no-such-hyp".

#[export] Set Default Goal Selector "!".

(** A byte by its code. *)
Abbreviation chr := Ascii.ascii_of_nat.

(** ** Results and errors

    A Go call returning [(T, error)] is a [result T].  The error values carry
    what the code inspects: whether the API server reported NotFound or
    Conflict, and the message.  [fmt.Errorf] with a trailing [%w] is [EWrap]. *)

Inductive goerr : Type :=
| ENotFound (msg : string)
| EConflict (msg : string)
| EOther (msg : string)
| EWrap (prefix : string) (inner : goerr).

Inductive result (A : Type) : Type :=
| Ok (a : A)
| Err (e : goerr).
Arguments Ok {A} a.
Arguments Err {A} e.

(** [errors.IsNotFound] and [errors.IsConflict] look through wrapped errors. *)
Fixpoint IsNotFound (e : goerr) : bool :=
  match e with
  | ENotFound _ => true
  | EWrap _ e' => IsNotFound e'
  | _ => false
  end.

(** [err.Error()]. *)
Fixpoint Error (e : goerr) : string :=
  match e with
  | ENotFound m | EConflict m | EOther m => m
  | EWrap p e' => p +:+ ": " +:+ Error e'
  end.

Definition is_ok {A} (r : result A) : bool :=
  match r with Ok _ => true | Err _ => false end.

(** ** Machine integers

    [int32] and [int64] (Go's [int] on the supported platforms) are integers
    in [Z] brought back to their width after each operation that can leave it. *)

Definition wrap (w z : Z) : Z := ((z + 2 ^ (w - 1)) `mod` 2 ^ w - 2 ^ (w - 1))%Z.
Definition wrap32 (z : Z) : Z := wrap 32 z.
Definition wrap64 (z : Z) : Z := wrap 64 z.

Definition int32_range (z : Z) : Prop := (-2147483648 <= z <= 2147483647)%Z.
Definition int64_range (z : Z) : Prop :=
  (-9223372036854775808 <= z <= 9223372036854775807)%Z.

Lemma wrap32_range z : int32_range (wrap32 z).
Proof.
  unfold int32_range, wrap32, wrap.
  pose proof (Z.mod_pos_bound (z + 2 ^ (32 - 1)) (2 ^ 32) ltac:(lia)). lia.
Qed.

Lemma wrap64_range z : int64_range (wrap64 z).
Proof.
  unfold int64_range, wrap64, wrap.
  pose proof (Z.mod_pos_bound (z + 2 ^ (64 - 1)) (2 ^ 64) ltac:(lia)). lia.
Qed.

Lemma wrap32_id z : int32_range z → wrap32 z = z.
Proof.
  unfold int32_range, wrap32, wrap. intros H.
  rewrite Z.mod_small; lia.
Qed.

Lemma wrap64_id z : int64_range z → wrap64 z = z.
Proof.
  unfold int64_range, wrap64, wrap. intros H.
  rewrite Z.mod_small; lia.
Qed.

(** Additions may be brought to the width as they go or once at the end. *)
Lemma wrap_add w x y : wrap w (wrap w x + y) = wrap w (x + y).
Proof.
  unfold wrap. f_equal.
  replace ((x + 2 ^ (w - 1)) `mod` 2 ^ w - 2 ^ (w - 1) + y + 2 ^ (w - 1))%Z
    with ((x + 2 ^ (w - 1)) `mod` 2 ^ w + y)%Z by lia.
  rewrite Zplus_mod_idemp_l. f_equal. lia.
Qed.

(** ** Decimal printing, [fmt.Sprintf] with [%d] *)

Definition itoa (z : Z) : string := NilZero.string_of_int (Z.to_int z).

Lemma itoa_inj z1 z2 : itoa z1 = itoa z2 → z1 = z2.
Proof.
  unfold itoa. intros H.
  apply (f_equal NilZero.int_of_string) in H.
  rewrite !NilZero.isi in H by (intros Heq; destruct z1 as [|p|p], z2 as [|q|q]; cbn in Heq; try discriminate;
    inversion Heq as [Hu]; apply (f_equal Pos.of_uint) in Hu; rewrite DecimalPos.Unsigned.of_to in Hu; discriminate).
  simplify_eq. by apply (f_equal Z.of_int) in H; rewrite !DecimalZ.of_to in H.
Qed.
