(* ===== verification/GoStrings.v ===== *)
(** * Go strings

    The functions of package [strings] the operator uses, on byte strings, and
    the rune decoding of a [range] loop over a string. *)
From S2P Require Import Prelude.

Definition byte_of (c : Ascii.ascii) : Z := Z.of_N (Ascii.N_of_ascii c).

(** The double quote, which Rocq string literals here do not spell. *)
Definition dquote : string := String (chr 34) "".
Definition backslash : string := String (chr 92) "".
Definition newline : string := String (chr 10) "".
Definition creturn : string := String (chr 13) "".

(** [strings.HasPrefix(s, p)] *)
Fixpoint HasPrefix (s p : string) {struct p} : bool :=
  match p, s with
  | "", _ => true
  | String c p', String d s' => Ascii.eqb c d && HasPrefix s' p'
  | String _ _, "" => false
  end.

(** [strings.TrimPrefix(s, p)] *)
Definition drop (n : nat) (s : string) : string := String.substring n (String.length s - n) s.
Definition TrimPrefix (s p : string) : string :=
  if HasPrefix s p then drop (String.length p) s else s.

(** [strings.Index(s, sub)]; [None] stands for -1. *)
Fixpoint Index (s sub : string) : option nat :=
  if HasPrefix s sub then Some O
  else match s with
       | "" => None
       | String _ s' => S <$> Index s' sub
       end.

(** [strings.Contains(s, sub)] *)
Definition Contains (s sub : string) : bool := bool_decide (is_Some (Index s sub)).

(** [s[:n]] for [n] within the string. *)
Definition take (n : nat) (s : string) : string := String.substring 0 n s.

(** [strings.ReplaceAll(s, old, new)] for a non-empty [old]: [skip] counts the
    bytes of a match still to be passed over. *)
Fixpoint ReplaceAll_from (old new : string) (skip : nat) (s : string) : string :=
  match s with
  | "" => ""
  | String c s' =>
      match skip with
      | S k => ReplaceAll_from old new k s'
      | O => if HasPrefix s old
             then new +:+ ReplaceAll_from old new (String.length old - 1) s'
             else String c (ReplaceAll_from old new O s')
      end
  end.
Definition ReplaceAll (s old new : string) : string := ReplaceAll_from old new O s.

(** [strings.Split(s, sep)] for a one-byte separator: never empty. *)
Fixpoint Split (s : string) (sep : Ascii.ascii) : list string :=
  match s with
  | "" => [""]
  | String c s' =>
      if Ascii.eqb c sep then "" :: Split s' sep
      else match Split s' sep with
           | [] => [String c ""]
           | w :: ws => String c w :: ws
           end
  end.

(** [strings.SplitN(s, sep, 2)] *)
Fixpoint SplitN2 (s : string) (sep : Ascii.ascii) : list string :=
  match s with
  | "" => [""]
  | String c s' =>
      if Ascii.eqb c sep then [""; s']
      else match SplitN2 s' sep with
           | [] => [String c ""]
           | w :: ws => String c w :: ws
           end
  end.

(** ASCII case: [strings.ToLower] and [strings.EqualFold] on ASCII text. *)
Definition lower_ascii (c : Ascii.ascii) : Ascii.ascii :=
  let n := Ascii.nat_of_ascii c in
  if (65 <=? n)%nat && (n <=? 90)%nat then chr (n + 32) else c.
Fixpoint ToLower (s : string) : string :=
  match s with "" => "" | String c s' => String (lower_ascii c) (ToLower s') end.
Definition EqualFold (s t : string) : bool := String.eqb (ToLower s) (ToLower t).

(** [strings.TrimRight(s, "/")] and [strings.TrimSpace] *)
Fixpoint trim_right (p : Ascii.ascii → bool) (s : string) : string :=
  match s with
  | "" => ""
  | String c s' =>
      match trim_right p s' with
      | "" => if p c then "" else String c ""
      | r => String c r
      end
  end.
Fixpoint trim_left (p : Ascii.ascii → bool) (s : string) : string :=
  match s with
  | "" => ""
  | String c s' => if p c then trim_left p s' else s
  end.
Definition TrimRight (s : string) (cut : Ascii.ascii) : string :=
  trim_right (λ c, Ascii.eqb c cut) s.
Definition is_space (c : Ascii.ascii) : bool :=
  let n := Ascii.nat_of_ascii c in
  (n =? 32)%nat || ((9 <=? n)%nat && (n <=? 13)%nat).
Definition TrimSpace (s : string) : string := trim_right is_space (trim_left is_space s).

(** ** Runes

    [for _, c := range s]: the UTF-8 decoding of a string, an invalid byte
    giving U+FFFD and advancing by one. *)
Definition rune_error : Z := 65533.

Definition cont (b : Z) : bool := (128 <=? b)%Z && (b <=? 191)%Z.

(** One decoded rune and how many bytes it takes, from the bytes at hand. *)
Definition decode_rune (bs : list Z) : Z * nat :=
  match bs with
  | [] => (rune_error, O)
  | b0 :: r =>
      if (b0 <? 128)%Z then (b0, 1%nat) else
      if (194 <=? b0)%Z && (b0 <=? 223)%Z then
        match r with
        | b1 :: _ => if cont b1 then ((b0 - 192) * 64 + (b1 - 128), 2%nat)%Z
                     else (rune_error, 1%nat)
        | _ => (rune_error, 1%nat)
        end
      else if (224 <=? b0)%Z && (b0 <=? 239)%Z then
        match r with
        | b1 :: b2 :: _ =>
            let lo := (if (b0 =? 224)%Z then 160 else 128)%Z in
            let hi := (if (b0 =? 237)%Z then 159 else 191)%Z in
            if ((lo <=? b1) && (b1 <=? hi) && cont b2)%Z
            then ((b0 - 224) * 4096 + (b1 - 128) * 64 + (b2 - 128), 3%nat)%Z
            else (rune_error, 1%nat)
        | _ => (rune_error, 1%nat)
        end
      else if (240 <=? b0)%Z && (b0 <=? 244)%Z then
        match r with
        | b1 :: b2 :: b3 :: _ =>
            let lo := (if (b0 =? 240)%Z then 144 else 128)%Z in
            let hi := (if (b0 =? 244)%Z then 143 else 191)%Z in
            if ((lo <=? b1) && (b1 <=? hi) && cont b2 && cont b3)%Z
            then ((b0 - 240) * 262144 + (b1 - 128) * 4096
                  + (b2 - 128) * 64 + (b3 - 128), 4%nat)%Z
            else (rune_error, 1%nat)
        | _ => (rune_error, 1%nat)
        end
      else (rune_error, 1%nat)
  end.

(** [skip] counts the continuation bytes already consumed. *)
Fixpoint runes_from (skip : nat) (bs : list Z) : list Z :=
  match bs with
  | [] => []
  | _ :: r =>
      match skip with
      | S k => runes_from k r
      | O => let '(c, n) := decode_rune bs in c :: runes_from (n - 1) r
      end
  end.

Fixpoint bytes_of (s : string) : list Z :=
  match s with "" => [] | String c s' => byte_of c :: bytes_of s' end.

Definition runes (s : string) : list Z := runes_from O (bytes_of s).

(** [utf8.ValidString] *)
Fixpoint valid_from (skip : nat) (bs : list Z) : bool :=
  match bs with
  | [] => (skip =? 0)%nat
  | _ :: r =>
      match skip with
      | S k => valid_from k r
      | O => let '(c, n) := decode_rune bs in
             negb ((c =? rune_error)%Z && (n =? 1)%nat) && valid_from (n - 1) r
      end
  end.
Definition ValidString (s : string) : bool := valid_from O (bytes_of s).

(** What encoding/json writes for a string, as a reader gets it back: every
    invalid byte is replaced by U+FFFD. *)
Definition replacement : string := String (chr 239) (String (chr 191) (String (chr 189) "")).
Fixpoint to_valid_from (skip : nat) (s : string) : string :=
  match s with
  | "" => ""
  | String c s' =>
      match skip with
      | S k => String c (to_valid_from k s')
      | O => let '(r, n) := decode_rune (bytes_of s) in
             if (r =? rune_error)%Z && (n =? 1)%nat then replacement +:+ to_valid_from O s'
             else String c (to_valid_from (n - 1) s')
      end
  end.
Definition ToValidUTF8 (s : string) : string := to_valid_from O s.

Lemma to_valid_from_id skip s : valid_from skip (bytes_of s) = true → to_valid_from skip s = s.
Proof.
  revert skip. induction s as [|c s IH]; intros skip; [done|].
  cbn [bytes_of valid_from to_valid_from]. destruct skip as [|k]; [|by intros ->%IH].
  destruct (decode_rune _) as [r n]. intros [Hn Hv]%andb_true_iff. apply negb_true_iff in Hn.
  rewrite Hn. by rewrite (IH _ Hv).
Qed.
Lemma ToValidUTF8_id s : ValidString s = true → ToValidUTF8 s = s.
Proof. apply to_valid_from_id. Qed.

(** ASCII strings are valid. *)
Definition is_ascii (s : string) : bool := forallb (λ b, b <? 128)%Z (bytes_of s).
Lemma is_ascii_valid s : is_ascii s = true → ValidString s = true.
Proof.
  unfold is_ascii, ValidString. induction (bytes_of s) as [|b bs IH]; [done|].
  cbn [forallb]. intros [Hb Hbs]%andb_true_iff. cbn [valid_from].
  unfold decode_rune. rewrite Hb. cbn [Nat.sub]. rewrite (IH Hbs), andb_true_r.
  apply negb_true_iff, andb_false_iff. left. apply Z.eqb_neq. unfold rune_error. lia.
Qed.
Lemma bytes_of_app a b : bytes_of (a +:+ b) = bytes_of a ++ bytes_of b.
Proof. induction a as [|c a IH]; [done|]. change (String c a +:+ b) with (String c (a +:+ b)). simpl. by rewrite IH. Qed.
Lemma is_ascii_app_eq a b : is_ascii (a +:+ b) = is_ascii a && is_ascii b.
Proof. unfold is_ascii. by rewrite bytes_of_app, forallb_app. Qed.
Lemma is_ascii_app a b : is_ascii a = true → is_ascii b = true → is_ascii (a +:+ b) = true.
Proof. intros Ha Hb. by rewrite is_ascii_app_eq, Ha, Hb. Qed.

(** ** url.QueryEscape, and the QueryUnescape a server undoes it with *)
Definition hex_digit (n : nat) : Ascii.ascii := if (n <? 10)%nat then chr (48 + n) else chr (55 + n).
Definition unreserved (c : Ascii.ascii) : bool :=
  let n := Ascii.nat_of_ascii c in
  ((48 <=? n) && (n <=? 57) || (65 <=? n) && (n <=? 90) || (97 <=? n) && (n <=? 122)
   || (n =? 45) || (n =? 95) || (n =? 46) || (n =? 126))%nat.

Fixpoint QueryEscape (s : string) : string :=
  match s with
  | "" => ""
  | String c s' =>
      if unreserved c then String c (QueryEscape s')
      else if Ascii.eqb c (chr 32) then String (chr 43) (QueryEscape s')
      else let n := Ascii.nat_of_ascii c in
           String (chr 37) (String (hex_digit (n / 16)) (String (hex_digit (n mod 16)) (QueryEscape s')))
  end.

Definition unhex (c : Ascii.ascii) : option nat :=
  let n := Ascii.nat_of_ascii c in
  if ((48 <=? n) && (n <=? 57))%nat then Some (n - 48)%nat
  else if ((97 <=? n) && (n <=? 102))%nat then Some (n - 87)%nat
  else if ((65 <=? n) && (n <=? 70))%nat then Some (n - 55)%nat
  else None.

Fixpoint QueryUnescape (s : string) : option string :=
  match s with
  | "" => Some ""
  | String c s' =>
      if Ascii.eqb c (chr 37) then
        match s' with
        | String h (String l s'') =>
            a ← unhex h; b ← unhex l; r ← QueryUnescape s''; Some (String (chr (16 * a + b)) r)
        | _ => None
        end
      else r ← QueryUnescape s'; Some (String (if Ascii.eqb c (chr 43) then chr 32 else c) r)
  end.

#[local] Arguments hex_digit _ : simpl never.
#[local] Arguments unhex _ : simpl never.
#[local] Arguments Nat.div _ _ : simpl never.
#[local] Arguments Nat.modulo _ _ : simpl never.
#[local] Arguments Nat.mul _ _ : simpl never.

Lemma hex_digits c :
  unhex (hex_digit (Ascii.nat_of_ascii c / 16)) = Some (Ascii.nat_of_ascii c / 16)%nat ∧
  unhex (hex_digit (Ascii.nat_of_ascii c mod 16)) = Some (Ascii.nat_of_ascii c mod 16)%nat.
Proof. by destruct c as [[] [] [] [] [] [] [] []]; vm_compute. Qed.

(** A query value reaches the server as it was. *)
Lemma QueryUnescape_QueryEscape s : QueryUnescape (QueryEscape s) = Some s.
Proof.
  induction s as [|c s IH]; [done|]. simpl.
  destruct (unreserved c) eqn:Hu.
  - assert (Ascii.eqb c (chr 37) = false ∧ Ascii.eqb c (chr 43) = false) as [H1 H2]
      by (by destruct c as [[] [] [] [] [] [] [] []]; vm_compute in Hu |- *).
    simpl. by rewrite H1, IH, H2.
  - destruct (Ascii.eqb_spec c (chr 32)) as [->|Hs]; [by simpl; rewrite IH|].
    destruct (hex_digits c) as [Hh Hl]. cbn [QueryUnescape].
    rewrite Ascii.eqb_refl, Hh, Hl. simpl. rewrite IH. simpl.
    rewrite <-(Ascii.ascii_nat_embedding c) at 3. do 2 f_equal.
    pose proof (Nat.div_mod_eq (Ascii.nat_of_ascii c) 16). f_equal. lia.
Qed.

(** ** base64.StdEncoding *)
Definition base64_char (n : nat) : Ascii.ascii :=
  if (n <? 26)%nat then chr (65 + n) else if (n <? 52)%nat then chr (71 + n)
  else if (n <? 62)%nat then chr (n - 4) else if (n =? 62)%nat then chr 43 else chr 47.

Fixpoint base64 (s : string) : string :=
  let v c := Ascii.nat_of_ascii c in
  match s with
  | "" => ""
  | String a "" =>
      String (base64_char (v a / 4)) (String (base64_char (v a mod 4 * 16)) "==")
  | String a (String b "") =>
      String (base64_char (v a / 4)) (String (base64_char (v a mod 4 * 16 + v b / 16))
        (String (base64_char (v b mod 16 * 4)) "="))
  | String a (String b (String c s')) =>
      String (base64_char (v a / 4)) (String (base64_char (v a mod 4 * 16 + v b / 16))
        (String (base64_char (v b mod 16 * 4 + v c / 64)) (String (base64_char (v c mod 64)) (base64 s'))))
  end%nat.

(** ** strconv.Quote, the %q verb: exact on ASCII; other bytes are kept *)
Fixpoint quote_body (s : string) : string :=
  match s with
  | "" => ""
  | String c s' =>
      let n := Ascii.nat_of_ascii c in
      (if (n =? 34)%nat then backslash +:+ dquote
       else if (n =? 92)%nat then backslash +:+ backslash
       else if (n =? 7)%nat then backslash +:+ "a"
       else if (n =? 8)%nat then backslash +:+ "b"
       else if (n =? 12)%nat then backslash +:+ "f"
       else if (n =? 10)%nat then backslash +:+ "n"
       else if (n =? 13)%nat then backslash +:+ "r"
       else if (n =? 9)%nat then backslash +:+ "t"
       else if (n =? 11)%nat then backslash +:+ "v"
       else if (n <? 32)%nat || (n =? 127)%nat
       then backslash +:+ "x" +:+ ToLower (String (hex_digit (n / 16)) (String (hex_digit (n mod 16)) ""))
       else String c "") +:+ quote_body s'
  end.
Definition Quote (s : string) : string := dquote +:+ quote_body s +:+ dquote.

(** ** Facts *)

Lemma substring_all s n : (String.length s <= n)%nat → String.substring 0 n s = s.
Proof.
  revert n. induction s as [|c s IH]; intros [|n] H; simpl in *; try done; [lia|].
  rewrite IH; [done|lia].
Qed.

Lemma take_drop_app a b :
  take (String.length a) (a +:+ b) = a ∧ drop (String.length a) (a +:+ b) = b.
Proof.
  unfold take, drop. split.
  - induction a as [|c a IH]; [by destruct b|]. simpl. by rewrite IH.
  - assert (String.length (a +:+ b) - String.length a = String.length b)%nat as ->.
    { induction a as [|c a IH]; [apply Nat.sub_0_r|exact IH]. }
    induction a as [|c a IH]; [by apply substring_all|exact IH].
Qed.


Lemma app_String c s t : String c s +:+ t = String c (s +:+ t).
Proof. done. Qed.
Lemma app_empty s : "" +:+ s = s.
Proof. done. Qed.
Lemma app_nil_string s : s +:+ "" = s.
Proof. induction s as [|c s IH]; [done|]. by rewrite app_String, IH. Qed.
Lemma app_assoc_string (a b c : string) : (a +:+ b) +:+ c = a +:+ (b +:+ c).
Proof. induction a as [|x a IH]; [done|]. by rewrite !app_String, IH. Qed.
Lemma take_drop_string n s : take n s +:+ drop n s = s.
Proof.
  revert s. induction n as [|n IH]; intros s.
  - unfold take, drop. rewrite Nat.sub_0_r, (substring_all s (String.length s)) by done. by destruct s.
  - destruct s as [|c s]; [done|]. unfold take, drop in *. cbn [String.substring String.length Nat.sub].
    by rewrite app_String, IH.
Qed.

Lemma HasPrefix_app p s : HasPrefix (p +:+ s) p = true.
Proof. induction p as [|c p IH]; [by destruct s|]. simpl. by rewrite Ascii.eqb_refl. Qed.

Lemma HasPrefix_inv s p : HasPrefix s p = true → ∃ t, s = p +:+ t.
Proof.
  revert s. induction p as [|c p IH]; intros s H; [by exists s|].
  destruct s as [|d s]; simpl in H; [done|].
  apply andb_true_iff in H as [->%Ascii.eqb_eq H].
  destruct (IH _ H) as [t ->]. by exists t.
Qed.

Lemma Split_nonempty s sep : Split s sep ≠ [].
Proof. destruct s; simpl; [done|]. destruct (Ascii.eqb _ _); [done|]. by destruct (Split s sep). Qed.

(** The pieces of [Split], joined by the separator, are the string again. *)
Fixpoint join (sep : Ascii.ascii) (ws : list string) : string :=
  match ws with
  | [] => ""
  | [w] => w
  | w :: ws' => w +:+ String sep (join sep ws')
  end.

Lemma join_Split s sep : join sep (Split s sep) = s.
Proof.
  induction s as [|c s IH]; [done|]. simpl. destruct (Ascii.eqb_spec c sep) as [->|Hc].
  - destruct (Split s sep) eqn:E; [by destruct (Split_nonempty s sep)|].
    by rewrite <- IH.
  - destruct (Split s sep) as [|w [|w' ws]] eqn:E; [by destruct (Split_nonempty s sep)|..];
      simpl in *; by rewrite <- IH.
Qed.
