(* ===== verification/GoFloat.v ===== *)
(** * Go's float64

    IEEE binary64 with round-to-nearest-even, on the Standard Library's
    [SpecFloat]: the arithmetic is computed on integers, so every operation
    below evaluates.  Functions of package [math] follow Go's definitions,
    special cases included.  Go leaves the result of an out-of-range
    float-to-integer conversion to the implementation: the class [GoImpl]
    carries it, and theorems hold for every instance. *)
From S2P Require Import Prelude.
From Corelib Require Export SpecFloat.
Local Open Scope Z_scope.

Abbreviation f64 := spec_float.
Definition fadd : f64 → f64 → f64 := SFadd 53 1024.
Definition fsub : f64 → f64 → f64 := SFsub 53 1024.
Definition fmul : f64 → f64 → f64 := SFmul 53 1024.
Definition fdiv : f64 → f64 → f64 := SFdiv 53 1024.
Definition fcmp : f64 → f64 → option comparison := SFcompare.
Definition fltb : f64 → f64 → bool := SFltb.
Definition fleb : f64 → f64 → bool := SFleb.
Definition fgtb (x y : f64) : bool := fltb y x.
Definition fgeb (x y : f64) : bool := fleb y x.

Definition is_nan (x : f64) : bool := match x with S754_nan => true | _ => false end.
Definition signbit (x : f64) : bool :=
  match x with
  | S754_zero s | S754_infinity s | S754_finite s _ _ => s
  | S754_nan => false
  end.

(** [float64(z)] for an integer. *)
Definition f64_of_Z (z : Z) : f64 := binary_normalize 53 1024 z 0 false.

(** The float nearest to [n/d]: what a decimal constant denotes. *)
Definition f64_ratio (n : Z) (d : positive) : f64 :=
  match n with
  | Z0 => S754_zero false
  | Zpos p => let '(m, e, l) := SFdiv_core_binary 53 1024 (Zpos p) 0 (Zpos d) 0 in
              binary_round_aux 53 1024 false m e l
  | Zneg p => let '(m, e, l) := SFdiv_core_binary 53 1024 (Zpos p) 0 (Zpos d) 0 in
              binary_round_aux 53 1024 true m e l
  end.

(** ** Package math *)

(** Magnitude quotient and remainder of a finite [m * 2^e], [e < 0], by its unit. *)
Definition mag_div (m : positive) (e : Z) : Z * Z :=
  (Zpos m / 2 ^ (- e), Zpos m mod 2 ^ (- e)).

(** [math.Floor] and [math.Ceil]: zeros, infinities and NaN map to themselves; a
    result of magnitude zero keeps the sign. *)
Definition signed_int (s : bool) (mag : Z) : f64 :=
  if mag =? 0 then S754_zero s else f64_of_Z (if s then - mag else mag).

Definition Floor (x : f64) : f64 :=
  match x with
  | S754_finite s m e =>
      if 0 <=? e then x
      else let '(q, r) := mag_div m e in
           signed_int s (if s && negb (r =? 0) then q + 1 else q)
  | _ => x
  end.

Definition Ceil (x : f64) : f64 :=
  match x with
  | S754_finite s m e =>
      if 0 <=? e then x
      else let '(q, r) := mag_div m e in
           signed_int s (if negb s && negb (r =? 0) then q + 1 else q)
  | _ => x
  end.

(** [math.Round]: half away from zero. *)
Definition Round (x : f64) : f64 :=
  match x with
  | S754_finite s m e =>
      if 0 <=? e then x
      else signed_int s ((2 * Zpos m + 2 ^ (- e)) / 2 ^ (- e + 1))
  | _ => x
  end.

(** [math.Max]: +Inf wins, then NaN, then -0 below +0. *)
Definition Max (x y : f64) : f64 :=
  match x, y with
  | S754_infinity false, _ | _, S754_infinity false => S754_infinity false
  | S754_nan, _ | _, S754_nan => S754_nan
  | S754_zero sx, S754_zero _ => if sx then y else x
  | _, _ => if fgtb x y then x else y
  end.

(** ** Conversion to integers *)

(** Truncation toward zero; [None] for infinities and NaN. *)
Definition trunc (x : f64) : option Z :=
  match x with
  | S754_zero _ => Some 0
  | S754_finite s m e =>
      let mag := if 0 <=? e then Zpos m * 2 ^ e else fst (mag_div m e) in
      Some (if s then - mag else mag)
  | _ => None
  end.

Class GoImpl : Type := {
  int32_oob : f64 → Z;
  int64_oob : f64 → Z;
  int32_oob_range : ∀ x, int32_range (int32_oob x);
  int64_oob_range : ∀ x, int64_range (int64_oob x)
}.

(** Go on amd64: CVTTSD2SL and CVTTSD2SQ give the "integer indefinite" value. *)
#[export] Instance amd64 : GoImpl.
Proof.
  refine {| int32_oob := λ _, -2147483648; int64_oob := λ _, -9223372036854775808 |};
    unfold int32_range, int64_range; lia.
Defined.

Section Conversions.
Context `{GoImpl}.

(** [int32(x)] and [int(x)] *)
Definition to_int32 (x : f64) : Z :=
  match trunc x with
  | Some z => if (-2147483648 <=? z) && (z <=? 2147483647) then z else int32_oob x
  | None => int32_oob x
  end.
Definition to_int (x : f64) : Z :=
  match trunc x with
  | Some z => if (-9223372036854775808 <=? z) && (z <=? 9223372036854775807)
              then z else int64_oob x
  | None => int64_oob x
  end.

Lemma to_int32_range x : int32_range (to_int32 x).
Proof.
  unfold to_int32. destruct (trunc x) as [z|]; [|apply int32_oob_range].
  destruct (_ && _) eqn:E; [|apply int32_oob_range]. unfold int32_range. lia.
Qed.
End Conversions.

(** ** Formatting, the %.1f verb: exact decimal rounding, ties to even *)
Definition tenths_even (m : positive) (e : Z) : Z :=
  if 0 <=? e then Zpos m * 10 * 2 ^ e
  else let d := 2 ^ (- e) in
       let n := Zpos m * 10 in
       let q := n / d in let r := n mod d in
       if 2 * r <? d then q else if d <? 2 * r then q + 1
       else if Z.even q then q else q + 1.

Definition fmt_1f (x : f64) : string :=
  let sign (s : bool) := if s then "-" else "" in
  match x with
  | S754_nan => "NaN"
  | S754_infinity s => if s then "-Inf" else "+Inf"
  | S754_zero s => sign s +:+ "0.0"
  | S754_finite s m e =>
      let t := tenths_even m e in sign s +:+ itoa (t / 10) +:+ "." +:+ itoa (t mod 10)
  end.
