(* ===== verification/GoFloatFacts.v ===== *)
(** * Facts about binary64 arithmetic

    The order of [f64], and what rounding does to values: results keep 53-bit
    mantissas, integers up to 2^53 are exact, and rounding never crosses an
    integer below 2^53. *)
From S2P Require Import Prelude GoFloat.
Local Open Scope Z_scope.

(** ** The order

    Comparison of two numbers is the lexicographic comparison of their keys. *)
Definition fkey (x : f64) : Z * Z * Z :=
  match x with
  | S754_infinity true => (-2, 0, 0)
  | S754_finite true m e => (-1, - e, - Zpos m)
  | S754_zero _ | S754_nan => (0, 0, 0)
  | S754_finite false m e => (1, e, Zpos m)
  | S754_infinity false => (2, 0, 0)
  end.

Definition lex3 (a b : Z * Z * Z) : comparison :=
  let '(a1, a2, a3) := a in let '(b1, b2, b3) := b in
  match a1 ?= b1 with
  | Eq => match a2 ?= b2 with Eq => a3 ?= b3 | c => c end
  | c => c
  end.

Lemma fcmp_key x y : is_nan x = false → is_nan y = false →
  fcmp x y = Some (lex3 (fkey x) (fkey y)).
Proof.
  intros Hx Hy. unfold fcmp, lex3.
  destruct x as [sx|[]| |[] mx ex], y as [sy|[]| |[] my ey]; try done; simpl.
  change (Pos.compare_cont Eq mx my) with (mx ?= my)%positive.
  rewrite Z.compare_opp, (Z.compare_antisym ex ey). by destruct (ex ?= ey).
Qed.

Lemma lex3_antisym a b : lex3 b a = CompOpp (lex3 a b).
Proof.
  destruct a as [[a1 a2] a3], b as [[b1 b2] b3]. simpl.
  rewrite (Z.compare_antisym a1 b1). destruct (a1 ?= b1); try done. simpl.
  rewrite (Z.compare_antisym a2 b2). destruct (a2 ?= b2); try done. simpl.
  apply Z.compare_antisym.
Qed.

Lemma lex3_refl a : lex3 a a = Eq.
Proof. destruct a as [[a1 a2] a3]. simpl. by rewrite !Z.compare_refl. Qed.

Lemma lex3_eq a b : lex3 a b = Eq → a = b.
Proof.
  destruct a as [[a1 a2] a3], b as [[b1 b2] b3]. simpl.
  destruct (Z.compare_spec a1 b1), (Z.compare_spec a2 b2), (Z.compare_spec a3 b3);
    intros; try done; by subst.
Qed.

Lemma lex3_trans a b c : lex3 a b ≠ Gt → lex3 b c ≠ Gt → lex3 a c ≠ Gt.
Proof.
  destruct a as [[a1 a2] a3], b as [[b1 b2] b3], c as [[c1 c2] c3]. simpl.
  destruct (Z.compare_spec a1 b1), (Z.compare_spec b1 c1), (Z.compare_spec a1 c1);
    try lia; try done.
  all: destruct (Z.compare_spec a2 b2), (Z.compare_spec b2 c2), (Z.compare_spec a2 c2);
    try lia; try done.
  all: destruct (Z.compare_spec a3 b3), (Z.compare_spec b3 c3), (Z.compare_spec a3 c3);
    try lia; done.
Qed.

(** [x <= y] on numbers is a total preorder, and [<] its strict part. *)
Lemma fleb_lex x y : is_nan x = false → is_nan y = false →
  fleb x y = true ↔ lex3 (fkey x) (fkey y) ≠ Gt.
Proof.
  intros Hx Hy. unfold fleb, SFleb. fold (fcmp x y). rewrite fcmp_key by done.
  destruct (lex3 _ _); naive_solver.
Qed.

Lemma fltb_not_fleb x y : is_nan x = false → is_nan y = false →
  fltb x y = negb (fleb y x).
Proof.
  intros Hx Hy. unfold fltb, SFltb, fleb, SFleb. fold (fcmp x y) (fcmp y x).
  rewrite !fcmp_key, (lex3_antisym (fkey x) (fkey y)) by done. by destruct (lex3 _ _).
Qed.

Lemma fleb_refl x : is_nan x = false → fleb x x = true.
Proof. intros. apply fleb_lex; [done..|]. by rewrite lex3_refl. Qed.

Lemma fleb_trans x y z : is_nan y = false →
  fleb x y = true → fleb y z = true → fleb x z = true.
Proof.
  intros Hy H1 H2.
  assert (is_nan x = false) by (by destruct x).
  assert (is_nan z = false) by (by destruct z, y as [|[]| |[]]).
  apply fleb_lex; [done..|]. apply fleb_lex in H1, H2; [|done..].
  by eapply lex3_trans.
Qed.

Lemma fleb_total x y : is_nan x = false → is_nan y = false →
  fleb x y = true ∨ fleb y x = true.
Proof.
  intros. rewrite !fleb_lex, (lex3_antisym (fkey x) (fkey y)) by done.
  destruct (lex3 _ _); naive_solver.
Qed.

Lemma fltb_nan x y : fltb x y = true → is_nan x = false ∧ is_nan y = false.
Proof. by destruct x, y as [|[]| |[]]. Qed.

Lemma fleb_nan x y : fleb x y = true → is_nan x = false ∧ is_nan y = false.
Proof. by destruct x, y as [|[]| |[]]. Qed.

Lemma fltb_fleb x y : fltb x y = true → fleb x y = true.
Proof.
  intros H. pose proof (fltb_nan _ _ H) as [Hx Hy].
  rewrite fltb_not_fleb in H by done.
  destruct (fleb_total x y) as [?|E]; [done..|]. by rewrite E in H.
Qed.

(** ** Rounding

    [shr] divides the mantissa by a power of two and remembers in its two flag
    bits whether something was lost. *)
Definition mrs_flag (r : shr_record) : bool := shr_r r || shr_s r.

Lemma shr_1_spec r : 0 <= shr_m r →
  shr_m (shr_1 r) = shr_m r / 2 ∧
  (mrs_flag (shr_1 r) = false ↔ mrs_flag r = false ∧ shr_m r mod 2 = 0).
Proof.
  destruct r as [m rr rs]; unfold mrs_flag; simpl. intros H.
  rewrite <- Z.div2_div, Zmod_even.
  destruct m as [|[p|p|]|p]; simpl in *; try lia; destruct rr, rs; simpl; (split; [done|]; split; [intros|intros []]; done).
Qed.

Lemma iter_shr_spec p r : 0 <= shr_m r →
  shr_m (iter_pos shr_1 p r) = shr_m r / 2 ^ Zpos p ∧
  (mrs_flag (iter_pos shr_1 p r) = false ↔ mrs_flag r = false ∧ shr_m r mod 2 ^ Zpos p = 0).
Proof.
  revert r.
  assert (Hcomp : ∀ m a b, 0 <= m → 0 < a → 0 < b →
    m / a / b = m / (a * b) ∧ (m mod a = 0 ∧ m / a mod b = 0 ↔ m mod (a * b) = 0)).
  { intros m a b Hm Ha Hb. split; [by rewrite Z.div_div by lia|].
    rewrite Z.rem_mul_r by lia.
    pose proof (Z.mod_pos_bound m a Ha). pose proof (Z.mod_pos_bound (m / a) b Hb). nia. }
  induction p as [p IH|p IH|]; intros r Hr; simpl iter_pos.
  - destruct (shr_1_spec r Hr) as [H1 F1].
    assert (0 <= shr_m (shr_1 r)) as Hr1 by (rewrite H1; apply Z.div_pos; lia).
    destruct (IH _ Hr1) as [H2 F2].
    assert (0 <= shr_m (iter_pos shr_1 p (shr_1 r))) as Hr2
      by (rewrite H2; apply Z.div_pos; lia).
    destruct (IH _ Hr2) as [H3 F3].
    assert (2 ^ Zpos p~1 = 2 * (2 ^ Zpos p * 2 ^ Zpos p)) as ->.
    { rewrite <- Z.pow_add_r, <- Z.pow_succ_r by lia. f_equal. lia. }
    pose proof (Z.pow_pos_nonneg 2 (Zpos p) ltac:(lia) ltac:(lia)).
    destruct (Hcomp (shr_m r) 2 (2 ^ Zpos p * 2 ^ Zpos p)) as [C1 C2]; [lia..|nia|].
    destruct (Hcomp (shr_m r / 2) (2 ^ Zpos p) (2 ^ Zpos p)) as [D1 D2]; [|lia..|].
    { by apply Z.div_pos. }
    rewrite H3, F3, H2, F2, H1, F1. split; [by rewrite D1, C1|]. tauto.
  - destruct (IH _ Hr) as [H2 F2].
    assert (0 <= shr_m (iter_pos shr_1 p r)) as Hr2
      by (rewrite H2; apply Z.div_pos; lia).
    destruct (IH _ Hr2) as [H3 F3].
    assert (2 ^ Zpos p~0 = 2 ^ Zpos p * 2 ^ Zpos p) as ->.
    { rewrite <- Z.pow_add_r by lia. f_equal. lia. }
    pose proof (Z.pow_pos_nonneg 2 (Zpos p) ltac:(lia) ltac:(lia)).
    destruct (Hcomp (shr_m r) (2 ^ Zpos p) (2 ^ Zpos p)) as [D1 D2]; [lia..|].
    rewrite H3, F3, H2, F2. split; [done|]. tauto.
  - by apply shr_1_spec.
Qed.

Lemma digits2_log2 p : Zpos (digits2_pos p) = Z.log2 (Zpos p) + 1.
Proof.
  induction p as [p IH|p IH|]; [..|done]; cbn [digits2_pos]; rewrite Pos2Z.inj_succ, IH.
  - rewrite Pos2Z.inj_xI, Z.log2_succ_double; lia.
  - rewrite Pos2Z.inj_xO, Z.log2_double; lia.
Qed.

Lemma Zdigits2_bounds m : 0 < m → 2 ^ (Zdigits2 m - 1) <= m < 2 ^ Zdigits2 m.
Proof.
  destruct m as [|p|p]; try lia. intros _.
  change (Zdigits2 (Zpos p)) with (Zpos (digits2_pos p)). rewrite digits2_log2.
  pose proof (Z.log2_spec (Zpos p) ltac:(lia)) as Hl.
  by rewrite Z.add_simpl_r, Z.add_1_r.
Qed.

(** What [binary_round_aux] computes from a mantissa [m > 0], exponent [e] and
    location [l]: it drops [k] bits, rounds the quotient up by at most one, and
    renormalises once when the rounding reached 2^53. *)
Record rounding (m e : Z) (l : location) (k m1 : Z) : Prop := {
  rnd_k : 0 <= k;
  rnd_k_exact : k = Z.max 0 (Z.max (Zdigits2 m - 53) (-1074 - e));
  rnd_m1 : m / 2 ^ k <= m1 <= m / 2 ^ k + 1;
  rnd_exact : l = loc_Exact → m mod 2 ^ k = 0 → m1 = m / 2 ^ k;
  rnd_small : m1 <= 2 ^ 53
}.

Definition renorm (m1 e1 : Z) : Z * Z :=
  if m1 =? 2 ^ 53 then (2 ^ 52, e1 + 1) else (m1, e1).

Definition mk_finite (s : bool) (m e : Z) : f64 :=
  match m with
  | Zpos p => if e <=? 971 then S754_finite s p e else S754_infinity s
  | _ => S754_zero s
  end.

Lemma shr_fexp_spec m e l : 0 <= m →
  ∃ k, 0 <= k ∧ k = Z.max 0 (Z.max (Zdigits2 m - 53) (-1074 - e)) ∧
    snd (shr_fexp 53 1024 m e l) = e + k ∧
    shr_m (fst (shr_fexp 53 1024 m e l)) = m / 2 ^ k ∧
    (l = loc_Exact → m mod 2 ^ k = 0 → mrs_flag (fst (shr_fexp 53 1024 m e l)) = false).
Proof.
  intros Hm. unfold shr_fexp, fexp, emin.
  replace (3 - 1024 - 53) with (-1074) by lia.
  set (n := Z.max (Zdigits2 m + e - 53) (-1074) - e).
  exists (Z.max 0 n). split; [lia|]. split; [lia|].
  assert (Hrm : shr_m (shr_record_of_loc m l) = m) by (by destruct l as [|[]]).
  destruct n as [|p|p] eqn:En; simpl shr.
  - rewrite Z.max_id, Z.div_1_r. simpl. rewrite Hrm. split; [lia|]. split; [done|]. by intros ->.
  - destruct (iter_shr_spec p (shr_record_of_loc m l)) as [H1 H2]; [lia|].
    replace (Z.max 0 (Zpos p)) with (Zpos p) by lia. simpl fst. simpl snd.
    rewrite H1, H2, Hrm. split; [done|]. split; [done|]. by intros ->.
  - replace (Z.max 0 (Zneg p)) with 0 by lia.
    rewrite Z.div_1_r. simpl. rewrite Hrm. split; [lia|]. split; [done|]. by intros ->.
Qed.

Lemma rne_bounds m l : m <= round_nearest_even m l <= m + 1.
Proof. destruct l as [|[]]; simpl; try lia. destruct (Z.even m); lia. Qed.

Lemma loc_exact_flag r : mrs_flag r = false → loc_of_shr_record r = loc_Exact.
Proof. by destruct r as [m [] []]. Qed.

Lemma round_aux_spec s m e l : 0 <= m →
  ∃ k m1, rounding m e l k m1 ∧
    binary_round_aux 53 1024 s m e l =
      mk_finite s (fst (renorm m1 (e + k))) (snd (renorm m1 (e + k))).
Proof.
  intros Hm. unfold binary_round_aux.
  destruct (shr_fexp_spec m e l Hm) as (k & Hk & Hke & He1 & Hm1 & Hex).
  destruct (shr_fexp 53 1024 m e l) as [mrs e1]; simpl in *. subst e1.
  set (m1 := round_nearest_even (shr_m mrs) (loc_of_shr_record mrs)).
  pose proof (rne_bounds (shr_m mrs) (loc_of_shr_record mrs)) as Hb. fold m1 in Hb.
  rewrite Hm1 in Hb.
  assert (Hlt : m / 2 ^ k < 2 ^ 53).
  { destruct (decide (m = 0)) as [->|]; [by rewrite Z.div_0_l by (apply Z.pow_nonzero; lia)|].
    apply Z.div_lt_upper_bound; [by apply Z.pow_pos_nonneg; lia|].
    rewrite <- Z.pow_add_r by lia.
    eapply Z.lt_le_trans; [apply Zdigits2_bounds; lia|]. apply Z.pow_le_mono_r; lia. }
  assert (Hpos : 0 <= m / 2 ^ k) by (apply Z.div_pos; [lia|by apply Z.pow_pos_nonneg; lia]).
  assert (Hr : rounding m e l k m1).
  { split; try done; [|lia]. intros Hl Hmod. unfold m1.
    by rewrite loc_exact_flag, Hm1 by (by apply Hex). }
  exists k, m1. split; [done|].
  destruct (decide (m1 = 0)) as [E0|E0].
  { unfold renorm. rewrite E0. simpl. unfold shr_fexp, shr.
    destruct (fexp _ _ _ - _); simpl; [done| |done].
    destruct (iter_shr_spec p {| shr_m := 0; shr_r := false; shr_s := false |}) as [Hs _];
      [simpl; lia|]. by rewrite Hs. }
  destruct (shr_fexp_spec m1 (e + k) loc_Exact) as (k2 & Hk2 & Hke2 & He2 & Hm2 & _); [lia|].
  destruct (shr_fexp 53 1024 m1 (e + k) loc_Exact) as [mrs2 e2]; simpl in *. subst e2.
  pose proof (Zdigits2_bounds m1 ltac:(lia)) as Hd1.
  rewrite Hm2. unfold renorm. destruct (Z.eqb_spec m1 (2 ^ 53)) as [E53|E53].
  - assert (k2 = 1) as -> by (rewrite Hke2, E53; simpl; lia).
    rewrite E53. done.
  - assert (Zdigits2 m1 <= 53).
    { destruct (Z.le_gt_cases (Zdigits2 m1) 53) as [|Hgt]; [done|].
      pose proof (Z.pow_le_mono_r 2 53 (Zdigits2 m1 - 1) ltac:(lia) ltac:(lia)). lia. }
    assert (k2 = 0) as -> by lia.
    rewrite Z.div_1_r, Z.add_0_r. simpl. unfold mk_finite.
    destruct m1 as [|p|p]; [done|done|lia].
Qed.

(** Mantissas stay below 2^53: true of every value Go can hold. *)
Definition small (x : f64) : Prop :=
  match x with S754_finite _ m _ => Zpos m < 2 ^ 53 | _ => True end.

Lemma round_aux_small s m e l : 0 <= m → small (binary_round_aux 53 1024 s m e l).
Proof.
  intros Hm. destruct (round_aux_spec s m e l Hm) as (k & m1 & Hr & ->).
  destruct Hr as [_ _ _ _ Hs]. unfold renorm.
  destruct (Z.eqb_spec m1 (2 ^ 53)); simpl fst; simpl snd; unfold mk_finite.
  - simpl. by destruct (_ <=? _).
  - destruct m1; [done| |done]. destruct (_ <=? _); [|done]. simpl in *. lia.
Qed.

Lemma small_fmul x y : small (fmul x y).
Proof. destruct x, y; try done. unfold fmul, SFmul. by apply round_aux_small. Qed.

Lemma small_fdiv x y : small (fdiv x y).
Proof.
  destruct x as [sx|sx| |sx mx ex], y as [sy|sy| |sy my ey]; try done.
  unfold fdiv, SFdiv. destruct (SFdiv_core_binary _ _ _ _ _ _) as [[q e] l] eqn:E.
  apply round_aux_small. unfold SFdiv_core_binary in E.
  set (m' := match _ with Z0 => _ | Zpos _ => _ | Zneg _ => _ end) in E.
  assert (Hm : 0 <= m').
  { unfold m'. destruct (_ - _); [lia| |lia]. by apply Z.shiftl_nonneg. }
  clearbody m'. pose proof (Z.div_pos m' (Zpos my) Hm ltac:(lia)) as Hq.
  unfold Z.div in Hq. destruct (Z.div_eucl m' (Zpos my)). by simplify_eq.
Qed.

Lemma iter_xO m k : Zpos (Pos.iter xO m k) = Zpos m * 2 ^ Zpos k.
Proof.
  rewrite <- Pos2Z.inj_pow, <- Pos2Z.inj_mul. f_equal. unfold Pos.pow.
  induction k as [|k IH] using Pos.peano_ind; [simpl; lia|].
  rewrite !Pos.iter_succ, IH. lia.
Qed.

(** Integers below 2^53 are represented exactly. *)
Lemma binary_round_int s p : Zpos p < 2 ^ 53 →
  ∃ m e, binary_round 53 1024 s p 0 = S754_finite s m e ∧
    -53 <= e <= 0 ∧ Zpos m = Zpos p * 2 ^ (- e) ∧ 2 ^ 52 <= Zpos m < 2 ^ 53.
Proof.
  intros Hp. unfold binary_round, fexp, emin, shl_align.
  pose proof (Zdigits2_bounds (Zpos p) ltac:(lia)) as Hd. simpl Zdigits2 in Hd.
  set (d := Zpos (digits2_pos p)) in *.
  assert (Hd53 : 1 <= d <= 53).
  { split; [lia|]. destruct (Z.le_gt_cases d 53) as [|Hgt]; [done|].
    pose proof (Z.pow_le_mono_r 2 53 (d - 1) ltac:(lia) ltac:(lia)). lia. }
  assert (Hex : ∀ m e, Zdigits2 (Zpos m) = 53 → -53 <= e <= 0 →
    binary_round_aux 53 1024 s (Zpos m) e loc_Exact = S754_finite s m e ∧
    2 ^ 52 <= Zpos m < 2 ^ 53).
  { intros m e Hm He. destruct (round_aux_spec s (Zpos m) e loc_Exact) as (k & m1 & [Hk Hke _ Hx _] & ->); [lia|].
    assert (k = 0) as -> by lia.
    rewrite Hx, Z.div_1_r, Z.add_0_r by (done || apply Z.mod_1_r).
    pose proof (Zdigits2_bounds (Zpos m) ltac:(lia)) as Hb.
    rewrite Hm in Hb.
    unfold renorm. destruct (Z.eqb_spec (Zpos m) (2 ^ 53)); [lia|]. simpl fst. simpl snd. unfold mk_finite.
    destruct (Z.leb_spec e 971); [done|lia]. }
  replace (Z.max (d + 0 - 53) (3 - 1024 - 53) - 0) with (d - 53) by lia.
  replace (Z.max (d + 0 - 53) (3 - 1024 - 53)) with (d - 53) by lia.
  destruct (d - 53) as [|q|q] eqn:Eq; [|lia|].
  - destruct (Hex p 0) as [-> ?]; [change (d = 53); lia|lia|]. exists p, 0. split; [done|].
    simpl. lia.
  - set (m := Pos.iter xO p q). assert (Zpos m = Zpos p * 2 ^ Zpos q) as Hm by apply iter_xO.
    assert (Zdigits2 (Zpos m) = 53) as H53.
    { simpl. rewrite digits2_log2, Hm, Z.log2_mul_pow2 by lia.
      pose proof (digits2_log2 p) as Hl. fold d in Hl. lia. }
    destruct (Hex m (Zneg q)) as [-> ?]; [done|lia|].
    exists m, (Zneg q). split; [done|]. split; [lia|]. by split.
Qed.

Lemma f64_of_Z_pos z : 0 < z < 2 ^ 53 →
  ∃ m e, f64_of_Z z = S754_finite false m e ∧
    -53 <= e <= 0 ∧ Zpos m = z * 2 ^ (- e) ∧ 2 ^ 52 <= Zpos m < 2 ^ 53.
Proof. destruct z as [|p|p]; try lia. intros ?. apply (binary_round_int false p). lia. Qed.

Lemma trunc_scaled s m e z : e <= 0 → Zpos m = z * 2 ^ (- e) →
  trunc (S754_finite s m e) = Some (if s then - z else z).
Proof.
  intros He Hm. simpl. unfold mag_div. do 2 f_equal.
  destruct (Z.leb_spec 0 e); simpl.
  - assert (e = 0) as -> by lia. simpl in *. destruct s; lia.
  - rewrite Hm, Z.div_mul by (by apply Z.pow_nonzero; lia). done.
Qed.

Lemma trunc_f64_of_Z z : - 2 ^ 53 <= z <= 2 ^ 53 → trunc (f64_of_Z z) = Some z.
Proof.
  intros Hz. destruct (decide (z = 2 ^ 53)) as [->|]; [done|].
  destruct (decide (z = - 2 ^ 53)) as [->|]; [done|].
  destruct z as [|p|p]; [done|..].
  - destruct (binary_round_int false p) as (m & e & H & He & Hm & _); [lia|].
    unfold f64_of_Z, binary_normalize. rewrite H. by apply (trunc_scaled false); [lia|].
  - destruct (binary_round_int true p) as (m & e & H & He & Hm & _); [lia|].
    unfold f64_of_Z, binary_normalize. rewrite H. by rewrite (trunc_scaled true m e (Zpos p)) by (done || lia).
Qed.

Lemma trunc_signed_int s mag : 0 <= mag <= 2 ^ 53 →
  trunc (signed_int s mag) = Some (if s then - mag else mag).
Proof.
  intros Hm. unfold signed_int. destruct (Z.eqb_spec mag 0) as [->|]; [by destruct s|].
  apply trunc_f64_of_Z. destruct s; lia.
Qed.

(** The least integer above a float, and that [int(math.Ceil(x))] is it. *)
Definition Zceil (x : f64) : option Z :=
  match x with
  | S754_zero _ => Some 0
  | S754_finite s m e =>
      let v := if s then - Zpos m else Zpos m in
      Some (if 0 <=? e then v * 2 ^ e else - ((- v) / 2 ^ (- e)))
  | _ => None
  end.
Definition Zfloor (x : f64) : option Z :=
  match x with
  | S754_zero _ => Some 0
  | S754_finite s m e =>
      let v := if s then - Zpos m else Zpos m in
      Some (if 0 <=? e then v * 2 ^ e else v / 2 ^ (- e))
  | _ => None
  end.

Lemma opp_div_up a b : 0 < b → - ((- a) / b) = a / b + (if a mod b =? 0 then 0 else 1).
Proof.
  intros Hb. destruct (Z.eqb_spec (a mod b) 0) as [E|E].
  - rewrite Z.div_opp_l_z; lia.
  - rewrite Z.div_opp_l_nz; lia.
Qed.

Lemma mag_div_le m e : Zpos m < 2 ^ 53 → e < 0 → 0 <= Zpos m / 2 ^ (- e) < 2 ^ 53.
Proof.
  intros Hm He. pose proof (Z.pow_pos_nonneg 2 (- e) ltac:(lia) ltac:(lia)).
  split; [by apply Z.div_pos|]. eapply Z.le_lt_trans; [|exact Hm].
  apply Z.div_le_upper_bound; nia.
Qed.

Lemma trunc_Ceil x : small x → trunc (Ceil x) = Zceil x.
Proof.
  destruct x as [[]|[]| |s m e]; try done. intros Hm. unfold Ceil, Zceil. simpl in Hm.
  destruct (Z.leb_spec 0 e).
  { unfold trunc. destruct (Z.leb_spec 0 e); [|lia]. by destruct s; f_equal; lia. }
  unfold mag_div. pose proof (mag_div_le m e Hm ltac:(lia)).
  pose proof (Z.pow_pos_nonneg 2 (- e) ltac:(lia) ltac:(lia)).
  destruct s; simpl negb; cbn [andb].
  - rewrite trunc_signed_int by lia. by rewrite Z.opp_involutive.
  - rewrite opp_div_up by lia.
    destruct (Z.eqb_spec (Zpos m mod 2 ^ (- e)) 0); cbn [negb andb];
      rewrite trunc_signed_int by lia; f_equal; lia.
Qed.

Lemma trunc_Floor x : small x → trunc (Floor x) = Zfloor x.
Proof.
  destruct x as [[]|[]| |s m e]; try done. intros Hm. unfold Floor, Zfloor. simpl in Hm.
  destruct (Z.leb_spec 0 e).
  { unfold trunc. destruct (Z.leb_spec 0 e); [|lia]. by destruct s; f_equal; lia. }
  unfold mag_div. pose proof (mag_div_le m e Hm ltac:(lia)).
  pose proof (Z.pow_pos_nonneg 2 (- e) ltac:(lia) ltac:(lia)).
  destruct s; cbn [andb].
  - rewrite <- (Z.opp_involutive (- Zpos m / 2 ^ (- e))), opp_div_up by lia.
    destruct (Z.eqb_spec (Zpos m mod 2 ^ (- e)) 0); cbn [negb];
      rewrite trunc_signed_int by lia; f_equal; lia.
  - rewrite trunc_signed_int by lia. done.
Qed.

(** ** Rounding does not cross an integer *)

(** A positive value at most [K] rounds to a value at most [K]. *)
Definition at_most (x : f64) (K : Z) : Prop :=
  match x with
  | S754_zero _ => 0 <= K
  | S754_finite false m e => 0 <= K ∧
      (if 0 <=? e then Zpos m * 2 ^ e <= K else Zpos m <= K * 2 ^ (- e))
  | _ => False
  end.

Lemma round_aux_at_most m e K : 0 < m → e <= 0 → 0 <= K < 2 ^ 53 →
  m <= K * 2 ^ (- e) → at_most (binary_round_aux 53 1024 false m e loc_Exact) K.
Proof.
  intros Hm He HK HmK.
  destruct (round_aux_spec false m e loc_Exact) as (k & m1 & [Hk Hke Hm1 Hx Hs] & ->); [lia|].
  pose proof (Z.pow_pos_nonneg 2 k ltac:(lia) ltac:(lia)) as Pk.
  pose proof (Zdigits2_bounds m Hm) as Hd.
  assert (He1 : e + k <= 0).
  { destruct (Z.le_gt_cases (e + k) 0) as [|Hgt]; [done|]. exfalso.
    assert (k = Zdigits2 m - 53) as Hkd by lia.
    assert (2 ^ 53 * 2 ^ (- e) <= m).
    { rewrite <- Z.pow_add_r by lia. etransitivity; [|apply Hd].
      apply Z.pow_le_mono_r; lia. }
    pose proof (Z.pow_pos_nonneg 2 (- e) ltac:(lia) ltac:(lia)). nia. }
  set (B := K * 2 ^ (- (e + k))).
  assert (HB : K * 2 ^ (- e) = B * 2 ^ k).
  { unfold B. rewrite <- Z.mul_assoc, <- Z.pow_add_r by lia. f_equal. f_equal. lia. }
  assert (Hm1B : m1 <= B).
  { pose proof (Z.div_mod m (2 ^ k) ltac:(lia)) as Hdm.
    pose proof (Z.mod_pos_bound m (2 ^ k) Pk).
    destruct (Z.le_gt_cases B (m / 2 ^ k)) as [Hge|]; [|lia].
    assert (m / 2 ^ k = B ∧ m mod 2 ^ k = 0) as [E1 E2] by nia.
    rewrite (Hx eq_refl E2). lia. }
  unfold renorm. destruct (Z.eqb_spec m1 (2 ^ 53)) as [E|E]; simpl fst; simpl snd.
  - unfold mk_finite. change (2 ^ 52) with (Zpos 4503599627370496).
    destruct (Z.leb_spec (e + k + 1) 971); [|lia]. unfold at_most. split; [lia|].
    destruct (Z.leb_spec 0 (e + k + 1)).
    + unfold B in Hm1B. rewrite E in Hm1B.
      destruct (decide (e + k = 0)) as [E0|]; [rewrite E0 in Hm1B; simpl in Hm1B; lia|].
      assert (e + k = -1) as E1 by lia. rewrite E1 in *. simpl in *. lia.
    + assert (2 ^ (- (e + k)) = 2 * 2 ^ (- (e + k + 1))) as E2.
      { rewrite <- Z.pow_succ_r by lia. f_equal. lia. }
      unfold B in Hm1B. rewrite E2 in Hm1B. nia.
  - unfold mk_finite. destruct m1 as [|p|p]; [simpl; lia| |simpl; lia].
    destruct (Z.leb_spec (e + k) 971); [|lia]. unfold at_most. split; [lia|].
    destruct (Z.leb_spec 0 (e + k)); [|done].
    assert (e + k = 0) as E0 by lia. unfold B in Hm1B. rewrite E0 in *. simpl in *. lia.
Qed.

Lemma at_most_floor_ceil x K : at_most x K →
  ∃ lo hi, Zfloor x = Some lo ∧ Zceil x = Some hi ∧
    0 <= lo ∧ lo <= hi ∧ hi <= K ∧ hi <= lo + 1.
Proof.
  destruct x as [s| | |[] m e]; try done; simpl; [intros; exists 0, 0; repeat split; lia|].
  intros [HK H]. do 2 eexists. split; [done|]. split; [done|].
  destruct (Z.leb_spec 0 e).
  - pose proof (Z.pow_pos_nonneg 2 e ltac:(lia) ltac:(lia)). nia.
  - pose proof (Z.pow_pos_nonneg 2 (- e) ltac:(lia) ltac:(lia)) as P.
    change (Zneg m) with (- Zpos m). rewrite opp_div_up by lia.
    pose proof (Z.div_mod (Zpos m) (2 ^ (- e)) ltac:(lia)).
    pose proof (Z.mod_pos_bound (Zpos m) (2 ^ (- e)) P).
    pose proof (Z.div_pos (Zpos m) (2 ^ (- e)) ltac:(lia) ltac:(lia)).
    destruct (Z.eqb_spec (Zpos m mod 2 ^ (- e)) 0); nia.
Qed.

(** Multiplying an exact integer by 1.0 gives it back. *)
Lemma fmul_one z : 0 < z < 2 ^ 53 →
  fmul (S754_finite false 4503599627370496 (-52)) (f64_of_Z z) = f64_of_Z z.
Proof.
  intros Hz. destruct (f64_of_Z_pos z Hz) as (m & e & -> & He & _ & Hm).
  unfold fmul, SFmul. rewrite Pos2Z.inj_mul.
  set (p := Zpos 4503599627370496 * Zpos m).
  destruct (round_aux_spec (xorb false false) p (-52 + e) loc_Exact)
    as (k & m1 & [Hk Hke _ Hx _] & ->); [lia|].
  assert (Zdigits2 p = 105) as Hd.
  { unfold p, Zdigits2. rewrite <- Pos2Z.inj_mul, digits2_log2, Pos2Z.inj_mul.
    change (Zpos 4503599627370496) with (2 ^ 52). rewrite Z.mul_comm, Z.log2_mul_pow2 by lia.
    rewrite (Z.log2_unique (Zpos m) 52) by (simpl; lia). done. }
  assert (k = 52) as -> by lia.
  assert (p = Zpos m * 2 ^ 52) as Hp by (unfold p; lia).
  assert (m1 = Zpos m) as ->.
  { rewrite Hx, Hp, Z.div_mul by (done || by rewrite Hp, Z.mod_mul). done. }
  unfold renorm. destruct (Z.eqb_spec (Zpos m) (2 ^ 53)); [lia|].
  replace (-52 + e + 52) with e by lia. simpl fst. simpl snd. unfold mk_finite.
  destruct (Z.leb_spec e 971); [done|lia].
Qed.

(** ** A fraction of an integer

    [q * n] for a fraction [0 <= q <= 1] held in a float lies between 0 and [n]. *)
Definition fraction (q : f64) : bool :=
  match q with
  | S754_zero false => true
  | S754_finite false m e => (e <? 0) && (Zpos m <=? 2 ^ (- e))
  | _ => false
  end.

Lemma fmul_fraction q n : fraction q = true → 0 <= n < 2 ^ 53 →
  at_most (fmul q (f64_of_Z n)) n ∧ small (fmul q (f64_of_Z n)).
Proof.
  intros Hq Hn. destruct (decide (n = 0)) as [->|].
  { by destruct q as [[]| | |[]]. }
  destruct (f64_of_Z_pos n) as (m & e & -> & He & Hm & _); [lia|].
  destruct q as [[]| | |[] mq eq]; try done; [simpl; split; [lia|done]|].
  simpl in Hq. apply andb_true_iff in Hq as [He0%Z.ltb_lt Hmq%Z.leb_le].
  unfold fmul, SFmul. split; [|by apply round_aux_small].
  apply round_aux_at_most; [lia..|].
  rewrite Pos2Z.inj_mul, Hm.
  replace (- (eq + e)) with (- eq + - e) by lia. rewrite Z.pow_add_r by lia.
  pose proof (Z.pow_pos_nonneg 2 (- e) ltac:(lia) ltac:(lia)). nia.
Qed.

(** ** Conversions in range do not depend on the implementation *)
Section ConversionFacts.
Context `{GoImpl}.

Lemma to_int_trunc x z : trunc x = Some z → int64_range z → to_int x = z.
Proof.
  unfold to_int, int64_range. intros -> Hz.
  rewrite (proj2 (Z.leb_le _ _) (proj1 Hz)), (proj2 (Z.leb_le _ _) (proj2 Hz)). done.
Qed.

Lemma to_int32_trunc x z : trunc x = Some z → int32_range z → to_int32 x = z.
Proof.
  unfold to_int32, int32_range. intros -> Hz.
  rewrite (proj2 (Z.leb_le _ _) (proj1 Hz)), (proj2 (Z.leb_le _ _) (proj2 Hz)). done.
Qed.

Lemma to_int_f64_of_Z z : 0 <= z < 2 ^ 53 →
  to_int (Floor (f64_of_Z z)) = z ∧ to_int (Ceil (f64_of_Z z)) = z.
Proof.
  intros Hz. destruct (decide (z = 0)) as [->|]; [done|].
  destruct (f64_of_Z_pos z) as (m & e & -> & He & Hm & Hs); [lia|].
  split; (apply to_int_trunc; [|unfold int64_range; lia]).
  - rewrite trunc_Floor by (simpl; lia). simpl. f_equal.
    destruct (Z.leb_spec 0 e); [assert (e = 0) as -> by lia; simpl in *; lia|].
    rewrite Hm, Z.div_mul; [done|by apply Z.pow_nonzero; lia].
  - rewrite trunc_Ceil by (simpl; lia). unfold Zceil. f_equal.
    destruct (Z.leb_spec 0 e); [assert (e = 0) as -> by lia; simpl in *; lia|].
    rewrite Hm, <- Z.mul_opp_l, Z.div_mul; [lia|by apply Z.pow_nonzero; lia].
Qed.
End ConversionFacts.
