(* ===== verification/Calculator.v ===== *)
(** * The rightsizing calculator, internal/calculator/calculator.go

    The percentile of a sample list and the analysis that turns utilisation
    metrics and policy thresholds into a recommendation.  Floats are binary64
    ([GoFloat]); [int32] arithmetic wraps.  On architectures where the Go
    compiler may fuse a multiplication and an addition (arm64, ppc64, s390x) the
    interpolation can differ in its last bit; this is the unfused semantics. *)
From S2P Require Import Prelude GoFloat GoFloatFacts.
From stdpp Require Import sorting.
Local Open Scope Z_scope.

(** ** Data *)

Inductive Direction : Type := Downsize | Upsize.
#[export] Instance Direction_eq_dec : EqDecision Direction.
Proof. solve_decision. Defined.

Definition string_of_Direction (d : Direction) : string :=
  match d with Downsize => "downsize" | Upsize => "upsize" end.

Record AnalysisInput : Type := {
  ai_CurrentCPUCores : Z;
  ai_CurrentMemoryGiB : Z;
  ai_CPUP95Percent : f64;
  ai_MemoryP95Percent : f64;
  ai_CPUMaxPercent : f64;
  ai_MemoryMaxPercent : f64;
  ai_HeadroomPercent : Z;
  ai_MinCPUSavings : Z;
  ai_MinMemorySavingsGiB : Z;
  ai_UpsizeThresholdPct : Z;
  ai_LookbackDays : Z
}.

Record AnalysisResult : Type := {
  ar_Direction : Direction;
  ar_RecommendedCPUCores : Z;
  ar_RecommendedMemoryGiB : Z;
  ar_CPUSavings : Z;
  ar_MemorySavings : Z;
  ar_Reason : string
}.

(** ** Sorting, [sort.Float64s]: ascending, NaN before the other values.  The
    library's order is total up to the sign of zero, so a merge sort gives the
    list Go's pattern-defeating quicksort gives, up to that sign. *)
Definition float_less (a b : f64) : bool := fltb a b || (is_nan a && negb (is_nan b)).
Definition sort_le (a b : f64) : Prop := float_less b a = false.
#[export] Instance sort_le_dec : RelDecision sort_le.
Proof. intros a b. unfold sort_le. apply _. Defined.

Definition Float64s (l : list f64) : list f64 := merge_sort sort_le l.

(** [s[i]] for an [int] index: [None] is the run-time panic. *)
Definition index (s : list f64) (i : Z) : option f64 :=
  if 0 <=? i then s !! Z.to_nat i else None.

Definition len (s : list f64) : Z := Z.of_nat (length s).

Definition f0 : f64 := S754_zero false.
Definition f1 : f64 := f64_of_Z 1.
Definition f10 : f64 := f64_of_Z 10.
Definition f100 : f64 := f64_of_Z 100.
Definition f0_70 : f64 := f64_ratio 7 10.

Section Calculator.
Context `{GoImpl}.

(** ** ComputePercentile; [None] is an index-out-of-range panic *)
Definition percentile_rank (n percentile : Z) : f64 :=
  fmul (fdiv (f64_of_Z percentile) f100) (f64_of_Z (n - 1)).

Definition ComputePercentile (samples : list f64) (percentile : Z) : option f64 :=
  if len samples =? 0 then Some f0 else
  let sorted := Float64s samples in
  if len sorted =? 1 then index sorted 0 else
  let rank := percentile_rank (len sorted) percentile in
  let lower := to_int (Floor rank) in
  let upper := to_int (Ceil rank) in
  if lower =? upper then index sorted lower else
  let fraction := fsub rank (f64_of_Z lower) in
  match index sorted lower, index sorted upper with
  | Some sl, Some su => Some (fadd sl (fmul fraction (fsub su sl)))
  | _, _ => None
  end.

(** ** Downsizing *)
Definition analyzeDownsize (input : AnalysisInput) : option AnalysisResult :=
  let headroomMultiplier := fadd f1 (fdiv (f64_of_Z (ai_HeadroomPercent input)) f100) in
  let cpuUsageCores :=
    fdiv (fmul (f64_of_Z (ai_CurrentCPUCores input)) (ai_CPUP95Percent input)) f100 in
  let recommendedCPU := to_int32 (Ceil (fmul cpuUsageCores headroomMultiplier)) in
  let memUsageGiB :=
    fdiv (fmul (f64_of_Z (ai_CurrentMemoryGiB input)) (ai_MemoryP95Percent input)) f100 in
  let recommendedMem := to_int32 (Ceil (fmul memUsageGiB headroomMultiplier)) in
  let recommendedCPU := if recommendedCPU <? 1 then 1 else recommendedCPU in
  let recommendedMem := if recommendedMem <? 1 then 1 else recommendedMem in
  let recommendedCPU := if recommendedCPU >=? ai_CurrentCPUCores input
                        then ai_CurrentCPUCores input else recommendedCPU in
  let recommendedMem := if recommendedMem >=? ai_CurrentMemoryGiB input
                        then ai_CurrentMemoryGiB input else recommendedMem in
  let cpuSavings := wrap32 (ai_CurrentCPUCores input - recommendedCPU) in
  let memSavings := wrap32 (ai_CurrentMemoryGiB input - recommendedMem) in
  if (cpuSavings <? ai_MinCPUSavings input) || (memSavings <? ai_MinMemorySavingsGiB input)
  then None
  else Some {|
    ar_Direction := Downsize;
    ar_RecommendedCPUCores := recommendedCPU;
    ar_RecommendedMemoryGiB := recommendedMem;
    ar_CPUSavings := cpuSavings;
    ar_MemorySavings := memSavings;
    ar_Reason := "CPU only " +:+ fmt_1f (ai_CPUP95Percent input) +:+
      "% utilized (P95 over " +:+ itoa (ai_LookbackDays input) +:+ "d), can save " +:+
      itoa cpuSavings +:+ " cores"
  |}.

(** ** Upsizing *)
Definition upsizeReason (input : AnalysisInput) : string :=
  let threshold := f64_of_Z (ai_UpsizeThresholdPct input) in
  let cpuSpike := fgeb (ai_CPUMaxPercent input) threshold
                  && fltb (ai_CPUP95Percent input) threshold in
  let memSpike := fgeb (ai_MemoryMaxPercent input) threshold
                  && fltb (ai_MemoryP95Percent input) threshold in
  let days := itoa (ai_LookbackDays input) in
  if cpuSpike && memSpike then
    "CPU spikes to " +:+ fmt_1f (ai_CPUMaxPercent input) +:+
    "% and memory spikes to " +:+ fmt_1f (ai_MemoryMaxPercent input) +:+
    "% (sustained P95: " +:+ fmt_1f (ai_CPUP95Percent input) +:+ "%/" +:+
    fmt_1f (ai_MemoryP95Percent input) +:+ "% over " +:+ days +:+ "d)"
  else if cpuSpike then
    "CPU spikes to " +:+ fmt_1f (ai_CPUMaxPercent input) +:+
    "% (sustained P95: " +:+ fmt_1f (ai_CPUP95Percent input) +:+ "% over " +:+ days +:+ "d)"
  else if memSpike then
    "Memory spikes to " +:+ fmt_1f (ai_MemoryMaxPercent input) +:+
    "% (sustained P95: " +:+ fmt_1f (ai_MemoryP95Percent input) +:+ "% over " +:+ days +:+ "d)"
  else
    "CPU at " +:+ fmt_1f (ai_CPUP95Percent input) +:+
    "% sustained utilization (P95 over " +:+ days +:+ "d)".

Definition analyzeUpsize (input : AnalysisInput) : option AnalysisResult :=
  let cpuPct := Max (ai_CPUP95Percent input) (ai_CPUMaxPercent input) in
  let memPct := Max (ai_MemoryP95Percent input) (ai_MemoryMaxPercent input) in
  let cpuUsageCores := fdiv (fmul (f64_of_Z (ai_CurrentCPUCores input)) cpuPct) f100 in
  let memUsageGiB := fdiv (fmul (f64_of_Z (ai_CurrentMemoryGiB input)) memPct) f100 in
  let recommendedCPU := to_int32 (Ceil (fdiv cpuUsageCores f0_70)) in
  let recommendedMem := to_int32 (Ceil (fdiv memUsageGiB f0_70)) in
  let recommendedCPU := if recommendedCPU <=? ai_CurrentCPUCores input
                        then ai_CurrentCPUCores input else recommendedCPU in
  let recommendedMem := if recommendedMem <=? ai_CurrentMemoryGiB input
                        then ai_CurrentMemoryGiB input else recommendedMem in
  let cpuIncrease := wrap32 (recommendedCPU - ai_CurrentCPUCores input) in
  let memIncrease := wrap32 (recommendedMem - ai_CurrentMemoryGiB input) in
  if (cpuIncrease <? ai_MinCPUSavings input) && (memIncrease <? ai_MinMemorySavingsGiB input)
  then None
  else Some {|
    ar_Direction := Upsize;
    ar_RecommendedCPUCores := recommendedCPU;
    ar_RecommendedMemoryGiB := recommendedMem;
    ar_CPUSavings := wrap32 (- cpuIncrease);
    ar_MemorySavings := wrap32 (- memIncrease);
    ar_Reason := upsizeReason input
  |}.

(** ** Analyze: upsizing is considered first *)
Definition Analyze (input : AnalysisInput) : option AnalysisResult :=
  let threshold := f64_of_Z (ai_UpsizeThresholdPct input) in
  if fgeb (ai_CPUP95Percent input) threshold || fgeb (ai_MemoryP95Percent input) threshold
     || fgeb (ai_CPUMaxPercent input) threshold || fgeb (ai_MemoryMaxPercent input) threshold
  then analyzeUpsize input
  else analyzeDownsize input.
End Calculator.

(** * Properties *)

(** ** Sorting *)

Lemma sort_le_nan_l a b : is_nan a = true → sort_le a b.
Proof. intros. destruct a; try done. unfold sort_le, float_less. by destruct b as [|[]| |[]]. Qed.

Lemma sort_le_num a b : is_nan a = false → is_nan b = false → sort_le a b ↔ fleb a b = true.
Proof.
  intros Ha Hb. unfold sort_le, float_less. rewrite Hb, orb_false_r, fltb_not_fleb by done.
  destruct (fleb a b); naive_solver.
Qed.

#[export] Instance sort_le_total : Total sort_le.
Proof.
  intros a b.
  destruct (is_nan a) eqn:Ha; [left; by apply sort_le_nan_l|].
  destruct (is_nan b) eqn:Hb; [right; by apply sort_le_nan_l|].
  rewrite !sort_le_num by done. by apply fleb_total.
Qed.

Lemma sort_le_nan_r a b : is_nan b = true → sort_le a b → is_nan a = true.
Proof.
  intros Hb. destruct b; try done. unfold sort_le, float_less. by destruct a as [|[]| |[]]; simpl.
Qed.

#[export] Instance sort_le_trans : Transitive sort_le.
Proof.
  intros a b c Hab Hbc.
  destruct (is_nan a) eqn:Ha; [by apply sort_le_nan_l|].
  destruct (is_nan b) eqn:Hb; [pose proof (sort_le_nan_r a b Hb Hab); congruence|].
  destruct (is_nan c) eqn:Hc; [pose proof (sort_le_nan_r b c Hc Hbc); congruence|].
  rewrite sort_le_num in Hab, Hbc |- * by done. by apply (fleb_trans a b c).
Qed.

Lemma Float64s_perm l : Float64s l ≡ₚ l.
Proof. apply merge_sort_Permutation. Qed.

Lemma Float64s_sorted l : StronglySorted sort_le (Float64s l).
Proof. by apply (StronglySorted_merge_sort sort_le). Qed.

Lemma Float64s_length l : length (Float64s l) = length l.
Proof. by rewrite Float64s_perm. Qed.

Lemma sort_le_refl a : sort_le a a.
Proof. by destruct (total sort_le a a). Qed.

Lemma sorted_lookup_le l i j a b : StronglySorted sort_le l → (i <= j)%nat →
  l !! i = Some a → l !! j = Some b → sort_le a b.
Proof.
  intros Hs. revert i j. induction Hs as [|x l Hs IH Hx]; intros i j Hij Ha Hb; [done|].
  destruct i as [|i], j as [|j]; simpl in *; simplify_eq; try lia.
  - apply sort_le_refl.
  - by eapply Forall_lookup_1.
  - eapply IH; [|done..]. lia.
Qed.

Lemma Float64s_lookup_le l i j a b : (i <= j)%nat →
  Float64s l !! i = Some a → Float64s l !! j = Some b → sort_le a b.
Proof. apply sorted_lookup_le, Float64s_sorted. Qed.

(** Two values equal in the order are equal, the sign of zero apart. *)
Lemma sort_le_antisym a b : a ≠ S754_zero true → b ≠ S754_zero true →
  sort_le a b → sort_le b a → a = b.
Proof.
  intros Za Zb Hab Hba.
  destruct (is_nan a) eqn:Ha.
  { apply sort_le_nan_r in Hba; [|done]. by destruct a, b. }
  destruct (is_nan b) eqn:Hb; [pose proof (sort_le_nan_r a b Hb Hab); congruence|].
  rewrite sort_le_num, fleb_lex in Hab, Hba by done.
  rewrite lex3_antisym in Hba.
  assert (lex3 (fkey a) (fkey b) = Eq) as E%lex3_eq by (by destruct (lex3 _ _)).
  destruct a as [[]|[]| |[] ma ea], b as [[]|[]| |[] mb eb]; try done; simpl in E;
    try (injection E; intros; f_equal; lia).
Qed.

(** ** ComputePercentile *)
Section PercentileFacts.
Context `{GoImpl}.

Lemma percentile_fraction p : 0 <= p <= 100 →
  fraction (fdiv (f64_of_Z p) f100) = true.
Proof.
  intros Hp.
  assert (forallb (λ k, fraction (fdiv (f64_of_Z k) f100)) (seqZ 0 101) = true) as Hall
    by by vm_compute.
  rewrite forallb_forall in Hall. apply Hall, list_elem_of_In, elem_of_seqZ. lia.
Qed.

(** The two ranks around the interpolation point are neighbouring indices. *)
Lemma rank_bounds n p : 0 <= p <= 100 → 1 <= n < 2 ^ 53 →
  ∃ lo hi, to_int (Floor (percentile_rank n p)) = lo ∧
    to_int (Ceil (percentile_rank n p)) = hi ∧
    0 <= lo ∧ lo <= hi ∧ hi <= n - 1 ∧ hi <= lo + 1.
Proof.
  intros Hp Hn. unfold percentile_rank.
  destruct (fmul_fraction (fdiv (f64_of_Z p) f100) (n - 1)) as [Hm Hs];
    [by apply percentile_fraction|lia|].
  apply at_most_floor_ceil in Hm as (lo & hi & Hlo & Hhi & ?).
  exists lo, hi. split; [|split; [|lia]];
    (apply to_int_trunc; [rewrite ?trunc_Floor, ?trunc_Ceil; done|unfold int64_range; lia]).
Qed.

Lemma index_Some l i : 0 <= i < len l → ∃ x, index l i = Some x ∧ l !! Z.to_nat i = Some x.
Proof.
  unfold index, len. intros Hi. destruct (Z.leb_spec 0 i); [|lia].
  destruct (lookup_lt_is_Some_2 l (Z.to_nat i)) as [x Hx]; [lia|]. by exists x.
Qed.

Lemma percentile_cases l p : 0 <= p <= 100 → 2 <= len l < 2 ^ 53 →
  ∃ lo hi a b, 0 <= lo ∧ lo <= hi ∧ hi <= len l - 1 ∧ hi <= lo + 1 ∧
    to_int (Floor (percentile_rank (len l) p)) = lo ∧
    to_int (Ceil (percentile_rank (len l) p)) = hi ∧
    Float64s l !! Z.to_nat lo = Some a ∧ Float64s l !! Z.to_nat hi = Some b ∧
    ComputePercentile l p = Some
      (if lo =? hi then a
       else fadd a (fmul (fsub (percentile_rank (len l) p) (f64_of_Z lo)) (fsub b a))).
Proof.
  intros Hp Hl. assert (len (Float64s l) = len l) as Hlen.
  { unfold len. by rewrite Float64s_length. }
  destruct (rank_bounds (len l) p) as (lo & hi & Hlo & Hhi & ?); [done|lia|].
  destruct (index_Some (Float64s l) lo) as (a & Ha & Ha'); [lia|].
  destruct (index_Some (Float64s l) hi) as (b & Hb & Hb'); [lia|].
  exists lo, hi, a, b. repeat (split; [done || lia|]).
  unfold ComputePercentile. rewrite Hlen, Hlo, Hhi, Ha, Hb.
  destruct (Z.eqb_spec (len l) 0); [lia|]. destruct (Z.eqb_spec (len l) 1); [lia|].
  by destruct (lo =? hi).
Qed.

Lemma percentile_short l p : len l < 2 →
  ComputePercentile l p = Some (default f0 (head l)).
Proof.
  unfold len. destruct l as [|x [|y l]]; [done|done|simpl; lia].
Qed.
End PercentileFacts.

(** ** The analysis *)

Lemma savings_exact cur rec : 0 <= cur <= 2147483647 → 0 <= rec <= 2147483647 →
  wrap32 (cur - rec) = cur - rec ∧ wrap32 (- wrap32 (rec - cur)) = cur - rec.
Proof.
  intros. rewrite (wrap32_id (cur - rec)), (wrap32_id (rec - cur)), wrap32_id;
    unfold int32_range; lia.
Qed.

(** The clamping of a downsize target. *)
Lemma clamp_down c cur : 0 <= cur →
  let r := if c <? 1 then 1 else c in
  let r := if r >=? cur then cur else r in
  0 <= r <= cur ∧ (1 <= cur → 1 <= r) ∧ (r = cur ∨ c <= r).
Proof.
  intros Hc. simpl. destruct (Z.ltb_spec c 1);
    rewrite Z.geb_leb; [destruct (Z.leb_spec cur 1)|destruct (Z.leb_spec cur c)]; lia.
Qed.

Lemma clamp_up c cur :
  let r := if c <=? cur then cur else c in cur <= r ∧ c <= r ∧ (r = cur ∨ r = c).
Proof. simpl. destruct (Z.leb_spec c cur); lia. Qed.

(** VM sizes are non-negative int32 values. *)
Definition sizes_ok (i : AnalysisInput) : Prop :=
  0 <= ai_CurrentCPUCores i <= 2147483647 ∧ 0 <= ai_CurrentMemoryGiB i <= 2147483647.

Definition wants_upsize (i : AnalysisInput) : bool :=
  let t := f64_of_Z (ai_UpsizeThresholdPct i) in
  fgeb (ai_CPUP95Percent i) t || fgeb (ai_MemoryP95Percent i) t
  || fgeb (ai_CPUMaxPercent i) t || fgeb (ai_MemoryMaxPercent i) t.

(** What a caller may rely on in a result. *)
Record sound_result (i : AnalysisInput) (r : AnalysisResult) : Prop := {
  sr_cpu_savings : ar_CPUSavings r = ai_CurrentCPUCores i - ar_RecommendedCPUCores r;
  sr_mem_savings : ar_MemorySavings r = ai_CurrentMemoryGiB i - ar_RecommendedMemoryGiB r;
  sr_down : ar_Direction r = Downsize →
    0 <= ar_RecommendedCPUCores r <= ai_CurrentCPUCores i ∧
    0 <= ar_RecommendedMemoryGiB r <= ai_CurrentMemoryGiB i ∧
    (1 <= ai_CurrentCPUCores i → 1 <= ar_RecommendedCPUCores r) ∧
    (1 <= ai_CurrentMemoryGiB i → 1 <= ar_RecommendedMemoryGiB r) ∧
    ai_MinCPUSavings i <= ar_CPUSavings r ∧ ai_MinMemorySavingsGiB i <= ar_MemorySavings r;
  sr_up : ar_Direction r = Upsize →
    ai_CurrentCPUCores i <= ar_RecommendedCPUCores r <= 2147483647 ∧
    ai_CurrentMemoryGiB i <= ar_RecommendedMemoryGiB r <= 2147483647 ∧
    (ai_MinCPUSavings i <= - ar_CPUSavings r ∨ ai_MinMemorySavingsGiB i <= - ar_MemorySavings r)
}.

Section AnalyzeFacts.
Context `{GoImpl}.

Lemma analyzeDownsize_sound i r : sizes_ok i → analyzeDownsize i = Some r →
  ar_Direction r = Downsize ∧ sound_result i r.
Proof.
  intros [Hc Hm]. unfold analyzeDownsize.
  set (cc := to_int32 (Ceil (fmul _ _))). set (cm := to_int32 (Ceil (fmul _ _))).
  pose proof (clamp_down cc (ai_CurrentCPUCores i) ltac:(lia)) as Hcc. simpl in Hcc.
  pose proof (clamp_down cm (ai_CurrentMemoryGiB i) ltac:(lia)) as Hcm. simpl in Hcm.
  set (rc := if _ >=? ai_CurrentCPUCores i then _ else _) in *.
  set (rm := if _ >=? ai_CurrentMemoryGiB i then _ else _) in *.
  clearbody rc rm.
  destruct (savings_exact (ai_CurrentCPUCores i) rc) as [-> _]; [lia..|].
  destruct (savings_exact (ai_CurrentMemoryGiB i) rm) as [-> _]; [lia..|].
  destruct (Z.ltb_spec (ai_CurrentCPUCores i - rc) (ai_MinCPUSavings i)); [done|].
  destruct (Z.ltb_spec (ai_CurrentMemoryGiB i - rm) (ai_MinMemorySavingsGiB i)); [done|].
  intros [= <-]. split; [done|]. split; simpl; [done..| |done]. intros _. lia.
Qed.

Lemma analyzeUpsize_sound i r : sizes_ok i → analyzeUpsize i = Some r →
  ar_Direction r = Upsize ∧ sound_result i r.
Proof.
  intros [Hc Hm]. unfold analyzeUpsize.
  set (xc := fdiv _ f0_70). set (xm := fdiv _ f0_70).
  pose proof (to_int32_range (Ceil xc)) as Rc. pose proof (to_int32_range (Ceil xm)) as Rm.
  pose proof (clamp_up (to_int32 (Ceil xc)) (ai_CurrentCPUCores i)) as Hcc. simpl in Hcc.
  pose proof (clamp_up (to_int32 (Ceil xm)) (ai_CurrentMemoryGiB i)) as Hcm. simpl in Hcm.
  set (rc := if _ <=? ai_CurrentCPUCores i then _ else _) in *.
  set (rm := if _ <=? ai_CurrentMemoryGiB i then _ else _) in *.
  unfold int32_range in *. clearbody rc rm.
  destruct (savings_exact (ai_CurrentCPUCores i) rc) as [_ ->]; [lia..|].
  destruct (savings_exact (ai_CurrentMemoryGiB i) rm) as [_ ->]; [lia..|].
  rewrite (wrap32_id (rc - _)), (wrap32_id (rm - _)) by (unfold int32_range; lia).
  destruct (_ && _) eqn:E; [done|]. apply andb_false_iff in E.
  rewrite !Z.ltb_ge in E.
  intros [= <-]. split; [done|]. split; simpl; [done..|]. intros _. lia.
Qed.

Lemma Analyze_cases i : Analyze i = if wants_upsize i then analyzeUpsize i else analyzeDownsize i.
Proof. done. Qed.

(** C16: whatever the metrics (NaN and infinities included) and whatever the
    implementation does with out-of-range float conversions, a recommendation
    of [Analyze] for sizes from zero up has savings equal to current minus
    recommended with no int32 overflow; a downsize never exceeds the current size
    and meets both minimum savings, and keeps at least one core of a VM that has
    one and at least one GiB of a VM that has one (a VM counted at zero is
    recommended zero); an upsize never shrinks a resource and raises one of them
    by its minimum. *)
Theorem Analyze_sound i r : sizes_ok i → Analyze i = Some r → sound_result i r.
Proof.
  intros Hs. rewrite Analyze_cases. destruct (wants_upsize i); intros Hr.
  - by apply analyzeUpsize_sound in Hr as [_ ?].
  - by apply analyzeDownsize_sound in Hr as [_ ?].
Qed.

(** The direction of a recommendation is decided by the thresholds alone,
    upsizing first: it is an upsize exactly when one of the four utilisation
    figures reaches the upsize threshold. *)
Theorem Analyze_direction i r : sizes_ok i → Analyze i = Some r →
  ar_Direction r = Upsize ↔ wants_upsize i = true.
Proof.
  intros Hs. rewrite Analyze_cases. destruct (wants_upsize i); intros Hr.
  - by apply analyzeUpsize_sound in Hr as [-> _].
  - by apply analyzeDownsize_sound in Hr as [-> _].
Qed.

(** The demand, in cores or GiB, that each analysis sizes for. *)
Definition downsize_demand (i : AnalysisInput) (current : Z) (pct : f64) : f64 :=
  fmul (fdiv (fmul (f64_of_Z current) pct) f100)
       (fadd f1 (fdiv (f64_of_Z (ai_HeadroomPercent i)) f100)).
Definition upsize_demand (current : Z) (p95 max : f64) : f64 :=
  fdiv (fdiv (fmul (f64_of_Z current) (Max p95 max)) f100) f0_70.

(** [d] is covered by [rec]: its ceiling, when it is an int32, is at most [rec]. *)
Definition covers (rec : Z) (d : f64) : Prop :=
  ∀ z, Zceil d = Some z → int32_range z → z <= rec.

Lemma to_int32_covers d : small d → covers (to_int32 (Ceil d)) d.
Proof.
  intros Hs z Hz Hr. rewrite (to_int32_trunc _ z); [done| |done].
  by rewrite trunc_Ceil.
Qed.

(** C17: a recommendation covers the demand it was computed for, as far as the
    demand, rounded up, is an int32 (of a demand beyond that nothing is promised,
    and on amd64 a downsize is to one core then).  With that proviso, a downsize
    keeps the P95 usage plus headroom within the recommended size (or leaves the
    size as it is), and an upsize leaves the worse of P95 and maximum usage at no
    more than 70% of it. *)
Theorem Analyze_covers_demand i r : sizes_ok i → Analyze i = Some r →
  match ar_Direction r with
  | Downsize =>
      (ar_RecommendedCPUCores r = ai_CurrentCPUCores i ∨
       covers (ar_RecommendedCPUCores r)
         (downsize_demand i (ai_CurrentCPUCores i) (ai_CPUP95Percent i))) ∧
      (ar_RecommendedMemoryGiB r = ai_CurrentMemoryGiB i ∨
       covers (ar_RecommendedMemoryGiB r)
         (downsize_demand i (ai_CurrentMemoryGiB i) (ai_MemoryP95Percent i)))
  | Upsize =>
      covers (ar_RecommendedCPUCores r)
        (upsize_demand (ai_CurrentCPUCores i) (ai_CPUP95Percent i) (ai_CPUMaxPercent i)) ∧
      covers (ar_RecommendedMemoryGiB r)
        (upsize_demand (ai_CurrentMemoryGiB i) (ai_MemoryP95Percent i) (ai_MemoryMaxPercent i))
  end.
Proof.
  intros [Hc Hm]. rewrite Analyze_cases. destruct (wants_upsize i).
  - unfold analyzeUpsize. fold (upsize_demand (ai_CurrentCPUCores i) (ai_CPUP95Percent i) (ai_CPUMaxPercent i)).
    fold (upsize_demand (ai_CurrentMemoryGiB i) (ai_MemoryP95Percent i) (ai_MemoryMaxPercent i)).
    destruct (_ && _); [done|]. intros [= <-]. simpl.
    split;
      intros z Hz Hr; (etransitivity; [by eapply to_int32_covers; [apply small_fdiv|..]|]);
      apply clamp_up.
  - unfold analyzeDownsize.
    fold (downsize_demand i (ai_CurrentCPUCores i) (ai_CPUP95Percent i)).
    fold (downsize_demand i (ai_CurrentMemoryGiB i) (ai_MemoryP95Percent i)).
    destruct (_ || _); [done|]. intros [= <-]. simpl.
    split.
    + destruct (clamp_down (to_int32 (Ceil (downsize_demand i (ai_CurrentCPUCores i) (ai_CPUP95Percent i))))
        (ai_CurrentCPUCores i)) as (_ & _ & [H0|H0]); [lia|by left|].
      right. intros z Hz Hr. etransitivity; [|exact H0].
      by eapply to_int32_covers; [apply small_fmul|..].
    + destruct (clamp_down (to_int32 (Ceil (downsize_demand i (ai_CurrentMemoryGiB i) (ai_MemoryP95Percent i))))
        (ai_CurrentMemoryGiB i)) as (_ & _ & [H0|H0]); [lia|by left|].
      right. intros z Hz Hr. etransitivity; [|exact H0].
      by eapply to_int32_covers; [apply small_fmul|..].
Qed.
End AnalyzeFacts.

Section PercentileTheorems.
Context `{GoImpl}.

(** [ComputePercentile] never indexes out of range: for a percentile from
    0 to 100 it returns a value, 0 for no samples, and otherwise the linear
    interpolation between two samples at neighbouring ranks of the sorted list
    around [percentile/100 * (n-1)]. *)
Theorem ComputePercentile_no_panic l p : 0 <= p <= 100 → len l < 2 ^ 53 →
  ComputePercentile l p = Some (default f0 (head l)) ∧ len l < 2 ∨
  ∃ lo hi a b, 0 <= lo ∧ lo <= hi ∧ hi <= len l - 1 ∧ hi <= lo + 1 ∧
    Zfloor (percentile_rank (len l) p) = Some lo ∧
    Zceil (percentile_rank (len l) p) = Some hi ∧
    Float64s l !! Z.to_nat lo = Some a ∧ Float64s l !! Z.to_nat hi = Some b ∧
    ComputePercentile l p = Some
      (if lo =? hi then a
       else fadd a (fmul (fsub (percentile_rank (len l) p) (f64_of_Z lo)) (fsub b a))).
Proof.
  intros Hp Hl. destruct (Z.lt_ge_cases (len l) 2); [left; split; [by apply percentile_short|done]|].
  right. destruct (percentile_cases l p) as (lo & hi & a & b & ? & ? & ? & ? & Hlo & Hhi & ? & ? & ?);
    [done|lia|].
  exists lo, hi, a, b. repeat (split; [done|]).
  destruct (fmul_fraction (fdiv (f64_of_Z p) f100) (len l - 1)) as [Hm Hs];
    [by apply percentile_fraction|lia|].
  apply at_most_floor_ceil in Hm as (lo' & hi' & Hlo' & Hhi' & ?).
  fold (percentile_rank (len l) p) in *.
  rewrite (to_int_trunc _ lo') in Hlo by (rewrite ?trunc_Floor; done || (unfold int64_range; lia)).
  rewrite (to_int_trunc _ hi') in Hhi by (rewrite ?trunc_Ceil; done || (unfold int64_range; lia)).
  by subst.
Qed.

(** C40: the percentile depends on the samples as a multiset, not on their
    order (samples without negative zeros, whose sign the order ignores). *)
Theorem ComputePercentile_order_irrelevant l1 l2 p :
  l1 ≡ₚ l2 → Forall (λ x, x ≠ S754_zero true) l1 →
  ComputePercentile l1 p = ComputePercentile l2 p.
Proof.
  intros Hperm Hz.
  assert (Float64s l1 = Float64s l2) as Hs.
  { apply (StronglySorted_unique_strong sort_le); [|apply Float64s_sorted..|].
    - intros x1 x2 H1 H2.
      rewrite Float64s_perm in H1. rewrite Float64s_perm, <- Hperm in H2.
      rewrite Forall_forall in Hz. apply sort_le_antisym; by apply Hz.
    - by rewrite !Float64s_perm. }
  unfold ComputePercentile. by rewrite Hs, (f_equal Z.of_nat (Permutation_length Hperm) : len l1 = len l2).
Qed.

(** The 0th percentile is the smallest sample and the 100th the largest. *)
Theorem ComputePercentile_extremes l : l ≠ [] → len l < 2 ^ 53 →
  ∃ lo hi, ComputePercentile l 0 = Some lo ∧ ComputePercentile l 100 = Some hi ∧
    lo ∈ l ∧ hi ∈ l ∧ ∀ x, x ∈ l → sort_le lo x ∧ sort_le x hi.
Proof.
  intros Hne Hl. destruct (Z.lt_ge_cases (len l) 2) as [Hs|Hs].
  { destruct l as [|x [|y l]]; [done| |unfold len in Hs; simpl in Hs; lia].
    exists x, x. split; [done|]. split; [done|]. split; [left|]. split; [left|].
    intros z ->%list_elem_of_singleton. split; apply sort_le_refl. }
  destruct (percentile_cases l 0) as (lo & hi & a & b & ? & ? & ? & ? & Hlo & Hhi & Ha & Hb & Hc); [lia..|].
  destruct (percentile_cases l 100) as (lo' & hi' & a' & b' & ? & ? & ? & ? & Hlo' & Hhi' & Ha' & Hb' & Hc'); [lia..|].
  assert (percentile_rank (len l) 0 = f0) as E0.
  { unfold percentile_rank. destruct (f64_of_Z_pos (len l - 1)) as (m & e & -> & _); [lia|done]. }
  assert (percentile_rank (len l) 100 = f64_of_Z (len l - 1)) as E1.
  { unfold percentile_rank. apply fmul_one. lia. }
  rewrite E0 in Hlo, Hhi. rewrite E1 in Hlo', Hhi'.
  change (to_int (Floor f0)) with 0 in Hlo. change (to_int (Ceil f0)) with 0 in Hhi. subst lo hi.
  assert (to_int (Floor (f64_of_Z (len l - 1))) = len l - 1 ∧
          to_int (Ceil (f64_of_Z (len l - 1))) = len l - 1) as [F1 F2]
    by (by apply to_int_f64_of_Z; lia).
  rewrite F1 in Hlo'. rewrite F2 in Hhi'. subst lo' hi'.
  rewrite Z.eqb_refl in Hc, Hc'.
  exists a, a'. split; [done|]. split; [done|].
  assert (∀ x, x ∈ l ↔ x ∈ Float64s l) as Hin by (intros; by rewrite Float64s_perm).
  setoid_rewrite Hin.
  split; [by eapply list_elem_of_lookup_2|]. split; [by eapply list_elem_of_lookup_2|].
  intros x [k Hk]%list_elem_of_lookup.
  pose proof (lookup_lt_Some _ _ _ Hk) as Hk'. rewrite Float64s_length in Hk'.
  split; (eapply Float64s_lookup_le; [|done..]); unfold len in *; lia.
Qed.
End PercentileTheorems.

(** Demands no int32 can hold: above its range, or NaN. *)
Definition beyond_int32 (d : f64) : Prop :=
  match Zceil d with Some z => 2147483647 < z | None => True end.

(** On amd64 the conversion of such a demand gives the least int32, and the
    clamp to one core follows: a VM whose usage plus headroom overflows int32, or
    whose P95 is NaN, is recommended a downsize to a single core. *)
Theorem Analyze_overflow_recommends_one i r : sizes_ok i → 1 <= ai_CurrentCPUCores i →
  @Analyze amd64 i = Some r → ar_Direction r = Downsize →
  beyond_int32 (downsize_demand i (ai_CurrentCPUCores i) (ai_CPUP95Percent i)) →
  ar_RecommendedCPUCores r = 1.
Proof.
  intros Hs Hc. rewrite Analyze_cases. destruct (wants_upsize i); intros Hr Hd Hb.
  { apply analyzeUpsize_sound in Hr as [? _]; [congruence|done]. }
  clear Hd. revert Hr. unfold analyzeDownsize.
  fold (downsize_demand i (ai_CurrentCPUCores i) (ai_CPUP95Percent i)).
  set (d := downsize_demand i (ai_CurrentCPUCores i) (ai_CPUP95Percent i)) in *.
  assert (to_int32 (Ceil d) = -2147483648) as ->.
  { unfold to_int32, beyond_int32 in *. rewrite trunc_Ceil by apply small_fmul.
    destruct (Zceil d) as [z|]; [|done].
    destruct (Z.leb_spec z 2147483647); [lia|]. by rewrite andb_false_r. }
  simpl. destruct (_ || _); [done|]. intros [= <-]. simpl.
  rewrite Z.geb_leb. destruct (Z.leb_spec (ai_CurrentCPUCores i) 1); lia.
Qed.

(** ** Witnesses *)

(** The calculator's first test: 8 cores at 28.3%, 16 GiB at 41.7%. *)
Definition test_input : AnalysisInput := {|
  ai_CurrentCPUCores := 8; ai_CurrentMemoryGiB := 16;
  ai_CPUP95Percent := f64_ratio 283 10; ai_MemoryP95Percent := f64_ratio 417 10;
  ai_CPUMaxPercent := f64_ratio 621 10; ai_MemoryMaxPercent := f64_ratio 584 10;
  ai_HeadroomPercent := 20; ai_MinCPUSavings := 1; ai_MinMemorySavingsGiB := 1;
  ai_UpsizeThresholdPct := 90; ai_LookbackDays := 30 |}.

Definition test_result : AnalysisResult := {|
  ar_Direction := Downsize; ar_RecommendedCPUCores := 3; ar_RecommendedMemoryGiB := 9;
  ar_CPUSavings := 5; ar_MemorySavings := 7;
  ar_Reason := "CPU only 28.3% utilized (P95 over 30d), can save 5 cores" |}.

Lemma test_input_sizes : sizes_ok test_input.
Proof. unfold sizes_ok. simpl. lia. Qed.

Lemma Analyze_test : @Analyze amd64 test_input = Some test_result.
Proof. by vm_compute. Qed.

Lemma Analyze_sound_witness : sound_result test_input test_result.
Proof. apply (@Analyze_sound amd64 test_input); [apply test_input_sizes|apply Analyze_test]. Defined.

Lemma Analyze_direction_witness : ar_Direction test_result = Upsize ↔ wants_upsize test_input = true.
Proof. apply (@Analyze_direction amd64 test_input); [apply test_input_sizes|apply Analyze_test]. Defined.

Lemma Analyze_covers_demand_witness :
  covers 3 (downsize_demand test_input 8 (f64_ratio 283 10)) ∨ 3 = 8.
Proof.
  destruct (@Analyze_covers_demand amd64 test_input test_result) as [[?|?] _];
    [apply test_input_sizes|apply Analyze_test|by right|by left].
Defined.

Lemma ComputePercentile_no_panic_witness :
  ∃ x, @ComputePercentile amd64 (f64_of_Z <$> [5; 1; 4; 2; 3]) 95 = Some x.
Proof.
  destruct (@ComputePercentile_no_panic amd64 (f64_of_Z <$> [5; 1; 4; 2; 3]) 95)
    as [[? _]|(?&?&?&?&_&_&_&_&_&_&_&_&?)]; [lia|vm_compute; done|by eexists..].
Defined.

Lemma ComputePercentile_order_irrelevant_witness :
  @ComputePercentile amd64 (f64_of_Z <$> [2; 1]) 95 =
  @ComputePercentile amd64 (f64_of_Z <$> [1; 2]) 95.
Proof.
  apply (@ComputePercentile_order_irrelevant amd64); [apply Permutation_swap|].
  repeat constructor; discriminate.
Defined.

Lemma ComputePercentile_extremes_witness :
  ∃ lo hi, @ComputePercentile amd64 (f64_of_Z <$> [2; 3; 1]) 0 = Some lo ∧
           @ComputePercentile amd64 (f64_of_Z <$> [2; 3; 1]) 100 = Some hi ∧ sort_le lo hi.
Proof.
  destruct (@ComputePercentile_extremes amd64 (f64_of_Z <$> [2; 3; 1]))
    as (lo & hi & H1 & H2 & Hlo & _ & Hx); [done|vm_compute; done|].
  exists lo, hi. split; [exact H1|]. split; [exact H2|]. exact (proj2 (Hx lo Hlo)).
Defined.

(** A headroom of 10^12 percent, which the policy endpoint accepts. *)
Definition huge_headroom : AnalysisInput := {|
  ai_CurrentCPUCores := 8; ai_CurrentMemoryGiB := 16;
  ai_CPUP95Percent := f64_of_Z 80; ai_MemoryP95Percent := f64_of_Z 80;
  ai_CPUMaxPercent := f64_of_Z 85; ai_MemoryMaxPercent := f64_of_Z 85;
  ai_HeadroomPercent := 1000000000000; ai_MinCPUSavings := 1; ai_MinMemorySavingsGiB := 1;
  ai_UpsizeThresholdPct := 90; ai_LookbackDays := 30 |}.

Lemma Analyze_overflow_recommends_one_witness :
  ∃ r, @Analyze amd64 huge_headroom = Some r ∧ ar_RecommendedCPUCores r = 1.
Proof.
  destruct (@Analyze amd64 huge_headroom) as [r|] eqn:E; [|vm_compute in E; discriminate].
  exists r. split; [done|].
  apply (Analyze_overflow_recommends_one huge_headroom r);
    [unfold sizes_ok; simpl; lia|simpl; lia|exact E| |].
  - vm_compute in E. by injection E as <-.
  - vm_compute. done.
Defined.
