(* ===== verification/GoStrconv.v ===== *)
(** * strconv.ParseFloat

    The accepted syntax (decimal, hexadecimal, infinities, NaN, underscores
    between digits) and the correctly rounded value; [None] for a syntax error or
    a value out of range. *)
From S2P Require Import Prelude GoStrings GoFloat.
Local Open Scope Z_scope.

Definition lower (c : Ascii.ascii) : Z := byte_of (lower_ascii c).
Definition is_digit (c : Ascii.ascii) : bool := (48 <=? byte_of c) && (byte_of c <=? 57).
Definition is_hex (c : Ascii.ascii) : bool := (97 <=? lower c) && (lower c <=? 102).

(** [underscoreOK]: an underscore stands between digits; the state is the class
    of the last byte. *)
Inductive last_class : Type := LStart | LDigit | LUnderscore | LOther.

Fixpoint underscore_scan (hex : bool) (i : last_class) (s : string) : bool :=
  match s with
  | "" => match i with LUnderscore => false | _ => true end
  | String c s' =>
      if is_digit c || (hex && is_hex c) then underscore_scan hex LDigit s'
      else if byte_of c =? 95 then
        match i with LDigit => underscore_scan hex LUnderscore s' | _ => false end
      else match i with LUnderscore => false | _ => underscore_scan hex LOther s' end
  end.

Definition underscoreOK (s : string) : bool :=
  let s := match s with
           | String c s' => if (byte_of c =? 45) || (byte_of c =? 43) then s' else s
           | "" => s
           end in
  match s with
  | String z (String x s') =>
      if (byte_of z =? 48) && ((lower x =? 98) || (lower x =? 111) || (lower x =? 120))
      then underscore_scan (lower x =? 120) LDigit s'
      else underscore_scan false LStart s
  | _ => underscore_scan false LStart s
  end.

(** The digits before the exponent: value, digits after the point, whether any
    digit was seen, and the rest. *)
Fixpoint mantissa (hex : bool) (sawdot sawdigits : bool) (acc frac : Z) (s : string)
    : Z * Z * bool * string :=
  match s with
  | "" => (acc, frac, sawdigits, "")
  | String c s' =>
      if byte_of c =? 95 then mantissa hex sawdot sawdigits acc frac s'
      else if byte_of c =? 46 then
        if sawdot then (acc, frac, sawdigits, s) else mantissa hex true sawdigits acc frac s'
      else if is_digit c then
        mantissa hex sawdot true (acc * (if hex then 16 else 10) + (byte_of c - 48))
          (if sawdot then frac + 1 else frac) s'
      else if hex && is_hex c then
        mantissa hex sawdot true (acc * 16 + (lower c - 87)) (if sawdot then frac + 1 else frac) s'
      else (acc, frac, sawdigits, s)
  end.

Fixpoint exponent_digits (e : Z) (s : string) : Z * string :=
  match s with
  | "" => (e, "")
  | String c s' =>
      if byte_of c =? 95 then exponent_digits e s'
      else if is_digit c
      then exponent_digits (if e <? 10000 then e * 10 + (byte_of c - 48) else e) s'
      else (e, s)
  end.

(** The exponent part and the rest; [None] when malformed. *)
Definition exponent (hex : bool) (s : string) : option (Z * string) :=
  match s with
  | String c s' =>
      if lower c =? (if hex then 112 else 101) then
        let '(sign, s'') := match s' with
                            | String d r => if byte_of d =? 43 then (1, r)
                                            else if byte_of d =? 45 then (-1, r) else (1, s')
                            | "" => (1, s')
                            end in
        match s'' with
        | String d _ => if is_digit d
                        then let '(e, r) := exponent_digits 0 s'' in Some (sign * e, r) else None
        | "" => None
        end
      else if hex then None else Some (0, s)
  | "" => if hex then None else Some (0, s)
  end.

Definition in_range (x : f64) : option f64 :=
  match x with S754_infinity _ => None | _ => Some x end.
Definition with_sign (neg : bool) (x : f64) : f64 := if neg then SFopp x else x.

Definition parse_number (neg : bool) (whole s : string) : option f64 :=
  let '(hex, s) := match s with
                   | String z (String x (String y r)) =>
                       if (byte_of z =? 48) && (lower x =? 120) then (true, String y r) else (false, s)
                   | _ => (false, s)
                   end in
  let '(m, frac, sawdigits, r) := mantissa hex false false 0 0 s in
  if negb sawdigits then None else
  '(e, rest) ← exponent hex r;
  if negb (String.eqb rest "") then None
  else if Contains whole "_" && negb (underscoreOK whole) then None
  else in_range (with_sign neg (
    if m =? 0 then S754_zero false
    else if hex then binary_normalize 53 1024 m (e - 4 * frac) false
    else let e10 := e - frac in
         if 0 <=? e10 then f64_of_Z (m * 10 ^ e10) else f64_ratio m (Z.to_pos (10 ^ (- e10))))).

Definition parse_special (neg : bool) (s : string) : option f64 :=
  if EqualFold s "inf" || EqualFold s "infinity" then Some (S754_infinity neg) else None.

Definition ParseFloat (s : string) : option f64 :=
  match s with
  | "" => None
  | String c s' =>
      if EqualFold s "nan" then Some S754_nan
      else if (byte_of c =? 43) || (byte_of c =? 45) then
        let neg := byte_of c =? 45 in
        match parse_special neg s' with Some x => Some x | None => parse_number neg s s' end
      else match parse_special false s with Some x => Some x | None => parse_number false s s end
  end.

Example ParseFloat_1 : ParseFloat "0.1" = Some (f64_ratio 1 10).
Proof. reflexivity. Qed.
Example ParseFloat_2 : ParseFloat "1.5e3" = Some (f64_of_Z 1500) ∧ ParseFloat "-2" = Some (f64_of_Z (-2)).
Proof. split; reflexivity. Qed.
Example ParseFloat_3 : ParseFloat "0x1p-2" = Some (f64_ratio 1 4) ∧ ParseFloat "1_0" = Some (f64_of_Z 10)
  ∧ ParseFloat "1__0" = None ∧ ParseFloat "1e400" = None ∧ ParseFloat "NaN" = Some S754_nan
  ∧ ParseFloat "+Inf" = Some (S754_infinity false) ∧ ParseFloat "12x" = None ∧ ParseFloat "-Inf" = Some (S754_infinity true).
Proof. repeat split; reflexivity. Qed.
