(* ===== verification/GoTime.v ===== *)
(** * Calendar time, package time

    Instants are nanoseconds since the Unix epoch; dates follow the proleptic
    Gregorian calendar.  [Parse] for the two layouts the operator uses and
    [Format] for RFC 3339 in UTC. *)
From S2P Require Import Prelude GoStrings.
Local Open Scope Z_scope.

Definition NS : Z := 1000000000.

(** Days since 1970-01-01 of a date and back; years start in March inside. *)
Definition days_from_civil (y m d : Z) : Z :=
  let y' := if m <=? 2 then y - 1 else y in
  let era := y' / 400 in
  let yoe := y' - era * 400 in
  let doy := (153 * (if 2 <? m then m - 3 else m + 9) + 2) / 5 + d - 1 in
  era * 146097 + (yoe * 365 + yoe / 4 - yoe / 100 + doy) - 719468.

Definition civil_from_days (z : Z) : Z * Z * Z :=
  let z' := z + 719468 in
  let era := z' / 146097 in
  let doe := z' - era * 146097 in
  let yoe := (doe - doe / 1460 + doe / 36524 - doe / 146096) / 365 in
  let doy := doe - (365 * yoe + yoe / 4 - yoe / 100) in
  let mp := (5 * doy + 2) / 153 in
  let m := if mp <? 10 then mp + 3 else mp - 9 in
  ((if m <=? 2 then yoe + era * 400 + 1 else yoe + era * 400), m, doy - (153 * mp + 2) / 5 + 1).

Definition isLeap (y : Z) : bool := (y mod 4 =? 0) && (negb (y mod 100 =? 0) || (y mod 400 =? 0)).
Definition daysIn (m y : Z) : Z :=
  if m =? 2 then (if isLeap y then 29 else 28)
  else if (m =? 4) || (m =? 6) || (m =? 9) || (m =? 11) then 30 else 31.

Definition instant (y m d hour min sec nsec : Z) : Z :=
  (((days_from_civil y m d * 24 + hour) * 60 + min) * 60 + sec) * NS + nsec.

(** ** Parsing *)
Definition digit_of (c : Ascii.ascii) : option Z :=
  let b := byte_of c in if (48 <=? b) && (b <=? 57) then Some (b - 48) else None.

(** [getnum(s, fixed)]: two digits, or one when not fixed. *)
Definition getnum (fixed : bool) (s : string) : option (Z * string) :=
  match s with
  | String a s1 =>
      x ← digit_of a;
      match s1 with
      | String b s2 =>
          match digit_of b with
          | Some y => Some (10 * x + y, s2)
          | None => if fixed then None else Some (x, s1)
          end
      | "" => if fixed then None else Some (x, s1)
      end
  | "" => None
  end.
Definition ranged (lo hi : Z) (r : option (Z * string)) : option (Z * string) :=
  '(n, s) ← r; if (lo <=? n) && (n <=? hi) then Some (n, s) else None.

Definition year4 (s : string) : option (Z * string) :=
  match s with
  | String a (String b (String c (String d s'))) =>
      w ← digit_of a; x ← digit_of b; y ← digit_of c; z ← digit_of d;
      Some (1000 * w + 100 * x + 10 * y + z, s')
  | _ => None
  end.

Definition literal (c : Ascii.ascii) (s : string) : option string :=
  match s with
  | String d s' => if Ascii.eqb c d then Some s' else None
  | "" => None
  end.

(** ["2006-01-02T15:04"], the common part; the day is checked at the end. *)
Definition parse_minutes (s : string) : option ((Z * Z * Z * Z * Z) * string) :=
  '(y, s) ← year4 s; s ← literal (chr 45) s;
  '(m, s) ← ranged 1 12 (getnum true s); s ← literal (chr 45) s;
  '(d, s) ← getnum true s; s ← literal (chr 84) s;
  '(h, s) ← ranged 0 23 (getnum false s); s ← literal (chr 58) s;
  '(mi, s) ← ranged 0 59 (getnum true s);
  Some ((y, m, d, h, mi), s).
Definition day_ok (y m d : Z) : bool := (1 <=? d) && (d <=? daysIn m y).

Definition Parse_minutes (s : string) : option Z :=
  '((y, m, d, h, mi), rest) ← parse_minutes s;
  if String.eqb rest "" && day_ok y m d then Some (instant y m d h mi 0 0) else None.

(** A fraction of a second after a point or comma, cut to nanoseconds. *)
Fixpoint fraction_digits (scale acc : Z) (s : string) : Z * string :=
  match s with
  | String c s' =>
      match digit_of c with
      | Some x => fraction_digits (scale / 10) (acc + x * scale) s'
      | None => (acc, s)
      end
  | "" => (acc, "")
  end.
Definition fraction (s : string) : Z * string :=
  match s with
  | String c (String e s') =>
      if ((byte_of c =? 46) || (byte_of c =? 44)) && bool_decide (is_Some (digit_of e))
      then fraction_digits 100000000 0 (String e s') else (0, s)
  | _ => (0, s)
  end.

(** [Z07:00]: the offset in seconds. *)
Definition zone (s : string) : option (Z * string) :=
  match s with
  | String c s' =>
      if Ascii.eqb c (chr 90) then Some (0, s')
      else if Ascii.eqb c (chr 43) || Ascii.eqb c (chr 45) then
        '(h, s) ← ranged 0 24 (getnum true s'); s ← literal (chr 58) s;
        '(m, s) ← ranged 0 60 (getnum true s);
        Some ((if Ascii.eqb c (chr 45) then -1 else 1) * ((h * 60 + m) * 60), s)
      else None
  | "" => None
  end.

(** [time.Parse(time.RFC3339, s)] *)
Definition Parse_RFC3339 (s : string) : option Z :=
  '((y, m, d, h, mi), s) ← parse_minutes s;
  s ← literal (chr 58) s;
  '(sec, s) ← ranged 0 59 (getnum true s);
  let '(nsec, s) := fraction s in
  '(off, s) ← zone s;
  if String.eqb s "" && day_ok y m d
  then Some (instant y m d h mi sec nsec - off * NS) else None.

(** ** Formatting *)
Definition digit_char (n : Z) : string := String (chr (48 + Z.to_nat n)) "".
Definition pad2 (n : Z) : string := digit_char (n / 10) +:+ digit_char (n mod 10).
Definition pad4 (n : Z) : string := pad2 (n / 100) +:+ pad2 (n mod 100).

(** [t.UTC().Format(time.RFC3339)], for the years 0 to 9999 *)
Definition Format_RFC3339 (t : Z) : string :=
  let secs := t / NS in
  let days := secs / 86400 in
  let sod := secs mod 86400 in
  let '(y, m, d) := civil_from_days days in
  pad4 y +:+ "-" +:+ pad2 m +:+ "-" +:+ pad2 d +:+ "T" +:+
  pad2 (sod / 3600) +:+ ":" +:+ pad2 (sod mod 3600 / 60) +:+ ":" +:+ pad2 (sod mod 60) +:+ "Z".

Example Parse_1 : Parse_RFC3339 "1970-01-02T00:00:01Z" = Some (86401 * NS).
Proof. reflexivity. Qed.
Example Parse_2 : Parse_RFC3339 "2026-03-01T02:00:00.5+01:00" = Some (1772326800 * NS + 500000000)
  ∧ Parse_RFC3339 "2026-02-29T02:00:00Z" = None ∧ Parse_RFC3339 "2026-02-28T02:00" = None
  ∧ Format_RFC3339 (1772326800 * NS) = "2026-03-01T01:00:00Z".
Proof. repeat split; reflexivity. Qed.
