(* ===== verification/GoTimeFacts.v ===== *)
(** * Dates survive formatting

    The calendar is inverted exactly, and a time read from a browser's datetime
    field and printed in RFC 3339 parses to the same instant. *)
From S2P Require Import Prelude GoStrings GoTime.
Local Open Scope Z_scope.

(** ** The calendar *)

(** Within an era of 400 years, years starting in March. *)
Definition year_start (yoe : Z) : Z := yoe * 365 + yoe / 4 - yoe / 100.
Definition year_of_era (doe : Z) : Z := (doe - doe / 1460 + doe / 36524 - doe / 146096) / 365.
Definition long_year (yoe : Z) : bool := isLeap (yoe + 1).

Lemma year_of_era_mono x y : 0 <= x <= y → y <= 146096 →
  x - x / 1460 + x / 36524 - x / 146096 <= y - y / 1460 + y / 36524 - y / 146096.
Proof. intros. Z.to_euclidean_division_equations. lia. Qed.

Definition year_check (yoe : Z) : bool :=
  let first := year_start yoe in
  let last := first + 364 + (if long_year yoe then 1 else 0) in
  (0 <=? first) && (last <=? 146096) && (year_of_era first =? yoe) && (year_of_era last =? yoe).

Lemma years_check : forallb (λ n, year_check (Z.of_nat n)) (seq 0 400) = true.
Proof. vm_compute. reflexivity. Qed.

Lemma year_recovered yoe doy :
  0 <= yoe < 400 → 0 <= doy <= 364 + (if long_year yoe then 1 else 0) →
  0 <= year_start yoe + doy <= 146096 ∧ year_of_era (year_start yoe + doy) = yoe.
Proof.
  intros Hy Hd. pose proof (proj1 (forallb_forall _ _) years_check (Z.to_nat yoe)) as Hc.
  cbv beta in Hc. rewrite Z2Nat.id in Hc by lia. specialize (Hc ltac:(apply in_seq; lia)).
  unfold year_check in Hc. rewrite !andb_true_iff, !Z.leb_le, !Z.eqb_eq in Hc.
  destruct Hc as [[[H1 H2] H3] H4]. set (last := if long_year yoe then 1 else 0) in *.
  split; [lia|]. unfold year_of_era in *.
  pose proof (year_of_era_mono (year_start yoe) (year_start yoe + doy) ltac:(lia) ltac:(lia)) as Hl.
  pose proof (year_of_era_mono (year_start yoe + doy) (year_start yoe + 364 + last) ltac:(lia) ltac:(lia)) as Hr.
  apply (Z.div_le_mono _ _ 365) in Hl; [|lia]. apply (Z.div_le_mono _ _ 365) in Hr; [|lia].
  lia.
Qed.

(** Month and day from the day of the year: [mp] counts months from March. *)
Definition month_length (mp : Z) : Z :=
  if mp =? 11 then 29 else if (mp =? 1) || (mp =? 3) || (mp =? 6) || (mp =? 8) then 30 else 31.

Lemma month_recovered mp d : 0 <= mp <= 11 → 1 <= d <= month_length mp →
  let doy := (153 * mp + 2) / 5 + d - 1 in
  (5 * doy + 2) / 153 = mp ∧ doy - (153 * mp + 2) / 5 + 1 = d ∧
  0 <= doy ∧ (mp < 11 → doy <= 336) ∧ (mp = 11 → doy = 336 + d).
Proof.
  intros Hmp Hd. cbn zeta.
  assert (mp = 0 ∨ mp = 1 ∨ mp = 2 ∨ mp = 3 ∨ mp = 4 ∨ mp = 5 ∨ mp = 6 ∨ mp = 7 ∨ mp = 8 ∨ mp = 9 ∨ mp = 10 ∨ mp = 11)
    as H by lia.
  repeat (destruct H as [->|H]; [cbn in Hd |- *; split_and!; Z.to_euclidean_division_equations; lia|]).
  subst. cbn in Hd |- *. split_and!; Z.to_euclidean_division_equations; lia.
Qed.

Lemma isLeap_period y k : isLeap (y + 400 * k) = isLeap y.
Proof.
  assert (∀ n q, n * q = 400 → n ≠ 0 → (y + 400 * k) mod n = y mod n) as H.
  { intros n q Hq Hn. rewrite <-Hq. replace (y + n * q * k) with (y + (q * k) * n) by lia. by apply Z.mod_add. }
  unfold isLeap. by rewrite (H 4 100), (H 100 4), (H 400 1).
Qed.

Lemma month_bound m y : 1 <= m <= 12 → daysIn m y <= month_length (if 2 <? m then m - 3 else m + 9).
Proof.
  intros Hm. assert (m = 1 ∨ m = 2 ∨ m = 3 ∨ m = 4 ∨ m = 5 ∨ m = 6 ∨ m = 7 ∨ m = 8 ∨ m = 9 ∨ m = 10 ∨ m = 11 ∨ m = 12)
    as H by lia.
  unfold daysIn. destruct (isLeap y); repeat (destruct H as [->|H]; [done|]); by subst.
Qed.

Lemma civil_roundtrip y m d : 1 <= m <= 12 → day_ok y m d = true →
  civil_from_days (days_from_civil y m d) = (y, m, d).
Proof.
  intros Hm Hd. unfold day_ok in Hd. apply andb_true_iff in Hd as [Hd1%Z.leb_le Hd2%Z.leb_le].
  unfold days_from_civil. cbn zeta. set (y' := if m <=? 2 then y - 1 else y).
  set (yoe := y' - y' / 400 * 400). set (mp := if 2 <? m then m - 3 else m + 9).
  assert (0 <= yoe < 400) as Hyoe by (unfold yoe; Z.to_euclidean_division_equations; lia).
  assert (0 <= mp <= 11 ∧ d <= month_length mp ∧ (mp = 11 → m = 2)) as (Hmp & Hlen & H11).
  { pose proof (month_bound m y Hm). fold mp in H. unfold mp in *. destruct (Z.ltb_spec 2 m); lia. }
  destruct (month_recovered mp d Hmp ltac:(lia)) as (Hm1 & Hd3 & Hp & Hshort & Hfeb). cbn zeta in *.
  set (doy := (153 * mp + 2) / 5 + d - 1) in *.
  assert (doy <= 364 + (if long_year yoe then 1 else 0)) as Hdoy.
  { destruct (Z.eq_dec mp 11) as [He|]; [|specialize (Hshort ltac:(lia)); case_match; lia].
    rewrite (Hfeb He). specialize (H11 He). subst m. unfold daysIn in Hd2. cbn in Hd2.
    replace (long_year yoe) with (isLeap y); [destruct (isLeap y); lia|].
    unfold long_year. rewrite <-(isLeap_period y (- (y' / 400))). f_equal. unfold yoe.
    assert (y' = y - 1) as -> by done. lia. }
  destruct (year_recovered yoe doy Hyoe ltac:(lia)) as [Hrange Hyear].
  unfold civil_from_days. cbn zeta.
  replace (y' / 400 * 146097 + (yoe * 365 + yoe / 4 - yoe / 100 + doy) - 719468 + 719468)
    with ((year_start yoe + doy) + y' / 400 * 146097) by (unfold year_start; lia).
  rewrite Z.div_add, (Z.div_small (year_start yoe + doy)) by lia. rewrite Z.add_0_l.
  replace (year_start yoe + doy + y' / 400 * 146097 - y' / 400 * 146097) with (year_start yoe + doy) by lia.
  fold (year_of_era (year_start yoe + doy)). rewrite Hyear.
  replace (year_start yoe + doy - (365 * yoe + yoe / 4 - yoe / 100)) with doy by (unfold year_start; lia).
  rewrite Hm1, Hd3. unfold yoe, y', mp.
  destruct (Z.leb_spec m 2), (Z.ltb_spec 2 m); try lia.
  - rewrite (proj2 (Z.ltb_ge _ _)) by lia. replace (m + 9 - 9) with m by lia.
    rewrite (proj2 (Z.leb_le _ _)) by lia. do 2 f_equal. lia.
  - rewrite (proj2 (Z.ltb_lt _ _)) by lia. replace (m - 3 + 3) with m by lia.
    rewrite (proj2 (Z.leb_gt _ _)) by lia. do 2 f_equal. lia.
Qed.

Lemma daysIn_31 m y : daysIn m y <= 31.
Proof. unfold daysIn. repeat case_match; lia. Qed.

(** ** Digits *)
Lemma digit_of_chr k : 0 <= k < 10 → digit_of (chr (48 + Z.to_nat k)) = Some k.
Proof.
  intros Hk. assert (k = 0 ∨ k = 1 ∨ k = 2 ∨ k = 3 ∨ k = 4 ∨ k = 5 ∨ k = 6 ∨ k = 7 ∨ k = 8 ∨ k = 9) as H by lia.
  by repeat destruct H as [->|H]; subst.
Qed.
Lemma getnum_pad2 fixed n rest : 0 <= n < 100 → getnum fixed (pad2 n +:+ rest) = Some (n, rest).
Proof.
  intros Hn.
  change (pad2 n +:+ rest) with (String (chr (48 + Z.to_nat (n / 10))) (String (chr (48 + Z.to_nat (n mod 10))) rest)).
  unfold getnum. rewrite !digit_of_chr by (Z.to_euclidean_division_equations; lia). cbn.
  do 2 f_equal. Z.to_euclidean_division_equations; lia.
Qed.

Lemma year4_pad4 n rest : 0 <= n < 10000 → year4 (pad4 n +:+ rest) = Some (n, rest).
Proof.
  intros Hn.
  change (pad4 n +:+ rest) with (String (chr (48 + Z.to_nat (n / 100 / 10))) (String (chr (48 + Z.to_nat ((n / 100) mod 10)))
    (String (chr (48 + Z.to_nat (n mod 100 / 10))) (String (chr (48 + Z.to_nat ((n mod 100) mod 10))) rest)))).
  unfold year4. rewrite !digit_of_chr by (Z.to_euclidean_division_equations; lia). cbn.
  do 2 f_equal. Z.to_euclidean_division_equations; lia.
Qed.

Lemma literal_dash rest : literal (chr 45) ("-" +:+ rest) = Some rest.
Proof. done. Qed.
Lemma literal_T rest : literal (chr 84) ("T" +:+ rest) = Some rest.
Proof. done. Qed.
Lemma literal_colon rest : literal (chr 58) (":" +:+ rest) = Some rest.
Proof. done. Qed.
Lemma ranged_pad2 lo hi fixed n rest : lo <= n <= hi → 0 <= n < 100 →
  ranged lo hi (getnum fixed (pad2 n +:+ rest)) = Some (n, rest).
Proof.
  intros Hr Hn. rewrite getnum_pad2 by done. unfold ranged. cbn [mbind option_bind].
  by rewrite (proj2 (Z.leb_le lo n)), (proj2 (Z.leb_le n hi)) by lia.
Qed.
Lemma bind_of_Some {A B} (f : A → option B) x : Some x ≫= f = f x.
Proof. done. Qed.
Ltac parse_step lem := rewrite lem by lia; rewrite bind_of_Some; cbv beta iota.

(** ** Times *)
Lemma parse_minutes_fields y m d h mi rest :
  0 <= y < 10000 → 1 <= m <= 12 → 1 <= d <= 31 → 0 <= h < 24 → 0 <= mi < 60 →
  parse_minutes (pad4 y +:+ "-" +:+ pad2 m +:+ "-" +:+ pad2 d +:+ "T" +:+ pad2 h +:+ ":" +:+ pad2 mi +:+ rest)
  = Some ((y, m, d, h, mi), rest).
Proof.
  intros. unfold parse_minutes. parse_step year4_pad4. parse_step literal_dash.
  parse_step ranged_pad2. parse_step literal_dash. parse_step getnum_pad2. parse_step literal_T.
  parse_step ranged_pad2. parse_step literal_colon. by parse_step ranged_pad2.
Qed.

Lemma parse_Z : fraction "Z" = (0, "Z") ∧ zone "Z" = Some (0, "").
Proof. done. Qed.

Lemma digit_of_range c x : digit_of c = Some x → 0 <= x <= 9.
Proof. unfold digit_of. case_match eqn:Hb; [|done]. intros [= <-]. apply andb_true_iff in Hb. lia. Qed.
Lemma ranged_range lo hi r n rest : ranged lo hi r = Some (n, rest) → lo <= n <= hi.
Proof.
  unfold ranged. destruct r as [[k s]|]; [|done]. rewrite bind_of_Some. cbv beta iota.
  case_match eqn:Hb; [|done]. intros [= <- <-]. apply andb_true_iff in Hb. lia.
Qed.
Lemma year4_range s n rest : year4 s = Some (n, rest) → 0 <= n < 10000.
Proof.
  unfold year4. destruct s as [|a [|b [|c [|d s]]]]; try done.
  intros (w & Hw & (x & Hx & (y & Hy & (z & Hz & [= <- <-])%bind_Some)%bind_Some)%bind_Some)%bind_Some.
  apply digit_of_range in Hw, Hx, Hy, Hz. lia.
Qed.

Lemma parse_minutes_ranges s y m d h mi rest : parse_minutes s = Some ((y, m, d, h, mi), rest) →
  0 <= y < 10000 ∧ 1 <= m <= 12 ∧ 0 <= h <= 23 ∧ 0 <= mi <= 59.
Proof.
  unfold parse_minutes.
  intros ([y' s1] & Hy & (s2 & _ & ([m' s3] & Hm & (s4 & _ & ([d' s5] & _ & (s6 & _ &
    ([h' s7] & Hh & (s8 & _ & ([mi' s9] & Hmi & [= <- <- <- <- <- <-])%bind_Some)%bind_Some)%bind_Some)%bind_Some)%bind_Some)%bind_Some)%bind_Some)%bind_Some)%bind_Some.
  apply year4_range in Hy. apply ranged_range in Hm, Hh, Hmi. done.
Qed.

Lemma Format_fields y m d h mi : 1 <= m <= 12 → day_ok y m d = true → 0 <= h <= 23 → 0 <= mi <= 59 →
  Format_RFC3339 (instant y m d h mi 0 0)
  = pad4 y +:+ "-" +:+ pad2 m +:+ "-" +:+ pad2 d +:+ "T" +:+ pad2 h +:+ ":" +:+ pad2 mi +:+ ":" +:+ pad2 0 +:+ "Z".
Proof.
  intros Hm Hd Hh Hmi. unfold Format_RFC3339. cbv zeta.
  set (days := days_from_civil y m d). set (sod := (h * 60 + mi) * 60).
  assert (instant y m d h mi 0 0 / NS = days * 86400 + sod) as ->.
  { unfold instant, sod. fold days. rewrite Z.add_0_r, Z.div_mul by done. lia. }
  assert (0 <= sod < 86400) by (unfold sod; lia).
  replace ((days * 86400 + sod) / 86400) with days by (Z.to_euclidean_division_equations; lia).
  replace ((days * 86400 + sod) mod 86400) with sod by (Z.to_euclidean_division_equations; lia).
  unfold days. rewrite civil_roundtrip by done.
  replace (sod / 3600) with h by (unfold sod; Z.to_euclidean_division_equations; lia).
  replace (sod mod 3600 / 60) with mi by (unfold sod; Z.to_euclidean_division_equations; lia).
  by replace (sod mod 60) with 0 by (unfold sod; Z.to_euclidean_division_equations; lia).
Qed.

(** The value of a browser's datetime field: a wall clock, without a zone. *)
Record WallClock : Type := { wc_year : Z; wc_month : Z; wc_day : Z; wc_hour : Z; wc_minute : Z }.
Definition wall_clock_ok (c : WallClock) : Prop :=
  0 <= wc_year c < 10000 ∧ 1 <= wc_month c <= 12 ∧ 1 <= wc_day c <= daysIn (wc_month c) (wc_year c) ∧
  0 <= wc_hour c < 24 ∧ 0 <= wc_minute c < 60.
Definition datetime_local (c : WallClock) : string :=
  pad4 (wc_year c) +:+ "-" +:+ pad2 (wc_month c) +:+ "-" +:+ pad2 (wc_day c) +:+ "T" +:+
  pad2 (wc_hour c) +:+ ":" +:+ pad2 (wc_minute c).

(** The moment at which clocks that are [zone] nanoseconds ahead of UTC show it. *)
Definition moment (zone : Z) (c : WallClock) : Z :=
  instant (wc_year c) (wc_month c) (wc_day c) (wc_hour c) (wc_minute c) 0 0 - zone.

Lemma Parse_datetime_local c zone : wall_clock_ok c → Parse_minutes (datetime_local c) = Some (moment zone c + zone).
Proof.
  destruct c as [y m d h mi]. unfold wall_clock_ok, datetime_local, moment. cbn. intros (? & ? & ? & ? & ?).
  pose proof (daysIn_31 m y). unfold Parse_minutes. rewrite <-(app_nil_string (pad2 mi)).
  rewrite parse_minutes_fields, bind_of_Some by lia. cbv beta iota.
  assert (day_ok y m d = true) as -> by (unfold day_ok; rewrite andb_true_iff, !Z.leb_le; lia).
  cbn [String.eqb andb]. f_equal. lia.
Qed.

(** A time of a browser's datetime field, printed in RFC 3339, is the same
    instant for whoever parses it. *)
Lemma Format_Parse s t : Parse_minutes s = Some t → Parse_RFC3339 (Format_RFC3339 t) = Some t.
Proof.
  intros ([[[[[y m] d] h] mi] rest] & Hp & Ht)%bind_Some.
  case_match eqn:Hok; [|done]. injection Ht as <-. apply andb_true_iff in Hok as [_ Hok].
  apply parse_minutes_ranges in Hp as (Hy & Hm & Hh & Hmi).
  rewrite Format_fields by done. pose proof Hok as Hd. unfold day_ok in Hd. apply andb_true_iff in Hd.
  pose proof (daysIn_31 m y).
  unfold Parse_RFC3339. parse_step parse_minutes_fields. parse_step literal_colon. parse_step ranged_pad2.
  rewrite (proj1 parse_Z). cbv beta iota. rewrite (proj2 parse_Z), bind_of_Some. cbv beta iota.
  rewrite Hok. cbn [andb]. rewrite String.eqb_refl. cbn [andb]. f_equal. lia.
Qed.

(** A datetime field is not an RFC 3339 time, and what is printed is ASCII. *)
Lemma Parse_exclusive s t : Parse_minutes s = Some t → Parse_RFC3339 s = None.
Proof.
  intros ([[[[[y m] d] h] mi] rest] & Hp & Ht)%bind_Some.
  case_match eqn:Hok; [|done]. apply andb_true_iff in Hok as [->%String.eqb_eq _].
  unfold Parse_RFC3339. by rewrite Hp.
Qed.

Lemma digit_char_ascii n : 0 <= n < 10 → is_ascii (digit_char n) = true.
Proof.
  intros Hn. assert (n = 0 ∨ n = 1 ∨ n = 2 ∨ n = 3 ∨ n = 4 ∨ n = 5 ∨ n = 6 ∨ n = 7 ∨ n = 8 ∨ n = 9) as H by lia.
  by repeat destruct H as [->|H]; subst.
Qed.
Lemma pad2_ascii n : 0 <= n < 100 → is_ascii (pad2 n) = true.
Proof. intros Hn. apply is_ascii_app; apply digit_char_ascii; Z.to_euclidean_division_equations; lia. Qed.
Lemma pad4_ascii n : 0 <= n < 10000 → is_ascii (pad4 n) = true.
Proof. intros Hn. apply is_ascii_app; apply pad2_ascii; Z.to_euclidean_division_equations; lia. Qed.

Lemma Format_ascii s t : Parse_minutes s = Some t → is_ascii (Format_RFC3339 t) = true.
Proof.
  intros ([[[[[y m] d] h] mi] rest] & Hp & Ht)%bind_Some.
  case_match eqn:Hok; [|done]. injection Ht as <-. apply andb_true_iff in Hok as [_ Hok].
  apply parse_minutes_ranges in Hp as (Hy & Hm & Hh & Hmi).
  rewrite Format_fields by done. unfold day_ok in Hok. apply andb_true_iff in Hok. pose proof (daysIn_31 m y).
  rewrite !is_ascii_app_eq, pad4_ascii, !pad2_ascii by lia. reflexivity.
Qed.
