(* ===== verification/GoJson.v ===== *)
(** * JSON values and encoding/json's decoding into Go values

    A document is the tree [encoding/json] reads; numbers keep their literal.
    Decoding follows the package: a key is matched exactly, else case-folded;
    unknown keys are skipped, [null] leaves the target alone, and a kind
    mismatch makes the whole decode return an error.  The text itself is in
    [JsonText]. *)
From S2P Require Import Prelude GoStrings.
Local Open Scope Z_scope.

Inductive json : Type :=
| JNull
| JBool (b : bool)
| JNumber (lit : string)
| JString (s : string)
| JArray (l : list json)
| JObject (kvs : list (string * json)).

(** [strconv.ParseInt(lit, 10, 64)] on a JSON number literal: an optional minus
    sign and digits only. *)
Definition digit (c : Ascii.ascii) : option Z :=
  let b := byte_of c in if (48 <=? b) && (b <=? 57) then Some (b - 48) else None.

Fixpoint digits_value (acc : Z) (s : string) : option Z :=
  match s with
  | "" => Some acc
  | String c s' => d ← digit c; digits_value (acc * 10 + d) s'
  end.

Definition parse_int (bits : Z) (s : string) : option Z :=
  let bound := 2 ^ (bits - 1) in
  let ranged z := if (- bound <=? z) && (z <? bound) then Some z else None in
  match s with
  | "" => None
  | String c s' =>
      if Ascii.eqb c (chr 45)
      then match s' with "" => None | _ => v ← digits_value 0 s'; ranged (- v) end
      else v ← digits_value 0 s; ranged v
  end.

(** Field names match up to case.  Besides ASCII case, the folding identifies
    the long s (C5 BF) with s and the Kelvin sign (E2 84 AA) with k. *)
Definition lower_byte (b : Z) : Z := if (65 <=? b) && (b <=? 90) then b + 32 else b.
Fixpoint fold_bytes (bs : list Z) : list Z :=
  match bs with
  | [] => []
  | b :: r =>
      match r with
      | b1 :: r1 =>
          if (b =? 197) && (b1 =? 191) then 115 :: fold_bytes r1
          else match r1 with
               | b2 :: r2 =>
                   if (b =? 226) && (b1 =? 132) && (b2 =? 170) then 107 :: fold_bytes r2
                   else lower_byte b :: fold_bytes r
               | [] => lower_byte b :: fold_bytes r
               end
      | [] => [lower_byte b]
      end
  end.
Definition fold_name (s : string) : list Z := fold_bytes (bytes_of s).

(** A decoder updates the Go value at hand; [None] is a decoding error. *)
Definition decoder (A : Type) : Type := json → A → option A.

Definition decode_string : decoder string := λ j cur,
  match j with JString s => Some s | JNull => Some cur | _ => None end.
Definition decode_bool : decoder bool := λ j cur,
  match j with JBool b => Some b | JNull => Some cur | _ => None end.
Definition decode_int (bits : Z) : decoder Z := λ j cur,
  match j with JNumber lit => parse_int bits lit | JNull => Some cur | _ => None end.

(** A struct field: its JSON name and how to decode into it. *)
Record field (A : Type) : Type := { f_name : string; f_decode : decoder A }.
Arguments f_name {A} f.
Arguments f_decode {A} f.

(** A field of [A] from a decoder for its type, a getter and a setter. *)
Definition mk_field {A B} (name : string) (d : decoder B) (get : A → B) (set : B → A → A) : field A :=
  {| f_name := name; f_decode := λ j a, b ← d j (get a); Some (set b a) |}.

Definition find_field {A} (fs : list (field A)) (key : string) : option (field A) :=
  match List.find (λ f, String.eqb (f_name f) key) fs with
  | Some f => Some f
  | None => List.find (λ f, bool_decide (fold_name (f_name f) = fold_name key)) fs
  end.

Fixpoint decode_fields {A} (fs : list (field A)) (kvs : list (string * json)) (a : A) : option A :=
  match kvs with
  | [] => Some a
  | (k, j) :: r =>
      match find_field fs k with
      | Some f => a' ← f_decode f j a; decode_fields fs r a'
      | None => decode_fields fs r a
      end
  end.

Definition decode_struct {A} (fs : list (field A)) : decoder A := λ j a,
  match j with
  | JObject kvs => decode_fields fs kvs a
  | JNull => Some a
  | _ => None
  end.

(** [json.Marshal] of a [map[string]string]: keys in sorted order.  The maps the
    operator builds are listed here in that order. *)
Definition json_of_strings (kvs : list (string * string)) : json :=
  JObject ((λ kv, (kv.1, JString kv.2)) <$> kvs).

(** The document that the text of [json.Marshal] holds: strings come out as
    valid UTF-8. *)
Fixpoint marshalled (j : json) : json :=
  match j with
  | JString s => JString (ToValidUTF8 s)
  | JArray l => JArray (List.map marshalled l)
  | JObject kvs => JObject (List.map (λ kv, (ToValidUTF8 kv.1, marshalled kv.2)) kvs)
  | _ => j
  end.
