(* ===== verification/JsonText.v ===== *)
(** * The text of JSON documents, encoding/json's scanner and encoder

    The scanner is the package's state machine: a lexical state and a stack of
    the arrays and objects being read, advanced byte by byte.  [Decode] reads the
    first value of a stream as [json.Decoder] does, [Unmarshal] a whole text;
    [Marshal] is the text [json.Marshal] writes, with HTML escaping. *)
From S2P Require Import Prelude GoStrings GoJson.
Local Open Scope Z_scope.

(** ** Strings *)

(** [utf8.AppendRune] *)
Definition byte_chr (z : Z) : Ascii.ascii := Ascii.ascii_of_N (Z.to_N z).
Definition encode_rune (r : Z) : string :=
  if r <? 128 then String (byte_chr r) ""
  else if r <? 2048 then String (byte_chr (192 + r / 64)) (String (byte_chr (128 + r mod 64)) "")
  else if ((55296 <=? r) && (r <=? 57343)) || (1114111 <? r) then replacement
  else if r <? 65536 then
    String (byte_chr (224 + r / 4096)) (String (byte_chr (128 + r / 64 mod 64))
      (String (byte_chr (128 + r mod 64)) ""))
  else
    String (byte_chr (240 + r / 262144)) (String (byte_chr (128 + r / 4096 mod 64))
      (String (byte_chr (128 + r / 64 mod 64)) (String (byte_chr (128 + r mod 64)) ""))).

Definition hex4 (a b c d : Ascii.ascii) : option Z :=
  a ← unhex a; b ← unhex b; c ← unhex c; d ← unhex d;
  Some (Z.of_nat a * 4096 + Z.of_nat b * 256 + Z.of_nat c * 16 + Z.of_nat d).

(** [utf16.DecodeRune] of a pair of surrogates. *)
Definition is_surrogate (r : Z) : bool := (55296 <=? r) && (r <=? 57343).
Definition surrogate_pair (r1 r2 : Z) : option Z :=
  if (55296 <=? r1) && (r1 <? 56320) && (56320 <=? r2) && (r2 <=? 57343)
  then Some ((r1 - 55296) * 1024 + (r2 - 56320) + 65536) else None.

(** A backslash and one byte. *)
Definition escaped (e : Ascii.ascii) : Ascii.ascii :=
  match Ascii.nat_of_ascii e with
  | 98%nat => chr 8 | 102%nat => chr 12 | 110%nat => chr 10 | 114%nat => chr 13 | 116%nat => chr 9
  | _ => e
  end.

(** [unquote]: the string a quoted text stands for; [skip] counts the bytes of a
    rune still to be copied. *)
Fixpoint unquote_from (skip : nat) (s : string) : string :=
  match s with
  | "" => ""
  | String c s' =>
      match skip with
      | S k => String c (unquote_from k s')
      | O =>
          if byte_of c =? 92 then
            match s' with
            | "" => ""
            | String e s1 =>
                if byte_of e =? 117 then
                  match s1 with
                  | String a (String b (String c (String d r))) =>
                      let rr := default 0 (hex4 a b c d) in
                      if is_surrogate rr then
                        match r with
                        | String x (String u (String a (String b (String c (String d r2))))) =>
                            match (if (byte_of x =? 92) && (byte_of u =? 117)
                                   then rr1 ← hex4 a b c d; surrogate_pair rr rr1 else None) with
                            | Some dec => encode_rune dec +:+ unquote_from O r2
                            | None => replacement +:+ unquote_from O r
                            end
                        | _ => replacement +:+ unquote_from O r
                        end
                      else encode_rune rr +:+ unquote_from O r
                  | _ => ""
                  end
                else String (escaped e) (unquote_from O s1)
            end
          else
            let '(r, n) := decode_rune (bytes_of s) in
            if (r =? rune_error) && (n =? 1)%nat then replacement +:+ unquote_from O s'
            else String c (unquote_from (n - 1) s')
      end
  end.
Definition unquote (s : string) : string := unquote_from O s.

(** The bytes below 128 that are written as they are. *)
Definition html_safe (b : Z) : bool :=
  (32 <=? b) && negb ((b =? 34) || (b =? 38) || (b =? 60) || (b =? 62) || (b =? 92)).
Definition hex_lower (n : nat) : Ascii.ascii := if (n <? 10)%nat then chr (48 + n) else chr (87 + n).
Definition escape_byte (c : Ascii.ascii) : string :=
  backslash +:+
  match Ascii.nat_of_ascii c with
  | 34%nat => dquote | 92%nat => backslash
  | 8%nat => "b" | 12%nat => "f" | 10%nat => "n" | 13%nat => "r" | 9%nat => "t"
  | n => "u00" +:+ String (hex_lower (n / 16)) (String (hex_lower (n mod 16)) "")
  end.

(** [appendString]; the bytes of a rune are copied, or left out when it was
    written as an escape. *)
Fixpoint quote_from (skip : nat) (copy : bool) (s : string) : string :=
  match s with
  | "" => ""
  | String c s' =>
      match skip with
      | S k => if copy then String c (quote_from k copy s') else quote_from k copy s'
      | O =>
          if byte_of c <? 128
          then (if html_safe (byte_of c) then String c "" else escape_byte c) +:+ quote_from O true s'
          else
            let '(r, n) := decode_rune (bytes_of s) in
            if (r =? rune_error) && (n =? 1)%nat then backslash +:+ "ufffd" +:+ quote_from O true s'
            else if (r =? 8232) || (r =? 8233)
            then backslash +:+ (if r =? 8232 then "u2028" else "u2029") +:+ quote_from (n - 1) false s'
            else String c (quote_from (n - 1) true s')
      end
  end.
Definition json_quote (s : string) : string := dquote +:+ quote_from O true s +:+ dquote.

(** ** [json.Marshal] *)
Fixpoint commas (l : list string) : string :=
  match l with
  | [] => ""
  | [x] => x
  | x :: r => x +:+ "," +:+ commas r
  end.

Fixpoint Marshal (j : json) : string :=
  match j with
  | JNull => "null"
  | JBool b => if b then "true" else "false"
  | JNumber lit => lit
  | JString s => json_quote s
  | JArray l => "[" +:+ commas (List.map Marshal l) +:+ "]"
  | JObject kvs =>
      "{" +:+ commas (List.map (λ kv, json_quote kv.1 +:+ ":" +:+ Marshal kv.2) kvs) +:+ "}"
  end.

(** How deep arrays and objects nest. *)
Fixpoint depth (j : json) : nat :=
  match j with
  | JArray l => S (list_max (List.map depth l))
  | JObject kvs => S (list_max (List.map (λ kv, depth kv.2) kvs))
  | _ => O
  end.

(** ** The scanner *)

(** What is being read: the elements so far, or the members and the current key. *)
Inductive frame : Type :=
| InArray (items : list json)
| InObject (kvs : list (string * json)) (key : string).

(** In a number: after the sign, a leading zero, digits, the point, digits after
    it, the exponent's letter, its sign, its digits. *)
Inductive phase : Type := NNeg | N0 | N1 | NDot | NFrac | NE | NSign | NExp.

Inductive escape : Type := Plain | Backslash | Hex (n : nat).

Inductive lex : Type :=
| BeginValue
| BeginValueOrEmpty
| BeginStringOrEmpty
| BeginString (kvs : list (string * json))
| InString (key_of : option (list (string * json))) (raw : string) (e : escape)
| EndKey (kvs : list (string * json)) (key : string)
| Number (p : phase) (lit : string)
| Literal (rest : string) (value : json)
| EndValue (j : json)
(** past the top-level value; whether only white space followed *)
| Top (j : json) (clean : bool).

Definition state : Type := list frame * lex.

Definition is_ws (c : Ascii.ascii) : bool :=
  let b := byte_of c in (b =? 32) || (b =? 9) || (b =? 13) || (b =? 10).
Definition is_digit (c : Ascii.ascii) : bool := let b := byte_of c in (48 <=? b) && (b <=? 57).
Definition byte_is (c : Ascii.ascii) (b : Z) : bool := byte_of c =? b.

Definition max_nesting : Z := 10000.

Definition begin_number (c : Ascii.ascii) : option phase :=
  if byte_is c 45 then Some NNeg else if byte_is c 48 then Some N0 else if is_digit c then Some N1 else None.

(** The number goes on: the next phase; [None] when [c] is not part of it. *)
Definition more_number (p : phase) (c : Ascii.ascii) : option phase :=
  let e := byte_is c 101 || byte_is c 69 in
  match p with
  | NNeg => if byte_is c 48 then Some N0 else if is_digit c then Some N1 else None
  | N0 => if byte_is c 46 then Some NDot else if e then Some NE else None
  | N1 => if is_digit c then Some N1 else if byte_is c 46 then Some NDot else if e then Some NE else None
  | NDot => if is_digit c then Some NFrac else None
  | NFrac => if is_digit c then Some NFrac else if e then Some NE else None
  | NE => if byte_is c 43 || byte_is c 45 then Some NSign else if is_digit c then Some NExp else None
  | NSign | NExp => if is_digit c then Some NExp else None
  end.
Definition number_complete (p : phase) : bool :=
  match p with N0 | N1 | NFrac | NExp => true | _ => false end.

(** The literals that are numbers. *)
Fixpoint continue_number (p : phase) (s : string) : option phase :=
  match s with
  | "" => Some p
  | String c s' => p' ← more_number p c; continue_number p' s'
  end.
Definition number_literal (lit : string) : bool :=
  match lit with
  | "" => false
  | String c s => match p ← begin_number c; continue_number p s with
                  | Some p => number_complete p
                  | None => false
                  end
  end.

Definition begin_value (k : list frame) (c : Ascii.ascii) : option state :=
  if byte_is c 123 then (if Z.of_nat (length k) <? max_nesting then Some (k, BeginStringOrEmpty) else None)
  else if byte_is c 91
  then (if Z.of_nat (length k) <? max_nesting then Some (InArray [] :: k, BeginValueOrEmpty) else None)
  else if byte_is c 34 then Some (k, InString None "" Plain)
  else if byte_is c 116 then Some (k, Literal "rue" (JBool true))
  else if byte_is c 102 then Some (k, Literal "alse" (JBool false))
  else if byte_is c 110 then Some (k, Literal "ull" JNull)
  else p ← begin_number c; Some (k, Number p (String c "")).

(** After a value. *)
Definition end_value (k : list frame) (j : json) (c : Ascii.ascii) : option state :=
  match k with
  | [] => Some ([], Top j (is_ws c))
  | InArray items :: k' =>
      if is_ws c then Some (k, EndValue j)
      else if byte_is c 44 then Some (InArray (items ++ [j]) :: k', BeginValue)
      else if byte_is c 93 then Some (k', EndValue (JArray (items ++ [j])))
      else None
  | InObject kvs key :: k' =>
      if is_ws c then Some (k, EndValue j)
      else if byte_is c 44 then Some (k', BeginString (kvs ++ [(key, j)]))
      else if byte_is c 125 then Some (k', EndValue (JObject (kvs ++ [(key, j)])))
      else None
  end.

Definition in_string (k : list frame) (key_of : option (list (string * json))) (raw : string)
    (e : escape) (c : Ascii.ascii) : option state :=
  let raw' := raw +:+ String c "" in
  match e with
  | Plain =>
      if byte_is c 34 then
        Some (k, match key_of with
                 | None => EndValue (JString (unquote raw))
                 | Some kvs => EndKey kvs (unquote raw)
                 end)
      else if byte_is c 92 then Some (k, InString key_of raw' Backslash)
      else if byte_of c <? 32 then None
      else Some (k, InString key_of raw' Plain)
  | Backslash =>
      if byte_is c 117 then Some (k, InString key_of raw' (Hex 4))
      else if existsb (byte_is c) [98; 102; 110; 114; 116; 92; 47; 34]
      then Some (k, InString key_of raw' Plain)
      else None
  | Hex n =>
      match unhex c with
      | None => None
      | Some _ => Some (k, InString key_of raw' (match n with S (S m) => Hex (S m) | _ => Plain end))
      end
  end.

Definition step (st : state) (c : Ascii.ascii) : option state :=
  let '(k, l) := st in
  match l with
  | BeginValue => if is_ws c then Some st else begin_value k c
  | BeginValueOrEmpty =>
      if is_ws c then Some st
      else if byte_is c 93 then Some (tail k, EndValue (JArray []))
      else begin_value k c
  | BeginStringOrEmpty =>
      if is_ws c then Some st
      else if byte_is c 125 then Some (k, EndValue (JObject []))
      else if byte_is c 34 then Some (k, InString (Some []) "" Plain)
      else None
  | BeginString kvs =>
      if is_ws c then Some st
      else if byte_is c 34 then Some (k, InString (Some kvs) "" Plain)
      else None
  | InString key_of raw e => in_string k key_of raw e c
  | EndKey kvs key =>
      if is_ws c then Some st
      else if byte_is c 58 then Some (InObject kvs key :: k, BeginValue)
      else None
  | Number p lit =>
      match more_number p c with
      | Some p' => Some (k, Number p' (lit +:+ String c ""))
      | None => if number_complete p then end_value k (JNumber lit) c else None
      end
  | Literal rest v =>
      match rest with
      | String x r => if Ascii.eqb x c then Some (k, if String.eqb r "" then EndValue v else Literal r v) else None
      | "" => None
      end
  | EndValue j => end_value k j c
  | Top j clean => if clean then Some (k, Top j (is_ws c)) else None
  end.

(** A document every number of which is a literal. *)
Fixpoint printable (j : json) : bool :=
  match j with
  | JNumber lit => number_literal lit
  | JArray l => forallb printable l
  | JObject kvs => forallb (λ kv, printable kv.2) kvs
  | _ => true
  end.

Definition start_state : state := ([], BeginValue).

Fixpoint feed (st : state) (s : string) : option state :=
  match s with
  | "" => Some st
  | String c s' => st' ← step st c; feed st' s'
  end.

(** The value when the input ends here: one more space settles it. *)
Definition at_end (st : state) : option json :=
  match st with
  | (_, Top j clean) => if clean then Some j else None
  | _ => match step st (chr 32) with Some (_, Top j _) => Some j | _ => None end
  end.

(** [json.Unmarshal] up to the tree: the text is one value and white space. *)
Definition Unmarshal (data : string) : option json := st ← feed start_state data; at_end st.

(** [Decoder.Decode] up to the tree, on the bytes that arrive and whether the
    stream then ends; otherwise reading fails.  An array or object ends the value
    at once, anything else with the byte that follows. *)
Fixpoint read_value (st : state) (s : string) (eof : bool) : option json :=
  match s with
  | "" => if eof then at_end st else None
  | String c s' =>
      match step st c with
      | None => None
      | Some (_, Top j _) => Some j
      | Some ([], EndValue j) =>
          if byte_is c 93 || byte_is c 125 then Some j else read_value ([], EndValue j) s' eof
      | Some st' => read_value st' s' eof
      end
  end.
Definition Decode (s : string) (eof : bool) : option json := read_value start_state s eof.
