(* ===== verification/JsonTextFacts.v ===== *)
(** * What json.Marshal writes, a JSON reader reads back

    For any value whose numbers are literals, of any strings: the text scans to
    the document [marshalled] describes, alone, followed by anything in a stream,
    or cut short by a limit (then to nothing else). *)
From Stdlib Require Import DecimalString DecimalPos DecimalFacts.
From S2P Require Import Prelude GoStrings GoJson JsonText.
Local Open Scope Z_scope.

(** ** Bytes and runes *)
Lemma byte_of_range c : 0 <= byte_of c < 256.
Proof. unfold byte_of. pose proof (Ascii.N_ascii_bounded c). lia. Qed.
Lemma byte_of_inj c d : byte_of c = byte_of d → c = d.
Proof. unfold byte_of. intros H%N2Z.inj. by rewrite <-(Ascii.ascii_N_embedding c), H, Ascii.ascii_N_embedding. Qed.
Lemma byte_of_chr n : (n < 256)%nat → byte_of (chr n) = Z.of_nat n.
Proof.
  intros Hn. unfold byte_of. rewrite <-(Ascii.nat_ascii_embedding n) at 2 by done.
  unfold Ascii.nat_of_ascii. lia.
Qed.

(** A decoded rune depends on its own bytes only. *)
Lemma decode_rune_prefix b0 r r' x n :
  decode_rune (b0 :: r) = (x, n) → negb ((x =? rune_error) && (n =? 1)%nat) = true →
  firstn (n - 1) r' = firstn (n - 1) r → decode_rune (b0 :: r') = (x, n).
Proof.
  unfold decode_rune, rune_error. intros Hd Hx. revert Hd Hx.
  destruct r as [|b1 [|b2 [|b3 r]]], r' as [|c1 [|c2 [|c3 r']]]; intros Hd Hx Hr;
    repeat case_match; simplify_eq/=; first [done | congruence].
Qed.
Lemma decode_rune_length b0 r x n :
  decode_rune (b0 :: r) = (x, n) → (1 <= n <= 4)%nat ∧ (n - 1 <= length r)%nat.
Proof. unfold decode_rune. intros Hd. repeat case_match; simplify_eq/=; lia. Qed.

(** Line and paragraph separators have one encoding. *)
Lemma decode_rune_separator b0 r x n : 0 <= b0 < 256 → Forall (λ b, 0 <= b < 256) r →
  decode_rune (b0 :: r) = (x, n) → x = 8232 ∨ x = 8233 →
  n = 3%nat ∧ b0 = 226 ∧ ∃ r', r = 128 :: (x - 8064) :: r'.
Proof.
  unfold decode_rune, cont, rune_error. intros Hb Hr Hd Hx.
  repeat case_match; simplify_eq/=; try lia;
    repeat match goal with
    | H : _ && _ = true |- _ => apply andb_true_iff in H as [? H]
    | H : (_ <=? _) = true |- _ => apply Z.leb_le in H
    | H : (_ =? _) = true |- _ => apply Z.eqb_eq in H
    | H : (_ =? _) = false |- _ => apply Z.eqb_neq in H
    end; try lia.
  split_and!; [done|lia|eexists; repeat f_equal; lia].
Qed.

(** ** Strings *)
Lemma unquote_escape c q : byte_of c < 128 → html_safe (byte_of c) = false →
  unquote_from 0 (escape_byte c +:+ q) = String c (unquote_from 0 q).
Proof.
  destruct c as [[] [] [] [] [] [] [] []]; intros H1 H2; first [discriminate H1 | discriminate H2 | reflexivity].
Qed.

Lemma quote_from_zero s b1 b2 : quote_from 0 b1 s = quote_from 0 b2 s.
Proof. by destruct s. Qed.

(** A run of bytes copied. *)
Lemma take_quote n s : firstn n (bytes_of (quote_from n true s)) = firstn n (bytes_of s).
Proof. revert s. induction n as [|n IH]; intros [|c s]; [done..|]. simpl. by rewrite IH. Qed.

Lemma decode_quote c s x n :
  decode_rune (bytes_of (String c s)) = (x, n) → negb ((x =? rune_error) && (n =? 1)%nat) = true →
  decode_rune (bytes_of (String c (quote_from (n - 1) true s))) = (x, n).
Proof. intros Hd Hx. apply (decode_rune_prefix _ (bytes_of s)); [done..|]. apply take_quote. Qed.

Lemma bytes_in_range s : Forall (λ b, 0 <= b < 256) (bytes_of s).
Proof. induction s as [|c s IH]; constructor; [apply byte_of_range|done]. Qed.

(** Two bytes by their codes. *)
Lemma bytes_of_two s b1 b2 r : bytes_of s = b1 :: b2 :: r →
  ∃ c1 c2 t, s = String c1 (String c2 t) ∧ byte_of c1 = b1 ∧ byte_of c2 = b2.
Proof. destruct s as [|c1 [|c2 t]]; simpl; [done..|]. intros [= <- <- _]. eauto 10. Qed.

Lemma byte_chr_of c : byte_chr (byte_of c) = c.
Proof. unfold byte_chr, byte_of. rewrite N2Z.id. apply Ascii.ascii_N_embedding. Qed.

Lemma separator_escape x q : x = 8232 ∨ x = 8233 →
  unquote_from 0 (backslash +:+ (if x =? 8232 then "u2028" else "u2029") +:+ q) =
  String (byte_chr 226) (String (byte_chr 128) (String (byte_chr (x - 8064)) (unquote_from 0 q))).
Proof. by intros [-> | ->]. Qed.

Lemma ascii_rune c s : byte_of c < 128 → decode_rune (bytes_of (String c s)) = (byte_of c, 1%nat).
Proof. intros Hc. unfold decode_rune. cbn [bytes_of]. apply Z.ltb_lt in Hc. by rewrite Hc. Qed.

Lemma to_valid_ascii c s : byte_of c < 128 → to_valid_from 0 (String c s) = String c (to_valid_from 0 s).
Proof.
  intros Hc. cbn [to_valid_from]. rewrite (ascii_rune c s Hc).
  rewrite (proj2 (Z.eqb_neq (byte_of c) rune_error)) by (unfold rune_error; lia). done.
Qed.
Lemma unquote_plain c s : byte_of c < 128 → byte_of c ≠ 92 →
  unquote_from 0 (String c s) = String c (unquote_from 0 s).
Proof.
  intros Hc H92. cbn [unquote_from]. rewrite (proj2 (Z.eqb_neq _ _) H92), (ascii_rune c s Hc).
  rewrite (proj2 (Z.eqb_neq (byte_of c) rune_error)) by (unfold rune_error; lia). done.
Qed.

Lemma unquote_quote_from m s skip : (String.length s <= m)%nat →
  unquote_from skip (quote_from skip true s) = to_valid_from skip s.
Proof.
  revert s skip. induction m as [|m IH]; intros [|c s] skip Hl; simpl in Hl; [done|lia|done|].
  destruct skip as [|k]; [|cbn [quote_from unquote_from to_valid_from]; by rewrite IH by lia].
  destruct (Z_lt_le_dec (byte_of c) 128) as [Hc|Hc].
  { rewrite to_valid_ascii by done. cbn [quote_from]. rewrite (proj2 (Z.ltb_lt _ _) Hc).
    destruct (html_safe (byte_of c)) eqn:Hs; [|by rewrite unquote_escape, IH by (done || lia)].
    rewrite app_String, app_empty, unquote_plain; [by rewrite IH by lia|done|].
    intros H92. by rewrite H92 in Hs. }
  cbn [quote_from to_valid_from]. rewrite (proj2 (Z.ltb_ge _ _) Hc).
  destruct (decode_rune (bytes_of (String c s))) as [x n] eqn:Hd.
  destruct ((x =? rune_error) && (n =? 1)%nat) eqn:He.
  { change (backslash +:+ "ufffd" +:+ quote_from 0 true s) with (backslash +:+ "ufffd" +:+ quote_from 0 true s).
    transitivity (replacement +:+ unquote_from 0 (quote_from 0 true s)); [done|]. by rewrite IH by lia. }
  destruct ((x =? 8232) || (x =? 8233)) eqn:Hx.
  - assert (x = 8232 ∨ x = 8233) as Hx' by (apply orb_true_iff in Hx as [?%Z.eqb_eq|?%Z.eqb_eq]; auto).
    destruct (decode_rune_separator (byte_of c) (bytes_of s) x n) as (-> & Hb & r' & Hr);
      [apply byte_of_range|apply bytes_in_range|done..|].
    apply bytes_of_two in Hr as (c1 & c2 & t & -> & H1 & H2).
    rewrite separator_escape by done. cbn [Nat.sub quote_from to_valid_from].
    rewrite <-Hb, <-H1, <-H2, !byte_chr_of, (quote_from_zero t false true). simpl in Hl. by rewrite IH by lia.
  - assert (Hd' := decode_quote c s x n Hd ltac:(by rewrite He)).
    cbn [unquote_from]. rewrite (proj2 (Z.eqb_neq (byte_of c) 92)) by lia. rewrite Hd', He.
    by rewrite IH by lia.
Qed.

(** What is written for a string reads back as the string, made valid. *)
Lemma unquote_quote s : unquote (quote_from 0 true s) = ToValidUTF8 s.
Proof. by apply (unquote_quote_from (String.length s)). Qed.

(** ** Scanning what was written *)
Lemma feed_app st a b : feed st (a +:+ b) = feed st a ≫= λ st', feed st' b.
Proof.
  revert st. induction a as [|c a IH]; intros st; [done|]. rewrite app_String. simpl.
  destruct (step st c); simpl; [apply IH|done].
Qed.

(** A text that keeps the scanner inside a string. *)
Definition scans (t : string) : Prop := ∀ k key_of raw,
  feed (k, InString key_of raw Plain) t = Some (k, InString key_of (raw +:+ t) Plain).

Lemma scans_nil : scans "".
Proof. intros k key_of raw. by rewrite app_nil_string. Qed.
Lemma scans_app a b : scans a → scans b → scans (a +:+ b).
Proof.
  intros Ha Hb k key_of raw. rewrite feed_app, Ha. simpl. by rewrite Hb, app_assoc_string.
Qed.
Lemma scans_byte c : 32 <= byte_of c → byte_of c ≠ 34 → byte_of c ≠ 92 → scans (String c "").
Proof.
  intros H1 H2 H3 k key_of raw. cbn. unfold in_string, byte_is.
  rewrite (proj2 (Z.eqb_neq _ _) H2), (proj2 (Z.eqb_neq _ _) H3), (proj2 (Z.ltb_ge _ _) H1). done.
Qed.
Lemma scans_cons c t : 32 <= byte_of c → byte_of c ≠ 34 → byte_of c ≠ 92 → scans t → scans (String c t).
Proof. intros H1 H2 H3 Ht. by apply (scans_app (String c "")); [apply scans_byte|]. Qed.

(** The escapes. *)
Lemma feed_step st st' c t : step st c = Some st' → feed st (String c t) = feed st' t.
Proof. intros Hs. simpl. by rewrite Hs. Qed.

Lemma scans_short e : byte_is e 117 = false → existsb (byte_is e) [98; 102; 110; 114; 116; 92; 47; 34] = true →
  scans (String (chr 92) (String e "")).
Proof.
  intros Hu He k key_of raw. erewrite feed_step by reflexivity.
  erewrite feed_step; [|unfold step, in_string; by rewrite Hu, He]. simpl. by rewrite !app_assoc_string.
Qed.

Lemma scans_unicode a b c d : is_Some (unhex a) → is_Some (unhex b) → is_Some (unhex c) → is_Some (unhex d) →
  scans (String (chr 92) (String (chr 117) (String a (String b (String c (String d "")))))).
Proof.
  intros [? Ha] [? Hb] [? Hc] [? Hd] k key_of raw. do 2 erewrite feed_step by reflexivity.
  erewrite feed_step; [|unfold step, in_string; by rewrite Ha].
  erewrite feed_step; [|unfold step, in_string; by rewrite Hb].
  erewrite feed_step; [|unfold step, in_string; by rewrite Hc].
  erewrite feed_step; [|unfold step, in_string; by rewrite Hd]. simpl. by rewrite !app_assoc_string.
Qed.

Ltac scans_escape :=
  first [ refine (scans_short _ _ _); reflexivity
        | refine (scans_unicode _ _ _ _ _ _ _ _); eexists; reflexivity ].

Lemma scans_escape_byte c : byte_of c < 128 → html_safe (byte_of c) = false → scans (escape_byte c).
Proof.
  destruct c as [[] [] [] [] [] [] [] []]; intros H1 H2;
    first [discriminate H1 | discriminate H2 | scans_escape].
Qed.

Lemma decode_rune_conts b0 r x n : 128 <= b0 →
  decode_rune (b0 :: r) = (x, n) → Forall (λ b, 128 <= b) (firstn (n - 1) r).
Proof.
  unfold decode_rune, cont. intros Hb Hd.
  repeat case_match; simplify_eq/=; repeat constructor; try lia;
    repeat match goal with
    | H : _ && _ = true |- _ => apply andb_true_iff in H as [? H]
    | H : (_ <=? _) = true |- _ => apply Z.leb_le in H
    end; lia.
Qed.

Lemma scans_quote_from m s skip : (String.length s <= m)%nat →
  Forall (λ b, 128 <= b) (firstn skip (bytes_of s)) → scans (quote_from skip true s).
Proof.
  revert s skip. induction m as [|m IH]; intros [|c s] skip Hl Hs; simpl in Hl;
    [apply scans_nil|lia|apply scans_nil|].
  assert (Hrest : scans (quote_from 0 true s)) by (apply IH; [lia|constructor]).
  destruct skip as [|k].
  2: { simpl in Hs. apply Forall_cons in Hs as [Hc Hs]. apply scans_cons; [lia..|]. apply IH; [lia|done]. }
  cbn [quote_from]. destruct (Z_lt_le_dec (byte_of c) 128) as [Hc|Hc].
  { rewrite (proj2 (Z.ltb_lt _ _) Hc). apply scans_app; [|done].
    destruct (html_safe (byte_of c)) eqn:Hh; [|by apply scans_escape_byte].
    unfold html_safe in Hh. apply scans_byte; repeat (apply andb_true_iff in Hh as [Hh ?]); try lia. }
  rewrite (proj2 (Z.ltb_ge _ _) Hc). destruct (decode_rune _) as [x n] eqn:Hd.
  pose proof (decode_rune_conts _ _ _ _ Hc Hd) as Hcont.
  destruct (_ && _).
  { apply (scans_app (backslash +:+ "ufffd")); [scans_escape|done]. }
  destruct ((x =? 8232) || (x =? 8233)) eqn:Hx; [|by apply scans_cons; [lia..|apply IH; [lia|]]].
  assert (x = 8232 ∨ x = 8233) as Hx' by (apply orb_true_iff in Hx as [?%Z.eqb_eq|?%Z.eqb_eq]; auto).
  destruct (decode_rune_separator (byte_of c) (bytes_of s) x n) as (-> & Hb & r' & Hr);
    [apply byte_of_range|apply bytes_in_range|done..|].
  apply bytes_of_two in Hr as (c1 & c2 & t & -> & _ & _). cbn [Nat.sub quote_from].
  rewrite (quote_from_zero t false true). simpl in Hl.
  apply (scans_app (backslash +:+ (if x =? 8232 then "u2028" else "u2029")));
    [|apply IH; [lia|constructor]].
  destruct Hx' as [-> | ->]; scans_escape.
Qed.

Lemma scans_quoted s : scans (quote_from 0 true s).
Proof. apply (scans_quote_from (String.length s)); [done|constructor]. Qed.

(** ** Values *)
Lemma json_nested_ind (Q : json → Prop) :
  Q JNull → (∀ b, Q (JBool b)) → (∀ lit, Q (JNumber lit)) → (∀ s, Q (JString s)) →
  (∀ l, Forall Q l → Q (JArray l)) → (∀ kvs, Forall (λ kv, Q kv.2) kvs → Q (JObject kvs)) → ∀ j, Q j.
Proof.
  intros H1 H2 H3 H4 H5 H6. fix IH 1. intros [| | | |l|kvs]; [done|done|done|done|apply H5|apply H6].
  - induction l as [|j l IHl]; constructor; [apply IH|apply IHl].
  - induction kvs as [|[k j] kvs IHk]; constructor; [apply IH|apply IHk].
Qed.

(** The bytes that may follow a value. *)
Definition separates (c : Ascii.ascii) : bool :=
  is_ws c || byte_is c 44 || byte_is c 93 || byte_is c 125.

(** A state in which [j] was read, at the latest once a separator follows. *)
Definition settles (l : lex) (j : json) : Prop :=
  ∀ k c, separates c = true → step (k, l) c = end_value k j c.

Lemma feed_number k p lit s p' :
  continue_number p s = Some p' → feed (k, Number p lit) s = Some (k, Number p' (lit +:+ s)).
Proof.
  revert p lit. induction s as [|c s IH]; intros p lit; simpl.
  - intros [= ->]. by rewrite app_nil_string.
  - destruct (more_number p c) as [q|] eqn:Hq; [|done]. simpl. intros Hs.
    rewrite (IH _ _ Hs). by rewrite app_assoc_string.
Qed.

Lemma number_settles p lit : number_complete p = true → settles (Number p lit) (JNumber lit).
Proof.
  intros Hp k c Hc. cbn [step]. rewrite Hp.
  replace (more_number p c) with (@None phase); [done|].
  destruct c as [[] [] [] [] [] [] [] []]; try discriminate Hc; by destruct p.
Qed.

Lemma begin_number_step k c p : begin_number c = Some p →
  step (k, BeginValue) c = Some (k, Number p (String c "")) ∧ is_ws c = false ∧ byte_is c 93 = false.
Proof.
  destruct c as [[] [] [] [] [] [] [] []]; intros H; try discriminate H; by injection H as <-.
Qed.

Definition head_ok (t : string) : Prop := ∃ c s, t = String c s ∧ is_ws c = false ∧ byte_is c 93 = false.

Lemma Marshal_head j : printable j = true → head_ok (Marshal j).
Proof.
  destruct j as [|[]|[|c s]|s|l|kvs]; simpl; intros Hp; try (eexists _, _; split; [reflexivity|done]); [done|].
  destruct (begin_number c) as [p|] eqn:Hb; [|done]. apply (begin_number_step []) in Hb as (_ & ? & ?).
  by exists c, s.
Qed.

Lemma feed_begin_or_empty k t : head_ok t → feed (k, BeginValueOrEmpty) t = feed (k, BeginValue) t.
Proof. intros (c & s & -> & Hw & Hb). simpl. by rewrite Hw, Hb. Qed.

Definition compound (j : json) : Prop := match j with JArray _ | JObject _ => True | _ => False end.

(** [j]'s text takes the scanner from before a value to after [j]. *)
Definition feeds (j : json) : Prop := ∀ k, Z.of_nat (length k + depth j) <= max_nesting →
  ∃ l, feed (k, BeginValue) (Marshal j) = Some (k, l) ∧ settles l (marshalled j) ∧
    (compound j → l = EndValue (marshalled j)).

Lemma settled_feed l j k c t : settles l j → separates c = true →
  feed (k, l) (String c t) = st ← end_value k j c; feed st t.
Proof. intros Hs Hc. cbn [feed]. by rewrite (Hs k c Hc). Qed.

Lemma feed_string k key_of s : feed (k, InString key_of "" Plain) (quote_from 0 true s +:+ dquote) =
  Some (k, match key_of with None => EndValue (JString (ToValidUTF8 s)) | Some kvs => EndKey kvs (ToValidUTF8 s) end).
Proof.
  rewrite feed_app, (scans_quoted s). cbn [mbind option_bind]. rewrite app_empty, <-unquote_quote. by destruct key_of.
Qed.

Lemma commas_cons x y l : commas (x :: y :: l) = x +:+ "," +:+ commas (y :: l).
Proof. done. Qed.

Lemma list_max_in (l : list nat) x : x ∈ l → (x <= list_max l)%nat.
Proof.
  intros Hx. pose proof (proj1 (list_max_le l (list_max l)) (le_n _)) as Hl.
  apply (proj1 (List.Forall_forall _ _) Hl). by apply list_elem_of_In.
Qed.

Lemma feed_elements l k items : l ≠ [] → Forall feeds l →
  (∀ j, j ∈ l → Z.of_nat (S (length k) + depth j) <= max_nesting) →
  feed (InArray items :: k, BeginValue) (commas (List.map Marshal l) +:+ "]") =
  Some (k, EndValue (JArray (items ++ List.map marshalled l))).
Proof.
  revert items. induction l as [|j l IH]; intros items Hne Hl Hd; [done|].
  apply Forall_cons in Hl as [Hj Hl].
  destruct (Hj (InArray items :: k)) as (st & Hst & Hset & _); [apply (Hd j), list_elem_of_here|].
  destruct l as [|j' l].
  - cbn [List.map commas]. rewrite feed_app, Hst. cbn [mbind option_bind].
    etransitivity; [exact (settled_feed st _ _ (chr 93) "" Hset eq_refl)|done].
  - cbn [List.map]. rewrite commas_cons, !app_assoc_string, feed_app, Hst. cbn [mbind option_bind].
    change ("," +:+ ?t) with (String (chr 44) t).
    etransitivity; [apply (settled_feed _ _ _ (chr 44) _ Hset eq_refl)|].
    cbn [end_value mbind option_bind].
    etransitivity; [apply (IH (items ++ [marshalled j])); [done..|]|by rewrite <-app_assoc].
    intros j2 Hj2. apply Hd. by apply list_elem_of_further.
Qed.

Lemma feed_members kvs k done_kvs : kvs ≠ [] → Forall (λ kv, feeds kv.2) kvs →
  (∀ kv, kv ∈ kvs → Z.of_nat (S (length k) + depth kv.2) <= max_nesting) →
  feed (k, BeginString done_kvs)
    (commas (List.map (λ kv, json_quote kv.1 +:+ ":" +:+ Marshal kv.2) kvs) +:+ "}") =
  Some (k, EndValue (JObject (done_kvs ++ List.map (λ kv, (ToValidUTF8 kv.1, marshalled kv.2)) kvs))).
Proof.
  revert done_kvs. induction kvs as [|[key j] kvs IH]; intros done_kvs Hne Hl Hd; [done|].
  apply Forall_cons in Hl as [Hj Hl]. simpl in Hj.
  assert (Hone : ∀ t, ∃ st, feed (k, BeginString done_kvs) (json_quote key +:+ ":" +:+ Marshal j +:+ t) =
    feed (InObject done_kvs (ToValidUTF8 key) :: k, st) t ∧ settles st (marshalled j)).
  { intros t. destruct (Hj (InObject done_kvs (ToValidUTF8 key) :: k)) as (st & Hst & Hset & _).
    { apply (Hd (key, j)), list_elem_of_here. }
    exists st. split; [|done]. unfold json_quote. rewrite app_assoc_string.
    change (dquote +:+ ?t) with (String (chr 34) t).
    etransitivity; [apply (feed_step _ (k, InString (Some done_kvs) "" Plain)); reflexivity|].
    rewrite feed_app, feed_string. cbn [mbind option_bind].
    change (":" +:+ ?t) with (String (chr 58) t).
    etransitivity; [apply (feed_step _ (InObject done_kvs (ToValidUTF8 key) :: k, BeginValue)); reflexivity|].
    by rewrite feed_app, Hst. }
  destruct kvs as [|kv kvs].
  - cbn [List.map commas fst snd]. rewrite !app_assoc_string. destruct (Hone "}") as (st & -> & Hset).
    etransitivity; [exact (settled_feed st _ _ (chr 125) "" Hset eq_refl)|done].
  - cbn [List.map fst snd]. rewrite commas_cons, !app_assoc_string.
    match goal with |- context [Marshal j +:+ ?t] => destruct (Hone t) as (st & Ht & Hset) end.
    etransitivity; [exact Ht|]. change ("," +:+ ?t) with (String (chr 44) t).
    etransitivity; [apply (settled_feed _ _ _ (chr 44) _ Hset eq_refl)|].
    cbn [end_value mbind option_bind].
    etransitivity; [apply (IH (done_kvs ++ [(ToValidUTF8 key, marshalled j)])); [done..|]|by rewrite <-app_assoc].
    intros kv2 Hkv. apply Hd. by apply list_elem_of_further.
Qed.

Lemma end_settles j : settles (EndValue j) j.
Proof. by intros k c _. Qed.
#[local] Hint Resolve end_settles : core.

Lemma depth_max l j : j ∈ l → (depth j <= list_max (List.map depth l))%nat.
Proof. intros Hj. apply list_max_in. by apply list_elem_of_fmap_2. Qed.
Lemma depth_max_member (kvs : list (string * json)) kv :
  kv ∈ kvs → (depth kv.2 <= list_max (List.map (λ kv, depth kv.2) kvs))%nat.
Proof. intros Hj. apply list_max_in. by apply (list_elem_of_fmap_2 (λ kv : string * json, depth kv.2)). Qed.

Lemma step_open k : Z.of_nat (length k) < max_nesting →
  step (k, BeginValue) (chr 91) = Some (InArray [] :: k, BeginValueOrEmpty) ∧
  step (k, BeginValue) (chr 123) = Some (k, BeginStringOrEmpty).
Proof. intros Hk%Z.ltb_lt. split; cbn [step]; unfold begin_value; by rewrite Hk. Qed.


Lemma Marshal_feeds j : printable j = true → feeds j.
Proof.
  induction j as [|b|lit|s|l IH|kvs IH] using json_nested_ind; intros Hp k Hd.
  - by exists (EndValue JNull).
  - exists (EndValue (JBool b)). by destruct b.
  - simpl in Hp. destruct lit as [|c s]; [done|]. simpl in Hp.
    destruct (begin_number c) as [p|] eqn:Hb; [|done]. simpl in Hp.
    destruct (continue_number p s) as [p'|] eqn:Hc; [|done].
    exists (Number p' (String c s)). split_and!; [|by apply number_settles|done].
    cbn [Marshal]. rewrite (feed_step _ _ _ _ (proj1 (begin_number_step k c p Hb))).
    by rewrite (feed_number _ _ _ _ _ Hc).
  - exists (EndValue (JString (ToValidUTF8 s))). split_and!; [|done..]. cbn [Marshal]. unfold json_quote.
    change (dquote +:+ ?t) with (String (chr 34) t).
    etransitivity; [apply (feed_step _ (k, InString None "" Plain)); reflexivity|]. apply feed_string.
  - exists (EndValue (marshalled (JArray l))). split_and!; [|done..]. cbn [Marshal marshalled depth] in *.
    destruct (step_open k) as [Hopen _]; [lia|].
    change ("[" +:+ ?t) with (String (chr 91) t). rewrite (feed_step _ _ _ _ Hopen).
    destruct l as [|j l]; [done|].
    assert (Hall : Forall feeds (j :: l)).
    { apply Forall_forall. intros j' Hj'. apply (proj1 (Forall_forall _ _) IH _ Hj').
      apply list_elem_of_In in Hj'. by apply (proj1 (forallb_forall _ _) Hp). }
    rewrite feed_begin_or_empty.
    + apply (feed_elements (j :: l) k []); [done..|].
      intros j' Hj'%depth_max. lia.
    + simpl in Hp. apply andb_true_iff in Hp as [Hp _]. destruct (Marshal_head j Hp) as (c & t & Ht & ? & ?).
      cbn [List.map]. destruct l as [|j' l]; cbn [List.map commas]; rewrite Ht; by eexists _, _.
  - exists (EndValue (marshalled (JObject kvs))). split_and!; [|done..]. cbn [Marshal marshalled depth] in *.
    destruct (step_open k) as [_ Hopen]; [lia|].
    change ("{" +:+ ?t) with (String (chr 123) t). rewrite (feed_step _ _ _ _ Hopen).
    destruct kvs as [|[key j] kvs]; [done|].
    etransitivity; [|apply (feed_members ((key, j) :: kvs) k []); [done|..]].
    + by destruct kvs.
    + apply Forall_forall. intros kv Hkv. apply (proj1 (Forall_forall _ _) IH _ Hkv).
      apply list_elem_of_In in Hkv. by apply (proj1 (forallb_forall _ _) Hp).
    + intros kv Hkv%depth_max_member. lia.
Qed.

(** ** Whole texts and streams *)
Definition is_top (l : lex) : bool := match l with Top _ _ => true | _ => false end.

Lemma settles_not_top l j : settles l j → is_top l = false.
Proof.
  intros Hs. destruct l as [| | | | | | | | |j' []]; try done;
    by pose proof (Hs [InArray []] (chr 44) eq_refl).
Qed.

Lemma at_end_settles l j : settles l j → at_end ([], l) = Some j.
Proof.
  intros Hs. pose proof (settles_not_top l j Hs) as Hn. pose proof (Hs [] (chr 32) eq_refl) as Hstep.
  unfold at_end. destruct l; try done; by rewrite Hstep.
Qed.

(** [json.Unmarshal] reads what [json.Marshal] wrote. *)
Lemma Unmarshal_Marshal j : printable j = true → Z.of_nat (depth j) <= max_nesting →
  Unmarshal (Marshal j) = Some (marshalled j).
Proof.
  intros Hp Hd. destruct (Marshal_feeds j Hp [] Hd) as (l & Hf & Hs & _).
  unfold Unmarshal, start_state. rewrite Hf. by apply at_end_settles.
Qed.

(** Once past the value, the scanner stays there. *)
Lemma feed_top k j clean s k' l : feed (k, Top j clean) s = Some (k', l) → is_top l = true.
Proof.
  revert k clean. induction s as [|c s IH]; intros k clean; cbn [feed step]; [by intros [= _ <-]|].
  destruct clean; [|done]. apply IH.
Qed.

(** What a decoder returns on a text it returns on any longer one. *)
Lemma read_value_app st s t eof j :
  read_value st s false = Some j → read_value st (s +:+ t) eof = Some j.
Proof.
  revert st. induction s as [|c s IH]; intros st; [done|]. rewrite app_String. cbn [read_value].
  destruct (step st c) as [[k l]|]; [|done].
  destruct l; destruct k; try apply IH; try done; by destruct (byte_is c 93 || byte_is c 125); [|apply IH].
Qed.

(** An array or object ends with its last byte. *)
Lemma read_value_closed st s c t eof j : byte_is c 93 || byte_is c 125 = true →
  feed st (s +:+ String c "") = Some ([], EndValue j) → read_value st (s +:+ String c t) eof = Some j.
Proof.
  intros Hc. revert st. induction s as [|d s IH]; intros st.
  - rewrite !app_empty. cbn [feed read_value]. destruct (step st c) as [st1|]; [|done].
    cbn [mbind option_bind]. intros [= ->]. by rewrite Hc.
  - rewrite !app_String. cbn [feed read_value]. destruct (step st d) as [[k l]|]; [|done].
    cbn [mbind option_bind]. intros Hf.
    assert (Htop : ∀ k' j' b s', feed (k', Top j' b) s' ≠ Some ([], EndValue j)).
    { intros k' j' b s' Hf'. by apply feed_top in Hf'. }
    destruct l as [| | | | | | | |j'|j' b]; destruct k; try (by apply IH); try (by apply Htop in Hf).
    exfalso. destruct s as [|e s]; [discriminate Hf|]. by apply Htop in Hf.
Qed.

(** The first value of a stream that begins with a document: whatever follows, and
    even if the stream breaks off there. *)
Lemma Decode_Marshal j t eof : compound j → printable j = true → Z.of_nat (depth j) <= max_nesting →
  Decode (Marshal j +:+ t) eof = Some (marshalled j).
Proof.
  intros Hj Hp Hd. destruct (Marshal_feeds j Hp [] Hd) as (l & Hf & _ & Hl). rewrite (Hl Hj) in Hf.
  assert (∃ s c, Marshal j = s +:+ String c "" ∧ byte_is c 93 || byte_is c 125 = true) as (s & c & Hm & Hc).
  { destruct j as [| | | |l'|kvs]; try done; cbn [Marshal].
    - exists ("[" +:+ commas (List.map Marshal l')), (chr 93). by rewrite app_assoc_string.
    - eexists ("{" +:+ _), (chr 125). by rewrite app_assoc_string. }
  unfold Decode, start_state. rewrite Hm in *. rewrite app_assoc_string. by apply read_value_closed.
Qed.

(** A text cut short gives the document or nothing. *)
Lemma Decode_cut j s t x : compound j → printable j = true → Z.of_nat (depth j) <= max_nesting →
  s +:+ t = Marshal j → Decode s false = Some x → x = marshalled j.
Proof.
  intros Hj Hp Hd Hs Hx. apply (read_value_app _ _ t false) in Hx. rewrite Hs in Hx.
  pose proof (Decode_Marshal j "" false Hj Hp Hd) as Hw. rewrite app_nil_string in Hw.
  unfold Decode in Hw. congruence.
Qed.

(** ** Integers as literals *)
Lemma digits_value_uint u acc :
  digits_value (Z.pos acc) (NilEmpty.string_of_uint u) = Some (Z.pos (Pos.of_uint_acc u acc)).
Proof.
  revert acc. induction u as [|u IH|u IH|u IH|u IH|u IH|u IH|u IH|u IH|u IH|u IH]; intros acc; [done|..];
    cbn [NilEmpty.string_of_uint digits_value Pos.of_uint_acc];
    match goal with |- (mbind _ ?x) = _ => let y := eval vm_compute in x in change x with y end;
    cbn [mbind option_bind]; rewrite <-IH; f_equal; lia.
Qed.

Lemma continue_uint u : continue_number N1 (NilEmpty.string_of_uint u) = Some N1.
Proof. by induction u. Qed.

(** The digits of a positive number start with one that is not zero. *)
Lemma to_uint_head p :
  ∃ c d u, NilZero.string_of_uint (Pos.to_uint p) = String c (NilEmpty.string_of_uint u) ∧
    digit c = Some (Z.pos d) ∧ begin_number c = Some N1 ∧ Ascii.eqb c (chr 45) = false ∧ Pos.of_uint_acc u d = p.
Proof.
  pose proof (DecimalPos.Unsigned.of_to p) as Hof. pose proof (DecimalPos.Unsigned.to_of (Pos.to_uint p)) as Hto.
  rewrite Hof in Hto. pose proof (Unsigned.to_uint_nonzero p) as Hz. cbn [N.to_uint] in Hto.
  destruct (Pos.to_uint p) as [|u|u|u|u|u|u|u|u|u|u] eqn:E; [done| |injection Hof as Hof..];
    try (eexists _, _, u; split; [reflexivity|]; split; [reflexivity|]; split; [reflexivity|]; split; [reflexivity|exact Hof]).
  exfalso. unfold Decimal.unorm in Hto. rewrite nzhead_D0 in Hto.
  destruct (Decimal.nzhead u) eqn:En; try discriminate; [by apply Hz|].
  by apply (nzhead_nonzero u u0).
Qed.

Lemma parse_int_itoa bits z : - 2 ^ (bits - 1) <= z < 2 ^ (bits - 1) → parse_int bits (itoa z) = Some z.
Proof.
  intros Hz. assert ((- 2 ^ (bits - 1) <=? z) && (z <? 2 ^ (bits - 1)) = true) as Hr by lia.
  unfold itoa, parse_int. destruct z as [|p|p]; cbn [Z.to_int NilZero.string_of_int].
  - change (NilZero.string_of_uint (Decimal.D0 Decimal.Nil)) with "0". cbn match.
    change (Ascii.eqb _ _) with false. cbv iota. change (digits_value 0 "0") with (Some 0). cbn [mbind option_bind].
    by rewrite Hr.
  - destruct (to_uint_head p) as (c & d & u & -> & Hd & _ & -> & Hp). cbn [digits_value]. rewrite Hd. cbn [mbind option_bind].
    rewrite Z.mul_0_l, Z.add_0_l, digits_value_uint, Hp. cbn [mbind option_bind]. by rewrite Hr.
  - cbn match. change (Ascii.eqb _ _) with true. cbv iota.
    destruct (to_uint_head p) as (c & d & u & -> & Hd & _ & _ & Hp). cbn [digits_value]. rewrite Hd. cbn [mbind option_bind].
    rewrite Z.mul_0_l, Z.add_0_l, digits_value_uint, Hp. cbn [mbind option_bind]. change (- Z.pos p) with (Z.neg p). by rewrite Hr.
Qed.

Lemma number_literal_itoa z : number_literal (itoa z) = true.
Proof.
  unfold itoa, number_literal. destruct z as [|p|p]; cbn [Z.to_int NilZero.string_of_int]; [done|..];
    destruct (to_uint_head p) as (c & d & u & -> & _ & Hb & _).
  - rewrite Hb. cbn [mbind option_bind]. by rewrite continue_uint.
  - change (begin_number _) with (Some NNeg). cbn [mbind option_bind continue_number].
    assert (more_number NNeg c = Some N1) as ->; [|cbn [mbind option_bind]; by rewrite continue_uint].
    unfold begin_number in Hb. cbn [more_number]. by destruct (byte_is c 45), (byte_is c 48), (is_digit c).
Qed.
