(* ===== verification/HttpMessage.v ===== *)
(** * HTTP messages, as a client sends and receives them *)
From S2P Require Import Prelude GoStrings GoJson JsonText.
Local Open Scope Z_scope.

(** [JsonBody j] is the text of [json.Marshal] for the value [j]. *)
Inductive Body : Type :=
| NoBody
| JsonBody (j : json)
| TextBody (s : string).

Definition body_text (b : Body) : string :=
  match b with NoBody => "" | JsonBody j => Marshal j | TextBody s => s end.

Record HttpRequest : Type := {
  hq_Method : string;
  hq_URL : string;
  hq_Header : list (string * string);
  hq_Body : Body
}.

(** A response: the bytes of the body that arrive, and whether it then ends or
    reading fails. *)
Record HttpResponse : Type := {
  hr_StatusCode : Z;
  hr_Body : string;
  hr_Complete : bool
}.

(** What [json.NewDecoder(resp.Body).Decode] reads, and what [json.Unmarshal] makes
    of [io.ReadAll(resp.Body)], whose error the callers ignore. *)
Definition hr_first (r : HttpResponse) : option json := Decode (hr_Body r) (hr_Complete r).
Definition hr_whole (r : HttpResponse) : option json := Unmarshal (hr_Body r).
