(* ===== verification/External.v ===== *)
(** * Third-party code

    What the operator uses of the Kubernetes and JWT libraries, as interfaces.
    Nothing here defines what that code does: the classes list the operations
    with their types, and the [...Laws] classes state documented behaviour that
    some theorems rely on. *)
From S2P Require Import Prelude.
Local Open Scope Z_scope.

(** ** k8s.io/apimachinery

    [resource.Quantity] with [Value] (an int64, rounded up), [String] and
    [ParseQuantity]; [unstructured.Unstructured] with its accessors.  A
    [Nested...] accessor returns the value (zero unless found), whether it was
    found, and whether there was an error. *)
Class Platform : Type := {
  Quantity : Type;
  Q_Value : Quantity → Z;
  Q_String : Quantity → string;
  ParseQuantity : string → option Quantity;
  (** the zero [resource.Quantity{}] *)
  Q_zero : Quantity;

  Unstructured : Type;
  GetName : Unstructured → string;
  GetNamespace : Unstructured → string;
  GetAnnotations : Unstructured → gmap string string;
  GetLabels : Unstructured → gmap string string;
  NestedInt64 : Unstructured → list string → Z * bool * bool;
  NestedString : Unstructured → list string → string * bool * bool
}.

(** [resource.MustParse] panics where [ParseQuantity] fails: [None]. *)
Definition MustParse `{Platform} (s : string) : option Quantity := ParseQuantity s.

(** The quantity [nGi], n an int32, parses to n times 2^30 bytes. *)
Class PlatformLaws (P : Platform) : Prop := {
  parse_gib : ∀ n : Z, int32_range n →
    ∃ q, ParseQuantity (itoa n +:+ "Gi") = Some q ∧ Q_Value q = n * 1073741824
}.
