(* ===== verification/ApiTypes.v ===== *)
(** * The custom resources, api/v1alpha1

    The Go structs of RightsizingRecommendation and RightsizingPolicy, with the
    constants and the default policy.  Times are nanoseconds since the epoch, a
    nil pointer is [None]; state and direction are Go strings, any value possible. *)
From S2P Require Import Prelude GoFloat External.
Local Open Scope Z_scope.

Definition AnnotationExclude : string := "rightsizing.redhatconsulting.io/exclude".
Definition LabelOwner : string := "rightsizing.redhatconsulting.io/owner".

Definition DirectionDownsize : string := "downsize".
Definition DirectionUpsize : string := "upsize".

Definition StatePending : string := "pending".
Definition StateAwaitingApproval : string := "awaiting-approval".
Definition StateApproved : string := "approved".
Definition StateAppliedPendingRestart : string := "applied-pending-restart".
Definition StateApplied : string := "applied".
Definition StateReverted : string := "reverted".
Definition StateFailed : string := "failed".

(** [types.NamespacedName] *)
Record NamespacedName : Type := NSName { nn_Namespace : string; nn_Name : string }.
#[export] Instance NamespacedName_eq_dec : EqDecision NamespacedName.
Proof. solve_decision. Defined.
#[export] Instance NamespacedName_countable : Countable NamespacedName.
Proof.
  refine (inj_countable' (λ n, (nn_Namespace n, nn_Name n)) (λ p, NSName p.1 p.2) _).
  by intros [].
Defined.

Record CPUSpec : Type := { cpu_Cores : Z; cpu_Sockets : Z; cpu_Threads : Z }.

Record ObjectRef : Type := { ref_Name : string; ref_Namespace : string }.

Record MetricsSnapshot : Type := {
  ms_LookbackDays : Z;
  ms_CPUP95Percent : f64;
  ms_MemoryP95Percent : f64;
  ms_CPUMaxPercent : f64;
  ms_MemoryMaxPercent : f64
}.

(** The part of [metav1.ObjectMeta] in play: the API server sets the version. *)
Record ObjectMeta : Type := {
  om_Name : string;
  om_Namespace : string;
  om_ResourceVersion : string
}.

Record AlgorithmSpec : Type := { al_Percentile : Z; al_HeadroomPercent : Z }.
Record AutoModeSpec : Type := { am_Enabled : bool; am_Schedule : string }.

Section Types.
Context `{P : Platform}.

Record ResourceSpec : Type := { rs_CPU : CPUSpec; rs_Memory : Quantity }.
Record SavingsSpec : Type := { sv_CPU : Z; sv_Memory : Quantity }.

Record RightsizingRecommendationSpec : Type := {
  sp_VirtualMachineRef : ObjectRef;
  sp_Direction : string;
  sp_Current : ResourceSpec;
  sp_Recommended : ResourceSpec;
  sp_Savings : SavingsSpec;
  sp_Metrics : MetricsSnapshot;
  sp_HotplugCapable : bool;
  sp_Reason : string
}.

Record RightsizingRecommendationStatus : Type := {
  st_State : string;
  st_LastCalculated : option Z;
  st_AppliedAt : option Z;
  st_ScheduledRestartAt : option Z;
  st_RevertBefore : option Z;
  st_RevertConfig : option ResourceSpec;
  st_Message : string;
  st_Owner : string;
  st_ApprovalToken : string;
  st_NotifiedAt : option Z;
  st_ApprovedBy : string;
  st_ApprovedAt : option Z;
  st_RejectedBy : string;
  st_RejectedAt : option Z;
  st_RejectionReason : string;
  st_ServiceNowIncident : string;
  st_ReminderSentAt : option Z
}.

Definition set_Direction (v : string) (s : RightsizingRecommendationSpec) : RightsizingRecommendationSpec := {|
  sp_VirtualMachineRef := sp_VirtualMachineRef s; sp_Direction := v;
  sp_Current := sp_Current s; sp_Recommended := sp_Recommended s; sp_Savings := sp_Savings s;
  sp_Metrics := sp_Metrics s; sp_HotplugCapable := sp_HotplugCapable s;
  sp_Reason := sp_Reason s |}.
Definition set_Recommended (v : ResourceSpec) (s : RightsizingRecommendationSpec) : RightsizingRecommendationSpec := {|
  sp_VirtualMachineRef := sp_VirtualMachineRef s; sp_Direction := sp_Direction s;
  sp_Current := sp_Current s; sp_Recommended := v; sp_Savings := sp_Savings s;
  sp_Metrics := sp_Metrics s; sp_HotplugCapable := sp_HotplugCapable s;
  sp_Reason := sp_Reason s |}.
Definition set_Savings (v : SavingsSpec) (s : RightsizingRecommendationSpec) : RightsizingRecommendationSpec := {|
  sp_VirtualMachineRef := sp_VirtualMachineRef s; sp_Direction := sp_Direction s;
  sp_Current := sp_Current s; sp_Recommended := sp_Recommended s; sp_Savings := v;
  sp_Metrics := sp_Metrics s; sp_HotplugCapable := sp_HotplugCapable s;
  sp_Reason := sp_Reason s |}.
Definition set_Metrics (v : MetricsSnapshot) (s : RightsizingRecommendationSpec) : RightsizingRecommendationSpec := {|
  sp_VirtualMachineRef := sp_VirtualMachineRef s; sp_Direction := sp_Direction s;
  sp_Current := sp_Current s; sp_Recommended := sp_Recommended s; sp_Savings := sp_Savings s;
  sp_Metrics := v; sp_HotplugCapable := sp_HotplugCapable s; sp_Reason := sp_Reason s |}.
Definition set_Reason (v : string) (s : RightsizingRecommendationSpec) : RightsizingRecommendationSpec := {|
  sp_VirtualMachineRef := sp_VirtualMachineRef s; sp_Direction := sp_Direction s;
  sp_Current := sp_Current s; sp_Recommended := sp_Recommended s; sp_Savings := sp_Savings s;
  sp_Metrics := sp_Metrics s; sp_HotplugCapable := sp_HotplugCapable s; sp_Reason := v |}.

Definition set_State (v : string) (s : RightsizingRecommendationStatus) : RightsizingRecommendationStatus := {|
  st_State := v; st_LastCalculated := st_LastCalculated s; st_AppliedAt := st_AppliedAt s;
  st_ScheduledRestartAt := st_ScheduledRestartAt s; st_RevertBefore := st_RevertBefore s;
  st_RevertConfig := st_RevertConfig s; st_Message := st_Message s; st_Owner := st_Owner s;
  st_ApprovalToken := st_ApprovalToken s; st_NotifiedAt := st_NotifiedAt s;
  st_ApprovedBy := st_ApprovedBy s; st_ApprovedAt := st_ApprovedAt s;
  st_RejectedBy := st_RejectedBy s; st_RejectedAt := st_RejectedAt s;
  st_RejectionReason := st_RejectionReason s; st_ServiceNowIncident := st_ServiceNowIncident s;
  st_ReminderSentAt := st_ReminderSentAt s |}.
Definition set_LastCalculated (v : option Z) (s : RightsizingRecommendationStatus) : RightsizingRecommendationStatus := {|
  st_State := st_State s; st_LastCalculated := v; st_AppliedAt := st_AppliedAt s;
  st_ScheduledRestartAt := st_ScheduledRestartAt s; st_RevertBefore := st_RevertBefore s;
  st_RevertConfig := st_RevertConfig s; st_Message := st_Message s; st_Owner := st_Owner s;
  st_ApprovalToken := st_ApprovalToken s; st_NotifiedAt := st_NotifiedAt s;
  st_ApprovedBy := st_ApprovedBy s; st_ApprovedAt := st_ApprovedAt s;
  st_RejectedBy := st_RejectedBy s; st_RejectedAt := st_RejectedAt s;
  st_RejectionReason := st_RejectionReason s; st_ServiceNowIncident := st_ServiceNowIncident s;
  st_ReminderSentAt := st_ReminderSentAt s |}.
Definition set_AppliedAt (v : option Z) (s : RightsizingRecommendationStatus) : RightsizingRecommendationStatus := {|
  st_State := st_State s; st_LastCalculated := st_LastCalculated s; st_AppliedAt := v;
  st_ScheduledRestartAt := st_ScheduledRestartAt s; st_RevertBefore := st_RevertBefore s;
  st_RevertConfig := st_RevertConfig s; st_Message := st_Message s; st_Owner := st_Owner s;
  st_ApprovalToken := st_ApprovalToken s; st_NotifiedAt := st_NotifiedAt s;
  st_ApprovedBy := st_ApprovedBy s; st_ApprovedAt := st_ApprovedAt s;
  st_RejectedBy := st_RejectedBy s; st_RejectedAt := st_RejectedAt s;
  st_RejectionReason := st_RejectionReason s; st_ServiceNowIncident := st_ServiceNowIncident s;
  st_ReminderSentAt := st_ReminderSentAt s |}.
Definition set_ScheduledRestartAt (v : option Z) (s : RightsizingRecommendationStatus) : RightsizingRecommendationStatus := {|
  st_State := st_State s; st_LastCalculated := st_LastCalculated s;
  st_AppliedAt := st_AppliedAt s; st_ScheduledRestartAt := v;
  st_RevertBefore := st_RevertBefore s; st_RevertConfig := st_RevertConfig s;
  st_Message := st_Message s; st_Owner := st_Owner s; st_ApprovalToken := st_ApprovalToken s;
  st_NotifiedAt := st_NotifiedAt s; st_ApprovedBy := st_ApprovedBy s;
  st_ApprovedAt := st_ApprovedAt s; st_RejectedBy := st_RejectedBy s;
  st_RejectedAt := st_RejectedAt s; st_RejectionReason := st_RejectionReason s;
  st_ServiceNowIncident := st_ServiceNowIncident s; st_ReminderSentAt := st_ReminderSentAt s |}.
Definition set_RevertConfig (v : option ResourceSpec) (s : RightsizingRecommendationStatus) : RightsizingRecommendationStatus := {|
  st_State := st_State s; st_LastCalculated := st_LastCalculated s;
  st_AppliedAt := st_AppliedAt s; st_ScheduledRestartAt := st_ScheduledRestartAt s;
  st_RevertBefore := st_RevertBefore s; st_RevertConfig := v; st_Message := st_Message s;
  st_Owner := st_Owner s; st_ApprovalToken := st_ApprovalToken s;
  st_NotifiedAt := st_NotifiedAt s; st_ApprovedBy := st_ApprovedBy s;
  st_ApprovedAt := st_ApprovedAt s; st_RejectedBy := st_RejectedBy s;
  st_RejectedAt := st_RejectedAt s; st_RejectionReason := st_RejectionReason s;
  st_ServiceNowIncident := st_ServiceNowIncident s; st_ReminderSentAt := st_ReminderSentAt s |}.
Definition set_Message (v : string) (s : RightsizingRecommendationStatus) : RightsizingRecommendationStatus := {|
  st_State := st_State s; st_LastCalculated := st_LastCalculated s;
  st_AppliedAt := st_AppliedAt s; st_ScheduledRestartAt := st_ScheduledRestartAt s;
  st_RevertBefore := st_RevertBefore s; st_RevertConfig := st_RevertConfig s; st_Message := v;
  st_Owner := st_Owner s; st_ApprovalToken := st_ApprovalToken s;
  st_NotifiedAt := st_NotifiedAt s; st_ApprovedBy := st_ApprovedBy s;
  st_ApprovedAt := st_ApprovedAt s; st_RejectedBy := st_RejectedBy s;
  st_RejectedAt := st_RejectedAt s; st_RejectionReason := st_RejectionReason s;
  st_ServiceNowIncident := st_ServiceNowIncident s; st_ReminderSentAt := st_ReminderSentAt s |}.
Definition set_Owner (v : string) (s : RightsizingRecommendationStatus) : RightsizingRecommendationStatus := {|
  st_State := st_State s; st_LastCalculated := st_LastCalculated s;
  st_AppliedAt := st_AppliedAt s; st_ScheduledRestartAt := st_ScheduledRestartAt s;
  st_RevertBefore := st_RevertBefore s; st_RevertConfig := st_RevertConfig s;
  st_Message := st_Message s; st_Owner := v; st_ApprovalToken := st_ApprovalToken s;
  st_NotifiedAt := st_NotifiedAt s; st_ApprovedBy := st_ApprovedBy s;
  st_ApprovedAt := st_ApprovedAt s; st_RejectedBy := st_RejectedBy s;
  st_RejectedAt := st_RejectedAt s; st_RejectionReason := st_RejectionReason s;
  st_ServiceNowIncident := st_ServiceNowIncident s; st_ReminderSentAt := st_ReminderSentAt s |}.
Definition set_ApprovalToken (v : string) (s : RightsizingRecommendationStatus) : RightsizingRecommendationStatus := {|
  st_State := st_State s; st_LastCalculated := st_LastCalculated s;
  st_AppliedAt := st_AppliedAt s; st_ScheduledRestartAt := st_ScheduledRestartAt s;
  st_RevertBefore := st_RevertBefore s; st_RevertConfig := st_RevertConfig s;
  st_Message := st_Message s; st_Owner := st_Owner s; st_ApprovalToken := v;
  st_NotifiedAt := st_NotifiedAt s; st_ApprovedBy := st_ApprovedBy s;
  st_ApprovedAt := st_ApprovedAt s; st_RejectedBy := st_RejectedBy s;
  st_RejectedAt := st_RejectedAt s; st_RejectionReason := st_RejectionReason s;
  st_ServiceNowIncident := st_ServiceNowIncident s; st_ReminderSentAt := st_ReminderSentAt s |}.
Definition set_NotifiedAt (v : option Z) (s : RightsizingRecommendationStatus) : RightsizingRecommendationStatus := {|
  st_State := st_State s; st_LastCalculated := st_LastCalculated s;
  st_AppliedAt := st_AppliedAt s; st_ScheduledRestartAt := st_ScheduledRestartAt s;
  st_RevertBefore := st_RevertBefore s; st_RevertConfig := st_RevertConfig s;
  st_Message := st_Message s; st_Owner := st_Owner s; st_ApprovalToken := st_ApprovalToken s;
  st_NotifiedAt := v; st_ApprovedBy := st_ApprovedBy s; st_ApprovedAt := st_ApprovedAt s;
  st_RejectedBy := st_RejectedBy s; st_RejectedAt := st_RejectedAt s;
  st_RejectionReason := st_RejectionReason s; st_ServiceNowIncident := st_ServiceNowIncident s;
  st_ReminderSentAt := st_ReminderSentAt s |}.
Definition set_ApprovedBy (v : string) (s : RightsizingRecommendationStatus) : RightsizingRecommendationStatus := {|
  st_State := st_State s; st_LastCalculated := st_LastCalculated s;
  st_AppliedAt := st_AppliedAt s; st_ScheduledRestartAt := st_ScheduledRestartAt s;
  st_RevertBefore := st_RevertBefore s; st_RevertConfig := st_RevertConfig s;
  st_Message := st_Message s; st_Owner := st_Owner s; st_ApprovalToken := st_ApprovalToken s;
  st_NotifiedAt := st_NotifiedAt s; st_ApprovedBy := v; st_ApprovedAt := st_ApprovedAt s;
  st_RejectedBy := st_RejectedBy s; st_RejectedAt := st_RejectedAt s;
  st_RejectionReason := st_RejectionReason s; st_ServiceNowIncident := st_ServiceNowIncident s;
  st_ReminderSentAt := st_ReminderSentAt s |}.
Definition set_ApprovedAt (v : option Z) (s : RightsizingRecommendationStatus) : RightsizingRecommendationStatus := {|
  st_State := st_State s; st_LastCalculated := st_LastCalculated s;
  st_AppliedAt := st_AppliedAt s; st_ScheduledRestartAt := st_ScheduledRestartAt s;
  st_RevertBefore := st_RevertBefore s; st_RevertConfig := st_RevertConfig s;
  st_Message := st_Message s; st_Owner := st_Owner s; st_ApprovalToken := st_ApprovalToken s;
  st_NotifiedAt := st_NotifiedAt s; st_ApprovedBy := st_ApprovedBy s; st_ApprovedAt := v;
  st_RejectedBy := st_RejectedBy s; st_RejectedAt := st_RejectedAt s;
  st_RejectionReason := st_RejectionReason s; st_ServiceNowIncident := st_ServiceNowIncident s;
  st_ReminderSentAt := st_ReminderSentAt s |}.
Definition set_RejectedBy (v : string) (s : RightsizingRecommendationStatus) : RightsizingRecommendationStatus := {|
  st_State := st_State s; st_LastCalculated := st_LastCalculated s;
  st_AppliedAt := st_AppliedAt s; st_ScheduledRestartAt := st_ScheduledRestartAt s;
  st_RevertBefore := st_RevertBefore s; st_RevertConfig := st_RevertConfig s;
  st_Message := st_Message s; st_Owner := st_Owner s; st_ApprovalToken := st_ApprovalToken s;
  st_NotifiedAt := st_NotifiedAt s; st_ApprovedBy := st_ApprovedBy s;
  st_ApprovedAt := st_ApprovedAt s; st_RejectedBy := v; st_RejectedAt := st_RejectedAt s;
  st_RejectionReason := st_RejectionReason s; st_ServiceNowIncident := st_ServiceNowIncident s;
  st_ReminderSentAt := st_ReminderSentAt s |}.
Definition set_RejectedAt (v : option Z) (s : RightsizingRecommendationStatus) : RightsizingRecommendationStatus := {|
  st_State := st_State s; st_LastCalculated := st_LastCalculated s;
  st_AppliedAt := st_AppliedAt s; st_ScheduledRestartAt := st_ScheduledRestartAt s;
  st_RevertBefore := st_RevertBefore s; st_RevertConfig := st_RevertConfig s;
  st_Message := st_Message s; st_Owner := st_Owner s; st_ApprovalToken := st_ApprovalToken s;
  st_NotifiedAt := st_NotifiedAt s; st_ApprovedBy := st_ApprovedBy s;
  st_ApprovedAt := st_ApprovedAt s; st_RejectedBy := st_RejectedBy s; st_RejectedAt := v;
  st_RejectionReason := st_RejectionReason s; st_ServiceNowIncident := st_ServiceNowIncident s;
  st_ReminderSentAt := st_ReminderSentAt s |}.
Definition set_RejectionReason (v : string) (s : RightsizingRecommendationStatus) : RightsizingRecommendationStatus := {|
  st_State := st_State s; st_LastCalculated := st_LastCalculated s;
  st_AppliedAt := st_AppliedAt s; st_ScheduledRestartAt := st_ScheduledRestartAt s;
  st_RevertBefore := st_RevertBefore s; st_RevertConfig := st_RevertConfig s;
  st_Message := st_Message s; st_Owner := st_Owner s; st_ApprovalToken := st_ApprovalToken s;
  st_NotifiedAt := st_NotifiedAt s; st_ApprovedBy := st_ApprovedBy s;
  st_ApprovedAt := st_ApprovedAt s; st_RejectedBy := st_RejectedBy s;
  st_RejectedAt := st_RejectedAt s; st_RejectionReason := v;
  st_ServiceNowIncident := st_ServiceNowIncident s; st_ReminderSentAt := st_ReminderSentAt s |}.
Definition set_ReminderSentAt (v : option Z) (s : RightsizingRecommendationStatus) : RightsizingRecommendationStatus := {|
  st_State := st_State s; st_LastCalculated := st_LastCalculated s;
  st_AppliedAt := st_AppliedAt s; st_ScheduledRestartAt := st_ScheduledRestartAt s;
  st_RevertBefore := st_RevertBefore s; st_RevertConfig := st_RevertConfig s;
  st_Message := st_Message s; st_Owner := st_Owner s; st_ApprovalToken := st_ApprovalToken s;
  st_NotifiedAt := st_NotifiedAt s; st_ApprovedBy := st_ApprovedBy s;
  st_ApprovedAt := st_ApprovedAt s; st_RejectedBy := st_RejectedBy s;
  st_RejectedAt := st_RejectedAt s; st_RejectionReason := st_RejectionReason s;
  st_ServiceNowIncident := st_ServiceNowIncident s; st_ReminderSentAt := v |}.

Record RightsizingRecommendation : Type := {
  rr_Meta : ObjectMeta;
  rr_Spec : RightsizingRecommendationSpec;
  rr_Status : RightsizingRecommendationStatus
}.

(** [rec.Status.F = v; ...] and [rec.Spec.F = v; ...] *)
Definition upd_Status (f : RightsizingRecommendationStatus → RightsizingRecommendationStatus)
    (r : RightsizingRecommendation) : RightsizingRecommendation :=
  {| rr_Meta := rr_Meta r; rr_Spec := rr_Spec r; rr_Status := f (rr_Status r) |}.
Definition upd_Spec (f : RightsizingRecommendationSpec → RightsizingRecommendationSpec)
    (r : RightsizingRecommendation) : RightsizingRecommendation :=
  {| rr_Meta := rr_Meta r; rr_Spec := f (rr_Spec r); rr_Status := rr_Status r |}.

Definition rr_key (r : RightsizingRecommendation) : NamespacedName :=
  NSName (om_Namespace (rr_Meta r)) (om_Name (rr_Meta r)).
Definition rr_state (r : RightsizingRecommendation) : string := st_State (rr_Status r).

(** The zero status of a freshly built object. *)
Definition zero_Status : RightsizingRecommendationStatus := {|
  st_State := ""; st_LastCalculated := None; st_AppliedAt := None;
  st_ScheduledRestartAt := None; st_RevertBefore := None; st_RevertConfig := None;
  st_Message := ""; st_Owner := ""; st_ApprovalToken := ""; st_NotifiedAt := None;
  st_ApprovedBy := ""; st_ApprovedAt := None; st_RejectedBy := ""; st_RejectedAt := None;
  st_RejectionReason := ""; st_ServiceNowIncident := ""; st_ReminderSentAt := None |}.

(** ** RightsizingPolicy *)
Record ThresholdsSpec : Type := {
  th_MinCPUSavings : Z;
  th_MinMemorySavings : Quantity;
  th_UpsizeUtilizationPercent : Z
}.
Record MetricsStorageSpec : Type := { mt_RetentionDays : Z; mt_StorageSize : Quantity }.

Record RightsizingPolicySpec : Type := {
  ps_LookbackDays : Z;
  ps_Algorithm : AlgorithmSpec;
  ps_Thresholds : ThresholdsSpec;
  ps_RevertRetentionDays : Z;
  ps_AutoMode : AutoModeSpec;
  ps_ReconcileIntervalMinutes : Z;
  ps_MetricsStorage : MetricsStorageSpec
}.

Record RightsizingPolicy : Type := {
  rp_Name : string;
  rp_ResourceVersion : string;
  rp_Spec : RightsizingPolicySpec
}.

(** [None]: the panic of a [MustParse]. *)
Definition DefaultPolicySpec : option RightsizingPolicySpec :=
  minMem ← MustParse "1Gi";
  storage ← MustParse "50Gi";
  Some {|
    ps_LookbackDays := 30;
    ps_Algorithm := {| al_Percentile := 95; al_HeadroomPercent := 20 |};
    ps_Thresholds := {|
      th_MinCPUSavings := 1;
      th_MinMemorySavings := minMem;
      th_UpsizeUtilizationPercent := 90 |};
    ps_RevertRetentionDays := 30;
    ps_ReconcileIntervalMinutes := 60;
    ps_AutoMode := {| am_Enabled := false; am_Schedule := "0 2 * * *" |};
    ps_MetricsStorage := {| mt_RetentionDays := 90; mt_StorageSize := storage |}
  |}.
End Types.

(** [x |> f] feeds a value to an update, so that a sequence of assignments reads
    in the order of the code. *)
Declare Scope ovro_scope.
Delimit Scope ovro_scope with ovro.
Notation "x |> f" := (f x) (at level 57, left associativity, only parsing) : ovro_scope.
