(* ===== verification/Effects.v ===== *)
(** * Programs with calls to the outside

    A handler or reconciler is a finite tree of calls to its environment (the API
    server, the metrics backend, the clock, ...): each call continues with
    whatever answer comes back.  Its meaning is the set of its runs, a run being
    the calls made with their answers, in order, and how it ended.  A property
    of all runs holds for every environment, failures and stale reads included;
    an environment is added as a relation on its own state that must allow each
    call and answer of the run. *)
From S2P Require Import Prelude.

Inductive prog (E : Type → Type) (A : Type) : Type :=
| Return (a : A)
| Crash (msg : string)
| Vis {X : Type} (e : E X) (k : X → prog E A).
Arguments Return {E A} a.
Arguments Crash {E A} msg.
Arguments Vis {E A X} e k.

Inductive outcome (A : Type) : Type :=
| Returns (a : A)
| Panics (msg : string).
Arguments Returns {A} a.
Arguments Panics {A} msg.

Fixpoint prog_bind {E A B} (p : prog E A) (f : A → prog E B) : prog E B :=
  match p with
  | Return a => f a
  | Crash m => Crash m
  | Vis e k => Vis e (λ x, prog_bind (k x) f)
  end.

#[export] Instance prog_ret E : MRet (prog E) := λ A a, Return a.
#[export] Instance prog_mbind E : MBind (prog E) := λ A B f p, prog_bind p f.

(** One call. *)
Definition call {E X} (e : E X) : prog E X := Vis e Return.

(** A value that is absent when the code would panic. *)
Definition must {E A} (msg : string) (o : option A) : prog E A :=
  match o with Some a => Return a | None => Crash msg end.

(** A loop over a slice threading a value. *)
Fixpoint foldM {E A S} (f : S → A → prog E S) (s : S) (l : list A) : prog E S :=
  match l with
  | [] => Return s
  | a :: l' => s' ← f s a; foldM f s' l'
  end.

(** ** Runs *)
Inductive obs (E : Type → Type) : Type :=
| Obs {X : Type} (e : E X) (x : X).
Arguments Obs {E X} e x.

Fixpoint runs {E A} (p : prog E A) (tr : list (obs E)) (out : outcome A) : Prop :=
  match p with
  | Return a => tr = [] ∧ out = Returns a
  | Crash m => tr = [] ∧ out = Panics m
  | Vis e k => ∃ x tr', tr = Obs e x :: tr' ∧ runs (k x) tr' out
  end.

Lemma runs_bind {E A B} (p : prog E A) (f : A → prog E B) tr out :
  runs (p ≫= f) tr out ↔
  (∃ a tr1 tr2, tr = tr1 ++ tr2 ∧ runs p tr1 (Returns a) ∧ runs (f a) tr2 out) ∨
  (∃ m, out = Panics m ∧ runs p tr (Panics m)).
Proof.
  unfold mbind, prog_mbind. revert tr. induction p as [a|m|X e k IH]; intros tr; simpl.
  - split; [intros H; left; exists a, [], tr; naive_solver|].
    intros [(a' & tr1 & tr2 & -> & [-> [= ->]] & ?)|(m & ? & ? & ?)]; done.
  - split; [intros [-> ->]; right; eauto|].
    intros [(a' & tr1 & tr2 & -> & [? ?] & ?)|(m' & -> & -> & [= ->])]; done.
  - split.
    + intros (x & tr' & -> & [(a & tr1 & tr2 & -> & ? & ?)|(m & -> & ?)]%IH).
      * left. exists a, (Obs e x :: tr1), tr2. naive_solver.
      * right. exists m. naive_solver.
    + intros [(a & tr1 & tr2 & -> & (x & tr' & -> & ?) & ?)|(m & -> & x & tr' & -> & ?)];
        exists x; eexists; (split; [done|]); apply IH; [left|right]; naive_solver.
Qed.

(** The runs that do not panic, through a bind. *)
Lemma runs_bind_returns {E A B} (p : prog E A) (f : A → prog E B) tr b :
  runs (p ≫= f) tr (Returns b) ↔
  ∃ a tr1 tr2, tr = tr1 ++ tr2 ∧ runs p tr1 (Returns a) ∧ runs (f a) tr2 (Returns b).
Proof. rewrite runs_bind. naive_solver. Qed.

(** A call in front. *)
Lemma runs_call {E X A} (e : E X) (f : X → prog E A) tr out :
  runs (call e ≫= f) tr out ↔ ∃ x tr', tr = Obs e x :: tr' ∧ runs (f x) tr' out.
Proof. done. Qed.

Lemma prog_bind_assoc {E A B C} (p : prog E A) (f : A → prog E B) (g : B → prog E C) tr out :
  runs (prog_bind (prog_bind p f) g) tr out ↔ runs (prog_bind p (λ a, prog_bind (f a) g)) tr out.
Proof.
  revert tr. induction p as [a|m|X e k IH]; intros tr; simpl; [done..|].
  by setoid_rewrite IH.
Qed.

(** A program over some calls is one over more: each call is sent as [f] says. *)
Fixpoint embed {E F : Type → Type} {A} (f : ∀ X, E X → F X) (p : prog E A) : prog F A :=
  match p with
  | Return a => Return a
  | Crash m => Crash m
  | Vis e k => Vis (f _ e) (λ x, embed f (k x))
  end.

Definition embed_obs {E F : Type → Type} (f : ∀ X, E X → F X) (o : obs E) : obs F :=
  match o with Obs e x => Obs (f _ e) x end.

Lemma runs_embed {E F : Type → Type} {A} (f : ∀ X, E X → F X) (p : prog E A) tr out :
  runs (embed f p) tr out ↔ ∃ tr', tr = embed_obs f <$> tr' ∧ runs p tr' out.
Proof.
  revert tr. induction p as [a|m|X e k IH]; intros tr; simpl.
  1,2: split; [intros [-> ->]; by exists []|by intros (? & -> & -> & ->)].
  setoid_rewrite IH. split.
  - intros (x & ? & -> & tr' & -> & Hr). exists (Obs e x :: tr'). eauto.
  - intros (? & -> & x & tr' & -> & Hr). eauto 10.
Qed.

(** ** Properties of all runs

    [wp p Q]: every run of [p] has a trace and an outcome in [Q].  It computes
    along the program, so a proof walks through the handler's calls. *)
Fixpoint wp {E A} (p : prog E A) (Q : list (obs E) → outcome A → Prop) : Prop :=
  match p with
  | Return a => Q [] (Returns a)
  | Crash m => Q [] (Panics m)
  | Vis e k => ∀ x, wp (k x) (λ tr out, Q (Obs e x :: tr) out)
  end.

Lemma wp_runs {E A} (p : prog E A) Q : wp p Q ↔ ∀ tr out, runs p tr out → Q tr out.
Proof.
  revert Q. induction p as [a|m|X e k IH]; intros Q; simpl.
  - split; [by intros ? ? ? [-> ->]|eauto].
  - split; [by intros ? ? ? [-> ->]|eauto].
  - setoid_rewrite IH. split; [naive_solver|]. intros H x tr out Hr. apply H. eauto.
Qed.

Lemma wp_mono {E A} (p : prog E A) (Q Q' : list (obs E) → outcome A → Prop) :
  wp p Q → (∀ tr out, Q tr out → Q' tr out) → wp p Q'.
Proof. rewrite !wp_runs. eauto. Qed.

(** What remains to be shown of the continuation once the first part has run. *)
Definition after {E A B} (f : A → prog E B) (Q : list (obs E) → outcome B → Prop)
    (tr : list (obs E)) (out : outcome A) : Prop :=
  match out with
  | Returns a => wp (f a) (λ tr' out', Q (tr ++ tr') out')
  | Panics m => Q tr (Panics m)
  end.

Lemma wp_bind {E A B} (p : prog E A) (f : A → prog E B) Q :
  wp (p ≫= f) Q ↔ wp p (after f Q).
Proof.
  unfold mbind, prog_mbind. revert Q. induction p as [a|m|X e k IH]; intros Q; simpl; [done..|].
  by setoid_rewrite IH.
Qed.

(** A run through a bind, from a property of the first part. *)
Lemma wp_bind_mono {E A B} (p : prog E A) (f : A → prog E B) R Q :
  wp p R → (∀ tr out, R tr out → after f Q tr out) → wp (p ≫= f) Q.
Proof. intros Hp HQ. apply wp_bind. by eapply wp_mono. Qed.

(** A program no run of which panics. *)
Fixpoint safe {E A} (p : prog E A) : Prop :=
  match p with
  | Return _ => True
  | Crash _ => False
  | Vis _ k => ∀ x, safe (k x)
  end.

Lemma safe_bind {E A B} (p : prog E A) (f : A → prog E B) :
  safe p → (∀ a, safe (f a)) → safe (p ≫= f).
Proof. unfold mbind, prog_mbind. intros Hp Hf. induction p; simpl in *; eauto. Qed.

Lemma safe_runs {E A} (p : prog E A) tr out : safe p → runs p tr out → ∃ a, out = Returns a.
Proof.
  revert tr. induction p as [a|m|X e k IH]; intros tr; simpl.
  - intros _ [_ ->]. eauto.
  - done.
  - intros Hs (x & tr' & _ & Hr). eauto.
Qed.

Lemma safe_bind_runs {E A B} (p : prog E A) (f : A → prog E B) :
  safe p → (∀ tr a, runs p tr (Returns a) → safe (f a)) → safe (p ≫= f).
Proof.
  unfold mbind, prog_mbind. induction p as [a|m|X e k IH]; simpl; intros Hp Hf; [by apply (Hf [])|done|].
  intros x. apply IH; [done|]. intros tr a Hr. apply (Hf (Obs e x :: tr)). eauto.
Qed.

(** A program no run of which panics, as long as the calls with their answers
    satisfy [G]. *)
Fixpoint safe_if {E A} (G : obs E → Prop) (p : prog E A) : Prop :=
  match p with
  | Return _ => True
  | Crash _ => False
  | Vis e k => ∀ x, G (Obs e x) → safe_if G (k x)
  end.

Lemma safe_safe_if {E A} (G : obs E → Prop) (p : prog E A) : safe p → safe_if G p.
Proof. induction p; simpl; eauto. Qed.

Lemma safe_if_bind_runs {E A B} (G : obs E → Prop) (p : prog E A) (f : A → prog E B) :
  safe_if G p → (∀ tr a, runs p tr (Returns a) → safe_if G (f a)) → safe_if G (p ≫= f).
Proof.
  unfold mbind, prog_mbind. induction p as [a|m|X e k IH]; simpl; intros Hp Hf; [by apply (Hf [])|done|].
  intros x Hx. apply IH; [by apply Hp|]. intros tr a Hr. apply (Hf (Obs e x :: tr)). eauto.
Qed.

Lemma safe_if_runs {E A} (G : obs E → Prop) (p : prog E A) :
  safe_if G p ↔ ∀ tr out, Forall G tr → runs p tr out → ∃ a, out = Returns a.
Proof.
  induction p as [a|m|X e k IH]; simpl.
  - split; [intros _ tr out _ [_ ->]; eauto|done].
  - split; [done|]. intros H. by destruct (H [] (Panics m)).
  - setoid_rewrite IH. split.
    + intros H tr out HG (x & tr' & -> & Hr). apply Forall_cons in HG as [Hx HG]. by eapply H.
    + intros H x Hx tr out HG Hr. apply (H (Obs e x :: tr)); eauto.
Qed.

(** A program that makes only calls in [G]. *)
Fixpoint only {E : Type → Type} {A} (G : ∀ X, E X → Prop) (p : prog E A) : Prop :=
  match p with
  | Return _ | Crash _ => True
  | Vis e k => G _ e ∧ ∀ x, only G (k x)
  end.

Lemma only_bind {E A B} G (p : prog E A) (f : A → prog E B) :
  only G p → (∀ a, only G (f a)) → only G (p ≫= f).
Proof. unfold mbind, prog_mbind. intros Hp Hf. induction p; simpl in *; naive_solver. Qed.

Lemma only_must {E : Type → Type} {A} (G : ∀ X, E X → Prop) msg (o : option A) : only G (must msg o).
Proof. by destruct o. Qed.

Lemma only_mono {E : Type → Type} {A} (G G' : ∀ X, E X → Prop) (p : prog E A) :
  (∀ X (e : E X), G X e → G' X e) → only G p → only G' p.
Proof. intros HG. induction p; simpl; naive_solver. Qed.

(** ** Two programs side by side

    [similar C N RR p q]: the programs make calls related by [C], go on alike when
    the answers are related by [N], and end with results related by [RR].  With a
    part of the input differing on the two sides, it says which calls that part
    can reach. *)
Section Similar.
Context {E : Type → Type} (C : ∀ X, E X → E X → Prop) (N : ∀ X, E X → X → X → Prop).

Inductive similar {A B} (RR : A → B → Prop) : prog E A → prog E B → Prop :=
| similar_return a b : RR a b → similar RR (Return a) (Return b)
| similar_crash m : similar RR (Crash m) (Crash m)
| similar_vis X (e e' : E X) k k' : C X e e' → (∀ x x', N X e x x' → similar RR (k x) (k' x')) →
    similar RR (Vis e k) (Vis e' k').

Lemma similar_bind {A B A' B'} (RR : A → B → Prop) (SS : A' → B' → Prop) p q f g :
  similar RR p q → (∀ a b, RR a b → similar SS (f a) (g b)) → similar SS (p ≫= f) (q ≫= g).
Proof.
  unfold mbind, prog_mbind. intros Hp Hf. induction Hp; simpl; [auto|constructor|]. by constructor.
Qed.

Lemma similar_call X (e e' : E X) : C X e e' → similar (N X e) (call e) (call e').
Proof. intros He. apply similar_vis; [done|]. intros x x' Hx. by apply similar_return. Qed.

(** A call with its answer, and the related call with that answer altered. *)
Inductive altered (alt : ∀ X, E X → X → X) : obs E → obs E → Prop :=
| altered_obs X (e e' : E X) x : C X e e' → altered alt (Obs e x) (Obs e' (alt X e x)).

(** A run is repeated on the other side, on altered answers. *)
Lemma similar_runs {A} (p q : prog E A) (alt : ∀ X, E X → X → X) tr out :
  similar eq p q → (∀ X e x, N X e x (alt X e x)) → runs p tr out →
  ∃ tr', runs q tr' out ∧ Forall2 (altered alt) tr tr'.
Proof.
  intros Hs Ha. revert tr. induction Hs as [a b <-|m|X e e' k k' He _ IH]; intros tr; simpl.
  - intros [-> ->]. by exists [].
  - intros [-> ->]. by exists [].
  - intros (x & tr1 & -> & Hr). destruct (IH x (alt X e x) (Ha X e x) tr1 Hr) as (tr' & Hr' & Ht).
    exists (Obs e' (alt X e x) :: tr'). split; [eauto|]. constructor; [|done]. by constructor.
Qed.
End Similar.

(** ** Environments

    A relation says which answers a call may get in a state, and the state then.
    It is lifted to traces; a program run in an environment is a run of the
    program whose trace the environment allows. *)
Section Env.
Context {E : Type → Type} {W : Type} (step : ∀ X, W → E X → X → W → Prop).

Fixpoint steps (w : W) (tr : list (obs E)) (w' : W) : Prop :=
  match tr with
  | [] => w' = w
  | Obs e x :: tr' => ∃ w1, step _ w e x w1 ∧ steps w1 tr' w'
  end.

Lemma steps_app w tr1 tr2 w' :
  steps w (tr1 ++ tr2) w' ↔ ∃ w0, steps w tr1 w0 ∧ steps w0 tr2 w'.
Proof.
  revert w. induction tr1 as [|[X e x] tr1 IH]; intros w; simpl.
  - split; [eauto|]. by intros (w0 & -> & ?).
  - setoid_rewrite IH. naive_solver.
Qed.

Definition exec {A} (w : W) (p : prog E A) (tr : list (obs E)) (out : outcome A) (w' : W) : Prop :=
  runs p tr out ∧ steps w tr w'.

(** A state property kept by every allowed call of a trace holds at its end. *)
Lemma steps_invariant (I : W → Prop) (G : obs E → Prop) :
  (∀ X w (e : E X) x w', I w → G (Obs e x) → step X w e x w' → I w') →
  ∀ tr w w', steps w tr w' → Forall G tr → I w → I w'.
Proof.
  intros Hstep tr. induction tr as [|[X e x] tr IH]; intros w w'; simpl; [by intros ->|].
  intros (w1 & Hs & Hr) [HG HGs]%Forall_cons Hw. eauto.
Qed.
End Env.

(** A deterministic environment as a function, which makes programs executable. *)
Section Run.
Context {E : Type → Type} {W : Type} (h : ∀ X, E X → W → X * W).

Fixpoint run {A} (p : prog E A) (w : W) : outcome A * list (obs E) * W :=
  match p with
  | Return a => (Returns a, [], w)
  | Crash m => (Panics m, [], w)
  | Vis e k =>
      let '(x, w1) := h _ e w in
      let '(out, tr, w2) := run (k x) w1 in
      (out, Obs e x :: tr, w2)
  end.

Lemma run_runs {A} (p : prog E A) w : runs p (run p w).1.2 (run p w).1.1.
Proof.
  revert w. induction p as [a|m|X e k IH]; intros w; simpl; [done..|].
  destruct (h X e w) as [x w1]. specialize (IH x w1).
  destruct (run (k x) w1) as [[out tr] w2]. simpl in *. by exists x, tr.
Qed.

(** Programs always come to an end: no run is stuck or infinite. *)
Lemma run_exec {A} (p : prog E A) w :
  exec (λ X w e x w', h X e w = (x, w')) w p (run p w).1.2 (run p w).1.1 (run p w).2.
Proof.
  split; [apply run_runs|]. revert w. induction p as [a|m|X e k IH]; intros w; simpl; [done..|].
  destruct (h X e w) as [x w1] eqn:Eh. specialize (IH x w1).
  destruct (run (k x) w1) as [[out tr] w2]. simpl in *. eauto.
Qed.
End Run.
