(* ===== verification/World.v ===== *)
(** * The calls to the outside

    One constructor per request the operator sends: to the Kubernetes API through
    the controller-runtime client ([K...]) and the dynamic client ([Dyn...]), to
    the authentication and authorization APIs, over HTTP and SMTP, and to the
    clock.  The type index is the answer.  A client call that fills in the object
    it is given returns the object: on success the caller's copy is replaced. *)
From S2P Require Import Prelude GoJson HttpMessage External ApiTypes Effects.

Record TokenReviewStatus : Type := {
  tr_Authenticated : bool;
  tr_Username : string;
  tr_UID : string;
  tr_Groups : list string
}.

Record SubjectAccessReviewSpec : Type := {
  sar_User : string;
  sar_Groups : list string;
  sar_Verb : string;
  sar_Group : string;
  sar_Resource : string;
  sar_Namespace : string
}.

(** The commands of an SMTP session, [Connect...] opening it. *)
Inductive SmtpCommand : Type :=
| SmtpDial (addr : string)
| TlsDial (addr serverName : string) (skipVerify : bool)
| SmtpNewClient (host : string)
| SmtpStartTLS (serverName : string) (skipVerify : bool)
| SmtpAuthPlain (username password host : string)
| SmtpMail (from : string)
| SmtpRcpt (to : string)
| SmtpData
| SmtpWrite (msg : string)
| SmtpDataClose
| SmtpQuit
| SmtpClose
| ConnClose.

Section World.
Context `{P : Platform}.

Inductive Ev : Type → Type :=
| TimeNow : Ev Z
| KGetRec (key : NamespacedName) : Ev (result RightsizingRecommendation)
| KListRec (namespace : string) : Ev (result (list RightsizingRecommendation))
| KCreateRec (r : RightsizingRecommendation) : Ev (result RightsizingRecommendation)
| KUpdateRec (r : RightsizingRecommendation) : Ev (result RightsizingRecommendation)
| KUpdateRecStatus (r : RightsizingRecommendation) : Ev (result RightsizingRecommendation)
| KDeleteRec (key : NamespacedName) : Ev (result unit)
| KGetPolicy (name : string) : Ev (result RightsizingPolicy)
| KUpdatePolicy (p : RightsizingPolicy) : Ev (result RightsizingPolicy)
| KGetVM (key : NamespacedName) : Ev (result Unstructured)
| KGetNamespaceLabels (name : string) : Ev (result (gmap string string))
| KGetSecretData (key : NamespacedName) : Ev (result (gmap string string))
| DynGetVM (key : NamespacedName) : Ev (result Unstructured)
| DynListVMs : Ev (result (list Unstructured))
| DynPatchVM (key : NamespacedName) (patch : json) (subresources : list string) : Ev (result unit)
| TokenReview (token : string) : Ev (result TokenReviewStatus)
| SubjectAccessReview (spec : SubjectAccessReviewSpec) : Ev (result bool)
(** whether [http.NewRequest] accepts the URL *)
| ParseURL (url : string) : Ev (result unit)
| HttpDo (req : HttpRequest) : Ev (result HttpResponse)
| Smtp (c : SmtpCommand) : Ev (result unit).

(** ** What a run wrote *)
Inductive Write : Type :=
| WCreate (r : RightsizingRecommendation)
| WUpdate (r : RightsizingRecommendation)
| WStatus (r : RightsizingRecommendation)
| WDelete (key : NamespacedName)
| WPolicy (p : RightsizingPolicy)
| WPatchVM (key : NamespacedName) (patch : json) (subresources : list string).

(** The write of a call, if it is one, and whether it was acknowledged. *)
Definition obs_write (o : obs Ev) : option (Write * bool) :=
  match o with
  | Obs e x =>
      match e in Ev X return X → option (Write * bool) with
      | KCreateRec r => λ x, Some (WCreate r, is_ok x)
      | KUpdateRec r => λ x, Some (WUpdate r, is_ok x)
      | KUpdateRecStatus r => λ x, Some (WStatus r, is_ok x)
      | KDeleteRec key => λ x, Some (WDelete key, is_ok x)
      | KUpdatePolicy p => λ x, Some (WPolicy p, is_ok x)
      | DynPatchVM key patch sub => λ x, Some (WPatchVM key patch sub, is_ok x)
      | _ => λ _, None
      end x
  end.
Definition writes (tr : list (obs Ev)) : list (Write * bool) := omap obs_write tr.

(** The reads of recommendations that succeeded, in order. *)
Definition obs_read (o : obs Ev) : option RightsizingRecommendation :=
  match o with
  | Obs e x =>
      match e in Ev X return X → option RightsizingRecommendation with
      | KGetRec _ => λ x, match x with Ok r => Some r | Err _ => None end
      | _ => λ _, None
      end x
  end.
Definition reads (tr : list (obs Ev)) : list RightsizingRecommendation := omap obs_read tr.

(** The HTTP requests sent. *)
Definition obs_http (o : obs Ev) : option HttpRequest :=
  match o with
  | Obs e _ => match e with HttpDo req => Some req | _ => None end
  end.
Definition https (tr : list (obs Ev)) : list HttpRequest := omap obs_http tr.

(** The HTTP responses received. *)
Definition obs_response (o : obs Ev) : option HttpResponse :=
  match o with
  | Obs e x =>
      match e in Ev X return X → option HttpResponse with
      | HttpDo _ => λ x, match x with Ok r => Some r | Err _ => None end
      | _ => λ _, None
      end x
  end.
Definition responses (tr : list (obs Ev)) : list HttpResponse := omap obs_response tr.

(** The access reviews asked for, with whether access was granted. *)
Definition obs_review (o : obs Ev) : option (SubjectAccessReviewSpec * bool) :=
  match o with
  | Obs e x =>
      match e in Ev X return X → option (SubjectAccessReviewSpec * bool) with
      | SubjectAccessReview spec => λ x,
          Some (spec, match x with Ok b => b | Err _ => false end)
      | _ => λ _, None
      end x
  end.
Definition reviews (tr : list (obs Ev)) : list (SubjectAccessReviewSpec * bool) :=
  omap obs_review tr.

(** The readings of the clock, in order. *)
Definition obs_time (o : obs Ev) : option Z :=
  match o with
  | Obs e x => match e in Ev X return X → option Z with TimeNow => Some | _ => λ _, None end x
  end.
Definition times (tr : list (obs Ev)) : list Z := omap obs_time tr.

Lemma writes_app tr1 tr2 : writes (tr1 ++ tr2) = writes tr1 ++ writes tr2.
Proof. apply omap_app. Qed.
Lemma reads_app tr1 tr2 : reads (tr1 ++ tr2) = reads tr1 ++ reads tr2.
Proof. apply omap_app. Qed.
Lemma https_app tr1 tr2 : https (tr1 ++ tr2) = https tr1 ++ https tr2.
Proof. apply omap_app. Qed.
Lemma reviews_app tr1 tr2 : reviews (tr1 ++ tr2) = reviews tr1 ++ reviews tr2.
Proof. apply omap_app. Qed.
End World.

(** Walks through a program's calls, splitting on answers and conditions. *)
Ltac wp_step :=
  first
    [ progress intros
    | progress cbn [wp mbind prog_mbind prog_bind mret prog_ret call must app]
    | case_match
    | case_decide ].

(** Walks through a program's calls, each to be one of those allowed. *)
Ltac only_step :=
  first
    [ progress intros
    | exact I
    | assumption
    | apply only_must
    | apply only_bind
    | progress cbn [only call mret prog_ret]
    | split
    | case_match ].
