(* ===== verification/Http.v ===== *)
(** * Package net/http, the server side

    A request as a handler sees it, and the response writer: headers set after
    the status line is out do not reach the client. *)
From S2P Require Import Prelude GoStrings GoJson JsonText.
Local Open Scope Z_scope.

Record UserInfo : Type := { ui_Username : string; ui_UID : string; ui_Groups : list string }.

(** [rq_Segments] are the segments of the escaped path, each unescaped: the mux
    matches them one by one, and [r.URL.Path] is their concatenation;
    [rq_Clean] says that the escaped path is in clean form (no empty or dot
    segment inside), so that the mux does not redirect it.
    [rq_Body] is the bytes of the body that arrive, and [rq_Complete] whether the
    body then ends (else reading fails).  [rq_Form] is what
    [ParseForm] leaves in [r.Form], body values first; [None] when it fails.
    [rq_User] is the context value of [userInfoKey]. *)
Record Request : Type := {
  rq_Method : string;
  rq_Segments : list string;
  rq_Clean : bool;
  rq_Query : list (string * string);
  rq_Header : gmap string string;
  rq_Body : string;
  rq_Complete : bool;
  rq_Form : option (list (string * string));
  rq_PathValues : list (string * string);
  rq_User : option UserInfo
}.

(** [r.URL.Path] *)
Definition URL_Path (r : Request) : string := "/" +:+ join (chr 47) (rq_Segments r).

(** The first value of a key, the empty string when there is none:
    [r.URL.Query().Get], [r.FormValue], [r.PathValue]. *)
Fixpoint get_first (kvs : list (string * string)) (k : string) : string :=
  match kvs with
  | [] => ""
  | (k', v) :: r => if String.eqb k' k then v else get_first r k
  end.
Definition Query_Get (r : Request) (k : string) : string := get_first (rq_Query r) k.
Definition PathValue (r : Request) (k : string) : string := get_first (rq_PathValues r) k.
Definition Header_Get (r : Request) (k : string) : string := default "" (rq_Header r !! k).
Definition FormValue (r : Request) (k : string) : string := get_first (default [] (rq_Form r)) k.

(** The user that [AuthMiddleware] put into the context, nil when there is none. *)
Definition UserInfoFromContext (r : Request) : option UserInfo := rq_User r.

Definition WithUser (u : UserInfo) (r : Request) : Request := {|
  rq_Method := rq_Method r; rq_Segments := rq_Segments r; rq_Clean := rq_Clean r; rq_Query := rq_Query r;
  rq_Header := rq_Header r; rq_Body := rq_Body r; rq_Complete := rq_Complete r; rq_Form := rq_Form r;
  rq_PathValues := rq_PathValues r; rq_User := Some u |}.

Definition WithPathValues (pv : list (string * string)) (r : Request) : Request := {|
  rq_Method := rq_Method r; rq_Segments := rq_Segments r; rq_Clean := rq_Clean r; rq_Query := rq_Query r;
  rq_Header := rq_Header r; rq_Body := rq_Body r; rq_Complete := rq_Complete r; rq_Form := rq_Form r;
  rq_PathValues := pv; rq_User := rq_User r |}.

(** [http.MaxBytesReader(w, r.Body, n)]: at most [n] bytes; reading on fails when
    there are more. *)
Definition MaxBytesReader (n : Z) (r : Request) : string * bool :=
  if Z.of_nat (String.length (rq_Body r)) <=? n then (rq_Body r, rq_Complete r)
  else (take (Z.to_nat n) (rq_Body r), false).

(** [json.NewDecoder(http.MaxBytesReader(w, r.Body, n)).Decode(&v)] *)
Definition DecodeBody {A} (n : Z) (r : Request) (d : decoder A) (zero : A) : option A :=
  let '(body, eof) := MaxBytesReader n r in
  j ← Decode body eof; d j zero.

(** ** Responses *)
Inductive chunk (B : Type) : Type :=
| Text (s : string)
| Value (v : B).
Arguments Text {B} s.
Arguments Value {B} v.

Record ResponseWriter (B : Type) : Type := {
  w_Header : gmap string string;
  w_sent : option (Z * gmap string string);
  w_body : list (chunk B)
}.
Arguments w_Header {B} r.
Arguments w_sent {B} r.
Arguments w_body {B} r.

Definition new_writer {B} : ResponseWriter B := {| w_Header := ∅; w_sent := None; w_body := [] |}.

Definition Header_Set {B} (k v : string) (w : ResponseWriter B) : ResponseWriter B :=
  {| w_Header := <[k := v]> (w_Header w); w_sent := w_sent w; w_body := w_body w |}.
Definition Header_Del {B} (k : string) (w : ResponseWriter B) : ResponseWriter B :=
  {| w_Header := delete k (w_Header w); w_sent := w_sent w; w_body := w_body w |}.

(** A second status line is ignored. *)
Definition WriteHeader {B} (code : Z) (w : ResponseWriter B) : ResponseWriter B :=
  match w_sent w with
  | Some _ => w
  | None => {| w_Header := w_Header w; w_sent := Some (code, w_Header w); w_body := w_body w |}
  end.

(** The first write sends status 200 if none was sent. *)
Definition Write {B} (c : chunk B) (w : ResponseWriter B) : ResponseWriter B :=
  let w' := WriteHeader 200 w in
  {| w_Header := w_Header w'; w_sent := w_sent w'; w_body := w_body w' ++ [c] |}.

(** [http.Error] *)
Definition http_Error {B} (msg : string) (code : Z) (w : ResponseWriter B) : ResponseWriter B :=
  Write (Text (msg +:+ newline)) (WriteHeader code
    (Header_Set "X-Content-Type-Options" "nosniff"
      (Header_Set "Content-Type" "text/plain; charset=utf-8" (Header_Del "Content-Length" w)))).

(** What the client gets: a handler that wrote nothing answers 200. *)
Definition Status {B} (w : ResponseWriter B) : Z :=
  match w_sent w with Some (c, _) => c | None => 200 end.
Definition SentHeader {B} (w : ResponseWriter B) (k : string) : option string :=
  match w_sent w with Some (_, h) => h !! k | None => w_Header w !! k end.

Definition StatusOK : Z := 200.
Definition StatusAccepted : Z := 202.
Definition StatusMovedPermanently : Z := 301.
Definition StatusBadRequest : Z := 400.
Definition StatusUnauthorized : Z := 401.
Definition StatusForbidden : Z := 403.
Definition StatusNotFound : Z := 404.
Definition StatusMethodNotAllowed : Z := 405.
Definition StatusConflict : Z := 409.
Definition StatusInternalServerError : Z := 500.
Definition StatusBadGateway : Z := 502.

Lemma Status_http_Error {B} msg code (w : ResponseWriter B) :
  w_sent w = None → Status (http_Error msg code w) = code.
Proof. unfold Status, http_Error, Write, WriteHeader. simpl. by intros ->. Qed.

Lemma body_http_Error {B} msg code (w : ResponseWriter B) :
  w_body (http_Error msg code w) = w_body w ++ [Text (msg +:+ newline)].
Proof. by destruct w as [h [[c h']|] b]. Qed.

(** ** Listening

    What an [http.Server] is started with: in the clear, or with TLS settings and
    the certificate's files. *)
Record TLSSettings : Type := { tls_MinVersion : Z; tls_NextProtos : list string }.
Definition VersionTLS12 : Z := 771.
Inductive Listener : Type :=
| ListenAndServe (addr : string)
| ListenAndServeTLS (addr : string) (settings : TLSSettings) (certFile keyFile : string).
