(* ===== verification/Approval.v ===== *)
(** * Approval tokens, internal/approval/token.go

    Tokens are JWTs signed with HMAC-SHA256.  The JWT library is the class
    [JwtLib]; the laws the theorems use say that parsing checks the signature
    under the key the key function returns, and the expiry, as it documents. *)
From S2P Require Import Prelude GoStrings External ApiTypes Effects World.
Local Open Scope Z_scope.

Record ApprovalClaims : Type := {
  ac_Subject : string;
  ac_ExpiresAt : option Z;
  ac_IssuedAt : option Z;
  ac_Issuer : string;
  ac_Namespace : string;
  ac_RecName : string;
  ac_Owner : string
}.

Record TokenManager : Type := { tm_signingKey : string }.

Definition NewTokenManager (signingKey : string) : TokenManager :=
  {| tm_signingKey := signingKey |}.

(** [time.Duration] *)
Definition Second : Z := 1000000000.
Definition Minute : Z := 60 * Second.
Definition Hour : Z := 60 * Minute.
Definition fourteenDays : Z := 14 * 24 * Hour.
Definition sevenDays : Z := 7 * 24 * Hour.

(** [jwt.NewNumericDate] keeps whole seconds. *)
Definition NewNumericDate (t : Z) : option Z := Some (t - t mod Second).

(** The signing method named in a token's header. *)
Inductive SigningMethod : Type :=
| SigningMethodHMAC (alg : string)
| SigningMethodOther (alg : string).

(** Signing with HS256, and [ParseWithClaims] at a time, which asks the key
    function for the key of the method and returns the claims and [token.Valid].
    [jwt_signed key s c]: the token carries a valid MAC of claims [c] under [key]. *)
Class JwtLib : Type := {
  SignedString : string → ApprovalClaims → result string;
  ParseWithClaims : string → (SigningMethod → result string) → Z → result (ApprovalClaims * bool);
  jwt_signed : string → string → ApprovalClaims → Prop
}.

(** Claims that survive their JSON form: valid UTF-8 and times in whole seconds,
    within what an int64 of nanoseconds spans. *)
Definition whole_seconds (t : option Z) : Prop :=
  ∀ z, t = Some z → z mod Second = 0 ∧ int64_range z.
Definition claims_ok (c : ApprovalClaims) : Prop :=
  ValidString (ac_Subject c) = true ∧ ValidString (ac_Issuer c) = true ∧
  ValidString (ac_Namespace c) = true ∧ ValidString (ac_RecName c) = true ∧
  ValidString (ac_Owner c) = true ∧
  whole_seconds (ac_ExpiresAt c) ∧ whole_seconds (ac_IssuedAt c).

Class JwtLaws (J : JwtLib) : Prop := {
  (** a token produced by signing parses under the same key before its expiry *)
  jwt_sign_parse : ∀ key c s keyfunc now exp,
    SignedString key c = Ok s → claims_ok c → ac_ExpiresAt c = Some exp → now < exp →
    (∀ alg, keyfunc (SigningMethodHMAC alg) = Ok key) →
    ParseWithClaims s keyfunc now = Ok (c, true);
  (** signing produces a token with a valid MAC, and says which claims it has *)
  jwt_sign_signed : ∀ key c s, SignedString key c = Ok s → claims_ok c → jwt_signed key s c;
  jwt_signed_claims : ∀ key c key' c' s, jwt_signed key s c → jwt_signed key' s c' → c = c';
  (** a parsed token has a valid MAC under the key of the key function and has
      not expired *)
  jwt_parse_signed : ∀ s keyfunc now c valid,
    ParseWithClaims s keyfunc now = Ok (c, valid) →
    (∃ m key, keyfunc m = Ok key ∧ jwt_signed key s c) ∧
    (∀ exp, ac_ExpiresAt c = Some exp → now < exp)
}.

Section Approval.
Context `{P : Platform} `{J : JwtLib}.

Definition claims_for (namespace recName owner : string) (ttl now : Z) : ApprovalClaims := {|
  ac_Subject := owner;
  ac_ExpiresAt := NewNumericDate (now + ttl);
  ac_IssuedAt := NewNumericDate now;
  ac_Issuer := "ovro";
  ac_Namespace := namespace;
  ac_RecName := recName;
  ac_Owner := owner |}.

Definition GenerateToken (tm : TokenManager) (namespace recName owner : string) (ttl : Z)
    : prog Ev (result string) :=
  now ← call TimeNow;
  mret (SignedString (tm_signingKey tm) (claims_for namespace recName owner ttl now)).

(** The key function refuses any method but HMAC. *)
Definition keyfunc (tm : TokenManager) (m : SigningMethod) : result string :=
  match m with
  | SigningMethodHMAC _ => Ok (tm_signingKey tm)
  | SigningMethodOther alg => Err (EOther ("unexpected signing method: " +:+ alg))
  end.

Definition ValidateToken (tm : TokenManager) (tokenString : string)
    : prog Ev (result ApprovalClaims) :=
  now ← call TimeNow;
  mret (match ParseWithClaims tokenString (keyfunc tm) now with
        | Err e => Err e
        | Ok (claims, true) => Ok claims
        | Ok (_, false) => Err (EOther "invalid token")
        end).

(** ** Facts *)
Lemma NewNumericDate_lt t now exp : NewNumericDate t = Some exp → now < exp → now < t.
Proof.
  unfold NewNumericDate. intros [= <-].
  pose proof (Z.mod_pos_bound t Second eq_refl). lia.
Qed.

Context `{!JwtLaws J}.

Lemma claims_for_ok ns rec owner ttl now :
  ValidString ns = true → ValidString rec = true → ValidString owner = true →
  0 <= now → 0 <= ttl → int64_range (now + ttl) →
  claims_ok (claims_for ns rec owner ttl now).
Proof.
  intros ??? Hn Ht [_ Hr]. assert (∀ t, 0 <= t <= now + ttl → whole_seconds (NewNumericDate t)).
  { intros t Hb z [= <-]. pose proof (Z.mod_pos_bound t Second eq_refl) as Hm.
    pose proof (Z.mod_le t Second ltac:(lia) eq_refl). split.
    - by rewrite Zminus_mod, Zmod_mod, Z.sub_diag.
    - unfold int64_range. lia. }
  repeat split_and!; simpl; try done; eauto with lia.
Qed.

(** What a successful validation establishes: some party holding this key
    signed exactly these claims, and they have not expired. *)
Lemma ValidateToken_signed tm s tr c :
  runs (ValidateToken tm s) tr (Returns (Ok c)) →
  ∃ now, tr = [Obs TimeNow now] ∧ jwt_signed (tm_signingKey tm) s c ∧
    ∀ exp, ac_ExpiresAt c = Some exp → now < exp.
Proof.
  intros (now & tr' & -> & -> & [= Hc]). exists now. split; [done|].
  destruct (ParseWithClaims _ _ _) as [[c' [|]]|] eqn:Hp; simplify_eq.
  destruct (jwt_parse_signed _ _ _ _ _ Hp) as [([alg|alg] & key & Hk & Hs) Hexp];
    simpl in Hk; by simplify_eq.
Qed.

Lemma ValidateToken_calls tm s tr out :
  runs (ValidateToken tm s) tr out → ∃ now res, tr = [Obs TimeNow now] ∧ out = Returns res.
Proof. intros (now & tr' & -> & -> & ->). eauto. Qed.

(** C22: A token is worth the request it was made for, and no longer than its
    lifetime: validating it with the same key at a time before the expiry
    (in whole seconds) gives back the namespace, recommendation and owner, and
    from the expiry on it is refused. *)
Theorem token_lifetime tm ns rec owner ttl t0 tok tr0 :
  runs (GenerateToken tm ns rec owner ttl) tr0 (Returns (Ok tok)) →
  times tr0 = [t0] →
  ValidString ns = true → ValidString rec = true → ValidString owner = true →
  0 <= t0 → 0 <= ttl → int64_range (t0 + ttl) →
  let exp := (t0 + ttl) - (t0 + ttl) mod Second in
  ∀ tr now res, runs (ValidateToken tm tok) tr (Returns res) → times tr = [now] →
    if now <? exp
    then res = Ok (claims_for ns rec owner ttl t0)
    else ∃ e, res = Err e.
Proof.
  intros (t & ? & -> & -> & [= Hs]) [= ->] ?????? exp tr now res (now' & ? & -> & -> & [= ->]) [= ->].
  assert (claims_ok (claims_for ns rec owner ttl t0)) as Hok by by apply claims_for_ok.
  destruct (Z.ltb_spec now exp) as [Hlt|Hge].
  - by rewrite (jwt_sign_parse _ _ _ (keyfunc tm) now exp (eq_sym Hs) Hok).
  - destruct (ParseWithClaims _ _ _) as [[c [|]]|] eqn:Hp; eauto.
    apply jwt_parse_signed in Hp as [(m & key & _ & Hsig) Hexp].
    assert (c = claims_for ns rec owner ttl t0) as ->.
    { eapply jwt_signed_claims; [done|]. by apply jwt_sign_signed. }
    specialize (Hexp exp eq_refl). lia.
Qed.
End Approval.
