(* ===== verification/Instances.v ===== *)
(** * Concrete instances

    Small models of the third-party interfaces, to run the definitions on and to
    show that the laws can hold: quantities are byte counts, a virtual machine is
    its few fields, a token is its claims and key in the clear. *)
From S2P Require Import Prelude GoStrings External ApiTypes Approval.
From Stdlib Require Import DecimalString.
Local Open Scope Z_scope.

(** ** Kubernetes types *)
Record toy_vm : Type := {
  tv_Name : string; tv_Namespace : string;
  tv_Annotations : gmap string string; tv_Labels : gmap string string;
  tv_ints : list (list string * Z); tv_strings : list (list string * string)
}.

Fixpoint toy_nested {A} (l : list (list string * A)) (path : list string) : option A :=
  match l with
  | [] => None
  | (p, a) :: r => if bool_decide (p = path) then Some a else toy_nested r path
  end.

Definition of_decimal (s : string) : option Z := Z.of_int <$> NilZero.int_of_string s.

(** Decimal integers, with the suffix Gi for 2^30. *)
Definition toy_parse (s : string) : option Z :=
  let n := (String.length s - 2)%nat in
  if String.eqb (drop n s) "Gi" then (λ z, z * 1073741824) <$> of_decimal (take n s)
  else of_decimal s.

#[export] Instance toy : Platform := {|
  Quantity := Z; Q_Value := λ q, q; Q_String := itoa; ParseQuantity := toy_parse; Q_zero := 0;
  Unstructured := toy_vm; GetName := tv_Name; GetNamespace := tv_Namespace;
  GetAnnotations := tv_Annotations; GetLabels := tv_Labels;
  NestedInt64 := λ vm p, match toy_nested (tv_ints vm) p with
                         | Some z => (z, true, false) | None => (0, false, false) end;
  NestedString := λ vm p, match toy_nested (tv_strings vm) p with
                          | Some s => (s, true, false) | None => ("", false, false) end
|}.

Lemma of_decimal_itoa z : of_decimal (itoa z) = Some z.
Proof.
  unfold of_decimal, itoa. rewrite NilZero.isi; simpl.
  - by rewrite DecimalZ.of_to.
  - destruct z; cbn; try done. intros [= H]. by apply (DecimalPos.Unsigned.to_uint_nonnil p).
  - destruct z; cbn; try done. intros [= H]. by apply (DecimalPos.Unsigned.to_uint_nonnil p).
Qed.

#[export] Instance toy_laws : PlatformLaws toy.
Proof.
  split. intros n _. exists (n * 1073741824). split; [|done]. simpl. unfold toy_parse.
  assert (String.length (itoa n +:+ "Gi") - 2 = String.length (itoa n))%nat as ->.
  { induction (itoa n) as [|c a IH]; [done|]. simpl in *.
    assert (∀ a, (2 <= String.length (a +:+ "Gi"))%nat) as Hl.
    { clear. induction a as [|c a IH]; [simpl; lia|]. simpl. lia. }
    specialize (Hl a). lia. }
  destruct (take_drop_app (itoa n) "Gi") as [-> ->]. by rewrite of_decimal_itoa.
Qed.

(** ** Tokens *)
Definition claims_tuple (c : ApprovalClaims) :=
  (ac_Subject c, ac_ExpiresAt c, ac_IssuedAt c, ac_Issuer c, ac_Namespace c, ac_RecName c, ac_Owner c).
#[export] Instance claims_eq_dec : EqDecision ApprovalClaims.
Proof. solve_decision. Defined.
#[export] Instance claims_countable : Countable ApprovalClaims.
Proof.
  refine (inj_countable' claims_tuple (λ '(s, e, i, iss, ns, r, o), {|
    ac_Subject := s; ac_ExpiresAt := e; ac_IssuedAt := i; ac_Issuer := iss; ac_Namespace := ns;
    ac_RecName := r; ac_Owner := o |}) _).
  by intros [].
Defined.

Definition toy_token (key : string) (c : ApprovalClaims) : string := itoa (Zpos (encode (key, c))).
Definition toy_read (s : string) : option (string * ApprovalClaims) :=
  match of_decimal s with Some (Zpos p) => decode p | _ => None end.

Lemma toy_read_token key c : toy_read (toy_token key c) = Some (key, c).
Proof. unfold toy_read, toy_token. rewrite of_decimal_itoa. apply decode_encode. Qed.

Definition not_expired (c : ApprovalClaims) (now : Z) : bool :=
  match ac_ExpiresAt c with Some exp => now <? exp | None => true end.

#[export] Instance toy_jwt : JwtLib := {|
  SignedString := λ key c, Ok (toy_token key c);
  ParseWithClaims := λ s keyfunc now,
    match toy_read s, keyfunc (SigningMethodHMAC "HS256") with
    | Some (key, c), Ok key' =>
        if String.eqb key key' && not_expired c now then Ok (c, true)
        else Err (EOther "token is not valid")
    | None, _ => Err (EOther "token is malformed")
    | _, Err e => Err e
    end;
  jwt_signed := λ key s c, toy_read s = Some (key, c)
|}.

#[export] Instance toy_jwt_laws : JwtLaws toy_jwt.
Proof.
  split; simpl.
  - intros key c s kf now exp [= <-] _ He Hlt Hk. rewrite toy_read_token, Hk, String.eqb_refl.
    unfold not_expired. rewrite He. simpl. by destruct (Z.ltb_spec now exp); [|lia].
  - intros key c s [= <-] _. apply toy_read_token.
  - congruence.
  - intros s kf now c valid H. destruct (toy_read s) as [[key c']|] eqn:Hr; [|done].
    destruct (kf _) as [key'|] eqn:Hk; [|done].
    destruct (String.eqb_spec key key') as [->|]; [|done]. simpl in H.
    unfold not_expired in H. destruct (ac_ExpiresAt c') as [exp|] eqn:He.
    + destruct (Z.ltb_spec now exp); simplify_eq. split; [eauto|]. intros ? ?. by simplify_eq.
    + simplify_eq. split; [eauto|]. intros ? ?. congruence.
Qed.

Example toy_token_runs : toy_read (toy_token "k" {| ac_Subject := "me"; ac_ExpiresAt := Some 5;
  ac_IssuedAt := None; ac_Issuer := "ovro"; ac_Namespace := "ns"; ac_RecName := "r"; ac_Owner := "me" |}) ≠ None.
Proof. vm_compute. discriminate. Qed.
