(* ===== verification/DeepCopy.v ===== *)
(** * Deep copies, api/v1alpha1/zz_generated.deepcopy.go

    The other files treat resources as values.  In memory they hold pointers: to
    times, to the revert configuration, to the arrays behind lists, and, inside
    quantities and metadata, to whatever these third-party types keep there.
    Here are the structs as they lie in memory and the generated functions that
    copy them; [DeepCopyFacts] says which copies share nothing with the original.
    A [DeepCopyInto] is given by the struct it writes to its target. *)
From stdpp Require Import fin_maps.
From S2P Require Import Prelude External ApiTypes.
Local Open Scope Z_scope.

Definition loc : Type := positive.

(** In-memory quantities and metadata, and what their pointers lead to. *)
Class ForeignTypes : Type := {
  MQuantity : Type; MObjectMeta : Type; MListMeta : Type; MTypeMeta : Type; Foreign : Type
}.

Section Memory.
Context `{FT : ForeignTypes}.

(** ** The structs in memory *)
Record MResourceSpec : Type := { mrs_CPU : CPUSpec; mrs_Memory : MQuantity }.
Record MSavingsSpec : Type := { msv_CPU : Z; msv_Memory : MQuantity }.
Record MRecommendationSpec : Type := {
  msp_VirtualMachineRef : ObjectRef;
  msp_Direction : string;
  msp_Current : MResourceSpec;
  msp_Recommended : MResourceSpec;
  msp_Savings : MSavingsSpec;
  msp_Metrics : MetricsSnapshot;
  msp_HotplugCapable : bool;
  msp_Reason : string
}.
(** A pointer to a [metav1.Time] or a [ResourceSpec] is an optional location. *)
Record MRecommendationStatus : Type := {
  mst_State : string;
  mst_LastCalculated : option loc;
  mst_AppliedAt : option loc;
  mst_ScheduledRestartAt : option loc;
  mst_RevertBefore : option loc;
  mst_RevertConfig : option loc;
  mst_Message : string;
  mst_Owner : string;
  mst_ApprovalToken : string;
  mst_NotifiedAt : option loc;
  mst_ApprovedBy : string;
  mst_ApprovedAt : option loc;
  mst_RejectedBy : string;
  mst_RejectedAt : option loc;
  mst_RejectionReason : string;
  mst_ServiceNowIncident : string;
  mst_ReminderSentAt : option loc
}.
Record MRecommendation : Type := {
  mrr_TypeMeta : MTypeMeta; mrr_ObjectMeta : MObjectMeta;
  mrr_Spec : MRecommendationSpec; mrr_Status : MRecommendationStatus
}.

Record MThresholdsSpec : Type := {
  mth_MinCPUSavings : Z; mth_MinMemorySavings : MQuantity; mth_UpsizeUtilizationPercent : Z
}.
Record MMetricsStorageSpec : Type := { mms_RetentionDays : Z; mms_StorageSize : MQuantity }.
Record MPolicySpec : Type := {
  mps_LookbackDays : Z;
  mps_Algorithm : AlgorithmSpec;
  mps_Thresholds : MThresholdsSpec;
  mps_RevertRetentionDays : Z;
  mps_AutoMode : AutoModeSpec;
  mps_ReconcileIntervalMinutes : Z;
  mps_MetricsStorage : MMetricsStorageSpec
}.
Record MPolicy : Type := {
  mrp_TypeMeta : MTypeMeta; mrp_ObjectMeta : MObjectMeta; mrp_Spec : MPolicySpec
}.

(** A list's items: nil, or an array and how many of its elements. *)
Record MList : Type := {
  ml_TypeMeta : MTypeMeta; ml_ListMeta : MListMeta; ml_Items : option (loc * nat)
}.

Inductive cell : Type :=
| CTime (t : Z)
| CForeign (x : Foreign)
| CAlgorithm (m : AlgorithmSpec)
| CAutoMode (m : AutoModeSpec)
| CCPU (m : CPUSpec)
| CMetrics (m : MetricsSnapshot)
| CRef (m : ObjectRef)
| CResource (m : MResourceSpec)
| CSavings (m : MSavingsSpec)
| CThresholds (m : MThresholdsSpec)
| CRecSpec (m : MRecommendationSpec)
| CRecStatus (m : MRecommendationStatus)
| CRec (m : MRecommendation)
| CPolicySpec (m : MPolicySpec)
| CPolicy (m : MPolicy)
| CRecList (m : MList)
| CPolicyList (m : MList)
| CRecs (items : list MRecommendation)
| CPolicies (items : list MPolicy).

#[local] Abbreviation Heap := (gmap loc cell).

(** ** Computing in memory *)
Definition mem (A : Type) : Type := Heap → A * Heap.
#[global] Instance mem_ret : MRet mem := λ A a h, (a, h).
#[global] Instance mem_bind : MBind mem := λ A B f m h, let '(a, h') := m h in f a h'.

(** [new(T)], or [make] for an array; writing through a pointer. *)
Definition new (c : cell) : mem loc := λ h, let l := fresh (dom h) in (l, <[l := c]> h).
Definition store (l : loc) (c : cell) : mem () := λ h, ((), <[l := c]> h).

(** The copying functions of the packages used. *)
Class ForeignCopies : Type := {
  Quantity_DeepCopy : MQuantity → mem MQuantity;
  ObjectMeta_DeepCopyInto : MObjectMeta → mem MObjectMeta;
  ListMeta_DeepCopyInto : MListMeta → mem MListMeta;
  Time_DeepCopy : loc → mem loc
}.
Context `{FC : !ForeignCopies}.

(** A pointer field: copied when it is not nil. *)
Definition copy_pointer (copy : loc → mem loc) (p : option loc) : mem (option loc) :=
  match p with None => mret None | Some l => l' ← copy l; mret (Some l') end.

(** [if in == nil { return nil }; out := new(T); in.DeepCopyInto(out); return out] *)
Definition new_copy {M} (inj : M → cell) (into : M → mem M) (m : M) : mem loc :=
  l ← new (inj m); m' ← into m; _ ← store l (inj m'); mret l.
Definition DeepCopy {M} (inj : M → cell) (into : M → mem M) (p : option M) : mem (option loc) :=
  match p with None => mret None | Some m => l ← new_copy inj into m; mret (Some l) end.

(** A new copy of what a pointer leads to; a dangling pointer, which Go does not
    have, is kept. *)
Definition copy_target {M} (proj : cell → option M) (inj : M → cell) (into : M → mem M) (l : loc) : mem loc := λ h,
  match h !! l ≫= proj with Some m => new_copy inj into m h | None => (l, h) end.

(** ** Structs without pointers *)
Definition AlgorithmSpec_DeepCopyInto (m : AlgorithmSpec) : mem AlgorithmSpec := mret m.
Definition AlgorithmSpec_DeepCopy := DeepCopy CAlgorithm AlgorithmSpec_DeepCopyInto.
Definition AutoModeSpec_DeepCopyInto (m : AutoModeSpec) : mem AutoModeSpec := mret m.
Definition AutoModeSpec_DeepCopy := DeepCopy CAutoMode AutoModeSpec_DeepCopyInto.
Definition CPUSpec_DeepCopyInto (m : CPUSpec) : mem CPUSpec := mret m.
Definition CPUSpec_DeepCopy := DeepCopy CCPU CPUSpec_DeepCopyInto.
Definition MetricsSnapshot_DeepCopyInto (m : MetricsSnapshot) : mem MetricsSnapshot := mret m.
Definition MetricsSnapshot_DeepCopy := DeepCopy CMetrics MetricsSnapshot_DeepCopyInto.
Definition ObjectRef_DeepCopyInto (m : ObjectRef) : mem ObjectRef := mret m.
Definition ObjectRef_DeepCopy := DeepCopy CRef ObjectRef_DeepCopyInto.

(** ** Sizes, savings, thresholds *)
Definition ResourceSpec_DeepCopyInto (m : MResourceSpec) : mem MResourceSpec :=
  memory ← Quantity_DeepCopy (mrs_Memory m);
  mret {| mrs_CPU := mrs_CPU m; mrs_Memory := memory |}.
Definition ResourceSpec_DeepCopy := DeepCopy CResource ResourceSpec_DeepCopyInto.
Definition SavingsSpec_DeepCopyInto (m : MSavingsSpec) : mem MSavingsSpec :=
  memory ← Quantity_DeepCopy (msv_Memory m);
  mret {| msv_CPU := msv_CPU m; msv_Memory := memory |}.
Definition SavingsSpec_DeepCopy := DeepCopy CSavings SavingsSpec_DeepCopyInto.
Definition ThresholdsSpec_DeepCopyInto (m : MThresholdsSpec) : mem MThresholdsSpec :=
  savings ← Quantity_DeepCopy (mth_MinMemorySavings m);
  mret {| mth_MinCPUSavings := mth_MinCPUSavings m; mth_MinMemorySavings := savings;
          mth_UpsizeUtilizationPercent := mth_UpsizeUtilizationPercent m |}.
Definition ThresholdsSpec_DeepCopy := DeepCopy CThresholds ThresholdsSpec_DeepCopyInto.

(** ** Recommendations *)
Definition RecommendationSpec_DeepCopyInto (m : MRecommendationSpec) : mem MRecommendationSpec :=
  current ← ResourceSpec_DeepCopyInto (msp_Current m);
  recommended ← ResourceSpec_DeepCopyInto (msp_Recommended m);
  savings ← SavingsSpec_DeepCopyInto (msp_Savings m);
  mret {| msp_VirtualMachineRef := msp_VirtualMachineRef m; msp_Direction := msp_Direction m;
          msp_Current := current; msp_Recommended := recommended; msp_Savings := savings;
          msp_Metrics := msp_Metrics m; msp_HotplugCapable := msp_HotplugCapable m;
          msp_Reason := msp_Reason m |}.
Definition RecommendationSpec_DeepCopy := DeepCopy CRecSpec RecommendationSpec_DeepCopyInto.

(** A new [ResourceSpec] for the revert configuration. *)
Definition resource_of (c : cell) : option MResourceSpec := match c with CResource r => Some r | _ => None end.
Definition copy_resource : loc → mem loc := copy_target resource_of CResource ResourceSpec_DeepCopyInto.

Definition RecommendationStatus_DeepCopyInto (m : MRecommendationStatus) : mem MRecommendationStatus :=
  lastCalculated ← copy_pointer Time_DeepCopy (mst_LastCalculated m);
  appliedAt ← copy_pointer Time_DeepCopy (mst_AppliedAt m);
  scheduledRestartAt ← copy_pointer Time_DeepCopy (mst_ScheduledRestartAt m);
  revertBefore ← copy_pointer Time_DeepCopy (mst_RevertBefore m);
  revertConfig ← copy_pointer copy_resource (mst_RevertConfig m);
  notifiedAt ← copy_pointer Time_DeepCopy (mst_NotifiedAt m);
  approvedAt ← copy_pointer Time_DeepCopy (mst_ApprovedAt m);
  rejectedAt ← copy_pointer Time_DeepCopy (mst_RejectedAt m);
  reminderSentAt ← copy_pointer Time_DeepCopy (mst_ReminderSentAt m);
  mret {| mst_State := mst_State m; mst_LastCalculated := lastCalculated; mst_AppliedAt := appliedAt;
          mst_ScheduledRestartAt := scheduledRestartAt; mst_RevertBefore := revertBefore;
          mst_RevertConfig := revertConfig; mst_Message := mst_Message m; mst_Owner := mst_Owner m;
          mst_ApprovalToken := mst_ApprovalToken m; mst_NotifiedAt := notifiedAt;
          mst_ApprovedBy := mst_ApprovedBy m; mst_ApprovedAt := approvedAt;
          mst_RejectedBy := mst_RejectedBy m; mst_RejectedAt := rejectedAt;
          mst_RejectionReason := mst_RejectionReason m;
          mst_ServiceNowIncident := mst_ServiceNowIncident m; mst_ReminderSentAt := reminderSentAt |}.
Definition RecommendationStatus_DeepCopy := DeepCopy CRecStatus RecommendationStatus_DeepCopyInto.

Definition Recommendation_DeepCopyInto (m : MRecommendation) : mem MRecommendation :=
  meta ← ObjectMeta_DeepCopyInto (mrr_ObjectMeta m);
  spec ← RecommendationSpec_DeepCopyInto (mrr_Spec m);
  status ← RecommendationStatus_DeepCopyInto (mrr_Status m);
  mret {| mrr_TypeMeta := mrr_TypeMeta m; mrr_ObjectMeta := meta; mrr_Spec := spec; mrr_Status := status |}.
Definition Recommendation_DeepCopy := DeepCopy CRec Recommendation_DeepCopyInto.
(** An interface holding the copy, nil when there is none. *)
Definition Recommendation_DeepCopyObject := Recommendation_DeepCopy.

(** ** Policies: the generated code leaves [MetricsStorage] as it was copied *)
Definition PolicySpec_DeepCopyInto (m : MPolicySpec) : mem MPolicySpec :=
  thresholds ← ThresholdsSpec_DeepCopyInto (mps_Thresholds m);
  mret {| mps_LookbackDays := mps_LookbackDays m; mps_Algorithm := mps_Algorithm m;
          mps_Thresholds := thresholds; mps_RevertRetentionDays := mps_RevertRetentionDays m;
          mps_AutoMode := mps_AutoMode m;
          mps_ReconcileIntervalMinutes := mps_ReconcileIntervalMinutes m;
          mps_MetricsStorage := mps_MetricsStorage m |}.
Definition PolicySpec_DeepCopy := DeepCopy CPolicySpec PolicySpec_DeepCopyInto.
Definition Policy_DeepCopyInto (m : MPolicy) : mem MPolicy :=
  meta ← ObjectMeta_DeepCopyInto (mrp_ObjectMeta m);
  spec ← PolicySpec_DeepCopyInto (mrp_Spec m);
  mret {| mrp_TypeMeta := mrp_TypeMeta m; mrp_ObjectMeta := meta; mrp_Spec := spec |}.
Definition Policy_DeepCopy := DeepCopy CPolicy Policy_DeepCopyInto.
Definition Policy_DeepCopyObject := Policy_DeepCopy.

(** ** Lists *)
Fixpoint copy_all {M} (into : M → mem M) (items : list M) : mem (list M) :=
  match items with
  | [] => mret []
  | m :: r => m' ← into m; r' ← copy_all into r; mret (m' :: r')
  end.

(** The elements of a slice, from its array. *)
Definition items_at {M} (proj : cell → option (list M)) (h : Heap) (s : loc * nat) : option (list M) :=
  items ← h !! s.1 ≫= proj; if (s.2 <=? length items)%nat then Some (firstn s.2 items) else None.
Definition recs_of (c : cell) : option (list MRecommendation) := match c with CRecs l => Some l | _ => None end.
Definition policies_of (c : cell) : option (list MPolicy) := match c with CPolicies l => Some l | _ => None end.

Definition copy_slice {M} (inj : list M → cell) (proj : cell → option (list M)) (into : M → mem M)
    (s : option (loc * nat)) : mem (option (loc * nat)) := λ h,
  match s with
  | None => (None, h)
  | Some s =>
      match items_at proj h s with
      | None => (Some s, h)
      | Some items =>
          (l ← new_copy inj (copy_all into) items; mret (Some (l, length items))) h
      end
  end.

Definition RecommendationList_DeepCopyInto (m : MList) : mem MList :=
  meta ← ListMeta_DeepCopyInto (ml_ListMeta m);
  items ← copy_slice CRecs recs_of Recommendation_DeepCopyInto (ml_Items m);
  mret {| ml_TypeMeta := ml_TypeMeta m; ml_ListMeta := meta; ml_Items := items |}.
Definition RecommendationList_DeepCopy := DeepCopy CRecList RecommendationList_DeepCopyInto.
Definition RecommendationList_DeepCopyObject := RecommendationList_DeepCopy.
Definition PolicyList_DeepCopyInto (m : MList) : mem MList :=
  meta ← ListMeta_DeepCopyInto (ml_ListMeta m);
  items ← copy_slice CPolicies policies_of Policy_DeepCopyInto (ml_Items m);
  mret {| ml_TypeMeta := ml_TypeMeta m; ml_ListMeta := meta; ml_Items := items |}.
Definition PolicyList_DeepCopy := DeepCopy CPolicyList PolicyList_DeepCopyInto.
Definition PolicyList_DeepCopyObject := PolicyList_DeepCopy.
End Memory.
