(* ===== verification/DeepCopyFacts.v ===== *)
(** * Which copies are deep

    A copy is deep when it stands for the same value and everything it points to
    is new.  That is so for recommendations and lists of them, provided it is for
    quantities, metadata and times; it is not for policies, whose copies share
    the storage size. *)
From S2P Require Import Prelude GoFloat External ApiTypes DeepCopy Instances.
Local Open Scope Z_scope.

Section DeepCopyFacts.
Context `{FT : ForeignTypes} `{FC : !ForeignCopies}.
#[local] Abbreviation Heap := (gmap loc cell).

(** ** Deep copying

    [read] gives the value a struct stands for in a heap, if no pointer dangles,
    and [reach] the locations this depends on. *)
Record deep {M V} (read : Heap → M → option V) (reach : Heap → M → gset loc) (copy : M → mem M) : Prop := {
  deep_dom h m v : read h m = Some v → reach h m ⊆ dom h;
  deep_local h1 h2 m v : read h1 m = Some v → (∀ l, l ∈ reach h1 m → h2 !! l = h1 !! l) →
    read h2 m = Some v ∧ reach h2 m = reach h1 m;
  deep_copies h m v m' h' : read h m = Some v → copy m h = (m', h') →
    h ⊆ h' ∧ read h' m' = Some v ∧ reach h' m' ## dom h
}.

Section Deep.
Context {M V} (read : Heap → M → option V) (reach : Heap → M → gset loc) (copy : M → mem M).
Context (D : deep read reach copy).

(** A struct stays what it is while the heap grows. *)
Lemma deep_grows h h' m v : read h m = Some v → h ⊆ h' → read h' m = Some v ∧ reach h' m = reach h m.
Proof.
  intros Hr Hsub. apply (deep_local _ _ _ D h); [done|]. intros l Hl.
  apply (deep_dom _ _ _ D) in Hr. apply Hr, elem_of_dom in Hl as [c Hc]. rewrite Hc.
  by apply (lookup_weaken h).
Qed.

(** Two structs that stand for the same value and share nothing: writing through
    one leaves the other as it is. *)
Lemma deep_apart h m v m' h' :
  read h m = Some v → h ⊆ h' → read h' m' = Some v → reach h' m' ## dom h →
  read h' m = Some v ∧ reach h' m ## reach h' m' ∧
  (∀ l c, l ∈ reach h' m' → read (<[l := c]> h') m = Some v) ∧
  (∀ l c, l ∈ reach h' m → read (<[l := c]> h') m' = Some v).
Proof.
  intros Hr Hsub Hr' Hdisj.
  destruct (deep_grows _ _ _ _ Hr Hsub) as [Hrm Hreach]. pose proof (deep_dom _ _ _ D _ _ _ Hr) as Hdom.
  assert (reach h' m ## reach h' m') as Hsep by (rewrite Hreach; set_solver).
  assert (∀ m1 m2 l c, read h' m1 = Some v → l ∈ reach h' m2 → reach h' m1 ## reach h' m2 →
    read (<[l := c]> h') m1 = Some v) as Hw.
  { intros m1 m2 l c H1 Hl Hd. apply (deep_local _ _ _ D h'); [done|]. intros l' Hl'. apply lookup_insert_ne. set_solver. }
  split_and!; [done..| |]; intros l c Hl; eapply Hw; eauto.
Qed.
End Deep.

(** ** Building deep copies *)
Lemma deep_ext {M V} (read read2 : Heap → M → option V) (reach reach2 : Heap → M → gset loc) (copy copy2 : M → mem M) :
  (∀ h m, read2 h m = read h m) → (∀ h m, reach2 h m = reach h m) → (∀ m h, copy2 m h = copy m h) →
  deep read reach copy → deep read2 reach2 copy2.
Proof.
  intros H1 H2 H3 [D1 D2 D3]. split.
  - intros h m v. rewrite H1, H2. apply D1.
  - intros h1 h2 m v. rewrite !H1, !H2. apply D2.
  - intros h m v m' h'. rewrite !H1, H2, H3. apply D3.
Qed.

Lemma deep_pair {M1 V1 M2 V2} (read1 : Heap → M1 → option V1) reach1 copy1 (read2 : Heap → M2 → option V2) reach2 copy2 :
  deep read1 reach1 copy1 → deep read2 reach2 copy2 →
  deep (λ h m, v1 ← read1 h m.1; v2 ← read2 h m.2; Some (v1, v2))
    (λ h m, reach1 h m.1 ∪ reach2 h m.2) (λ m, m1 ← copy1 m.1; m2 ← copy2 m.2; mret (m1, m2)).
Proof.
  intros D1 D2. split.
  - intros h m v (v1 & H1 & (v2 & H2 & _)%bind_Some)%bind_Some.
    apply (deep_dom _ _ _ D1) in H1. apply (deep_dom _ _ _ D2) in H2. set_solver.
  - intros h1 h2 m v (v1 & H1 & (v2 & H2 & [= <-])%bind_Some)%bind_Some Hl.
    destruct (deep_local _ _ _ D1 h1 h2 _ _ H1) as [-> ->]; [set_solver|].
    destruct (deep_local _ _ _ D2 h1 h2 _ _ H2) as [-> ->]; [set_solver|]. done.
  - intros h [m1 m2] v m' h' (v1 & H1 & (v2 & H2 & [= <-])%bind_Some)%bind_Some.
    unfold mbind, mem_bind. simpl in *. destruct (copy1 m1 h) as [m1' h1] eqn:E1.
    destruct (copy2 m2 h1) as [m2' h2] eqn:E2. intros [= <- <-].
    destruct (deep_copies _ _ _ D1 _ _ _ _ _ H1 E1) as (S1 & R1 & X1).
    destruct (deep_grows _ _ _ D2 _ _ _ _ H2 S1) as [H2' _].
    destruct (deep_copies _ _ _ D2 _ _ _ _ _ H2' E2) as (S2 & R2 & X2).
    destruct (deep_grows _ _ _ D1 _ _ _ _ R1 S2) as [R1' X1']. simpl.
    rewrite R1', R2, X1'. split_and!; [by etrans|done|]. apply subseteq_dom in S1. set_solver.
Qed.

(** A struct around what is copied. *)
Lemma deep_wrap {M A V B} (read : Heap → A → option B) reach copy (f : M → A) (g : M → A → M) (k : M → B → V) :
  (∀ m a, f (g m a) = a) → (∀ m a b, k (g m a) b = k m b) → deep read reach copy →
  deep (λ h m, b ← read h (f m); Some (k m b)) (λ h m, reach h (f m)) (λ m, a ← copy (f m); mret (g m a)).
Proof.
  intros Hf Hk D. split.
  - intros h m v (b & Hb & _)%bind_Some. by apply (deep_dom _ _ _ D) in Hb.
  - intros h1 h2 m v (b & Hb & [= <-])%bind_Some Hl.
    by destruct (deep_local _ _ _ D h1 h2 _ _ Hb Hl) as [-> ->].
  - intros h m v m' h' (b & Hb & [= <-])%bind_Some. unfold mbind, mem_bind.
    destruct (copy (f m) h) as [a h1] eqn:E. intros [= <- <-].
    destruct (deep_copies _ _ _ D _ _ _ _ _ Hb E) as (S1 & R1 & X1).
    rewrite Hf. split_and!; [done| |done]. unfold mbind, option_bind. rewrite R1. by rewrite Hk.
Qed.

(** What a pointer field leads to, if it is not nil. *)
Lemma deep_pointer {V} (read : Heap → loc → option V) reach copy :
  deep read reach copy →
  deep (λ h p, match p with None => Some None | Some l => Some <$> read h l end)
    (λ h p, match p with None => ∅ | Some l => reach h l end) (copy_pointer copy).
Proof.
  intros D. split.
  - intros h [l|] v; simpl; [|set_solver]. intros (w & Hw & _)%fmap_Some. by apply (deep_dom _ _ _ D) in Hw.
  - intros h1 h2 [l|] v; simpl; [|done]. intros (w & Hw & ->)%fmap_Some Hl.
    by destruct (deep_local _ _ _ D h1 h2 _ _ Hw Hl) as [-> ->].
  - intros h [l|] v m' h'; simpl; [|intros [= <-] [= <- <-]; split_and!; [done|done|set_solver]].
    intros (w & Hw & ->)%fmap_Some. unfold mbind, mem_bind. destruct (copy l h) as [l' h1] eqn:E. intros [= <- <-].
    destruct (deep_copies _ _ _ D _ _ _ _ _ Hw E) as (S1 & R1 & X1). by rewrite R1.
Qed.

Lemma deep_all {M V} (read : Heap → M → option V) reach copy :
  deep read reach copy →
  deep (λ h ms, mapM (read h) ms) (λ h ms, ⋃ (map (reach h) ms)) (copy_all copy).
Proof.
  intros D. split.
  - intros h ms. induction ms as [|m ms IH]; simpl; [set_solver|].
    intros v (w & Hw & (ws & Hws & _)%bind_Some)%bind_Some. apply (deep_dom _ _ _ D) in Hw. apply IH in Hws. set_solver.
  - intros h1 h2 ms. induction ms as [|m ms IH]; simpl; [done|].
    intros v (w & Hw & (ws & Hws & [= <-])%bind_Some)%bind_Some Hl.
    destruct (deep_local _ _ _ D h1 h2 _ _ Hw) as [-> ->]; [set_solver|].
    destruct (IH _ Hws) as [-> ->]; [set_solver|]. done.
  - intros h ms. revert h. induction ms as [|m ms IH]; simpl.
    + intros h v m' h' [= <-] [= <- <-]. split_and!; [done|done|set_solver].
    + intros h v m' h' (w & Hw & (ws & Hws & [= <-])%bind_Some)%bind_Some. unfold mbind at 1 2; unfold mem_bind.
      destruct (copy m h) as [m1 h1] eqn:E1. destruct (copy_all copy ms h1) as [ms1 h2] eqn:E2. intros [= <- <-].
      destruct (deep_copies _ _ _ D _ _ _ _ _ Hw E1) as (S1 & R1 & X1).
      assert (mapM (read h1) ms = Some ws) as Hws1.
      { clear -D Hws S1. revert ws Hws. induction ms as [|m ms IH]; simpl; [done|].
        intros ws (w & Hw & (r & Hr & [= <-])%bind_Some)%bind_Some.
        destruct (deep_grows _ _ _ D _ _ _ _ Hw S1) as [-> _]. simpl. by rewrite (IH _ Hr). }
      destruct (IH _ _ _ _ Hws1 E2) as (S2 & R2 & X2).
      destruct (deep_grows _ _ _ D _ _ _ _ R1 S2) as [R1' X1']. simpl. rewrite R1', R2, X1'. simpl.
      split_and!; [by etrans|done|]. apply subseteq_dom in S1. set_solver.
Qed.

(** A new object that holds a copy. *)
Lemma new_copy_deep {M V} (read : Heap → M → option V) reach into (inj : M → cell) h m v l h' :
  deep read reach into → read h m = Some v → new_copy inj into m h = (l, h') →
  h ⊆ h' ∧ (l ∉ dom h) ∧ ∃ m', h' !! l = Some (inj m') ∧ read h' m' = Some v ∧ reach h' m' ## dom h.
Proof.
  intros D Hr. unfold new_copy, mbind, mem_bind, new, store, mret, mem_ret.
  assert (fresh (dom h) ∉ dom h) as Hf by apply is_fresh. set (l0 := fresh (dom h)) in *.
  destruct (into m (<[l0 := inj m]> h)) as [m' h1] eqn:E. intros [= <- <-].
  assert (h !! l0 = None) as Hn by by apply not_elem_of_dom.
  destruct (deep_grows _ _ _ D _ (<[l0 := inj m]> h) _ _ Hr) as [Hr' _]; [by apply insert_subseteq|].
  destruct (deep_copies _ _ _ D _ _ _ _ _ Hr' E) as (S1 & R1 & X1). rewrite dom_insert in X1.
  destruct (deep_local _ _ _ D h1 (<[l0 := inj m']> h1) _ _ R1) as [R2 X2].
  { intros l Hl. apply lookup_insert_ne. set_solver. }
  split_and!; [|done|].
  - etrans; [by apply (insert_subseteq h l0 (inj m'))|]. apply map_subseteq_spec. intros l c.
    destruct (decide (l0 = l)) as [<-|]; [by rewrite !lookup_insert_eq|].
    rewrite !lookup_insert_ne by done. intros Hc. eapply lookup_weaken; [|exact S1]. by rewrite lookup_insert_ne.
  - exists m'. rewrite lookup_insert_eq, X2. split_and!; [done|done|set_solver].
Qed.

(** A pointer to a struct. *)
Lemma deep_target {M V} (read : Heap → M → option V) reach into (proj : cell → option M) inj :
  (∀ m, proj (inj m) = Some m) → deep read reach into →
  deep (λ h l, m ← (h !! l ≫= proj); read h m)
    (λ h l, {[l]} ∪ match h !! l ≫= proj with Some m => reach h m | None => ∅ end)
    (copy_target proj inj into).
Proof.
  intros Hp D. split.
  - intros h l v (m & Hm & Hr)%bind_Some. rewrite Hm. apply (deep_dom _ _ _ D) in Hr.
    apply bind_Some in Hm as (c & Hc & _). apply elem_of_dom_2 in Hc. set_solver.
  - intros h1 h2 l v (m & Hm & Hr)%bind_Some. rewrite Hm. intros Hl.
    rewrite (Hl l) by set_solver. rewrite Hm. simpl.
    destruct (deep_local _ _ _ D h1 h2 _ _ Hr) as [-> ->]; [set_solver|done].
  - intros h l v l' h' (m & Hm & Hr)%bind_Some. unfold copy_target. rewrite Hm. intros E.
    destruct (new_copy_deep _ _ _ _ _ _ _ _ _ D Hr E) as (S & Hl & m' & Hl' & R & X).
    rewrite Hl'. simpl. rewrite Hp. simpl. split_and!; [done|done|set_solver].
Qed.

(** A slice. *)
Definition read_items {M V} (proj : cell → option (list M)) (read : Heap → M → option V)
    (h : Heap) (s : option (loc * nat)) : option (list V) :=
  match s with None => Some [] | Some s => items ← items_at proj h s; mapM (read h) items end.
Definition reach_items {M} (proj : cell → option (list M)) (reach : Heap → M → gset loc)
    (h : Heap) (s : option (loc * nat)) : gset loc :=
  match s with
  | None => ∅
  | Some s => {[s.1]} ∪ match items_at proj h s with Some items => ⋃ (map (reach h) items) | None => ∅ end
  end.

Lemma deep_slice {M V} (read : Heap → M → option V) reach into (proj : cell → option (list M)) inj :
  (∀ m, proj (inj m) = Some m) → deep read reach into →
  deep (read_items proj read) (reach_items proj reach) (copy_slice inj proj into).
Proof.
  intros Hp D%deep_all. unfold read_items, reach_items. split.
  - intros h [s|] v; simpl; [|set_solver]. intros (items & Hi & Hr)%bind_Some. rewrite Hi.
    apply (deep_dom _ _ _ D) in Hr. apply bind_Some in Hi as (a & (c & Hc & _)%bind_Some & _).
    apply elem_of_dom_2 in Hc. set_solver.
  - intros h1 h2 [s|] v; simpl; [|done]. intros (items & Hi & Hr)%bind_Some. rewrite Hi. intros Hl.
    assert (items_at proj h2 s = Some items) as ->.
    { rewrite <-Hi. unfold items_at. rewrite (Hl s.1) by set_solver. done. }
    simpl. destruct (deep_local _ _ _ D h1 h2 _ _ Hr) as [-> ->]; [set_solver|done].
  - intros h [s|] v s' h'; simpl; [|intros [= <-] [= <- <-]; split_and!; [done|done|set_solver]].
    intros (items & Hi & Hr)%bind_Some. rewrite Hi. unfold mbind, mem_bind.
    destruct (new_copy inj (copy_all into) items h) as [l h1] eqn:E. intros [= <- <-].
    destruct (new_copy_deep _ _ _ _ _ _ _ _ _ D Hr E) as (S & Hl & m' & Hl' & R & X).
    assert (length m' = length items) as Hlen by by rewrite (length_mapM _ _ _ R), (length_mapM _ _ _ Hr).
    unfold items_at. simpl. rewrite Hl'. simpl. rewrite Hp. simpl. rewrite <-Hlen, Nat.leb_refl, firstn_all. simpl.
    split_and!; [done|done|set_solver].
Qed.

(** ** The code's structs

    For quantities, metadata and times the copies are deep: that is what the
    packages promise. *)
Context `{P : Platform}.
Definition time_of (c : cell) : option Z := match c with CTime t => Some t | _ => None end.
Definition read_time (h : Heap) (l : loc) : option Z := h !! l ≫= time_of.

Class DeepForeign : Type := {
  ListValue : Type;
  read_quantity : Heap → MQuantity → option Quantity;
  reach_quantity : Heap → MQuantity → gset loc;
  read_meta : Heap → MObjectMeta → option ObjectMeta;
  reach_meta : Heap → MObjectMeta → gset loc;
  read_list : Heap → MListMeta → option ListValue;
  reach_list : Heap → MListMeta → gset loc;
  deep_quantity : deep read_quantity reach_quantity Quantity_DeepCopy;
  deep_meta : deep read_meta reach_meta ObjectMeta_DeepCopyInto;
  deep_list : deep read_list reach_list ListMeta_DeepCopyInto;
  deep_time : deep read_time (λ _ l, {[l]}) Time_DeepCopy
}.
Context `{DF : !DeepForeign}.

(** *** Recommendations *)
Definition read_resource (h : Heap) (m : MResourceSpec) : option ResourceSpec :=
  q ← read_quantity h (mrs_Memory m); Some {| rs_CPU := mrs_CPU m; rs_Memory := q |}.
Definition reach_resource (h : Heap) (m : MResourceSpec) : gset loc := reach_quantity h (mrs_Memory m).
Definition read_savings (h : Heap) (m : MSavingsSpec) : option SavingsSpec :=
  q ← read_quantity h (msv_Memory m); Some {| sv_CPU := msv_CPU m; sv_Memory := q |}.
Definition reach_savings (h : Heap) (m : MSavingsSpec) : gset loc := reach_quantity h (msv_Memory m).

Definition read_spec (h : Heap) (m : MRecommendationSpec) : option RightsizingRecommendationSpec :=
  current ← read_resource h (msp_Current m);
  recommended ← read_resource h (msp_Recommended m);
  savings ← read_savings h (msp_Savings m);
  Some {| sp_VirtualMachineRef := msp_VirtualMachineRef m; sp_Direction := msp_Direction m;
          sp_Current := current; sp_Recommended := recommended; sp_Savings := savings;
          sp_Metrics := msp_Metrics m; sp_HotplugCapable := msp_HotplugCapable m; sp_Reason := msp_Reason m |}.
Definition reach_spec (h : Heap) (m : MRecommendationSpec) : gset loc :=
  reach_resource h (msp_Current m) ∪ (reach_resource h (msp_Recommended m) ∪ reach_savings h (msp_Savings m)).

Definition read_pointer {V} (read : Heap → loc → option V) (h : Heap) (p : option loc) : option (option V) :=
  match p with None => Some None | Some l => Some <$> read h l end.
Definition reach_pointer (reach : Heap → loc → gset loc) (h : Heap) (p : option loc) : gset loc :=
  match p with None => ∅ | Some l => reach h l end.
Definition read_target (h : Heap) (l : loc) : option ResourceSpec :=
  m ← (h !! l ≫= resource_of); read_resource h m.
Definition reach_target (h : Heap) (l : loc) : gset loc :=
  {[l]} ∪ match h !! l ≫= resource_of with Some m => reach_resource h m | None => ∅ end.

Definition read_status (h : Heap) (m : MRecommendationStatus) : option RightsizingRecommendationStatus :=
  let time := read_pointer read_time h in
  lastCalculated ← time (mst_LastCalculated m);
  appliedAt ← time (mst_AppliedAt m);
  scheduledRestartAt ← time (mst_ScheduledRestartAt m);
  revertBefore ← time (mst_RevertBefore m);
  revertConfig ← read_pointer read_target h (mst_RevertConfig m);
  notifiedAt ← time (mst_NotifiedAt m);
  approvedAt ← time (mst_ApprovedAt m);
  rejectedAt ← time (mst_RejectedAt m);
  reminderSentAt ← time (mst_ReminderSentAt m);
  Some {| st_State := mst_State m; st_LastCalculated := lastCalculated; st_AppliedAt := appliedAt;
          st_ScheduledRestartAt := scheduledRestartAt; st_RevertBefore := revertBefore;
          st_RevertConfig := revertConfig; st_Message := mst_Message m; st_Owner := mst_Owner m;
          st_ApprovalToken := mst_ApprovalToken m; st_NotifiedAt := notifiedAt;
          st_ApprovedBy := mst_ApprovedBy m; st_ApprovedAt := approvedAt;
          st_RejectedBy := mst_RejectedBy m; st_RejectedAt := rejectedAt;
          st_RejectionReason := mst_RejectionReason m;
          st_ServiceNowIncident := mst_ServiceNowIncident m; st_ReminderSentAt := reminderSentAt |}.
Definition reach_status (h : Heap) (m : MRecommendationStatus) : gset loc :=
  let time := reach_pointer (λ _ l, {[l]}) h in
  time (mst_LastCalculated m) ∪ (time (mst_AppliedAt m) ∪ (time (mst_ScheduledRestartAt m) ∪
  (time (mst_RevertBefore m) ∪ (reach_pointer reach_target h (mst_RevertConfig m) ∪
  (time (mst_NotifiedAt m) ∪ (time (mst_ApprovedAt m) ∪ (time (mst_RejectedAt m) ∪
   time (mst_ReminderSentAt m)))))))).

Definition read_rec (h : Heap) (m : MRecommendation) : option RightsizingRecommendation :=
  meta ← read_meta h (mrr_ObjectMeta m);
  spec ← read_spec h (mrr_Spec m);
  status ← read_status h (mrr_Status m);
  Some {| rr_Meta := meta; rr_Spec := spec; rr_Status := status |}.
Definition reach_rec (h : Heap) (m : MRecommendation) : gset loc :=
  reach_meta h (mrr_ObjectMeta m) ∪ (reach_spec h (mrr_Spec m) ∪ reach_status h (mrr_Status m)).

Lemma deep_resource : deep read_resource reach_resource ResourceSpec_DeepCopyInto.
Proof.
  apply (deep_wrap read_quantity reach_quantity Quantity_DeepCopy mrs_Memory
    (λ m q, {| mrs_CPU := mrs_CPU m; mrs_Memory := q |}) (λ m q, {| rs_CPU := mrs_CPU m; rs_Memory := q |})); [done..|].
  apply deep_quantity.
Qed.
Lemma deep_savings : deep read_savings reach_savings SavingsSpec_DeepCopyInto.
Proof.
  apply (deep_wrap read_quantity reach_quantity Quantity_DeepCopy msv_Memory
    (λ m q, {| msv_CPU := msv_CPU m; msv_Memory := q |}) (λ m q, {| sv_CPU := msv_CPU m; sv_Memory := q |})); [done..|].
  apply deep_quantity.
Qed.

(** Both sides do the same reads, or the same copies, one after the other. *)
Ltac binds :=
  repeat (progress (unfold mbind, mem_bind, option_bind; simpl) ||
    match goal with |- context [match ?x with _ => _ end] =>
      lazymatch x with context [match _ with _ => _ end] => fail | _ => destruct x end
    end); done.

Lemma deep_spec : deep read_spec reach_spec RecommendationSpec_DeepCopyInto.
Proof.
  eapply deep_ext; last first.
  - eapply (deep_wrap _ _ _ (λ m, (msp_Current m, (msp_Recommended m, msp_Savings m)))
      (λ m a, {| msp_VirtualMachineRef := msp_VirtualMachineRef m; msp_Direction := msp_Direction m;
                 msp_Current := a.1; msp_Recommended := a.2.1; msp_Savings := a.2.2;
                 msp_Metrics := msp_Metrics m; msp_HotplugCapable := msp_HotplugCapable m;
                 msp_Reason := msp_Reason m |})
      (λ m b, {| sp_VirtualMachineRef := msp_VirtualMachineRef m; sp_Direction := msp_Direction m;
                 sp_Current := b.1; sp_Recommended := b.2.1; sp_Savings := b.2.2;
                 sp_Metrics := msp_Metrics m; sp_HotplugCapable := msp_HotplugCapable m;
                 sp_Reason := msp_Reason m |})); [by intros ? (?&?&?)|done|].
    apply (deep_pair _ _ _ _ _ _ deep_resource (deep_pair _ _ _ _ _ _ deep_resource deep_savings)).
  - intros m h. unfold RecommendationSpec_DeepCopyInto. binds.
  - done.
  - intros h m. unfold read_spec. simpl. binds.
Qed.

Lemma deep_time_pointer : deep (read_pointer read_time) (reach_pointer (λ _ l, {[l]})) (copy_pointer Time_DeepCopy).
Proof. apply deep_pointer, deep_time. Qed.
Lemma deep_resource_pointer : deep (read_pointer read_target) (reach_pointer reach_target) (copy_pointer copy_resource).
Proof. apply deep_pointer, deep_target, deep_resource. done. Qed.

Lemma deep_status : deep read_status reach_status RecommendationStatus_DeepCopyInto.
Proof.
  eapply deep_ext; last first.
  - eapply (deep_wrap _ _ _
      (λ m, (mst_LastCalculated m, (mst_AppliedAt m, (mst_ScheduledRestartAt m, (mst_RevertBefore m,
        (mst_RevertConfig m, (mst_NotifiedAt m, (mst_ApprovedAt m, (mst_RejectedAt m, mst_ReminderSentAt m)))))))))
      (λ m '(t1, (t2, (t3, (t4, (r, (t5, (t6, (t7, t8)))))))),
        {| mst_State := mst_State m; mst_LastCalculated := t1; mst_AppliedAt := t2;
           mst_ScheduledRestartAt := t3; mst_RevertBefore := t4; mst_RevertConfig := r;
           mst_Message := mst_Message m; mst_Owner := mst_Owner m; mst_ApprovalToken := mst_ApprovalToken m;
           mst_NotifiedAt := t5; mst_ApprovedBy := mst_ApprovedBy m; mst_ApprovedAt := t6;
           mst_RejectedBy := mst_RejectedBy m; mst_RejectedAt := t7;
           mst_RejectionReason := mst_RejectionReason m;
           mst_ServiceNowIncident := mst_ServiceNowIncident m; mst_ReminderSentAt := t8 |})
      (λ m '(t1, (t2, (t3, (t4, (r, (t5, (t6, (t7, t8)))))))),
        {| st_State := mst_State m; st_LastCalculated := t1; st_AppliedAt := t2;
           st_ScheduledRestartAt := t3; st_RevertBefore := t4; st_RevertConfig := r;
           st_Message := mst_Message m; st_Owner := mst_Owner m; st_ApprovalToken := mst_ApprovalToken m;
           st_NotifiedAt := t5; st_ApprovedBy := mst_ApprovedBy m; st_ApprovedAt := t6;
           st_RejectedBy := mst_RejectedBy m; st_RejectedAt := t7;
           st_RejectionReason := mst_RejectionReason m;
           st_ServiceNowIncident := mst_ServiceNowIncident m; st_ReminderSentAt := t8 |}));
      [by intros ? (?&?&?&?&?&?&?&?&?)|by intros ? (?&?&?&?&?&?&?&?&?) (?&?&?&?&?&?&?&?&?)|].
    repeat first [apply deep_time_pointer | apply deep_resource_pointer | apply deep_pair].
  - intros m h. unfold RecommendationStatus_DeepCopyInto. binds.
  - done.
  - intros h m. unfold read_status. binds.
Qed.

Lemma deep_rec : deep read_rec reach_rec Recommendation_DeepCopyInto.
Proof.
  eapply deep_ext; last first.
  - eapply (deep_wrap _ _ _ (λ m, (mrr_ObjectMeta m, (mrr_Spec m, mrr_Status m)))
      (λ m a, {| mrr_TypeMeta := mrr_TypeMeta m; mrr_ObjectMeta := a.1; mrr_Spec := a.2.1; mrr_Status := a.2.2 |})
      (λ _ b, {| rr_Meta := b.1; rr_Spec := b.2.1; rr_Status := b.2.2 |})); [by intros ? (?&?&?)|done|].
    apply (deep_pair _ _ _ _ _ _ deep_meta (deep_pair _ _ _ _ _ _ deep_spec deep_status)).
  - intros m h. unfold Recommendation_DeepCopyInto. binds.
  - done.
  - intros h m. unfold read_rec. binds.
Qed.

(** A list of resources: what its metadata says, and the items. *)
Definition read_rec_list (h : Heap) (m : MList) : option (ListValue * list RightsizingRecommendation) :=
  meta ← read_list h (ml_ListMeta m);
  items ← read_items recs_of read_rec h (ml_Items m);
  Some (meta, items).
Definition reach_rec_list (h : Heap) (m : MList) : gset loc :=
  reach_list h (ml_ListMeta m) ∪ reach_items recs_of reach_rec h (ml_Items m).

Lemma deep_rec_list : deep read_rec_list reach_rec_list RecommendationList_DeepCopyInto.
Proof.
  eapply deep_ext; last first.
  - eapply (deep_wrap _ _ _ (λ m, (ml_ListMeta m, ml_Items m))
      (λ m a, {| ml_TypeMeta := ml_TypeMeta m; ml_ListMeta := a.1; ml_Items := a.2 |}) (λ _ b, b));
      [by intros ? []|done|].
    apply (deep_pair _ _ _ _ _ _ deep_list
      (deep_slice _ _ _ recs_of CRecs (λ _, eq_refl) deep_rec)).
  - intros m h. unfold RecommendationList_DeepCopyInto. binds.
  - done.
  - intros h m. unfold read_rec_list. binds.
Qed.

(** [DeepCopy] of a non-nil pointer makes a new object that is separate from the
    original. *)
Lemma DeepCopy_separate {M V} (read : Heap → M → option V) reach into (inj : M → cell) h m v :
  deep read reach into → read h m = Some v →
  ∃ l m' h', DeepCopy inj into (Some m) h = (Some l, h') ∧ (l ∉ dom h) ∧ h ⊆ h' ∧ h' !! l = Some (inj m') ∧
    read h' m = Some v ∧ read h' m' = Some v ∧ reach h' m ## reach h' m' ∧
    (∀ x c, x ∈ reach h' m' → read (<[x := c]> h') m = Some v) ∧
    (∀ x c, x ∈ reach h' m → read (<[x := c]> h') m' = Some v).
Proof.
  intros D Hr. destruct (new_copy inj into m h) as [l h'] eqn:E.
  destruct (new_copy_deep _ _ _ _ _ _ _ _ _ D Hr E) as (S & Hl & m' & Hl' & R & X).
  exists l, m', h'. unfold DeepCopy, mbind, mem_bind. rewrite E.
  destruct (deep_apart _ _ _ D _ _ _ _ _ Hr S R X) as (?&?&?&?). by split_and!.
Qed.

(** *** Policies *)
Definition read_thresholds (h : Heap) (m : MThresholdsSpec) : option ThresholdsSpec :=
  q ← read_quantity h (mth_MinMemorySavings m);
  Some {| th_MinCPUSavings := mth_MinCPUSavings m; th_MinMemorySavings := q;
          th_UpsizeUtilizationPercent := mth_UpsizeUtilizationPercent m |}.
Definition reach_thresholds (h : Heap) (m : MThresholdsSpec) : gset loc := reach_quantity h (mth_MinMemorySavings m).
Definition read_storage (h : Heap) (m : MMetricsStorageSpec) : option MetricsStorageSpec :=
  q ← read_quantity h (mms_StorageSize m); Some {| mt_RetentionDays := mms_RetentionDays m; mt_StorageSize := q |}.
Definition reach_storage (h : Heap) (m : MMetricsStorageSpec) : gset loc := reach_quantity h (mms_StorageSize m).

Definition read_policy (h : Heap) (m : MPolicy) : option (ObjectMeta * RightsizingPolicySpec) :=
  let s := mrp_Spec m in
  meta ← read_meta h (mrp_ObjectMeta m);
  thresholds ← read_thresholds h (mps_Thresholds s);
  storage ← read_storage h (mps_MetricsStorage s);
  Some (meta, {| ps_LookbackDays := mps_LookbackDays s; ps_Algorithm := mps_Algorithm s;
                 ps_Thresholds := thresholds; ps_RevertRetentionDays := mps_RevertRetentionDays s;
                 ps_AutoMode := mps_AutoMode s;
                 ps_ReconcileIntervalMinutes := mps_ReconcileIntervalMinutes s;
                 ps_MetricsStorage := storage |}).
(** What a policy points to, the storage size apart. *)
Definition reach_policy (h : Heap) (m : MPolicy) : gset loc :=
  reach_meta h (mrp_ObjectMeta m) ∪ reach_thresholds h (mps_Thresholds (mrp_Spec m)).

Lemma deep_thresholds : deep read_thresholds reach_thresholds ThresholdsSpec_DeepCopyInto.
Proof.
  apply (deep_wrap read_quantity reach_quantity Quantity_DeepCopy mth_MinMemorySavings
    (λ m q, {| mth_MinCPUSavings := mth_MinCPUSavings m; mth_MinMemorySavings := q;
               mth_UpsizeUtilizationPercent := mth_UpsizeUtilizationPercent m |})
    (λ m q, {| th_MinCPUSavings := mth_MinCPUSavings m; th_MinMemorySavings := q;
               th_UpsizeUtilizationPercent := mth_UpsizeUtilizationPercent m |})); [done..|].
  apply deep_quantity.
Qed.

Lemma Policy_DeepCopyInto_spec h m v :
  read_policy h m = Some v → ∃ m' h', Policy_DeepCopyInto m h = (m', h') ∧ h ⊆ h' ∧
    read_policy h' m' = Some v ∧ reach_policy h' m' ## dom h ∧
    mps_MetricsStorage (mrp_Spec m') = mps_MetricsStorage (mrp_Spec m) ∧
    reach_storage h' (mps_MetricsStorage (mrp_Spec m)) = reach_storage h (mps_MetricsStorage (mrp_Spec m)).
Proof.
  intros (meta & H1 & (thr & H2 & (st & H3 & [= <-])%bind_Some)%bind_Some)%bind_Some.
  unfold Policy_DeepCopyInto, PolicySpec_DeepCopyInto. destruct m as [t om [a b c d e f g]]. simpl in *.
  unfold mbind, mem_bind.
  destruct (ObjectMeta_DeepCopyInto om h) as [om' h1] eqn:E1.
  destruct (ThresholdsSpec_DeepCopyInto c h1) as [c' h2] eqn:E2.
  destruct (deep_copies _ _ _ deep_meta _ _ _ _ _ H1 E1) as (S1 & R1 & X1).
  destruct (deep_grows _ _ _ deep_thresholds _ _ _ _ H2 S1) as [H2' _].
  destruct (deep_copies _ _ _ deep_thresholds _ _ _ _ _ H2' E2) as (S2 & R2 & X2).
  destruct (deep_grows _ _ _ deep_meta _ _ _ _ R1 S2) as [R1' X1'].
  apply bind_Some in H3 as (q & Hq & [= <-]).
  destruct (deep_grows _ _ _ deep_quantity h h2 _ _ Hq) as [Hq' Hx]; [by etrans|].
  eexists _, _. split; [reflexivity|]. unfold read_policy, reach_policy, read_storage. simpl.
  rewrite R1', R2, Hq', X1'. split_and!; [by etrans|done| |done|exact Hx].
  apply subseteq_dom in S1. set_solver.
Qed.

(** All that a policy points to. *)
Definition reach_whole (h : Heap) (m : MPolicy) : gset loc :=
  reach_policy h m ∪ reach_storage h (mps_MetricsStorage (mrp_Spec m)).

Lemma read_policy_local h1 h2 m v :
  read_policy h1 m = Some v → (∀ l, l ∈ reach_whole h1 m → h2 !! l = h1 !! l) →
  read_policy h2 m = Some v ∧ reach_policy h2 m = reach_policy h1 m ∧
  reach_whole h2 m = reach_whole h1 m ∧ reach_whole h1 m ⊆ dom h1.
Proof.
  intros (meta & H1 & (thr & H2 & (st & H3 & [= <-])%bind_Some)%bind_Some)%bind_Some.
  apply bind_Some in H3 as (q & Hq & [= <-]).
  unfold read_policy, reach_whole, reach_policy, reach_storage, read_storage. intros Hl.
  destruct (deep_local _ _ _ deep_meta _ h2 _ _ H1) as [-> ->]; [set_solver|].
  destruct (deep_local _ _ _ deep_thresholds _ h2 _ _ H2) as [-> ->]; [set_solver|].
  destruct (deep_local _ _ _ deep_quantity _ h2 _ _ Hq) as [-> ->]; [set_solver|].
  apply (deep_dom _ _ _ deep_meta) in H1. apply (deep_dom _ _ _ deep_thresholds) in H2.
  apply (deep_dom _ _ _ deep_quantity) in Hq. split_and!; [done|done|done|set_solver].
Qed.

Lemma read_policy_grows h h' m v : read_policy h m = Some v → h ⊆ h' →
  read_policy h' m = Some v ∧ reach_policy h' m = reach_policy h m ∧
  reach_whole h' m = reach_whole h m ∧ reach_whole h m ⊆ dom h.
Proof.
  intros Hr Hs. destruct (read_policy_local h h m v Hr) as (_ & _ & _ & Hd); [done|].
  apply read_policy_local; [done|]. intros l Hl%Hd. apply elem_of_dom in Hl as [c Hc]. rewrite Hc.
  by apply (lookup_weaken h).
Qed.

(** ** What is copied deeply *)

(** C25: copying a list of recommendations, as the cache does for every list it
    hands out, gives a new list of the same recommendations that shares nothing
    with the original: whatever is written where the one leads, the other is
    still the same list. *)
Theorem recommendations_copied_deeply h m v :
  read_rec_list h m = Some v →
  ∃ l m' h', RecommendationList_DeepCopyObject (Some m) h = (Some l, h') ∧
    (l ∉ dom h) ∧ h ⊆ h' ∧ h' !! l = Some (CRecList m') ∧
    read_rec_list h' m = Some v ∧ read_rec_list h' m' = Some v ∧
    reach_rec_list h' m ## reach_rec_list h' m' ∧
    (∀ x c, x ∈ reach_rec_list h' m' → read_rec_list (<[x := c]> h') m = Some v) ∧
    (∀ x c, x ∈ reach_rec_list h' m → read_rec_list (<[x := c]> h') m' = Some v).
Proof. apply DeepCopy_separate, deep_rec_list. Qed.

(** Likewise a single recommendation. *)
Theorem recommendation_copied_deeply h m v :
  read_rec h m = Some v →
  ∃ l m' h', Recommendation_DeepCopyObject (Some m) h = (Some l, h') ∧
    (l ∉ dom h) ∧ h ⊆ h' ∧ h' !! l = Some (CRec m') ∧
    read_rec h' m = Some v ∧ read_rec h' m' = Some v ∧
    reach_rec h' m ## reach_rec h' m' ∧
    (∀ x c, x ∈ reach_rec h' m' → read_rec (<[x := c]> h') m = Some v) ∧
    (∀ x c, x ∈ reach_rec h' m → read_rec (<[x := c]> h') m' = Some v).
Proof. apply DeepCopy_separate, deep_rec. Qed.

(** C39: a copied policy is the same policy and its metadata and thresholds are
    new, but its storage settings are the original's, with whatever the storage
    size points to. *)
Theorem policy_copy_shares_storage h m v :
  read_policy h m = Some v →
  ∃ l m' h', Policy_DeepCopyObject (Some m) h = (Some l, h') ∧
    (l ∉ dom h) ∧ h ⊆ h' ∧ h' !! l = Some (CPolicy m') ∧
    read_policy h' m = Some v ∧ read_policy h' m' = Some v ∧
    reach_policy h' m ## reach_policy h' m' ∧
    mps_MetricsStorage (mrp_Spec m') = mps_MetricsStorage (mrp_Spec m).
Proof.
  intros Hr. unfold Policy_DeepCopyObject, Policy_DeepCopy, DeepCopy, new_copy, mbind, mem_bind, new, store.
  assert (fresh (dom h) ∉ dom h) as Hf by apply is_fresh. set (l := fresh (dom h)) in *.
  assert (h !! l = None) as Hn by by apply not_elem_of_dom.
  assert (h ⊆ <[l := CPolicy m]> h) as S0 by by apply insert_subseteq.
  destruct (read_policy_grows _ _ _ _ Hr S0) as (Hr0 & Hx0 & Hw0 & Hd0).
  destruct (Policy_DeepCopyInto_spec _ _ _ Hr0) as (m' & h1 & -> & S1 & R1 & X1 & Hst & Hxs).
  destruct (read_policy_grows _ _ _ _ Hr0 S1) as (Hr1 & Hx1 & _). rewrite dom_insert in X1.
  assert (reach_storage (<[l := CPolicy m]> h) (mps_MetricsStorage (mrp_Spec m)) ⊆ dom h) as Hds.
  { rewrite <-Hw0 in Hd0. unfold reach_whole in Hd0. set_solver. }
  destruct (read_policy_local h1 (<[l := CPolicy m']> h1) m' v R1) as (R2 & X2 & _).
  { intros x Hx. apply lookup_insert_ne. unfold reach_whole in Hx. rewrite Hst, Hxs in Hx. set_solver. }
  assert (h ⊆ <[l := CPolicy m']> h1) as S2 by (apply insert_subseteq_r; [done|by etrans]).
  destruct (read_policy_grows _ _ _ _ Hr S2) as (R3 & X3 & _ & _).
  exists l, m', (<[l := CPolicy m']> h1). rewrite lookup_insert_eq, X2, X3.
  split_and!; [done|done|done|done|done|done| |done].
  unfold reach_whole in Hd0. set_solver.
Qed.

End DeepCopyFacts.

(** ** A concrete memory

    Quantities are pointers to byte counts; metadata has no pointers. *)
Section Toy.
#[local] Instance toy_types : ForeignTypes :=
  {| MQuantity := loc; MObjectMeta := ObjectMeta; MListMeta := string; MTypeMeta := unit; Foreign := Z |}.
#[local] Abbreviation Heap := (gmap loc cell).
Definition foreign_of (c : cell) : option Z := match c with CForeign z => Some z | _ => None end.
#[local] Instance toy_copies : ForeignCopies := {|
  Quantity_DeepCopy := copy_target foreign_of CForeign mret;
  ObjectMeta_DeepCopyInto := mret; ListMeta_DeepCopyInto := mret;
  Time_DeepCopy := copy_target time_of CTime mret
|}.

Lemma deep_plain {M} : deep (λ (_ : Heap) (m : M), Some m) (λ _ _, ∅) mret.
Proof.
  split; [set_solver|intros h1 h2 m v [= <-]; done|]. intros h m v m' h' [= <-] [= <- <-].
  split_and!; [done|done|set_solver].
Qed.
Lemma deep_cell {M} (proj : cell → option M) inj : (∀ m, proj (inj m) = Some m) →
  deep (λ (h : Heap) l, h !! l ≫= proj) (λ _ l, {[l]}) (copy_target proj inj mret).
Proof.
  intros Hp. eapply deep_ext; [| | |apply (deep_target _ _ _ proj inj Hp deep_plain)]; [simpl|simpl|done].
  - intros h l. by destruct (_ ≫= proj).
  - intros h l. destruct (_ ≫= proj); set_solver.
Qed.
#[local] Instance toy_deep : DeepForeign := {|
  ListValue := string;
  read_quantity := λ h l, h !! l ≫= foreign_of; reach_quantity := λ _ l, {[l]};
  read_meta := λ _ m, Some m; reach_meta := λ _ _, ∅;
  read_list := λ _ m, Some m; reach_list := λ _ _, ∅;
  deep_quantity := deep_cell foreign_of CForeign (λ _, eq_refl);
  deep_meta := deep_plain; deep_list := deep_plain;
  deep_time := deep_cell time_of CTime (λ _, eq_refl)
|}.

Definition toy_size (memory : loc) : MResourceSpec :=
  {| mrs_CPU := {| cpu_Cores := 4; cpu_Sockets := 1; cpu_Threads := 1 |}; mrs_Memory := memory |}.
(** Applied, with a time and the former size to revert to. *)
Definition toy_rec : MRecommendation := {|
  mrr_TypeMeta := (); mrr_ObjectMeta := {| om_Name := "web"; om_Namespace := "ns"; om_ResourceVersion := "7" |};
  mrr_Spec := {|
    msp_VirtualMachineRef := {| ref_Name := "web"; ref_Namespace := "ns" |}; msp_Direction := DirectionDownsize;
    msp_Current := toy_size 1%positive; msp_Recommended := toy_size 2%positive;
    msp_Savings := {| msv_CPU := 0; msv_Memory := 3%positive |};
    msp_Metrics := {| ms_LookbackDays := 30; ms_CPUP95Percent := (S754_zero false); ms_MemoryP95Percent := (S754_zero false);
                      ms_CPUMaxPercent := (S754_zero false); ms_MemoryMaxPercent := (S754_zero false) |};
    msp_HotplugCapable := true; msp_Reason := "" |};
  mrr_Status := {|
    mst_State := StateApplied; mst_LastCalculated := Some 4%positive; mst_AppliedAt := Some 4%positive;
    mst_ScheduledRestartAt := None; mst_RevertBefore := None; mst_RevertConfig := Some 5%positive;
    mst_Message := ""; mst_Owner := ""; mst_ApprovalToken := ""; mst_NotifiedAt := None;
    mst_ApprovedBy := ""; mst_ApprovedAt := None; mst_RejectedBy := ""; mst_RejectedAt := None;
    mst_RejectionReason := ""; mst_ServiceNowIncident := ""; mst_ReminderSentAt := None |}
|}.
Definition toy_list : MList := {| ml_TypeMeta := (); ml_ListMeta := "7"; ml_Items := Some (6%positive, 2%nat) |}.
Definition toy_policy : MPolicy := {|
  mrp_TypeMeta := (); mrp_ObjectMeta := {| om_Name := "default"; om_Namespace := ""; om_ResourceVersion := "1" |};
  mrp_Spec := {|
    mps_LookbackDays := 30; mps_Algorithm := {| al_Percentile := 95; al_HeadroomPercent := 20 |};
    mps_Thresholds := {| mth_MinCPUSavings := 1; mth_MinMemorySavings := 2%positive; mth_UpsizeUtilizationPercent := 90 |};
    mps_RevertRetentionDays := 30; mps_AutoMode := {| am_Enabled := false; am_Schedule := "0 2 * * *" |};
    mps_ReconcileIntervalMinutes := 60;
    mps_MetricsStorage := {| mms_RetentionDays := 90; mms_StorageSize := 1%positive |} |}
|}.
Definition toy_heap : Heap :=
  list_to_map (zip [1; 2; 3; 4; 5; 6]%positive
    [CForeign 8; CForeign 4; CForeign 4; CTime 1000; CResource (toy_size 1%positive); CRecs [toy_rec; toy_rec]]).

(** What a list and a policy say, in part. *)
Definition toy_names (h : Heap) : option (list string) := map (λ r, om_Name (rr_Meta r)) ∘ snd <$> read_rec_list h toy_list.
Definition toy_storage (h : Heap) : option Z := Q_Value ∘ mt_StorageSize ∘ ps_MetricsStorage ∘ snd <$> read_policy h toy_policy.

Lemma recommendations_copied_deeply_witness :
  toy_names toy_heap = Some ["web"; "web"] ∧
  ∃ v l m' h', read_rec_list toy_heap toy_list = Some v ∧
    RecommendationList_DeepCopyObject (Some toy_list) toy_heap = (Some l, h') ∧ read_rec_list h' m' = Some v ∧
    (∀ x c, x ∈ reach_rec_list h' m' → read_rec_list (<[x := c]> h') toy_list = Some v).
Proof.
  assert (toy_names toy_heap = Some ["web"; "web"]) as Hn by (vm_compute; reflexivity).
  split; [exact Hn|]. unfold toy_names in Hn.
  destruct (read_rec_list toy_heap toy_list) as [v|] eqn:Hv; [|discriminate Hn].
  destruct (recommendations_copied_deeply toy_heap toy_list v Hv) as (l & m' & h' & E & _ & _ & _ & _ & R & _ & W & _).
  exists v, l, m', h'. split; [reflexivity|]. split; [exact E|]. split; [exact R|exact W].
Defined.

(** Writing the storage size through the copy writes the original's. *)
Lemma policy_copy_shares_storage_witness :
  toy_storage toy_heap = Some 8 ∧
  ∃ v l m' h', read_policy toy_heap toy_policy = Some v ∧
    Policy_DeepCopyObject (Some toy_policy) toy_heap = (Some l, h') ∧ read_policy h' m' = Some v ∧
    toy_storage (<[mms_StorageSize (mps_MetricsStorage (mrp_Spec m')) := CForeign 0]> h') = Some 0.
Proof.
  assert (toy_storage toy_heap = Some 8) as Hs by (vm_compute; reflexivity).
  split; [exact Hs|]. unfold toy_storage in Hs at 1.
  destruct (read_policy toy_heap toy_policy) as [v|] eqn:Hv; [|discriminate Hs].
  destruct (policy_copy_shares_storage toy_heap toy_policy v Hv) as (l & m' & h' & E & _ & _ & _ & _ & R & _ & Hst).
  exists v, l, m', h'. split; [reflexivity|]. split; [exact E|]. split; [exact R|]. rewrite Hst.
  assert (h' = snd (Policy_DeepCopyObject (Some toy_policy) toy_heap)) as -> by (rewrite E; reflexivity).
  vm_compute. reflexivity.
Defined.
End Toy.
