(* ===== verification/Owner.v ===== *)
(** * Owner resolution, internal/owner/resolver.go *)
From S2P Require Import Prelude External ApiTypes Effects World.

(** [owner.Resolver] holds the client only. *)
Inductive Resolver : Type := mkResolver.

Section Owner.
Context `{P : Platform}.

Definition ResolveOwner (r : Resolver) (vmName namespace : string) : prog Ev (result string) :=
  got ← call (KGetVM (NSName namespace vmName));
  match got with
  | Err e => mret (Err (EWrap ("failed to get VirtualMachine " +:+ namespace +:+ "/" +:+ vmName) e))
  | Ok vm =>
      match GetLabels vm !! LabelOwner with
      | Some owner => mret (Ok owner)
      | None =>
          ns ← call (KGetNamespaceLabels namespace);
          match ns with
          | Err e => mret (Err (EWrap ("failed to get Namespace " +:+ namespace) e))
          | Ok labels =>
              match labels !! LabelOwner with
              | Some owner => mret (Ok owner)
              | None => mret (Ok "")
              end
          end
      end
  end.

(** The owner two label sets give: the VM's label, whatever its value, hides the
    namespace's; without either there is no owner. *)
Definition owner_of (vmLabels nsLabels : gmap string string) : string :=
  match vmLabels !! LabelOwner with
  | Some o => o
  | None => default "" (nsLabels !! LabelOwner)
  end.

(** A run by its answers. *)
Inductive resolved (key : NamespacedName) : list (obs Ev) → result string → Prop :=
| resolved_vm vm o : GetLabels vm !! LabelOwner = Some o →
    resolved key [Obs (KGetVM key) (Ok vm)] (Ok o)
| resolved_ns vm labels : GetLabels vm !! LabelOwner = None →
    resolved key [Obs (KGetVM key) (Ok vm); Obs (KGetNamespaceLabels (nn_Namespace key)) (Ok labels)]
      (Ok (owner_of (GetLabels vm) labels))
| resolved_no_vm e e' : resolved key [Obs (KGetVM key) (Err e)] (Err e')
| resolved_no_ns vm e e' : GetLabels vm !! LabelOwner = None →
    resolved key [Obs (KGetVM key) (Ok vm); Obs (KGetNamespaceLabels (nn_Namespace key)) (Err e)] (Err e').

Lemma ResolveOwner_resolved r vmName namespace tr out :
  runs (ResolveOwner r vmName namespace) tr out →
  ∃ res, out = Returns res ∧ resolved (NSName namespace vmName) tr res.
Proof.
  intros ([vm|e] & tr1 & -> & H); simpl in H; [|destruct H as [-> ->]; eauto using resolved].
  destruct (GetLabels vm !! LabelOwner) eqn:Hvm; [destruct H as [-> ->]; eauto using resolved|].
  destruct H as ([labels|e] & tr2 & -> & H); simpl in H.
  - exists (Ok (owner_of (GetLabels vm) labels)).
    assert (tr2 = [] ∧ out = Returns (Ok (owner_of (GetLabels vm) labels))) as [-> ->].
    { unfold owner_of. rewrite Hvm. by destruct (labels !! LabelOwner), H as [-> ->]. }
    split; [done|]. by constructor.
  - destruct H as [-> ->]. eauto using resolved.
Qed.

(** Nothing is written while an owner is looked up. *)
Lemma resolved_no_writes key tr res : resolved key tr res → writes tr = [].
Proof. by destruct 1. Qed.
Lemma resolved_no_reads key tr res : resolved key tr res → reads tr = [].
Proof. by destruct 1. Qed.
Lemma resolved_no_times key tr res : resolved key tr res → times tr = [].
Proof. by destruct 1. Qed.

(** The lookup as a single specification: a VM label decides alone, without the
    namespace being read. *)
Lemma wp_ResolveOwner r vmName namespace :
  wp (ResolveOwner r vmName namespace)
    (λ tr out, ∃ res, out = Returns res ∧ resolved (NSName namespace vmName) tr res).
Proof. rewrite wp_runs. apply ResolveOwner_resolved. Qed.
End Owner.
