(* ===== verification/Applier.v ===== *)
(** * Patching virtual machines, internal/applier/applier.go *)
From S2P Require Import Prelude GoJson HttpMessage External ApiTypes Effects World.
Local Open Scope Z_scope.

(** The dynamic client is the only field. *)
Inductive Applier : Type := mkApplier.

Definition cpu_path (leaf : string) : list string :=
  ["spec"; "template"; "spec"; "domain"; "cpu"; leaf].

Section Applier.
Context `{P : Platform}.

Definition IsHotplugCapable (vm : Unstructured) : bool :=
  let '(maxSockets, found, err) := NestedInt64 vm (cpu_path "maxSockets") in
  if err || negb found then false else 0 <? maxSockets.

Definition GetVM (a : Applier) (name namespace : string) : prog Ev (result Unstructured) :=
  call (DynGetVM (NSName namespace name)).

Definition vm_patch (cpuCores : Z) (memory : Quantity) : json :=
  JObject [("spec", JObject [("template", JObject [("spec", JObject [("domain", JObject [
    ("cpu", JObject [("cores", JNumber (itoa cpuCores))]);
    ("memory", JObject [("guest", JString (Q_String memory))])])])])])].

Definition PatchVMResources (a : Applier) (name namespace : string) (cpuCores : Z)
    (memory : Quantity) : prog Ev (result unit) :=
  r ← call (DynPatchVM (NSName namespace name) (vm_patch cpuCores memory) []);
  match r with
  | Err e => mret (Err (EWrap ("patching VM " +:+ namespace +:+ "/" +:+ name) e))
  | Ok _ => mret (Ok tt)
  end.

Definition RestartVM (a : Applier) (name namespace : string) : prog Ev (result unit) :=
  r ← call (DynPatchVM (NSName namespace name) (JObject []) ["restart"]);
  match r with
  | Err e => mret (Err (EWrap ("restarting VM " +:+ namespace +:+ "/" +:+ name) e))
  | Ok _ => mret (Ok tt)
  end.
End Applier.
