(* ===== verification/Notifier.v ===== *)
(** * Notifications, internal/notifier

    The dispatcher and the seven forwarders.  A forwarder is a name and a way to
    send, as in the Go interface; each one is built from its configuration and
    the secrets it needs.  Log calls are left out. *)
From S2P Require Import Prelude GoStrings GoJson HttpMessage External ApiTypes Effects World.
Local Open Scope Z_scope.

Record Notification : Type := {
  n_VMName : string;
  n_Namespace : string;
  n_Owner : string;
  n_Direction : string;
  n_CurrentCPU : Z;
  n_CurrentMemory : Z;
  n_RecCPU : Z;
  n_RecMemory : Z;
  n_ApprovalURL : string
}.

Record ForwarderConfig : Type := {
  fc_Type : string;
  fc_Enabled : bool;
  fc_Channel : string;
  fc_SecretRef : string;
  fc_From : string;
  fc_To : string;
  fc_SMTPServer : string;
  fc_SMTPPort : Z;
  fc_SMTPTLS : string;
  fc_SMTPTLSSkipVerify : bool;
  fc_Host : string;
  fc_Port : Z;
  fc_Community : string;
  fc_ServerURL : string;
  fc_InstanceURL : string;
  fc_AssignmentGroup : string;
  fc_Category : string
}.

Record NotifierConfig : Type := { nc_Forwarders : list ForwarderConfig }.

Abbreviation nl := newline.

Section Notifier.
Context `{P : Platform}.

(** The interfaces. *)
Record Forwarder : Type := {
  Name : string;
  Send : Notification → prog Ev (result unit)
}.
Class SecretGetter : Type :=
  GetSecretData : string → string → prog Ev (result (gmap string string)).

(** [http.NewRequest] with headers, then [Do]; [wrap] words the two errors. *)
Definition do_request (create send : goerr → goerr) (method url : string)
    (headers : list (string * string)) (body : Body) : prog Ev (result HttpResponse) :=
  ok ← call (ParseURL url);
  match ok with
  | Err e => mret (Err (create e))
  | Ok _ =>
      resp ← call (HttpDo {| hq_Method := method; hq_URL := url; hq_Header := headers;
                             hq_Body := body |});
      match resp with
      | Err e => mret (Err (send e))
      | Ok r => mret (Ok r)
      end
  end.

(** [json.Unmarshal(body, &result)] *)
Definition Unmarshal {A} (resp : HttpResponse) (d : decoder A) (zero : A) : option A :=
  j ← hr_whole resp; d j zero.
Definition decode_error : goerr := EOther "invalid JSON".

(** ** slack.go *)
Record SlackForwarder : Type := { sl_botToken : string; sl_fallbackChannel : string }.

Definition NewSlackForwarder `{!SecretGetter} (cfg : ForwarderConfig)
    : prog Ev (result SlackForwarder) :=
  if String.eqb (fc_SecretRef cfg) "" then
    mret (Err (EOther "slack forwarder requires secretRef"))
  else
  secretData ← GetSecretData (fc_SecretRef cfg) "ovro-system";
  match secretData with
  | Err e => mret (Err (EWrap "failed to get secret" e))
  | Ok data =>
      match data !! "botToken" with
      | None => mret (Err (EOther "secret missing botToken key"))
      | Some botToken => mret (Ok {| sl_botToken := botToken; sl_fallbackChannel := fc_Channel cfg |})
      end
  end.

Record lookupResult : Type := { lr_OK : bool; lr_ID : string; lr_Error : string }.
Definition decode_lookup : decoder lookupResult :=
  decode_struct [
    mk_field "ok" decode_bool lr_OK
      (λ b r, {| lr_OK := b; lr_ID := lr_ID r; lr_Error := lr_Error r |});
    mk_field "user" (decode_struct [mk_field "id" decode_string (λ s, s) (λ v _, v)]) lr_ID
      (λ v r, {| lr_OK := lr_OK r; lr_ID := v; lr_Error := lr_Error r |});
    mk_field "error" decode_string lr_Error
      (λ v r, {| lr_OK := lr_OK r; lr_ID := lr_ID r; lr_Error := v |})].

Definition lookupUserByEmail (s : SlackForwarder) (email : string) : prog Ev (result string) :=
  resp ← do_request id id "GET"
    ("https://slack.com/api/users.lookupByEmail?email=" +:+ QueryEscape email)
    [("Authorization", "Bearer " +:+ sl_botToken s)] NoBody;
  match resp with
  | Err e => mret (Err e)
  | Ok r =>
      match Unmarshal r decode_lookup {| lr_OK := false; lr_ID := ""; lr_Error := "" |} with
      | None => mret (Err decode_error)
      | Some result =>
          if negb (lr_OK result)
          then mret (Err (EOther ("users.lookupByEmail: " +:+ lr_Error result)))
          else mret (Ok (lr_ID result))
      end
  end.

(** [err == nil && userID != ""] *)
Definition found_user (r : result string) : option string :=
  match r with Ok u => if String.eqb u "" then None else Some u | Err _ => None end.

(** [owner[:strings.Index(owner, "@")]] *)
Definition before_at (owner : string) : string :=
  match Index owner "@" with Some i => take i owner | None => owner end.

Definition resolveChannel (s : SlackForwarder) (owner : string) : prog Ev (result string) :=
  let fallback : prog Ev (result string) :=
    if negb (String.eqb (sl_fallbackChannel s) "") then mret (Ok (sl_fallbackChannel s))
    else mret (Err (EOther ("no channel resolved: owner " +:+ Quote owner +:+
           " is not a channel or known email, and no fallback channel configured"))) in
  if HasPrefix owner "#" || HasPrefix owner "C" then mret (Ok owner) else
  if Contains owner "@" then
    r ← lookupUserByEmail s (before_at owner);
    match found_user r with
    | Some userID => mret (Ok userID)
    | None =>
        r ← lookupUserByEmail s owner;
        match found_user r with
        | Some userID => mret (Ok userID)
        | None => fallback
        end
    end
  else fallback.

Definition slack_message (n : Notification) : string :=
  "*VM Rightsizing Recommendation*" +:+ nl +:+ nl +:+
  "*VM:* " +:+ n_VMName n +:+ nl +:+
  "*Namespace:* " +:+ n_Namespace n +:+ nl +:+
  "*Owner:* " +:+ n_Owner n +:+ nl +:+
  "*Direction:* " +:+ n_Direction n +:+ nl +:+
  "*Current:* " +:+ itoa (n_CurrentCPU n) +:+ " CPU, " +:+ itoa (n_CurrentMemory n) +:+ " GiB Memory" +:+ nl +:+
  "*Recommended:* " +:+ itoa (n_RecCPU n) +:+ " CPU, " +:+ itoa (n_RecMemory n) +:+ " GiB Memory" +:+ nl +:+ nl +:+
  "<" +:+ n_ApprovalURL n +:+ "|Approve/Reject>".

Record slackResult : Type := { sr_OK : bool; sr_Error : string }.
Definition decode_slack : decoder slackResult :=
  decode_struct [
    mk_field "ok" decode_bool sr_OK (λ b r, {| sr_OK := b; sr_Error := sr_Error r |});
    mk_field "error" decode_string sr_Error (λ v r, {| sr_OK := sr_OK r; sr_Error := v |})].

Definition SlackForwarder_Send (s : SlackForwarder) (n : Notification) : prog Ev (result unit) :=
  channel ← resolveChannel s (n_Owner n);
  match channel with
  | Err e => mret (Err (EWrap ("resolving slack channel for owner " +:+ Quote (n_Owner n)) e))
  | Ok channel =>
      resp ← do_request (EWrap "creating request") (EWrap "sending request") "POST"
        "https://slack.com/api/chat.postMessage"
        [("Content-Type", "application/json"); ("Authorization", "Bearer " +:+ sl_botToken s)]
        (JsonBody (JObject [("channel", JString channel); ("text", JString (slack_message n))]));
      match resp with
      | Err e => mret (Err e)
      | Ok r =>
          match Unmarshal r decode_slack {| sr_OK := false; sr_Error := "" |} with
          | None => mret (Err (EWrap "parsing slack response" decode_error))
          | Some result =>
              if negb (sr_OK result)
              then mret (Err (EOther ("slack API error: " +:+ sr_Error result)))
              else mret (Ok tt)
          end
      end
  end.

(** ** pagerduty.go *)
Record PagerDutyForwarder : Type := { pd_routingKey : string }.

Definition NewPagerDutyForwarder `{!SecretGetter} (cfg : ForwarderConfig)
    : prog Ev (result PagerDutyForwarder) :=
  if String.eqb (fc_SecretRef cfg) "" then
    mret (Err (EOther "pagerduty forwarder requires secretRef"))
  else
  secretData ← GetSecretData (fc_SecretRef cfg) "default";
  match secretData with
  | Err e => mret (Err (EWrap "failed to get secret" e))
  | Ok data =>
      match data !! "routingKey" with
      | None => mret (Err (EOther "secret missing routingKey key"))
      | Some routingKey => mret (Ok {| pd_routingKey := routingKey |})
      end
  end.

Definition summary (n : Notification) : string :=
  "VM Rightsizing: " +:+ n_Namespace n +:+ "/" +:+ n_VMName n +:+ " (" +:+ n_Direction n +:+ ")".
Definition unexpected_status (code : Z) : goerr :=
  EOther ("unexpected status code: " +:+ itoa code).

Definition pagerduty_payload (p : PagerDutyForwarder) (n : Notification) : json := JObject [
  ("event_action", JString "trigger");
  ("links", JArray [json_of_strings [("href", n_ApprovalURL n); ("text", "Approve/Reject")]]);
  ("payload", JObject [
    ("custom_details", JObject [
      ("approval_url", JString (n_ApprovalURL n));
      ("current_cpu", JNumber (itoa (n_CurrentCPU n)));
      ("current_memory", JNumber (itoa (n_CurrentMemory n)));
      ("direction", JString (n_Direction n));
      ("namespace", JString (n_Namespace n));
      ("owner", JString (n_Owner n));
      ("recommended_cpu", JNumber (itoa (n_RecCPU n)));
      ("recommended_memory", JNumber (itoa (n_RecMemory n)));
      ("vm", JString (n_VMName n))]);
    ("severity", JString "info");
    ("source", JString "ovro");
    ("summary", JString (summary n))]);
  ("routing_key", JString (pd_routingKey p))].

Definition PagerDutyForwarder_Send (p : PagerDutyForwarder) (n : Notification)
    : prog Ev (result unit) :=
  resp ← do_request (EWrap "failed to create request") (EWrap "failed to send request") "POST"
    "https://events.pagerduty.com/v2/enqueue" [("Content-Type", "application/json")]
    (JsonBody (pagerduty_payload p n));
  match resp with
  | Err e => mret (Err e)
  | Ok r =>
      if negb (hr_StatusCode r =? 202)
      then mret (Err (unexpected_status (hr_StatusCode r)))
      else mret (Ok tt)
  end.

(** ** rocketchat.go *)
Record RocketChatForwarder : Type := {
  rc_serverURL : string; rc_channel : string; rc_authToken : string; rc_userID : string
}.

Definition NewRocketChatForwarder `{!SecretGetter} (cfg : ForwarderConfig)
    : prog Ev (result RocketChatForwarder) :=
  if String.eqb (fc_ServerURL cfg) "" then
    mret (Err (EOther "rocketchat forwarder requires serverUrl"))
  else if String.eqb (fc_Channel cfg) "" then
    mret (Err (EOther "rocketchat forwarder requires channel"))
  else if String.eqb (fc_SecretRef cfg) "" then
    mret (Err (EOther "rocketchat forwarder requires secretRef"))
  else
  secretData ← GetSecretData (fc_SecretRef cfg) "default";
  match secretData with
  | Err e => mret (Err (EWrap "failed to get secret" e))
  | Ok data =>
      match data !! "authToken", data !! "userId" with
      | None, _ => mret (Err (EOther "secret missing authToken key"))
      | _, None => mret (Err (EOther "secret missing userId key"))
      | Some authToken, Some userID =>
          mret (Ok {| rc_serverURL := fc_ServerURL cfg; rc_channel := fc_Channel cfg;
                      rc_authToken := authToken; rc_userID := userID |})
      end
  end.

Definition rocketchat_message (n : Notification) : string :=
  "**VM Rightsizing Recommendation**" +:+ nl +:+ nl +:+
  "**VM:** " +:+ n_VMName n +:+ nl +:+
  "**Namespace:** " +:+ n_Namespace n +:+ nl +:+
  "**Owner:** " +:+ n_Owner n +:+ nl +:+
  "**Direction:** " +:+ n_Direction n +:+ nl +:+
  "**Current:** " +:+ itoa (n_CurrentCPU n) +:+ " CPU, " +:+ itoa (n_CurrentMemory n) +:+ " MB Memory" +:+ nl +:+
  "**Recommended:** " +:+ itoa (n_RecCPU n) +:+ " CPU, " +:+ itoa (n_RecMemory n) +:+ " MB Memory" +:+ nl +:+ nl +:+
  "[Approve/Reject](" +:+ n_ApprovalURL n +:+ ")".

Definition RocketChatForwarder_Send (r : RocketChatForwarder) (n : Notification)
    : prog Ev (result unit) :=
  resp ← do_request (EWrap "failed to create request") (EWrap "failed to send request") "POST"
    (rc_serverURL r +:+ "/api/v1/chat.postMessage")
    [("Content-Type", "application/json"); ("X-Auth-Token", rc_authToken r);
     ("X-User-Id", rc_userID r)]
    (JsonBody (JObject [("channel", JString (rc_channel r));
                        ("text", JString (rocketchat_message n))]));
  match resp with
  | Err e => mret (Err e)
  | Ok resp =>
      if negb (hr_StatusCode resp =? 200)
      then mret (Err (unexpected_status (hr_StatusCode resp)))
      else mret (Ok tt)
  end.

(** ** servicenow.go *)
Record ServiceNowForwarder : Type := {
  sn_instanceURL : string; sn_username : string; sn_password : string;
  sn_assignmentGroup : string; sn_category : string
}.

Definition NewServiceNowForwarder `{!SecretGetter} (cfg : ForwarderConfig)
    : prog Ev (result ServiceNowForwarder) :=
  if String.eqb (fc_InstanceURL cfg) "" then
    mret (Err (EOther "servicenow forwarder requires instanceUrl"))
  else if String.eqb (fc_SecretRef cfg) "" then
    mret (Err (EOther "servicenow forwarder requires secretRef"))
  else
  secretData ← GetSecretData (fc_SecretRef cfg) "default";
  match secretData with
  | Err e => mret (Err (EWrap "failed to get secret" e))
  | Ok data =>
      match data !! "username", data !! "password" with
      | None, _ => mret (Err (EOther "secret missing username key"))
      | _, None => mret (Err (EOther "secret missing password key"))
      | Some username, Some password =>
          mret (Ok {| sn_instanceURL := fc_InstanceURL cfg; sn_username := username;
                      sn_password := password; sn_assignmentGroup := fc_AssignmentGroup cfg;
                      sn_category := fc_Category cfg |})
      end
  end.

Definition servicenow_description (n : Notification) : string :=
  "VM Rightsizing Recommendation" +:+ nl +:+ nl +:+
  "VM: " +:+ n_VMName n +:+ nl +:+
  "Namespace: " +:+ n_Namespace n +:+ nl +:+
  "Owner: " +:+ n_Owner n +:+ nl +:+
  "Direction: " +:+ n_Direction n +:+ nl +:+
  "Current: " +:+ itoa (n_CurrentCPU n) +:+ " CPU, " +:+ itoa (n_CurrentMemory n) +:+ " MB Memory" +:+ nl +:+
  "Recommended: " +:+ itoa (n_RecCPU n) +:+ " CPU, " +:+ itoa (n_RecMemory n) +:+ " MB Memory" +:+ nl +:+ nl +:+
  "Approval URL: " +:+ n_ApprovalURL n.

Definition opt_field (k v : string) : list (string * json) :=
  if negb (String.eqb v "") then [(k, JString v)] else [].

Definition servicenow_payload (s : ServiceNowForwarder) (n : Notification) : json :=
  JObject (opt_field "assignment_group" (sn_assignmentGroup s)
    ++ opt_field "category" (sn_category s)
    ++ [("description", JString (servicenow_description n)); ("impact", JString "3");
        ("short_description", JString (summary n)); ("urgency", JString "3")]).

(** decoding into a [map[string]interface{}] *)
Definition decodes_to_map (o : option json) : bool :=
  match o with Some (JObject _) | Some JNull => true | _ => false end.

Definition ServiceNowForwarder_Send (s : ServiceNowForwarder) (n : Notification)
    : prog Ev (result unit) :=
  resp ← do_request (EWrap "failed to create request") (EWrap "failed to send request") "POST"
    (sn_instanceURL s +:+ "/api/now/table/incident")
    [("Content-Type", "application/json"); ("Accept", "application/json");
     ("Authorization", "Basic " +:+ base64 (sn_username s +:+ ":" +:+ sn_password s))]
    (JsonBody (servicenow_payload s n));
  match resp with
  | Err e => mret (Err e)
  | Ok resp =>
      if negb (hr_StatusCode resp =? 201)
      then mret (Err (unexpected_status (hr_StatusCode resp)))
      else if negb (decodes_to_map (hr_first resp))
      then mret (Err (EWrap "failed to decode response" decode_error))
      else mret (Ok tt)
  end.

(** ** snmp.go: a simulation that only logs *)
Record SNMPForwarder : Type := { sp_host : string; sp_port : Z; sp_community : string }.

Definition NewSNMPForwarder (cfg : ForwarderConfig) : result SNMPForwarder :=
  if String.eqb (fc_Host cfg) "" then Err (EOther "snmp forwarder requires host") else
  let port := if fc_Port cfg =? 0 then 162 else fc_Port cfg in
  Ok {| sp_host := fc_Host cfg; sp_port := port; sp_community := fc_Community cfg |}.

Definition SNMPForwarder_Send (s : SNMPForwarder) (n : Notification) : prog Ev (result unit) :=
  mret (Ok tt).

(** ** smtp.go *)
Record SMTPForwarder : Type := {
  sm_from : string; sm_to : string; sm_smtpServer : string; sm_smtpPort : Z;
  sm_tlsMode : string; sm_tlsSkipVerify : bool; sm_username : string; sm_password : string
}.

Definition NewSMTPForwarder `{!SecretGetter} (cfg : ForwarderConfig)
    : prog Ev (result SMTPForwarder) :=
  if String.eqb (fc_From cfg) "" || String.eqb (fc_To cfg) "" then
    mret (Err (EOther "smtp forwarder requires from and to addresses"))
  else if String.eqb (fc_SMTPServer cfg) "" then
    mret (Err (EOther "smtp forwarder requires smtpServer"))
  else
  let smtpPort := if fc_SMTPPort cfg =? 0 then 587 else fc_SMTPPort cfg in
  let tlsMode := ToLower (fc_SMTPTLS cfg) in
  let tlsMode := if String.eqb tlsMode ""
                 then if smtpPort =? 465 then "tls" else "starttls"
                 else tlsMode in
  let build username password := {|
    sm_from := fc_From cfg; sm_to := fc_To cfg; sm_smtpServer := fc_SMTPServer cfg;
    sm_smtpPort := smtpPort; sm_tlsMode := tlsMode;
    sm_tlsSkipVerify := fc_SMTPTLSSkipVerify cfg;
    sm_username := username; sm_password := password |} in
  if negb (String.eqb (fc_SecretRef cfg) "") then
    secretData ← GetSecretData (fc_SecretRef cfg) "ovro-system";
    match secretData with
    | Err e => mret (Err (EWrap "failed to get secret" e))
    | Ok data =>
        mret (Ok (build (default "" (data !! "username")) (default "" (data !! "password"))))
    end
  else mret (Ok (build "" "")).

(** One command of the session, its error worded by [ctx]. *)
Definition smtp_try (ctx : string) (c : SmtpCommand) (k : prog Ev (result unit))
    : prog Ev (result unit) :=
  r ← call (Smtp c);
  match r with Err e => mret (Err (EWrap ctx e)) | Ok _ => k end.

(** [defer c.Close()] *)
Definition with_close (p : prog Ev (result unit)) : prog Ev (result unit) :=
  r ← p; _ ← call (Smtp SmtpClose); mret r.

Definition deliver (s : SMTPForwarder) (auth : option (string * string * string))
    (to msg : string) : prog Ev (result unit) :=
  let rest :=
    smtp_try "MAIL FROM" (SmtpMail (sm_from s)) (
    smtp_try "RCPT TO" (SmtpRcpt to) (
    smtp_try "DATA" SmtpData (
    smtp_try "writing message" (SmtpWrite msg) (
    smtp_try "closing DATA" SmtpDataClose (call (Smtp SmtpQuit)))))) in
  match auth with
  | Some (u, p, h) => smtp_try "auth" (SmtpAuthPlain u p h) rest
  | None => rest
  end.

Definition sendSTARTTLS (s : SMTPForwarder) (addr serverName : string) (skipVerify : bool)
    (auth : option (string * string * string)) (to msg : string) : prog Ev (result unit) :=
  smtp_try ("dialing " +:+ addr) (SmtpDial addr) (with_close (
  smtp_try "STARTTLS" (SmtpStartTLS serverName skipVerify) (deliver s auth to msg))).

(** The host of [net.SplitHostPort(server:port)], empty on its errors. *)
Definition split_host (server : string) : string :=
  if HasPrefix server "[" then
    match Index server "]" with
    | Some i =>
        let inner := String.substring 1 (i - 1) server in
        if (i + 1 =? String.length server)%nat && negb (Contains inner "[") then inner else ""
    | None => ""
    end
  else if Contains server ":" || Contains server "[" || Contains server "]" then "" else server.

Definition sendImplicitTLS (s : SMTPForwarder) (addr serverName : string) (skipVerify : bool)
    (auth : option (string * string * string)) (to msg : string) : prog Ev (result unit) :=
  smtp_try ("TLS dial " +:+ addr) (TlsDial addr serverName skipVerify) (
  r ← call (Smtp (SmtpNewClient (split_host (sm_smtpServer s))));
  match r with
  | Err e =>
      _ ← call (Smtp ConnClose); mret (Err (EWrap "creating SMTP client" e))
  | Ok _ => with_close (deliver s auth to msg)
  end).

Definition sendPlain (s : SMTPForwarder) (addr : string)
    (auth : option (string * string * string)) (to msg : string) : prog Ev (result unit) :=
  smtp_try ("dialing " +:+ addr) (SmtpDial addr) (with_close (deliver s auth to msg)).

Definition crlf : string := creturn +:+ newline.

Definition smtp_body (n : Notification) : string :=
  "VM Rightsizing Recommendation" +:+ nl +:+ nl +:+
  "VM: " +:+ n_VMName n +:+ nl +:+
  "Namespace: " +:+ n_Namespace n +:+ nl +:+
  "Owner: " +:+ n_Owner n +:+ nl +:+
  "Direction: " +:+ n_Direction n +:+ nl +:+
  "Current: " +:+ itoa (n_CurrentCPU n) +:+ " CPU, " +:+ itoa (n_CurrentMemory n) +:+ " GiB Memory" +:+ nl +:+
  "Recommended: " +:+ itoa (n_RecCPU n) +:+ " CPU, " +:+ itoa (n_RecMemory n) +:+ " GiB Memory" +:+ nl +:+ nl +:+
  "Approve or reject this recommendation at:" +:+ nl +:+ n_ApprovalURL n.

Definition smtp_message (from to : string) (n : Notification) : string :=
  "From: " +:+ from +:+ crlf +:+ "To: " +:+ to +:+ crlf +:+
  "Subject: VM Rightsizing Recommendation: " +:+ n_VMName n +:+ crlf +:+
  "MIME-Version: 1.0" +:+ crlf +:+ "Content-Type: text/plain; charset=UTF-8" +:+ crlf +:+ crlf +:+
  smtp_body n +:+ crlf.

Definition SMTPForwarder_Send (s : SMTPForwarder) (n : Notification) : prog Ev (result unit) :=
  let to := ReplaceAll (sm_to s) "{{owner}}" (n_Owner n) in
  let message := smtp_message (sm_from s) to n in
  let addr := sm_smtpServer s +:+ ":" +:+ itoa (sm_smtpPort s) in
  let auth := if negb (String.eqb (sm_username s) "") && negb (String.eqb (sm_password s) "")
              then Some (sm_username s, sm_password s, sm_smtpServer s) else None in
  if String.eqb (sm_tlsMode s) "tls" then
    sendImplicitTLS s addr (sm_smtpServer s) (sm_tlsSkipVerify s) auth to message
  else if String.eqb (sm_tlsMode s) "none" then sendPlain s addr auth to message
  else sendSTARTTLS s addr (sm_smtpServer s) (sm_tlsSkipVerify s) auth to message.

(** ** teams.go *)
Record TeamsForwarder : Type := {
  te_tenantID : string; te_clientID : string; te_clientSecret : string;
  te_fallbackChannel : string
}.

Definition NewTeamsForwarder `{!SecretGetter} (cfg : ForwarderConfig)
    : prog Ev (result TeamsForwarder) :=
  if String.eqb (fc_SecretRef cfg) "" then
    mret (Err (EOther "teams forwarder requires secretRef"))
  else
  secretData ← GetSecretData (fc_SecretRef cfg) "ovro-system";
  match secretData with
  | Err e => mret (Err (EWrap "failed to get secret" e))
  | Ok data =>
      let tenantID := default "" (data !! "tenantId") in
      let clientID := default "" (data !! "clientId") in
      let clientSecret := default "" (data !! "clientSecret") in
      if String.eqb tenantID "" || String.eqb clientID "" || String.eqb clientSecret ""
      then mret (Err (EOther "secret must contain tenantId, clientId, and clientSecret"))
      else mret (Ok {| te_tenantID := tenantID; te_clientID := clientID;
                       te_clientSecret := clientSecret; te_fallbackChannel := fc_Channel cfg |})
  end.

Record tokenResult : Type := { to_AccessToken : string; to_Error : string }.
Definition decode_token : decoder tokenResult :=
  decode_struct [
    mk_field "access_token" decode_string to_AccessToken
      (λ v r, {| to_AccessToken := v; to_Error := to_Error r |});
    mk_field "error" decode_string to_Error
      (λ v r, {| to_AccessToken := to_AccessToken r; to_Error := v |})].
Definition decode_id : decoder string :=
  decode_struct [mk_field "id" decode_string (λ s, s) (λ v _, v)].

Definition getAccessToken (t : TeamsForwarder) : prog Ev (result string) :=
  resp ← do_request id id "POST"
    ("https://login.microsoftonline.com/" +:+ te_tenantID t +:+ "/oauth2/v2.0/token")
    [("Content-Type", "application/x-www-form-urlencoded")]
    (TextBody ("grant_type=client_credentials&client_id=" +:+ te_clientID t +:+
       "&client_secret=" +:+ te_clientSecret t +:+ "&scope=https://graph.microsoft.com/.default"));
  match resp with
  | Err e => mret (Err e)
  | Ok r =>
      match Unmarshal r decode_token {| to_AccessToken := ""; to_Error := "" |} with
      | None => mret (Err decode_error)
      | Some result =>
          if String.eqb (to_AccessToken result) ""
          then mret (Err (EOther ("failed to get token: " +:+ to_Error result)))
          else mret (Ok (to_AccessToken result))
      end
  end.

Definition lookupUser (t : TeamsForwarder) (token identifier : string) : prog Ev (result string) :=
  resp ← do_request id id "GET" ("https://graph.microsoft.com/v1.0/users/" +:+ identifier)
    [("Authorization", "Bearer " +:+ token)] NoBody;
  match resp with
  | Err e => mret (Err e)
  | Ok r =>
      if negb (hr_StatusCode r =? 200)
      then mret (Err (EOther ("user lookup returned " +:+ itoa (hr_StatusCode r))))
      else match Unmarshal r decode_id "" with
           | None => mret (Err decode_error)
           | Some uid => if String.eqb uid "" then mret (Err (EOther "user not found"))
                         else mret (Ok uid)
           end
  end.

Definition chat_payload (userID : string) : json := JObject [
  ("chatType", JString "oneOnOne");
  ("members", JArray [JObject [
    ("@odata.type", JString "#microsoft.graph.aadUserConversationMember");
    ("roles", JArray [JString "owner"]);
    ("user@odata.bind",
      JString ("https://graph.microsoft.com/v1.0/users('" +:+ userID +:+ "')"))]])].

Definition teams_message (n : Notification) : string :=
  "<h2>VM Rightsizing Recommendation</h2>" +:+
  "<b>VM:</b> " +:+ n_VMName n +:+ "<br/>" +:+
  "<b>Namespace:</b> " +:+ n_Namespace n +:+ "<br/>" +:+
  "<b>Owner:</b> " +:+ n_Owner n +:+ "<br/>" +:+
  "<b>Direction:</b> " +:+ n_Direction n +:+ "<br/>" +:+
  "<b>Current:</b> " +:+ itoa (n_CurrentCPU n) +:+ " CPU, " +:+ itoa (n_CurrentMemory n) +:+ " GiB Memory<br/>" +:+
  "<b>Recommended:</b> " +:+ itoa (n_RecCPU n) +:+ " CPU, " +:+ itoa (n_RecMemory n) +:+ " GiB Memory<br/><br/>" +:+
  "<a href=" +:+ dquote +:+ n_ApprovalURL n +:+ dquote +:+ ">Approve/Reject</a>".

Definition sendChatMessage (t : TeamsForwarder) (token userID : string) (n : Notification)
    : prog Ev (result unit) :=
  let headers := [("Authorization", "Bearer " +:+ token); ("Content-Type", "application/json")] in
  resp ← do_request id (EWrap "creating chat") "POST" "https://graph.microsoft.com/v1.0/chats"
    headers (JsonBody (chat_payload userID));
  match resp with
  | Err e => mret (Err e)
  | Ok r =>
      match Unmarshal r decode_id "" with
      | None => mret (Err decode_error)
      | Some chatID =>
          if String.eqb chatID ""
          then mret (Err (EOther ("failed to create chat, response: " +:+ hr_Body r)))
          else
          msgResp ← do_request id (EWrap "sending message") "POST"
            ("https://graph.microsoft.com/v1.0/chats/" +:+ chatID +:+ "/messages") headers
            (JsonBody (JObject [("body", json_of_strings
               [("content", teams_message n); ("contentType", "html")])]));
          match msgResp with
          | Err e => mret (Err e)
          | Ok m =>
              if negb (hr_StatusCode m =? 201)
              then mret (Err (EOther ("send message returned " +:+ itoa (hr_StatusCode m) +:+
                                      ": " +:+ hr_Body m)))
              else mret (Ok tt)
          end
      end
  end.

Definition fact (title value : string) : json := json_of_strings [("title", title); ("value", value)].

Definition teams_card (n : Notification) : json := JObject [
  ("attachments", JArray [JObject [
    ("content", JObject [
      ("$schema", JString "http://adaptivecards.io/schemas/adaptive-card.json");
      ("actions", JArray [JObject [
        ("title", JString "Approve/Reject"); ("type", JString "Action.OpenUrl");
        ("url", JString (n_ApprovalURL n))]]);
      ("body", JArray [
        JObject [("size", JString "Medium"); ("text", JString "VM Rightsizing Recommendation");
                 ("type", JString "TextBlock"); ("weight", JString "Bolder")];
        JObject [
          ("facts", JArray [
            fact "VM" (n_VMName n); fact "Namespace" (n_Namespace n);
            fact "Owner" (n_Owner n); fact "Direction" (n_Direction n);
            fact "Current CPU" (itoa (n_CurrentCPU n));
            fact "Current Memory" (itoa (n_CurrentMemory n) +:+ " GiB");
            fact "Recommended CPU" (itoa (n_RecCPU n));
            fact "Recommended Memory" (itoa (n_RecMemory n) +:+ " GiB")]);
          ("type", JString "FactSet")]]);
      ("type", JString "AdaptiveCard"); ("version", JString "1.2")]);
    ("contentType", JString "application/vnd.microsoft.card.adaptive")]]);
  ("type", JString "message")].

Definition sendViaWebhook (t : TeamsForwarder) (n : Notification) : prog Ev (result unit) :=
  resp ← do_request (EWrap "creating request") (EWrap "sending request") "POST"
    (te_fallbackChannel t) [("Content-Type", "application/json")] (JsonBody (teams_card n));
  match resp with
  | Err e => mret (Err e)
  | Ok r =>
      if negb (hr_StatusCode r =? 200) && negb (hr_StatusCode r =? 202)
      then mret (Err (unexpected_status (hr_StatusCode r)))
      else mret (Ok tt)
  end.

Definition TeamsForwarder_Send (t : TeamsForwarder) (n : Notification) : prog Ev (result unit) :=
  tok ← getAccessToken t;
  match tok with
  | Err e => mret (Err (EWrap "getting access token" e))
  | Ok token =>
      let owner := n_Owner n in
      let has_fallback := negb (String.eqb (te_fallbackChannel t) "") in
      if Contains owner "@" then
        u ← lookupUser t token owner;
        match u with
        | Ok userID => sendChatMessage t token userID n
        | Err _ =>
            u ← lookupUser t token (before_at owner);
            match u with
            | Ok userID => sendChatMessage t token userID n
            | Err e =>
                if has_fallback then sendViaWebhook t n
                else mret (Err (EWrap ("could not find Teams user " +:+ Quote owner +:+
                                       " and no fallback channel configured") e))
            end
        end
      else if HasPrefix owner "#" then
        if has_fallback then sendViaWebhook t n
        else mret (Err (EOther "channel routing requires a webhook URL in the channel config field"))
      else
        u ← lookupUser t token owner;
        match u with
        | Ok userID => sendChatMessage t token userID n
        | Err e =>
            if has_fallback then sendViaWebhook t n
            else mret (Err (EWrap ("could not resolve Teams user " +:+ Quote owner) e))
        end
  end.

(** ** notifier.go: the forwarders behind the interface *)
Definition slack (f : SlackForwarder) : Forwarder :=
  {| Name := "slack"; Send := SlackForwarder_Send f |}.
Definition teams (f : TeamsForwarder) : Forwarder :=
  {| Name := "teams"; Send := TeamsForwarder_Send f |}.
Definition smtp (f : SMTPForwarder) : Forwarder :=
  {| Name := "smtp"; Send := SMTPForwarder_Send f |}.
Definition snmp (f : SNMPForwarder) : Forwarder :=
  {| Name := "snmp"; Send := SNMPForwarder_Send f |}.
Definition pagerduty (f : PagerDutyForwarder) : Forwarder :=
  {| Name := "pagerduty"; Send := PagerDutyForwarder_Send f |}.
Definition rocketchat (f : RocketChatForwarder) : Forwarder :=
  {| Name := "rocketchat"; Send := RocketChatForwarder_Send f |}.
Definition servicenow (f : ServiceNowForwarder) : Forwarder :=
  {| Name := "servicenow"; Send := ServiceNowForwarder_Send f |}.

Record Dispatcher : Type := { d_forwarders : list Forwarder }.

Definition as_forwarder {F} (wrap : F → Forwarder) (p : prog Ev (result F))
    : prog Ev (result Forwarder) :=
  r ← p; mret (match r with Ok f => Ok (wrap f) | Err e => Err e end).

(** The switch on the type; [None] is an unknown type, which is skipped. *)
Definition NewForwarder `{!SecretGetter} (cfg : ForwarderConfig)
    : option (prog Ev (result Forwarder)) :=
  if String.eqb (fc_Type cfg) "slack" then Some (as_forwarder slack (NewSlackForwarder cfg))
  else if String.eqb (fc_Type cfg) "teams" then Some (as_forwarder teams (NewTeamsForwarder cfg))
  else if String.eqb (fc_Type cfg) "smtp" then Some (as_forwarder smtp (NewSMTPForwarder cfg))
  else if String.eqb (fc_Type cfg) "snmp" then Some (as_forwarder snmp (mret (NewSNMPForwarder cfg)))
  else if String.eqb (fc_Type cfg) "pagerduty"
  then Some (as_forwarder pagerduty (NewPagerDutyForwarder cfg))
  else if String.eqb (fc_Type cfg) "rocketchat"
  then Some (as_forwarder rocketchat (NewRocketChatForwarder cfg))
  else if String.eqb (fc_Type cfg) "servicenow"
  then Some (as_forwarder servicenow (NewServiceNowForwarder cfg))
  else None.

Fixpoint NewDispatcher_loop `{!SecretGetter} (cfgs : list ForwarderConfig)
    (forwarders : list Forwarder) : prog Ev (result Dispatcher) :=
  match cfgs with
  | [] => mret (Ok {| d_forwarders := forwarders |})
  | fwdCfg :: rest =>
      if negb (fc_Enabled fwdCfg) then NewDispatcher_loop rest forwarders else
      match NewForwarder fwdCfg with
      | None => NewDispatcher_loop rest forwarders
      | Some create =>
          fwd ← create;
          match fwd with
          | Err e => mret (Err (EWrap ("failed to create " +:+ fc_Type fwdCfg +:+ " forwarder") e))
          | Ok fwd => NewDispatcher_loop rest (forwarders ++ [fwd])
          end
      end
  end.
Definition NewDispatcher `{!SecretGetter} (cfg : NotifierConfig) : prog Ev (result Dispatcher) :=
  NewDispatcher_loop (nc_Forwarders cfg) [].

(** [exclude[name]] on a map that may be nil. *)
Definition is_excluded (exclude : option (gmap string bool)) (name : string) : bool :=
  match exclude with None => false | Some m => default false (m !! name) end.

Definition send_one (n : Notification) (exclude : option (gmap string bool))
    (errors : list goerr) (fwd : Forwarder) : prog Ev (list goerr) :=
  if is_excluded exclude (Name fwd) then mret errors else
  r ← Send fwd n;
  match r with
  | Err e => mret (errors ++ [EWrap (Name fwd) e])
  | Ok _ => mret errors
  end.
Definition sendFiltered (d : Dispatcher) (n : Notification) (exclude : option (gmap string bool))
    : prog Ev (list goerr) :=
  foldM (send_one n exclude) [] (d_forwarders d).

Definition SendAll (d : Dispatcher) (n : Notification) : prog Ev (list goerr) :=
  sendFiltered d n None.
Definition SendAllExcept (d : Dispatcher) (n : Notification) (excludeTypes : list string)
    : prog Ev (list goerr) :=
  sendFiltered d n (Some (foldl (λ m t, <[t := true]> m) ∅ excludeTypes)).

(** ** Notifications about a recommendation, as the API server and the
    controller build them *)
Definition gib (q : Quantity) : Z := wrap32 (Z.quot (Q_Value q) (1024 * 1024 * 1024)).

Definition approval_url (host token : string) : string :=
  "https://" +:+ host +:+ "/approve?token=" +:+ token.

Definition rec_notification (ref : ObjectRef) (rec : RightsizingRecommendation)
    (owner url : string) : Notification :=
  let sp := rr_Spec rec in
  {| n_VMName := ref_Name ref;
     n_Namespace := ref_Namespace ref;
     n_Owner := owner;
     n_Direction := sp_Direction sp;
     n_CurrentCPU := cpu_Cores (rs_CPU (sp_Current sp));
     n_CurrentMemory := gib (rs_Memory (sp_Current sp));
     n_RecCPU := cpu_Cores (rs_CPU (sp_Recommended sp));
     n_RecMemory := gib (rs_Memory (sp_Recommended sp));
     n_ApprovalURL := url |}.
End Notifier.
