(* ===== verification/NotifierFacts.v ===== *)
(** * What the notifier guarantees

    Who gets a notification and what is reported back; where credentials may
    travel; that SMTP traffic is encrypted unless configured otherwise; which
    forwarders a configuration yields. *)
From S2P Require Import Prelude GoStrings GoJson HttpMessage External ApiTypes Effects World Notifier.
Local Open Scope Z_scope.

Create HintDb tame.

Section NotifierFacts.
Context `{P : Platform}.

(** ** No forwarder panics, or calls anything but HTTP and SMTP servers *)
Definition outward (X : Type) (e : Ev X) : Prop :=
  match e with ParseURL _ | HttpDo _ | Smtp _ => True | _ => False end.
Definition tame {A} (p : prog Ev A) : Prop := safe p ∧ only outward p.

Lemma tame_ret {A} (a : A) : tame (mret a : prog Ev A).
Proof. done. Qed.
Lemma tame_bind {A B} (p : prog Ev A) (f : A → prog Ev B) :
  tame p → (∀ a, tame (f a)) → tame (p ≫= f).
Proof. intros [] Hf. split; [apply safe_bind|apply only_bind]; try done; apply Hf. Qed.
Lemma tame_call {X} (e : Ev X) : outward X e → tame (call e).
Proof. by repeat split. Qed.

Ltac tame_tac :=
  repeat first
    [ progress intros
    | solve [auto 2 with tame]
    | apply tame_ret
    | apply tame_call; exact I
    | apply tame_bind
    | case_match ].

Lemma tame_do_request create send method url headers body :
  tame (do_request create send method url headers body).
Proof. unfold do_request. tame_tac. Qed.
#[local] Hint Resolve tame_do_request : tame.

Lemma tame_lookup s email : tame (lookupUserByEmail s email).
Proof. unfold lookupUserByEmail. tame_tac. Qed.
#[local] Hint Resolve tame_lookup : tame.
Lemma tame_slack s n : tame (SlackForwarder_Send s n).
Proof.
  unfold SlackForwarder_Send, resolveChannel. tame_tac.
Qed.
#[local] Hint Resolve tame_slack : tame.
Lemma tame_pagerduty s n : tame (PagerDutyForwarder_Send s n).
Proof. unfold PagerDutyForwarder_Send. tame_tac. Qed.
#[local] Hint Resolve tame_pagerduty : tame.
Lemma tame_rocketchat s n : tame (RocketChatForwarder_Send s n).
Proof. unfold RocketChatForwarder_Send. tame_tac. Qed.
#[local] Hint Resolve tame_rocketchat : tame.
Lemma tame_servicenow s n : tame (ServiceNowForwarder_Send s n).
Proof. unfold ServiceNowForwarder_Send. tame_tac. Qed.
#[local] Hint Resolve tame_servicenow : tame.
Lemma tame_snmp s n : tame (SNMPForwarder_Send s n).
Proof. done. Qed.
#[local] Hint Resolve tame_snmp : tame.
Lemma tame_deliver s auth to msg : tame (deliver s auth to msg).
Proof. unfold deliver, smtp_try. tame_tac. Qed.
#[local] Hint Resolve tame_deliver : tame.
Lemma tame_smtp s n : tame (SMTPForwarder_Send s n).
Proof.
  unfold SMTPForwarder_Send, sendImplicitTLS, sendPlain, sendSTARTTLS, with_close, smtp_try. tame_tac.
Qed.
#[local] Hint Resolve tame_smtp : tame.
Lemma tame_getAccessToken t : tame (getAccessToken t).
Proof. unfold getAccessToken. tame_tac. Qed.
#[local] Hint Resolve tame_getAccessToken : tame.
Lemma tame_lookupUser t token u : tame (lookupUser t token u).
Proof. unfold lookupUser. tame_tac. Qed.
#[local] Hint Resolve tame_lookupUser : tame.
Lemma tame_sendChatMessage t token u n : tame (sendChatMessage t token u n).
Proof. unfold sendChatMessage. tame_tac. Qed.
#[local] Hint Resolve tame_sendChatMessage : tame.
Lemma tame_sendViaWebhook t n : tame (sendViaWebhook t n).
Proof. unfold sendViaWebhook. tame_tac. Qed.
#[local] Hint Resolve tame_sendViaWebhook : tame.
Lemma tame_teams t n : tame (TeamsForwarder_Send t n).
Proof.
  unfold TeamsForwarder_Send. tame_tac.
Qed.
#[local] Hint Resolve tame_teams : tame.

(** A dispatcher all of whose forwarders keep clear of panics, as those
    [NewDispatcher] builds do. *)
Definition tame_dispatcher (d : Dispatcher) : Prop :=
  Forall (λ f, ∀ n, tame (Send f n)) (d_forwarders d).

Lemma tame_foldM {A S} (f : S → A → prog Ev S) s l :
  (∀ s a, a ∈ l → tame (f s a)) → tame (foldM f s l).
Proof.
  revert s. induction l as [|a l IH]; intros s Hf; simpl; [done|].
  apply tame_bind; [apply Hf; set_solver|]. intros s'. apply IH. intros. apply Hf. set_solver.
Qed.
#[local] Hint Resolve tame_foldM : tame.

Lemma tame_sendFiltered d n exclude : tame_dispatcher d → tame (sendFiltered d n exclude).
Proof.
  intros Hd. apply tame_foldM. intros errs f Hf. unfold send_one.
  assert (tame (Send f n)) by (by apply (proj1 (Forall_forall _ _) Hd)). tame_tac.
Qed.
#[local] Hint Resolve tame_sendFiltered : tame.
Lemma tame_SendAll d n : tame_dispatcher d → tame (SendAll d n).
Proof. apply tame_sendFiltered. Qed.
#[local] Hint Resolve tame_SendAll : tame.
Lemma tame_SendAllExcept d n l : tame_dispatcher d → tame (SendAllExcept d n l).
Proof. apply tame_sendFiltered. Qed.
#[local] Hint Resolve tame_SendAllExcept : tame.

(** ** Dispatch *)

(** One delivery: the calls it made and what it returned. *)
Definition delivery : Type := (list (obs Ev) * result unit)%type.
Definition delivered (n : Notification) (f : Forwarder) (d : delivery) : Prop :=
  runs (Send f n) d.1 (Returns d.2).

(** The errors reported for a list of deliveries. *)
Fixpoint failures (fs : list Forwarder) (ds : list delivery) : list goerr :=
  match fs, ds with
  | f :: fs', (_, r) :: ds' =>
      match r with Err e => EWrap (Name f) e :: failures fs' ds' | Ok _ => failures fs' ds' end
  | _, _ => []
  end.

Lemma foldM_send n exclude fs errs tr errs' :
  runs (foldM (send_one n exclude) errs fs) tr (Returns errs') ↔
  let chosen := filter (λ f, is_excluded exclude (Name f) = false) fs in
  ∃ ds, Forall2 (delivered n) chosen ds ∧ tr = concat ds.*1 ∧ errs' = errs ++ failures chosen ds.
Proof.
  revert errs tr. induction fs as [|f fs IH]; intros errs tr; simpl.
  - split.
    + intros [-> [= ->]]. exists []. by rewrite app_nil_r.
    + intros (ds & ->%Forall2_nil_inv_l & -> & ->). by rewrite app_nil_r.
  - rewrite filter_cons, runs_bind_returns. unfold send_one at 1.
    destruct (is_excluded exclude (Name f)) eqn:Hx; simpl.
    + setoid_rewrite IH. split.
      * intros (? & ? & ? & -> & [-> [= ->]] & Hrest). exact Hrest.
      * intros H. by exists errs, [], tr.
    + split.
      * intros (errs1 & tr1 & tr2 & -> & H1 & H2).
        apply runs_bind_returns in H1 as (r & tra & trb & -> & Hs & Hr).
        apply IH in H2 as (ds & Hds & -> & ->).
        exists ((tra, r) :: ds). split_and!; [by constructor|..];
          destruct r; destruct Hr as [-> [= ->]]; simpl; by rewrite ?app_nil_r, <-?app_assoc.
      * intros (ds & Hds & -> & ->).
        apply Forall2_cons_inv_l in Hds as ([tra r] & ds' & Hd & Hds & ->). simpl in *.
        exists (match r with Ok _ => errs | Err e => errs ++ [EWrap (Name f) e] end), tra, (concat ds'.*1).
        split_and!; [done|..].
        { apply runs_bind_returns. exists r, tra, []. rewrite app_nil_r. split_and!; [done..|].
          by destruct r. }
        apply IH. exists ds'. split_and!; [done..|]. destruct r; by rewrite <-?app_assoc.
Qed.

Lemma excluded_list l name :
  is_excluded (Some (foldl (λ m t, <[t := true]> m) ∅ l)) name = bool_decide (name ∈ l).
Proof.
  simpl. assert (∀ m : gmap string bool, default false (foldl (λ m t, <[t := true]> m) m l !! name)
                      = default false (m !! name) || bool_decide (name ∈ l)) as H.
  { induction l as [|t l IH]; intros m; simpl; [by rewrite orb_false_r|].
    rewrite IH. rewrite (bool_decide_ext (name ∈ t :: l) (name = t ∨ name ∈ l)) by set_solver.
    rewrite bool_decide_or. destruct (decide (t = name)) as [->|Hn].
    - rewrite lookup_insert_eq, (bool_decide_true (name = name)) by done.
      simpl. by rewrite orb_true_r.
    - rewrite lookup_insert_ne by done. by rewrite (bool_decide_false (name = t)). }
  rewrite H. by rewrite lookup_empty.
Qed.

(** C34: A dispatch reaches every forwarder whose name is not excluded exactly once,
    in registration order, a failure not stopping the rest; it reports exactly
    the failures, in order, each under the forwarder's name. *)
Theorem SendAllExcept_delivers d n excludeTypes tr errs :
  runs (SendAllExcept d n excludeTypes) tr (Returns errs) ↔
  let chosen := filter (λ f, Name f ∉ excludeTypes) (d_forwarders d) in
  ∃ ds, Forall2 (delivered n) chosen ds ∧ tr = concat ds.*1 ∧ errs = failures chosen ds.
Proof.
  unfold SendAllExcept, sendFiltered. rewrite foldM_send. cbn zeta. 
  assert (filter (λ f, is_excluded (Some (foldl (λ m t, <[t := true]> m) ∅ excludeTypes)) (Name f) = false)
            (d_forwarders d) = filter (λ f, Name f ∉ excludeTypes) (d_forwarders d)) as ->; [|done].
  apply list_filter_iff. intros f. rewrite excluded_list. by rewrite bool_decide_eq_false.
Qed.

(** ** SMTP *)

(** The commands of a run with whether each was accepted. *)
Definition obs_smtp (o : obs Ev) : option (SmtpCommand * bool) :=
  match o with
  | Obs e x =>
      match e in Ev X return X → option (SmtpCommand * bool) with
      | Smtp c => λ x, Some (c, is_ok x)
      | _ => λ _, None
      end x
  end.
Definition session (tr : list (obs Ev)) : list (SmtpCommand * bool) := omap obs_smtp tr.

(** Credentials, addresses and the message go out only once TLS is up. *)
Fixpoint encrypted (tls : bool) (cs : list (SmtpCommand * bool)) : Prop :=
  match cs with
  | [] => True
  | (c, ok) :: cs' =>
      match c with
      | TlsDial _ _ _ | SmtpStartTLS _ _ => encrypted (tls || ok) cs'
      | SmtpAuthPlain _ _ _ | SmtpMail _ | SmtpRcpt _ | SmtpData | SmtpWrite _ =>
          tls = true ∧ encrypted tls cs'
      | _ => encrypted tls cs'
      end
  end.

(** What a complete session says, by mode. *)
Definition opening (s : SMTPForwarder) : list SmtpCommand :=
  let addr := sm_smtpServer s +:+ ":" +:+ itoa (sm_smtpPort s) in
  if String.eqb (sm_tlsMode s) "tls" then
    [TlsDial addr (sm_smtpServer s) (sm_tlsSkipVerify s); SmtpNewClient (split_host (sm_smtpServer s))]
  else if String.eqb (sm_tlsMode s) "none" then [SmtpDial addr]
  else [SmtpDial addr; SmtpStartTLS (sm_smtpServer s) (sm_tlsSkipVerify s)].
Definition authentication (s : SMTPForwarder) : list SmtpCommand :=
  if negb (String.eqb (sm_username s) "") && negb (String.eqb (sm_password s) "")
  then [SmtpAuthPlain (sm_username s) (sm_password s) (sm_smtpServer s)] else [].
Definition transfer (s : SMTPForwarder) (n : Notification) : list SmtpCommand :=
  let to := ReplaceAll (sm_to s) "{{owner}}" (n_Owner n) in
  [SmtpMail (sm_from s); SmtpRcpt to; SmtpData; SmtpWrite (smtp_message (sm_from s) to n);
   SmtpDataClose; SmtpQuit].

Ltac smtp_walk :=
  repeat first
    [ progress (cbn [wp mbind prog_mbind prog_bind mret prog_ret call after smtp_try with_close app])
    | match goal with |- ∀ x : result unit, _ => intros [[]|] end ].

(** C32: Unless the mode is "none", a run of the SMTP forwarder authenticates and
    transfers the message only after the server accepted TLS, whatever fails on
    the way. *)
Theorem smtp_encrypted s n tr out :
  sm_tlsMode s ≠ "none" → runs (SMTPForwarder_Send s n) tr out → encrypted false (session tr).
Proof.
  intros Hmode. revert tr out. apply (proj1 (wp_runs _ (λ tr _, encrypted false (session tr)))).
  unfold SMTPForwarder_Send. rewrite (proj2 (String.eqb_neq _ _) Hmode).
  destruct (String.eqb (sm_tlsMode s) "tls"); unfold sendImplicitTLS, sendSTARTTLS, deliver;
    destruct (_ && _); smtp_walk; cbn; repeat split.
Qed.

(** When the SMTP forwarder reports success the server has accepted the whole
    session: the opening the mode asks for, authentication when both
    credentials are set, and the transfer of the one message to the address
    with the owner filled in. *)
Theorem smtp_success_means_delivered s n tr :
  runs (SMTPForwarder_Send s n) tr (Returns (Ok tt)) →
  ∃ closed, session tr =
    ((λ c, (c, true)) <$> (opening s ++ authentication s ++ transfer s n)) ++ [(SmtpClose, closed)].
Proof.
  intros Hr. refine (proj1 (wp_runs _ (λ tr out, out = Returns (Ok tt) → ∃ closed, session tr = _)) _ _ _ Hr eq_refl).
  clear Hr. unfold SMTPForwarder_Send, opening, authentication, transfer.
  destruct (String.eqb (sm_tlsMode s) "tls"), (String.eqb (sm_tlsMode s) "none");
    unfold sendImplicitTLS, sendSTARTTLS, sendPlain, deliver; destruct (_ && _); smtp_walk;
    intros [=]; by eexists.
Qed.

(** ** Where credentials go

    A secret is confined to a service when, the secret being another one, a run on
    the same answers makes the same calls, but for what the requests to this
    service say, and ends in the same way: nothing else depends on it. *)
Lemma prefix_itself s : HasPrefix s s = true.
Proof. rewrite <-(app_nil_string s) at 1. apply HasPrefix_app. Qed.

Inductive calls_but (dest : string) : ∀ X, Ev X → Ev X → Prop :=
| call_alike X (e : Ev X) : calls_but dest X e e
| call_dest req req' : HasPrefix (hq_URL req) dest = true → hq_URL req' = hq_URL req → hq_Method req' = hq_Method req →
    calls_but dest _ (HttpDo req) (HttpDo req').
Definition same_answer (X : Type) (e : Ev X) (x x' : X) : Prop := x = x'.

Definition confined (dest : string) (p p' : prog Ev (result unit)) : Prop :=
  ∀ tr out, runs p tr out → ∃ tr', runs p' tr' out ∧
    Forall2 (altered (calls_but dest) (λ _ _ x, x)) tr tr'.

Lemma similar_confined dest p p' : similar (calls_but dest) same_answer eq p p' → confined dest p p'.
Proof. intros Hs tr out. by apply (similar_runs _ same_answer _ _ (λ _ _ x, x)). Qed.

Lemma similar_do_request dest create send method url h h' b b' :
  (h = h' ∧ b = b') ∨ HasPrefix url dest = true →
  similar (calls_but dest) same_answer eq (do_request create send method url h b) (do_request create send method url h' b').
Proof.
  intros Hd. unfold do_request. eapply similar_bind; [apply similar_call, call_alike|].
  intros [u|e] x' <-; [|by constructor]. eapply similar_bind.
  - apply similar_call. destruct Hd as [[-> ->]|Hp]; [apply call_alike|by apply call_dest].
  - intros [r|e] x'' <-; by constructor.
Qed.

Ltac similar_tac :=
  repeat first
    [ progress intros
    | assumption
    | progress subst
    | apply similar_return; reflexivity
    | match goal with H : ∀ _, similar _ _ _ _ _ |- _ => apply H 
      | H : ∀ _ _, similar _ _ _ _ _ |- _ => apply H | H : ∀ _ _ _, similar _ _ _ _ _ |- _ => apply H end
    | eapply similar_do_request; solve [by right | by left]
    | apply (similar_bind _ _ eq eq)
    | case_match ].

(** Two forwarders that differ in their secrets only. *)
Definition same_slack (s s' : SlackForwarder) : Prop := sl_fallbackChannel s = sl_fallbackChannel s'.
Definition same_teams (t t' : TeamsForwarder) : Prop :=
  te_tenantID t = te_tenantID t' ∧ te_clientID t = te_clientID t' ∧ te_fallbackChannel t = te_fallbackChannel t'.
Definition same_rocketchat (r r' : RocketChatForwarder) : Prop :=
  rc_serverURL r = rc_serverURL r' ∧ rc_channel r = rc_channel r'.
Definition same_servicenow (s s' : ServiceNowForwarder) : Prop :=
  sn_instanceURL s = sn_instanceURL s' ∧ sn_assignmentGroup s = sn_assignmentGroup s' ∧ sn_category s = sn_category s'.

Definition slack_api : string := "https://slack.com/api/".
Definition login_service : string := "https://login.microsoftonline.com/".
Definition graph_api : string := "https://graph.microsoft.com/v1.0/".

Lemma similar_slack s s' n : same_slack s s' →
  similar (calls_but slack_api) same_answer eq (SlackForwarder_Send s n) (SlackForwarder_Send s' n).
Proof.
  intros Hs. assert (∀ email, similar (calls_but slack_api) same_answer eq (lookupUserByEmail s email) (lookupUserByEmail s' email)).
  { intros email. unfold lookupUserByEmail. similar_tac. }
  unfold SlackForwarder_Send, resolveChannel. rewrite <-Hs. similar_tac.
Qed.

Lemma similar_teams_secret t t' n : same_teams t t' →
  similar (calls_but login_service) same_answer eq (TeamsForwarder_Send t n) (TeamsForwarder_Send t' n).
Proof.
  intros (Ht & Hc & Hf).
  assert (similar (calls_but login_service) same_answer eq (getAccessToken t) (getAccessToken t')).
  { unfold getAccessToken. rewrite <-Ht, <-Hc. similar_tac. }
  assert (∀ tok u, similar (calls_but login_service) same_answer eq (lookupUser t tok u) (lookupUser t' tok u)).
  { intros. unfold lookupUser. similar_tac. }
  assert (∀ tok u, similar (calls_but login_service) same_answer eq (sendChatMessage t tok u n) (sendChatMessage t' tok u n)).
  { intros. unfold sendChatMessage. similar_tac. }
  assert (similar (calls_but login_service) same_answer eq (sendViaWebhook t n) (sendViaWebhook t' n)).
  { unfold sendViaWebhook. rewrite <-Hf. similar_tac. }
  unfold TeamsForwarder_Send. rewrite <-Hf. similar_tac.
Qed.

(** The access token: an answer of the login service that grants one, replaced by
    one that grants another. *)
Definition grants (r : HttpResponse) : Prop :=
  ∃ tok, Unmarshal r decode_token {| to_AccessToken := ""; to_Error := "" |} = Some tok ∧ to_AccessToken tok ≠ "".
Definition another_token (X : Type) (e : Ev X) (x x' : X) : Prop :=
  match e in Ev X return X → X → Prop with
  | HttpDo req => λ x x', x = x' ∨
      HasPrefix (hq_URL req) login_service = true ∧
      ∃ r r', x = Ok r ∧ x' = Ok r' ∧ grants r ∧ grants r' ∧ hr_StatusCode r = hr_StatusCode r'
  | _ => eq
  end x x'.

(** The answers to a request to [url] that the two sides go on with. *)
Definition token_answers (url : string) (x x' : result HttpResponse) : Prop :=
  x = x' ∨ HasPrefix url login_service = true ∧
  ∃ r r', x = Ok r ∧ x' = Ok r' ∧ grants r ∧ grants r' ∧ hr_StatusCode r = hr_StatusCode r'.

Lemma similar_token_request create send method url h h' b :
  h = h' ∨ HasPrefix url graph_api = true →
  similar (calls_but graph_api) another_token (token_answers url)
    (do_request create send method url h b) (do_request create send method url h' b).
Proof.
  intros Hd. unfold do_request. eapply similar_bind; [apply similar_call, call_alike|].
  intros [u|e] x' Hx; cbn in Hx; subst x'; [|constructor; by left]. eapply similar_bind.
  - apply similar_call. destruct Hd as [->|Hp]; [apply call_alike|by apply call_dest].
  - intros x x' [->|(Hp & r & r' & -> & -> & H)]; [destruct x'; constructor; by left|].
    constructor. right. split; [exact Hp|]. by exists r, r'.
Qed.

(** Outside the login service the answers are the same. *)
Lemma similar_graph_request create send method path h h' b :
  similar (calls_but graph_api) another_token eq
    (do_request create send method (graph_api +:+ path) h b) (do_request create send method (graph_api +:+ path) h' b).
Proof.
  unfold do_request. eapply similar_bind; [apply similar_call, call_alike|].
  intros [u|e] x' Hx; cbn in Hx; subst x'; [|by constructor]. eapply similar_bind.
  - apply similar_call, call_dest; [apply HasPrefix_app|done..].
  - intros x x' [->|[Hp _]]; [by destruct x'; constructor|discriminate Hp].
Qed.

Lemma similar_getAccessToken t :
  similar (calls_but graph_api) another_token (λ a b, a = b ∨ ∃ tok tok', a = Ok tok ∧ b = Ok tok')
    (getAccessToken t) (getAccessToken t).
Proof.
  unfold getAccessToken. eapply similar_bind; [apply similar_token_request; by left|].
  intros x x' [->|(_ & r & r' & -> & -> & (k & Hk & Hne) & (k' & Hk' & Hne') & _)].
  - similar_tac; constructor; by left.
  - rewrite Hk, Hk', (proj2 (String.eqb_neq _ _) Hne), (proj2 (String.eqb_neq _ _) Hne').
    constructor. right. eauto.
Qed.

Lemma similar_webhook t n : similar (calls_but graph_api) another_token eq (sendViaWebhook t n) (sendViaWebhook t n).
Proof.
  unfold sendViaWebhook. eapply similar_bind; [apply similar_token_request; by left|].
  intros x x' [->|(_ & r & r' & -> & -> & _ & _ & <-)]; similar_tac.
Qed.

Lemma similar_teams_token t n :
  similar (calls_but graph_api) another_token eq (TeamsForwarder_Send t n) (TeamsForwarder_Send t n).
Proof.
  pose proof (similar_webhook t n).
  assert (∀ tok tok' u, similar (calls_but graph_api) another_token eq (lookupUser t tok u) (lookupUser t tok' u)).
  { intros. unfold lookupUser. eapply similar_bind; [apply similar_graph_request|]. similar_tac. }
  assert (∀ tok tok' u, similar (calls_but graph_api) another_token eq (sendChatMessage t tok u n) (sendChatMessage t tok' u n)).
  { intros. unfold sendChatMessage. eapply similar_bind; [apply (similar_graph_request _ _ _ "chats")|]. intros x x' <-.
    destruct x as [r|]; [|by constructor]. destruct (Unmarshal r decode_id "") as [chat|]; [|by constructor].
    destruct (String.eqb chat ""); [by constructor|].
    eapply similar_bind; [apply (similar_graph_request _ _ _ ("chats/" +:+ chat +:+ "/messages"))|]. similar_tac. }
  unfold TeamsForwarder_Send. eapply similar_bind; [apply similar_getAccessToken|].
  intros a b [->|(tok & tok' & -> & ->)]; similar_tac.
Qed.

(** C35: Credentials stay with their service.  With another bot token (another Teams
    client secret, another PagerDuty routing key, other Rocket.Chat or ServiceNow
    credentials) a run on the same answers makes the same calls and ends in the
    same way, except for the headers and bodies of requests to slack.com (the
    Microsoft login service, events.pagerduty.com, the configured Rocket.Chat
    server's or ServiceNow instance's endpoint); and when the login service grants
    another access token, except for requests to the Graph API.  So no other
    request, in particular not the one to the fallback webhook, carries anything
    of them. *)
Theorem credentials_confined n :
  (∀ s s', same_slack s s' → confined slack_api (SlackForwarder_Send s n) (SlackForwarder_Send s' n)) ∧
  (∀ t t', same_teams t t' → confined login_service (TeamsForwarder_Send t n) (TeamsForwarder_Send t' n)) ∧
  (∀ t tr out alt, (∀ X (e : Ev X) x, another_token X e x (alt X e x)) → runs (TeamsForwarder_Send t n) tr out →
     ∃ tr', runs (TeamsForwarder_Send t n) tr' out ∧ Forall2 (altered (calls_but graph_api) alt) tr tr') ∧
  (∀ p p', confined "https://events.pagerduty.com/" (PagerDutyForwarder_Send p n) (PagerDutyForwarder_Send p' n)) ∧
  (∀ r r', same_rocketchat r r' →
     confined (rc_serverURL r +:+ "/api/v1/chat.postMessage") (RocketChatForwarder_Send r n) (RocketChatForwarder_Send r' n)) ∧
  (∀ s s', same_servicenow s s' →
     confined (sn_instanceURL s +:+ "/api/now/table/incident") (ServiceNowForwarder_Send s n) (ServiceNowForwarder_Send s' n)).
Proof.
  split_and!.
  - intros. by apply similar_confined, similar_slack.
  - intros. by apply similar_confined, similar_teams_secret.
  - intros t tr out alt Ha. apply (similar_runs _ another_token); [apply similar_teams_token|done].
  - intros. apply similar_confined. unfold PagerDutyForwarder_Send. similar_tac.
  - intros r r' [Hs Hc]. apply similar_confined. unfold RocketChatForwarder_Send. rewrite <-Hs, <-Hc.
    eapply similar_bind; [apply similar_do_request; right; apply prefix_itself|]. similar_tac.
  - intros s s' (Hi & Hg & Hc). apply similar_confined. unfold ServiceNowForwarder_Send, servicenow_payload. rewrite <-Hi, <-Hg, <-Hc.
    eapply similar_bind; [apply similar_do_request; right; apply prefix_itself|]. similar_tac.
Qed.

(** ** Slack channel resolution *)
Lemma lookup_result s email tr res :
  runs (lookupUserByEmail s email) tr (Returns res) → https tr = [] ∨
  https tr = [{| hq_Method := "GET";
                 hq_URL := "https://slack.com/api/users.lookupByEmail?email=" +:+ QueryEscape email;
                 hq_Header := [("Authorization", "Bearer " +:+ sl_botToken s)]; hq_Body := NoBody |}].
Proof.
  revert tr res. assert (∀ Q : list (obs Ev) → Prop,
    wp (lookupUserByEmail s email) (λ tr _, Q tr) → ∀ tr res,
    runs (lookupUserByEmail s email) tr (Returns res) → Q tr) as Hgen.
  { intros Q HQ tr res. apply (proj1 (wp_runs _ (λ tr _, Q tr)) HQ). }
  apply (Hgen (λ tr, https tr = [] ∨ https tr = [_])).
  unfold lookupUserByEmail, do_request. cbn. intros [[]|]; cbn; [|by left].
  intros [r|]; cbn; [|by right]. destruct (Unmarshal _ _ _) as [l|]; cbn; [|by right].
  destruct (lr_OK l); by right.
Qed.

Lemma found_user_Some r u : found_user r = Some u → r = Ok u ∧ u ≠ "".
Proof. destruct r as [u'|]; simpl; [|done]. destruct (String.eqb_spec u' ""); intros; by simplify_eq. Qed.

(** A channel-like owner is used as it is, without asking Slack.  Otherwise the
    message goes to a user Slack returned (the handle before the at sign is tried
    first, then the whole address) or to the configured channel; a channel that
    is resolved is never empty. *)
Theorem resolveChannel_sound s owner tr res :
  runs (resolveChannel s owner) tr (Returns res) →
  let direct := HasPrefix owner "#" || HasPrefix owner "C" in
  (direct = true → tr = [] ∧ res = Ok owner) ∧
  (direct = false → Contains owner "@" = false → tr = []) ∧
  (∀ c, res = Ok c → c ≠ "") ∧
  (direct = false → sl_fallbackChannel s = "" → ∀ c, res = Ok c →
     ∃ who tr' tr1 tr2, who ∈ [before_at owner; owner] ∧ tr = tr1 ++ tr' ++ tr2 ∧
       runs (lookupUserByEmail s who) tr' (Returns (Ok c))).
Proof.
  intros Hr direct. assert (HC : direct = true → owner ≠ "") by (by destruct owner).
  unfold resolveChannel in Hr. fold direct in Hr.
  destruct direct; [by destruct Hr as [-> [= ->]]; split_and!; [done|done|naive_solver|done]|].
  assert (Hf : ∀ tr, runs (if negb (String.eqb (sl_fallbackChannel s) "")
      then mret (Ok (sl_fallbackChannel s)) : prog Ev (result string) else
      mret (Err (EOther ("no channel resolved: owner " +:+ Quote owner +:+
           " is not a channel or known email, and no fallback channel configured")))) tr (Returns res) →
    tr = [] ∧ ∀ c, res = Ok c → c = sl_fallbackChannel s ∧ c ≠ "").
  { intros tr'. destruct (String.eqb_spec (sl_fallbackChannel s) ""); cbn; intros [-> [= ->]];
      (split; [done|]); intros c [= <-]; done. }
  destruct (Contains owner "@").
  2: { apply Hf in Hr as [-> Hc]. split_and!; [done|done|intros c Hr; by apply Hc|].
       intros _ Hfb c Hr. destruct (Hc c Hr). congruence. }
  apply runs_bind_returns in Hr as (r1 & tr1 & trx & -> & H1 & Hr).
  destruct (found_user r1) as [u|] eqn:E1.
  { apply found_user_Some in E1 as [-> Hu]. destruct Hr as [-> [= ->]].
    split_and!; [done|done|congruence|].
    intros _ _ c [= <-]. exists (before_at owner), tr1, [], []. split_and!; [set_solver|done..]. }
  apply runs_bind_returns in Hr as (r2 & tr2 & try & -> & H2 & Hr).
  destruct (found_user r2) as [u|] eqn:E2.
  { apply found_user_Some in E2 as [-> Hu]. destruct Hr as [-> [= ->]].
    split_and!; [done|done|congruence|].
    intros _ _ c [= <-]. exists owner, tr2, tr1, []. split_and!; [set_solver|done..]. }
  apply Hf in Hr as [-> Hc]. split_and!; [done|done|intros c Hr; by apply Hc|].
  intros _ Hfb c Hr. destruct (Hc c Hr). congruence.
Qed.

(** ** Configuration *)
Definition known_type (t : string) : bool :=
  bool_decide (t ∈ ["slack"; "teams"; "smtp"; "snmp"; "pagerduty"; "rocketchat"; "servicenow"]).

Lemma as_forwarder_Name {F} (wrap : F → Forwarder) p name tr f :
  (∀ x, Name (wrap x) = name) → (∀ x n, tame (Send (wrap x) n)) →
  runs (as_forwarder wrap p) tr (Returns (Ok f)) → Name f = name ∧ ∀ n, tame (Send f n).
Proof.
  intros Hn Hs. unfold as_forwarder. rewrite runs_bind_returns.
  intros ([x|] & ? & ? & _ & _ & [_ [= ->]]). eauto.
Qed.

Lemma NewForwarder_known `{!SecretGetter} cfg :
  known_type (fc_Type cfg) = bool_decide (is_Some (NewForwarder cfg)) ∧
  ∀ p tr f, NewForwarder cfg = Some p → runs p tr (Returns (Ok f)) →
    Name f = fc_Type cfg ∧ ∀ n, tame (Send f n).
Proof.
  unfold NewForwarder, known_type.
  repeat match goal with
  | |- context [String.eqb (fc_Type cfg) ?t] =>
      destruct (String.eqb_spec (fc_Type cfg) t) as [->|];
        [split; [done|]; intros p tr f [= <-]; apply as_forwarder_Name; [done|];
           intros; first [ apply tame_slack | apply tame_teams | apply tame_smtp | apply tame_snmp
             | apply tame_pagerduty | apply tame_rocketchat | apply tame_servicenow ]|]
  end.
  split; [|by intros ??? [=]]. rewrite !bool_decide_false; [done| |set_solver]. by intros [].
Qed.

Lemma NewDispatcher_loop_names `{!SecretGetter} cfgs fs tr d :
  Forall (λ f, ∀ n, tame (Send f n)) fs →
  runs (NewDispatcher_loop cfgs fs) tr (Returns (Ok d)) →
  Name <$> d_forwarders d = (Name <$> fs) ++
    (fc_Type <$> filter (λ c, fc_Enabled c && known_type (fc_Type c) = true) cfgs) ∧
  tame_dispatcher d.
Proof.
  revert fs tr. induction cfgs as [|c cfgs IH]; intros fs tr Hfs; simpl.
  - intros [-> [= ->]]. by rewrite app_nil_r.
  - destruct (NewForwarder_known c) as [Hk Hc]. rewrite filter_cons, Hk.
    destruct (fc_Enabled c); simpl; [|by apply IH].
    destruct (NewForwarder c) as [p|].
    2: { rewrite bool_decide_false by (by intros []). simpl. by apply IH. }
    rewrite bool_decide_true by done. simpl. rewrite runs_bind_returns.
    intros ([f|e] & tr1 & tr2 & -> & H1 & H2); [|by destruct H2].
    destruct (Hc _ _ _ eq_refl H1) as [Hn Hs].
    apply IH in H2 as [-> ?]; [|apply Forall_app; auto].
    by rewrite fmap_app, <-app_assoc, <-Hn.
Qed.

(** A dispatcher that is built has one forwarder for each enabled entry of a known
    type, in configuration order and under the type's name; disabled and unknown
    entries leave no trace, and none of its forwarders ever panics. *)
Theorem NewDispatcher_forwarders `{!SecretGetter} cfg tr d :
  runs (NewDispatcher cfg) tr (Returns (Ok d)) →
  Name <$> d_forwarders d =
    fc_Type <$> filter (λ c, fc_Enabled c && known_type (fc_Type c) = true) (nc_Forwarders cfg) ∧
  tame_dispatcher d.
Proof. apply NewDispatcher_loop_names. constructor. Qed.
End NotifierFacts.
