(* ===== verification/Prometheus.v ===== *)
(** * The metrics client, internal/prometheus

    The queries with their label escaping (queries.go) and the HTTP client that
    turns a range of samples into utilization percentages (client.go). *)
From S2P Require Import Prelude GoStrings GoStrconv GoFloat GoJson HttpMessage External ApiTypes Effects World.
From S2P Require Calculator.
Local Open Scope Z_scope.

(** ** queries.go *)
Definition sanitizeLabelValue (s : string) : string :=
  let s := ReplaceAll s backslash (backslash +:+ backslash) in
  let s := ReplaceAll s dquote (backslash +:+ dquote) in
  let s := ReplaceAll s newline "" in
  ReplaceAll s creturn "".

Definition cpuUsageQuery (vmName namespace lookback : string) : string :=
  "rate(kubevirt_vmi_cpu_usage_seconds_total{name=" +:+ dquote +:+ sanitizeLabelValue vmName +:+ dquote +:+
  ",namespace=" +:+ dquote +:+ sanitizeLabelValue namespace +:+ dquote +:+ "}[5m])[" +:+ lookback +:+ ":1m]".

Definition memoryResidentQuery (vmName namespace lookback : string) : string :=
  "kubevirt_vmi_memory_resident_bytes{name=" +:+ dquote +:+ sanitizeLabelValue vmName +:+ dquote +:+
  ",namespace=" +:+ dquote +:+ sanitizeLabelValue namespace +:+ dquote +:+ "}[" +:+ lookback +:+ "]".

Definition containerCPUQuery (container namespace lookback : string) : string :=
  "rate(container_cpu_usage_seconds_total{container=" +:+ dquote +:+ sanitizeLabelValue container +:+ dquote +:+
  ",namespace=" +:+ dquote +:+ sanitizeLabelValue namespace +:+ dquote +:+ ",image!=" +:+ dquote +:+ dquote +:+
  "}[5m])[" +:+ lookback +:+ ":1m]".

Definition containerMemoryQuery (container namespace lookback : string) : string :=
  "container_memory_working_set_bytes{container=" +:+ dquote +:+ sanitizeLabelValue container +:+ dquote +:+
  ",namespace=" +:+ dquote +:+ sanitizeLabelValue namespace +:+ dquote +:+ ",image!=" +:+ dquote +:+ dquote +:+
  "}[" +:+ lookback +:+ "]".

(** ** client.go: data *)
Record Client : Type := { c_baseURL : string; c_bearerToken : string }.

Record VMMetricSample : Type := {
  vs_VMName : string; vs_Namespace : string; vs_Values : list f64
}.
Record VMMetrics : Type := { vm_CPUSamples : list f64; vm_MemorySamples : list f64 }.
Record VMUtilization : Type := {
  pu_CPUP95Percent : f64;
  pu_MemoryP95Percent : f64;
  pu_CPUMaxPercent : f64;
  pu_MemoryMaxPercent : f64;
  pu_DataPoints : Z
}.

(** [tokenFile]: what reading the service account token gives. *)
Definition NewClient (tokenFile : option string) (baseURL : string) : Client :=
  if HasPrefix baseURL "https://"
  then {| c_baseURL := baseURL;
          c_bearerToken := match tokenFile with Some data => TrimSpace data | None => "" end |}
  else {| c_baseURL := baseURL; c_bearerToken := "" |}.
Definition NewClientWithHTTPClient (baseURL : string) : Client :=
  {| c_baseURL := baseURL; c_bearerToken := "" |}.

(** ** Decoding [prometheusResponse] *)
Record promResult : Type := { pr_Metric : gmap string string; pr_Values : list (list json) }.
Record prometheusResponse : Type := {
  pp_Status : string; pp_ResultType : string; pp_Result : list promResult
}.

(** A slice is decoded element by element into the elements already there. *)
Fixpoint decode_elems {A} (d : decoder A) (zero : A) (js : list json) (cur : list A) : option (list A) :=
  match js with
  | [] => Some []
  | j :: js' =>
      a ← d j (hd zero cur);
      r ← decode_elems d zero js' (tl cur);
      Some (a :: r)
  end.
Definition decode_slice {A} (d : decoder A) (zero : A) : decoder (list A) := λ j cur,
  match j with JArray l => decode_elems d zero l cur | JNull => Some [] | _ => None end.

Definition decode_any : decoder json := λ j _, Some j.

Fixpoint decode_entries (kvs : list (string * json)) (m : gmap string string)
    : option (gmap string string) :=
  match kvs with
  | [] => Some m
  | (k, j) :: r => v ← decode_string j ""; decode_entries r (<[k := v]> m)
  end.
Definition decode_map : decoder (gmap string string) := λ j cur,
  match j with JObject kvs => decode_entries kvs cur | JNull => Some ∅ | _ => None end.

Definition zero_promResult : promResult := {| pr_Metric := ∅; pr_Values := [] |}.
Definition zero_prometheusResponse : prometheusResponse :=
  {| pp_Status := ""; pp_ResultType := ""; pp_Result := [] |}.

Definition decode_promResult : decoder promResult := decode_struct [
  mk_field "metric" decode_map pr_Metric (λ v r, {| pr_Metric := v; pr_Values := pr_Values r |});
  mk_field "values" (decode_slice (decode_slice decode_any JNull) []) pr_Values
    (λ v r, {| pr_Metric := pr_Metric r; pr_Values := v |})].

Definition decode_prometheusResponse : decoder prometheusResponse := decode_struct [
  mk_field "status" decode_string pp_Status
    (λ v r, {| pp_Status := v; pp_ResultType := pp_ResultType r; pp_Result := pp_Result r |});
  {| f_name := "data"; f_decode := decode_struct [
       mk_field "resultType" decode_string pp_ResultType
         (λ v r, {| pp_Status := pp_Status r; pp_ResultType := v; pp_Result := pp_Result r |});
       mk_field "result" (decode_slice decode_promResult zero_promResult) pp_Result
         (λ v r, {| pp_Status := pp_Status r; pp_ResultType := pp_ResultType r; pp_Result := v |})] |}].

(** ** Samples *)

(** [v[1].(string)] parsed, for a pair of at least two elements. *)
Definition sample_value (v : list json) : option f64 :=
  match v with _ :: JString valStr :: _ => ParseFloat valStr | _ => None end.

Definition sample_of (r : promResult) : VMMetricSample := {|
  vs_VMName := default "" (pr_Metric r !! "name");
  vs_Namespace := default "" (pr_Metric r !! "namespace");
  vs_Values := omap sample_value (pr_Values r) |}.

Definition toPercent (samples : list f64) (total : f64) : list f64 :=
  if fleb total Calculator.f0 then samples
  else (λ v, fmul (fdiv v total) Calculator.f100) <$> samples.

(** Returns 0 if the slice is empty. *)
Definition maxValue (values : list f64) : f64 :=
  match values with
  | [] => Calculator.f0
  | v0 :: r => foldl (λ max v, if fgtb v max then v else max) v0 r
  end.

Section Client.
Context `{P : Platform} `{GI : GoImpl}.

Definition QueryRange (c : Client) (query : string) : prog Ev (result (list VMMetricSample)) :=
  let reqURL := c_baseURL c +:+ "/api/v1/query?query=" +:+ QueryEscape query in
  ok ← call (ParseURL reqURL);
  match ok with
  | Err e => mret (Err (EWrap "creating request" e))
  | Ok _ =>
      resp ← call (HttpDo {|
        hq_Method := "GET"; hq_URL := reqURL;
        hq_Header := if negb (String.eqb (c_bearerToken c) "")
                     then [("Authorization", "Bearer " +:+ c_bearerToken c)] else [];
        hq_Body := NoBody |});
      match resp with
      | Err e => mret (Err (EWrap "executing query" e))
      | Ok r =>
          if negb (hr_StatusCode r =? 200)
          then mret (Err (EOther ("prometheus returned status " +:+ itoa (hr_StatusCode r) +:+
                                  ": " +:+ take 4096 (hr_Body r))))
          else
          match (j ← hr_first r; decode_prometheusResponse j zero_prometheusResponse) with
          | None => mret (Err (EWrap "decoding response" (EOther "invalid JSON")))
          | Some promResp => mret (Ok (sample_of <$> pp_Result promResp))
          end
      end
  end.

(** [samples[0].Values] when there is one *)
Definition first_values (samples : list VMMetricSample) : list f64 :=
  match samples with s :: _ => vs_Values s | [] => [] end.

Definition get_metrics (c : Client) (cpuQuery memQuery what : string) : prog Ev (result VMMetrics) :=
  cpu ← QueryRange c cpuQuery;
  match cpu with
  | Err e => mret (Err (EWrap ("querying " +:+ what +:+ "CPU metrics") e))
  | Ok cpuSamples =>
      mem ← QueryRange c memQuery;
      match mem with
      | Err e => mret (Err (EWrap ("querying " +:+ what +:+ "memory metrics") e))
      | Ok memSamples =>
          mret (Ok {| vm_CPUSamples := first_values cpuSamples;
                      vm_MemorySamples := first_values memSamples |})
      end
  end.

Definition GetVMMetrics (c : Client) (vmName namespace : string) (lookbackDays : Z)
    : prog Ev (result VMMetrics) :=
  let lookback := itoa lookbackDays +:+ "d" in
  get_metrics c (cpuUsageQuery vmName namespace lookback)
                (memoryResidentQuery vmName namespace lookback) "".

Definition panic_index : string := "index out of range".

(** The summary of two sample lists; a panic of the percentile goes through. *)
Definition summarize (cpu mem : list f64) (points : Z) : prog Ev (result VMUtilization) :=
  cpuP95 ← must panic_index (Calculator.ComputePercentile cpu 95);
  memP95 ← must panic_index (Calculator.ComputePercentile mem 95);
  mret (Ok {| pu_CPUP95Percent := cpuP95;
              pu_MemoryP95Percent := memP95;
              pu_CPUMaxPercent := maxValue cpu;
              pu_MemoryMaxPercent := maxValue mem;
              pu_DataPoints := points |}).

Definition GetVMUtilization (c : Client) (vmName namespace : string) (lookbackDays cpuCores memoryBytes : Z)
    : prog Ev (result VMUtilization) :=
  m ← GetVMMetrics c vmName namespace lookbackDays;
  match m with
  | Err e => mret (Err (EWrap "fetching VM metrics" e))
  | Ok metrics =>
      let cpuPct := toPercent (vm_CPUSamples metrics) (f64_of_Z cpuCores) in
      let memPct := toPercent (vm_MemorySamples metrics) (f64_of_Z memoryBytes) in
      summarize cpuPct memPct (Z.of_nat (length (vm_CPUSamples metrics)))
  end.

Definition GetContainerMetrics (c : Client) (containerName namespace : string) (lookbackDays : Z)
    : prog Ev (result VMMetrics) :=
  let lookback := itoa lookbackDays +:+ "d" in
  get_metrics c (containerCPUQuery containerName namespace lookback)
                (containerMemoryQuery containerName namespace lookback) "container ".

Definition GetContainerUtilization (c : Client) (containerName namespace : string) (lookbackDays : Z)
    : prog Ev (result VMUtilization) :=
  m ← GetContainerMetrics c containerName namespace lookbackDays;
  match m with
  | Err e => mret (Err (EWrap "fetching container metrics" e))
  | Ok metrics =>
      summarize (vm_CPUSamples metrics) (vm_MemorySamples metrics)
        (Z.of_nat (length (vm_CPUSamples metrics)))
  end.
End Client.
