(* ===== verification/PrometheusFacts.v ===== *)
(** * What the metrics client guarantees

    A label value cannot escape its quotes in a query; a response is read back as
    the series it encodes; the maximum is one of the samples and bounds them; no
    response makes the client panic. *)
From S2P Require Import Prelude GoStrings GoStrconv GoFloat GoFloatFacts GoJson HttpMessage External ApiTypes.
From S2P Require Import Effects World Prometheus.
From S2P Require Calculator.
Local Open Scope Z_scope.

(** ** Queries *)

(** A double-quoted literal read from just after its opening quote, with the
    escapes of a quote and of a backslash: its value and what follows. *)
Fixpoint lex_string (s : string) : option (string * string) :=
  match s with
  | "" => None
  | String c s' =>
      if Ascii.eqb c (chr 34) then Some ("", s')
      else if Ascii.eqb c (chr 92) then
        match s' with
        | String d s'' =>
            if Ascii.eqb d (chr 34) || Ascii.eqb d (chr 92)
            then '(v, r) ← lex_string s''; Some (String d v, r) else None
        | "" => None
        end
      else if Ascii.eqb c (chr 10) then None
      else '(v, r) ← lex_string s'; Some (String c v, r)
  end.

(** Line breaks, and a string without them. *)
Fixpoint has_break (s : string) : bool :=
  match s with
  | "" => false
  | String c s' => (Ascii.eqb c (chr 10) || Ascii.eqb c (chr 13)) || has_break s'
  end.
Fixpoint one_line (s : string) : string :=
  match s with
  | "" => ""
  | String c s' => if Ascii.eqb c (chr 10) || Ascii.eqb c (chr 13) then one_line s'
                   else String c (one_line s')
  end.

Lemma ReplaceAll_cons c d s new :
  ReplaceAll (String c s) (String d "") new
  = (if Ascii.eqb c d then new else String c "") +:+ ReplaceAll s (String d "") new.
Proof.
  unfold ReplaceAll. cbn [ReplaceAll_from HasPrefix]. rewrite Ascii.eqb_sym.
  destruct (Ascii.eqb c d); [done|]. done.
Qed.

Lemma ReplaceAll_app a b d new :
  ReplaceAll (a +:+ b) (String d "") new
  = ReplaceAll a (String d "") new +:+ ReplaceAll b (String d "") new.
Proof.
  induction a as [|c a IH]; [done|].
  change (String c a +:+ b) with (String c (a +:+ b)).
  rewrite !ReplaceAll_cons, IH. by rewrite app_assoc_string.
Qed.

Lemma sanitize_app a b :
  sanitizeLabelValue (a +:+ b) = sanitizeLabelValue a +:+ sanitizeLabelValue b.
Proof.
  unfold sanitizeLabelValue. unfold backslash at 1, dquote at 1, newline, creturn.
  by rewrite !ReplaceAll_app.
Qed.

Lemma lex_byte c t :
  lex_string (sanitizeLabelValue (String c "") +:+ t) =
  if Ascii.eqb c (chr 10) || Ascii.eqb c (chr 13) then lex_string t
  else '(v, r) ← lex_string t; Some (String c v, r).
Proof. destruct c as [[] [] [] [] [] [] [] []]; reflexivity. Qed.

Lemma lex_sanitize v rest :
  lex_string (sanitizeLabelValue v +:+ (dquote +:+ rest)) = Some (one_line v, rest).
Proof.
  induction v as [|c v IH]; [done|].
  change (String c v) with (String c "" +:+ v). rewrite sanitize_app, app_assoc_string.
rewrite lex_byte, IH. cbn [mbind option_bind].
  change (one_line (String c "" +:+ v)) with
    (if Ascii.eqb c (chr 10) || Ascii.eqb c (chr 13) then one_line v else String c (one_line v)).
  by destruct (_ || _).
Qed.

Lemma one_line_id s : has_break s = false → one_line s = s.
Proof.
  induction s as [|c s IH]; [done|]. cbn [has_break one_line]. intros [-> Hs]%orb_false_iff. by rewrite IH.
Qed.

(** C36: Each query selects the VM in the namespace that it was given: read as the
    query language reads its string literals, the two label matchers carry the
    two names, whatever characters they have except that line breaks are dropped
    (a name without any, as all names of Kubernetes objects are, is carried
    exactly), and nothing of a name is taken for query text. *)
Theorem queries_select_exactly vmName namespace lookback :
  (∀ name, has_break name = false → one_line name = name) ∧
  (∃ q1 q2,
    cpuUsageQuery vmName namespace lookback =
      "rate(kubevirt_vmi_cpu_usage_seconds_total{name=" +:+ dquote +:+ q1 ∧
    lex_string q1 = Some (one_line vmName, ",namespace=" +:+ dquote +:+ q2) ∧
    lex_string q2 = Some (one_line namespace, "}[5m])[" +:+ lookback +:+ ":1m]")) ∧
  (∃ q1 q2,
    memoryResidentQuery vmName namespace lookback =
      "kubevirt_vmi_memory_resident_bytes{name=" +:+ dquote +:+ q1 ∧
    lex_string q1 = Some (one_line vmName, ",namespace=" +:+ dquote +:+ q2) ∧
    lex_string q2 = Some (one_line namespace, "}[" +:+ lookback +:+ "]")).
Proof.
  split; [apply one_line_id|].
  split; do 2 eexists; (split; [reflexivity|]); split; apply lex_sanitize.
Qed.

(** ** Responses *)

(** A series as the server encodes it: its labels and its (time, value) pairs. *)
Record series : Type := { se_labels : list (string * string); se_values : list (json * string) }.

Definition series_json (s : series) : json := JObject [
  ("metric", json_of_strings (se_labels s));
  ("values", JArray ((λ tv, JArray [tv.1; JString tv.2]) <$> se_values s))].
Definition matrix_json (ss : list series) : json := JObject [
  ("status", JString "success");
  ("data", JObject [("resultType", JString "matrix"); ("result", JArray (series_json <$> ss))])].

Definition label_map (kvs : list (string * string)) : gmap string string :=
  foldl (λ m kv, <[kv.1 := kv.2]> m) ∅ kvs.

Definition sample_of_series (s : series) : VMMetricSample := {|
  vs_VMName := default "" (label_map (se_labels s) !! "name");
  vs_Namespace := default "" (label_map (se_labels s) !! "namespace");
  vs_Values := omap (λ tv, ParseFloat tv.2) (se_values s) |}.

Lemma decode_labels kvs m :
  decode_entries ((λ kv, (kv.1, JString kv.2)) <$> kvs) m = Some (foldl (λ m kv, <[kv.1 := kv.2]> m) m kvs).
Proof. revert m. induction kvs as [|[k v] kvs IH]; intros m; simpl; [done|]. apply IH. Qed.

Lemma decode_elems_ok {A B} (d : decoder A) zero (f : B → json) (g : B → A) (l : list B) :
  (∀ b, d (f b) zero = Some (g b)) → decode_elems d zero (f <$> l) [] = Some (g <$> l).
Proof. intros H. induction l as [|b l IH]; simpl; [done|]. rewrite H. simpl. by setoid_rewrite IH. Qed.

Lemma decode_series s :
  decode_promResult (series_json s) zero_promResult =
  Some {| pr_Metric := label_map (se_labels s);
          pr_Values := (λ tv, [tv.1; JString tv.2]) <$> se_values s |}.
Proof.
  unfold decode_promResult, series_json, decode_struct, json_of_strings. simpl. unfold mbind.
  rewrite decode_labels. simpl.
  by rewrite (decode_elems_ok _ _ _ (λ tv, [tv.1; JString tv.2])).
Qed.

Lemma decode_matrix ss :
  ∃ pr, decode_prometheusResponse (matrix_json ss) zero_prometheusResponse = Some pr ∧
    sample_of <$> pp_Result pr = sample_of_series <$> ss.
Proof.
  unfold decode_prometheusResponse, matrix_json, decode_struct. simpl. unfold mbind. simpl.
  rewrite (decode_elems_ok _ _ _ _ _ decode_series). simpl.
  eexists; split; [done|]. simpl. rewrite <-list_fmap_compose. apply list_fmap_ext.
  intros _ s _. unfold sample_of, sample_of_series. simpl. f_equal.
  induction (se_values s) as [|tv l IH]; [done|].
  simpl. destruct (ParseFloat tv.2); [f_equal|]; exact IH.
Qed.

Section ClientFacts.
Context `{P : Platform} `{GI : GoImpl}.

Definition query_url (c : Client) (query : string) : string :=
  c_baseURL c +:+ "/api/v1/query?query=" +:+ QueryEscape query.

Definition query_request (c : Client) (query : string) : HttpRequest := {|
  hq_Method := "GET"; hq_URL := query_url c query;
  hq_Header := if negb (String.eqb (c_bearerToken c) "")
               then [("Authorization", "Bearer " +:+ c_bearerToken c)] else [];
  hq_Body := NoBody |}.

(** C37: Reading a response is the inverse of encoding it: when the server answers
    200 with a list of series, the client returns one sample per series, in
    order, with its two labels and with every value that is a number, in order;
    and the server was asked exactly the query (its escaping undone). *)
Theorem QueryRange_reads_series c query tr res ss :
  runs (QueryRange c query) tr (Returns res) →
  (∀ r, r ∈ responses tr → hr_StatusCode r = 200 ∧ hr_first r = Some (matrix_json ss)) →
  match res with
  | Ok samples => samples = sample_of_series <$> ss
  | Err _ => responses tr = []
  end ∧
  (∀ req, req ∈ https tr → hq_URL req = query_url c query) ∧
  QueryUnescape (QueryEscape query) = Some query.
Proof.
  intros ([[]|e] & tr1 & -> & H) Hans;
    cbn [runs mbind prog_mbind prog_bind call mret prog_ret] in H.
  2: { destruct H as [-> [= ->]]. split_and!; [done|intros ? Hin; by apply not_elem_of_nil in Hin|apply QueryUnescape_QueryEscape]. }
  destruct H as (ans & tr2 & -> & H). simpl in Hans.
  assert (Hurl : tr2 = [] → ∀ req, req ∈ https (Obs (ParseURL (query_url c query)) (Ok tt) ::
    Obs (HttpDo (query_request c query)) ans :: tr2) → hq_URL req = query_url c query).
  { intros -> req Hin. cbn in Hin. by apply list_elem_of_singleton in Hin as ->. }
  destruct ans as [r|e].
  2: { destruct H as [-> [= ->]]. split_and!; [done|by apply Hurl|apply QueryUnescape_QueryEscape]. }
  destruct (Hans r (list_elem_of_here _ _)) as [Hst Hj].
  destruct (decode_matrix ss) as (pr & Hd & Hs).
  assert (Hdec : (j ← hr_first r; decode_prometheusResponse j zero_prometheusResponse) = Some pr)
    by by rewrite Hj.
  rewrite Hst, Hdec in H. destruct H as [-> [= ->]].
  split_and!; [done|by apply Hurl|apply QueryUnescape_QueryEscape].
Qed.

(** ** The maximum *)
Lemma maxValue_fold m l :
  let r := foldl (λ max v, if fgtb v max then v else max) m l in
  r ∈ m :: l ∧
  (is_nan m = false → is_nan r = false ∧ fleb m r = true ∧
     ∀ v, v ∈ l → is_nan v = false → fleb v r = true).
Proof.
  revert m. induction l as [|v l IH]; intros m; cbn [foldl].
  - split; [apply list_elem_of_here|]. intros Hm. split_and!; [done|by apply fleb_refl|set_solver].
  - unfold fgtb. destruct (fltb m v) eqn:E.
    + destruct (IH v) as [Hin Hmax]. split; [set_solver|]. intros Hm.
      destruct (fltb_nan _ _ E) as [_ Hv]. destruct (Hmax Hv) as (Hr & Hvr & Hl).
      split_and!; [done| |].
      * eapply fleb_trans; [exact Hv| |exact Hvr]. by apply fltb_fleb.
      * intros v' [->|Hin']%elem_of_cons Hv'; auto.
    + destruct (IH m) as [Hin Hmax]. split; [set_solver|]. intros Hm.
      destruct (Hmax Hm) as (Hr & Hvr & Hl). split_and!; [done..|].
      intros v' [->|Hin']%elem_of_cons Hv'; [|auto].
      eapply fleb_trans; [exact Hm| |exact Hvr].
      rewrite (fltb_not_fleb m v Hm Hv') in E. by destruct (fleb v m).
Qed.

(** The maximum of a non-empty list is one of its samples, and unless the list
    starts with NaN no other number exceeds it; an empty list gives 0. *)
Lemma maxValue_is_maximum l :
  (l = [] → maxValue l = Calculator.f0) ∧
  (l ≠ [] → maxValue l ∈ l) ∧
  (∀ v0 r, l = v0 :: r → is_nan v0 = false →
     is_nan (maxValue l) = false ∧ ∀ v, v ∈ l → is_nan v = false → fleb v (maxValue l) = true).
Proof.
  split_and!; [by intros ->|..].
  - destruct l as [|v0 r]; [done|]. intros _. apply maxValue_fold.
  - intros v0 r -> H0. destruct (maxValue_fold v0 r) as [_ Hm]. destruct (Hm H0) as (? & ? & ?).
    split; [done|]. intros v [->|Hin]%elem_of_cons Hv; [done|auto].
Qed.

(** ** No panic *)
Definition answer_bounded (r : HttpResponse) : Prop :=
  ∀ j pr, hr_first r = Some j → decode_prometheusResponse j zero_prometheusResponse = Some pr →
    Forall (λ s, Z.of_nat (length (pr_Values s)) < 2 ^ 53) (pp_Result pr).

Definition short (l : list f64) : Prop := Z.of_nat (length l) < 2 ^ 53.

Lemma omap_length {A B} (f : A → option B) (l : list A) : (length (omap f l) <= length l)%nat.
Proof. induction l as [|a l IH]; simpl; [done|]. destruct (f a); [apply le_n_S|apply le_S]; exact IH. Qed.

Lemma QueryRange_short c query :
  wp (QueryRange c query) (λ tr out, ∃ res, out = Returns res ∧
    ((∀ r, r ∈ responses tr → answer_bounded r) → ∀ ss, res = Ok ss → short (first_values ss))).
Proof.
  cbn. intros [[]|e]; cbn; [|by eexists]. intros [r|e]; cbn; [|by eexists].
  destruct (negb _); cbn; [by eexists|].
  destruct (hr_first r) as [j|] eqn:Hj; cbn; [|by eexists].
  destruct (decode_prometheusResponse j _) as [pr|] eqn:Hd; cbn; [|by eexists].
  eexists; split; [done|]. intros Hb ss [= <-]. specialize (Hb r (list_elem_of_here _ _) _ _ Hj Hd).
  unfold short. destruct (pp_Result pr) as [|s rest]; cbn; [done|].
  inversion Hb; subst. pose proof (omap_length sample_value (pr_Values s)). lia.
Qed.

Lemma ComputePercentile_safe l p : 0 <= p <= 100 → short l →
  ∃ x, Calculator.ComputePercentile l p = Some x.
Proof.
  intros Hp Hl. destruct (Z.lt_ge_cases (Calculator.len l) 2).
  - eexists. by apply Calculator.percentile_short.
  - destruct (Calculator.percentile_cases l p) as (lo & hi & a & b & H'); [done|split; [done|exact Hl]|].
    eexists. apply H'.
Qed.

Lemma summarize_safe cpu mem n : short cpu → short mem → safe (summarize cpu mem n).
Proof.
  intros Hc Hm. unfold summarize.
  destruct (ComputePercentile_safe cpu 95) as [x ->]; [lia|exact Hc|].
  destruct (ComputePercentile_safe mem 95) as [y ->]; [lia|exact Hm|]. exact I.
Qed.

Lemma short_toPercent l total : short l → short (toPercent l total).
Proof. unfold short, toPercent. destruct (fleb _ _); [done|]. by rewrite length_fmap. Qed.

Lemma get_metrics_short c q1 q2 what :
  wp (get_metrics c q1 q2 what) (λ tr out, ∃ res, out = Returns res ∧
    ((∀ r, r ∈ responses tr → answer_bounded r) →
     ∀ m, res = Ok m → short (vm_CPUSamples m) ∧ short (vm_MemorySamples m))).
Proof.
  unfold get_metrics. eapply wp_bind_mono; [apply QueryRange_short|].
  intros tr1 _ ([cpu|e] & -> & H1); cbn; [|by eexists].
  apply (wp_bind_mono _ _ _ (λ tr' out', ∃ res, _) (QueryRange_short c q2)).
  intros tr2 _ ([mem|e] & -> & H2); cbn; [|by eexists].
  eexists; split; [done|]. intros Hb m [= <-]. cbn. unfold responses in Hb.
  setoid_rewrite omap_app in Hb. setoid_rewrite omap_app in Hb.
  split; [apply H1|apply H2]; try done; intros r Hr; apply Hb; set_solver.
Qed.

End ClientFacts.

Section Totality.
Context `{P : Platform} `{GI : GoImpl} (c : Client).

(** The two utilization queries have this shape. *)
Definition utilization (q1 q2 what ctx : string) (f g : list f64 → list f64)
    : prog Ev (result VMUtilization) :=
  m ← get_metrics c q1 q2 what;
  match m with
  | Err e => mret (Err (EWrap ctx e))
  | Ok metrics => summarize (f (vm_CPUSamples metrics)) (g (vm_MemorySamples metrics))
      (Z.of_nat (length (vm_CPUSamples metrics)))
  end.

Lemma utilization_total q1 q2 what ctx f g tr out :
  (∀ l, short l → short (f l)) → (∀ l, short l → short (g l)) →
  runs (utilization q1 q2 what ctx f g) tr out →
  (∀ r, r ∈ responses tr → answer_bounded r) → ∃ res, out = Returns res.
Proof.
  intros Hf Hg Hr Hb. apply runs_bind in Hr as [(m & t1 & t2 & -> & H1 & H2)|(? & -> & H1)].
  - destruct (proj1 (wp_runs _ _) (get_metrics_short c q1 q2 what) _ _ H1) as (res & [= <-] & Hs).
    destruct m as [m|e]; [|destruct H2; eauto].
    assert (∀ r, r ∈ responses t1 → answer_bounded r) as Hb1.
    { intros r Hin. apply Hb. unfold responses. rewrite omap_app. apply elem_of_app. by left. }
    destruct (Hs Hb1 m eq_refl).
    eapply safe_runs; [|exact H2]. apply summarize_safe; auto.
  - by destruct (proj1 (wp_runs _ _) (get_metrics_short c q1 q2 what) _ _ H1) as (? & ? & ?).
Qed.

(** C38: No answer of the metrics server makes a utilization query panic: if it never
    returns 2^53 or more values in a series, every query ends with a utilization
    or an error, for VMs and for containers. *)
Theorem GetUtilization_no_panic name namespace days cores bytes tr out :
  runs (GetVMUtilization c name namespace days cores bytes) tr out ∨
  runs (GetContainerUtilization c name namespace days) tr out →
  (∀ r, r ∈ responses tr → answer_bounded r) →
  ∃ res, out = Returns res.
Proof.
  intros [Hr|Hr].
  - refine (utilization_total _ _ _ _ (λ l, toPercent l (f64_of_Z cores))
      (λ l, toPercent l (f64_of_Z bytes)) _ _ _ _ Hr); intros; by apply short_toPercent.
  - by refine (utilization_total _ _ _ _ (λ l, l) (λ l, l) _ _ _ _ Hr).
Qed.
End Totality.

