(* ===== verification/Controller.v ===== *)
(** * The recommendation controller, internal/controller/rightsizingrecommendation_controller.go

    One reconciliation: policy, virtual machine, metrics, analysis, and then the
    recommendation object created, refreshed, reminded of, expired, deleted or
    applied.  A nil component is [None].  [ctrl.Result{RequeueAfter: d}, nil] is
    [Ok d], and [ctrl.Result{}, err] is [Err err]. *)
From S2P Require Import Prelude GoStrings GoFloat External ApiTypes Effects World.
From S2P Require Import Approval Owner Applier Notifier.
From S2P Require Calculator.
Local Open Scope Z_scope.
Local Open Scope ovro_scope.

Record VMUtilization : Type := {
  vu_CurrentCPUCores : Z;
  vu_CurrentMemoryGiB : Z;
  vu_CPUP95Percent : f64;
  vu_MemoryP95Percent : f64;
  vu_CPUMaxPercent : f64;
  vu_MemoryMaxPercent : f64;
  vu_DataPoints : Z
}.

(** ** Durations: saturating subtraction of times, [Sub], [Since] and [Until] *)
Definition saturate (d : Z) : Z :=
  Z.max (-9223372036854775808) (Z.min 9223372036854775807 d).
Definition time_sub (t u : Z) : Z := saturate (t - u).

(** ** Demo mode *)
Definition demoDirection (vmName : string) : string :=
  let h := foldl (λ h c, wrap64 (h + c)) 0 (runes vmName) in
  if Z.rem h 2 =? 0 then DirectionDownsize else DirectionUpsize.

Definition demoRecommended (current : Z) (vmName : string) : Z :=
  if String.eqb (demoDirection vmName) DirectionDownsize then
    let rec := Z.quot current 2 in if rec <? 1 then 1 else rec
  else wrap32 (current * 2).
Definition demoRecommendedCPU (current : Z) (vmName : string) : Z := demoRecommended current vmName.
Definition demoRecommendedMem (current : Z) (vmName : string) : Z := demoRecommended current vmName.

Definition demoUtilization (cpuCores memoryGiB : Z) (vmName : string) : VMUtilization :=
  let '(cpuP95, memP95, cpuMax, memMax) :=
    if String.eqb (demoDirection vmName) DirectionDownsize then (25, 30, 45, 50)
    else (92, 88, 98, 95) in
  {| vu_CurrentCPUCores := cpuCores; vu_CurrentMemoryGiB := memoryGiB;
     vu_CPUP95Percent := f64_of_Z cpuP95; vu_MemoryP95Percent := f64_of_Z memP95;
     vu_CPUMaxPercent := f64_of_Z cpuMax; vu_MemoryMaxPercent := f64_of_Z memMax;
     vu_DataPoints := 20160 |}.

Definition calculator_Direction (s : string) : Calculator.Direction :=
  if String.eqb s DirectionUpsize then Calculator.Upsize else Calculator.Downsize.

Definition demoResult (cpuCores memoryGiB : Z) (vmName : string) : Calculator.AnalysisResult :=
  let cpu := demoRecommendedCPU cpuCores vmName in
  let mem := demoRecommendedMem memoryGiB vmName in
  {| Calculator.ar_Direction := calculator_Direction (demoDirection vmName);
     Calculator.ar_RecommendedCPUCores := cpu;
     Calculator.ar_RecommendedMemoryGiB := mem;
     Calculator.ar_CPUSavings := wrap32 (cpuCores - cpu);
     Calculator.ar_MemorySavings := wrap32 (memoryGiB - mem);
     Calculator.ar_Reason := "" |}.

(** ** Small helpers *)
Definition abs (n : Z) : Z := if n <? 0 then wrap32 (- n) else n.
Definition round1 (v : f64) : f64 := fdiv (Round (fmul v Calculator.f10)) Calculator.f10.

Definition minDataPoints : Z := Z.quot (7 * 24 * 60) 2.

Section Controller.
Context `{P : Platform} `{GI : GoImpl} `{J : JwtLib}.

(** The interface to the metrics backend. *)
Class PrometheusQuerier : Type :=
  QueryVMUtilization :
    string → string → Z → Z → Z → prog Ev (result VMUtilization).

Record RightsizingRecommendationReconciler : Type := {
  re_DemoMode : bool;
  re_Applier : option Applier;
  re_OwnerResolver : option Resolver;
  re_TokenManager : option TokenManager;
  re_Notifier : option Dispatcher;
  re_ApprovalRouteHost : string
}.

(** ** getVM *)
Definition cores_path : list string := cpu_path "cores".
Definition requests_path : list string :=
  ["spec"; "template"; "spec"; "domain"; "resources"; "requests"; "memory"].
Definition guest_path : list string := ["spec"; "template"; "spec"; "domain"; "memory"; "guest"].

Definition vm_cpuCores (vm : Unstructured) : Z :=
  let '(cores, found, _) := NestedInt64 vm cores_path in
  if found then wrap32 cores else 0.

Definition vm_memoryGiB (vm : Unstructured) : Z :=
  let '(memStr, found, _) := NestedString vm requests_path in
  let '(memStr, found) :=
    if negb found then let '(m, f, _) := NestedString vm guest_path in (m, f)
    else (memStr, found) in
  if found then
    match ParseQuantity memStr with
    | Some q => wrap32 (Z.quot (Q_Value q) (1024 * 1024 * 1024))
    | None => 0
    end
  else 0.

Definition getVM (name namespace : string) : prog Ev (result (Unstructured * Z * Z)) :=
  got ← call (KGetVM (NSName namespace name));
  match got with
  | Err e => mret (Err (EWrap "fetching VM" e))
  | Ok vm => mret (Ok (vm, vm_cpuCores vm, vm_memoryGiB vm))
  end.

(** ** The recommendation object *)
Definition recName (vmName namespace : string) : NamespacedName :=
  NSName namespace ("vm-" +:+ vmName).

(** [resource.MustParse(fmt.Sprintf("%dGi", n))] *)
Definition gi (n : Z) : prog Ev Quantity := must "MustParse" (MustParse (itoa n +:+ "Gi")).

Definition spec_of (cores memGiB : Z) : prog Ev ResourceSpec :=
  memory ← gi memGiB;
  mret {| rs_CPU := {| cpu_Cores := cores; cpu_Sockets := 1; cpu_Threads := 1 |};
          rs_Memory := memory |}.

Definition metrics_of (lookbackDays : Z) (u : VMUtilization) : MetricsSnapshot := {|
  ms_LookbackDays := lookbackDays;
  ms_CPUP95Percent := round1 (vu_CPUP95Percent u);
  ms_MemoryP95Percent := round1 (vu_MemoryP95Percent u);
  ms_CPUMaxPercent := round1 (vu_CPUMaxPercent u);
  ms_MemoryMaxPercent := round1 (vu_MemoryMaxPercent u) |}.

Definition recommended_of (r : Calculator.AnalysisResult) : prog Ev ResourceSpec :=
  spec_of (Calculator.ar_RecommendedCPUCores r) (Calculator.ar_RecommendedMemoryGiB r).
Definition savings_of (r : Calculator.AnalysisResult) : prog Ev SavingsSpec :=
  memory ← gi (abs (Calculator.ar_MemorySavings r));
  mret {| sv_CPU := Calculator.ar_CPUSavings r; sv_Memory := memory |}.

(** ** deleteExistingRecommendation: errors are ignored *)
Definition protected_state (s : string) : bool :=
  String.eqb s StateApplied || String.eqb s StateAppliedPendingRestart
  || String.eqb s StateAwaitingApproval.

Definition deleteExistingRecommendation (vmName namespace : string) : prog Ev unit :=
  got ← call (KGetRec (recName vmName namespace));
  match got with
  | Err _ => mret tt
  | Ok rec =>
      if protected_state (rr_state rec) then mret tt
      else _ ← call (KDeleteRec (rr_key rec)); mret tt
  end.

(** ** autoApply *)
Definition revert_config (rec : RightsizingRecommendation) : option ResourceSpec :=
  Some {| rs_CPU := rs_CPU (sp_Current (rr_Spec rec));
          rs_Memory := rs_Memory (sp_Current (rr_Spec rec)) |}.

Definition await_approval (owner token : string) (now : Z) (rec : RightsizingRecommendation)
    : RightsizingRecommendation :=
  rec |> upd_Status (λ st, st |> set_State StateAwaitingApproval |> set_Owner owner
           |> set_ApprovalToken token |> set_NotifiedAt (Some now)
           |> set_RevertConfig (revert_config rec)).

(** [r.Status().Update(ctx, rec)]: the server's object, or the error. *)
Definition UpdateStatus (rec : RightsizingRecommendation)
    : prog Ev (result RightsizingRecommendation) := call (KUpdateRecStatus rec).

(** The approval branch of [autoApply]. *)
Definition autoApply_approval (r : RightsizingRecommendationReconciler) (tm : TokenManager)
    (ownerStr : string) (rec : RightsizingRecommendation) : prog Ev unit :=
  let ref := sp_VirtualMachineRef (rr_Spec rec) in
  tok ← GenerateToken tm (ref_Namespace ref) (om_Name (rr_Meta rec)) ownerStr (14 * 24 * Hour);
  match tok with
  | Err _ => mret tt
  | Ok token =>
      now ← call TimeNow;
      upd ← UpdateStatus (await_approval ownerStr token now rec);
      match upd with
      | Err _ => mret tt
      | Ok rec =>
          match re_Notifier r with
          | Some d =>
              if negb (String.eqb (re_ApprovalRouteHost r) "") then
                _ ← SendAll d (rec_notification ref rec ownerStr (approval_url (re_ApprovalRouteHost r) token));
                mret tt
              else mret tt
          | None => mret tt
          end
      end
  end.

(** The direct branch of [autoApply]. *)
Definition autoApply_direct (r : RightsizingRecommendationReconciler)
    (rec : RightsizingRecommendation) (vm : Unstructured) : prog Ev unit :=
  let ref := sp_VirtualMachineRef (rr_Spec rec) in
  now ← call TimeNow;
  let rec := rec |> upd_Status (set_RevertConfig (revert_config rec)) in
  patched ← match re_Applier r with
            | Some a => PatchVMResources a (ref_Name ref) (ref_Namespace ref)
                          (cpu_Cores (rs_CPU (sp_Recommended (rr_Spec rec))))
                          (rs_Memory (sp_Recommended (rr_Spec rec)))
            | None => mret (Ok tt)
            end;
  match patched with
  | Err e =>
      _ ← UpdateStatus (rec |> upd_Status (λ st, st |> set_State StateFailed
             |> set_Message ("auto-apply failed: " +:+ Error e)));
      mret tt
  | Ok _ =>
      let rec :=
        if IsHotplugCapable vm
        then rec |> upd_Status (λ st, st |> set_State StateApplied |> set_AppliedAt (Some now))
        else rec |> upd_Status (set_State StateAppliedPendingRestart) in
      _ ← UpdateStatus rec;
      mret tt
  end.

Definition autoApply (r : RightsizingRecommendationReconciler) (rec : RightsizingRecommendation)
    (vm : Unstructured) : prog Ev unit :=
  let ref := sp_VirtualMachineRef (rr_Spec rec) in
  match re_OwnerResolver r, re_TokenManager r with
  | Some resolver, Some tm =>
      o ← ResolveOwner resolver (ref_Name ref) (ref_Namespace ref);
      (* an error is logged and counts as no owner *)
      let ownerStr := match o with Ok s => s | Err _ => "" end in
      if negb (String.eqb ownerStr "") then autoApply_approval r tm ownerStr rec
      else autoApply_direct r rec vm
  | _, _ => autoApply_direct r rec vm
  end.

(** ** Reconcile *)
Definition defaultPolicy : prog Ev RightsizingPolicy :=
  spec ← must "MustParse" DefaultPolicySpec;
  mret {| rp_Name := ""; rp_ResourceVersion := ""; rp_Spec := spec |}.

(** The policy in force: the cluster's, or the defaults when there is none. *)
Definition fetch_policy : prog Ev (result RightsizingPolicy) :=
  got ← call (KGetPolicy "default");
  match got with
  | Ok p => mret (Ok p)
  | Err e => if IsNotFound e then p ← defaultPolicy; mret (Ok p)
             else mret (Err (EWrap "fetching policy" e))
  end.

Definition requeue_interval (policy : RightsizingPolicy) : Z :=
  wrap64 (ps_ReconcileIntervalMinutes (rp_Spec policy) * Minute).

Definition analysis_input (policy : RightsizingPolicy) (u : VMUtilization)
    : Calculator.AnalysisInput :=
  let sp := rp_Spec policy in {|
  Calculator.ai_CurrentCPUCores := vu_CurrentCPUCores u;
  Calculator.ai_CurrentMemoryGiB := vu_CurrentMemoryGiB u;
  Calculator.ai_CPUP95Percent := vu_CPUP95Percent u;
  Calculator.ai_MemoryP95Percent := vu_MemoryP95Percent u;
  Calculator.ai_CPUMaxPercent := vu_CPUMaxPercent u;
  Calculator.ai_MemoryMaxPercent := vu_MemoryMaxPercent u;
  Calculator.ai_HeadroomPercent := al_HeadroomPercent (ps_Algorithm sp);
  Calculator.ai_MinCPUSavings := th_MinCPUSavings (ps_Thresholds sp);
  Calculator.ai_MinMemorySavingsGiB := gib (th_MinMemorySavings (ps_Thresholds sp));
  Calculator.ai_UpsizeThresholdPct := th_UpsizeUtilizationPercent (ps_Thresholds sp);
  Calculator.ai_LookbackDays := ps_LookbackDays sp |}.

Definition with_current (cpuCores memoryGiB : Z) (u : VMUtilization) : VMUtilization := {|
  vu_CurrentCPUCores := cpuCores; vu_CurrentMemoryGiB := memoryGiB;
  vu_CPUP95Percent := vu_CPUP95Percent u; vu_MemoryP95Percent := vu_MemoryP95Percent u;
  vu_CPUMaxPercent := vu_CPUMaxPercent u; vu_MemoryMaxPercent := vu_MemoryMaxPercent u;
  vu_DataPoints := vu_DataPoints u |}.

(** The analysis of a VM; [None] when the reconciliation ends here. *)
Definition analyze `{!PrometheusQuerier} (r : RightsizingRecommendationReconciler)
    (req : NamespacedName) (policy : RightsizingPolicy) (cpuCores memoryGiB : Z)
    : prog Ev (option (Calculator.AnalysisResult * VMUtilization)) :=
  if re_DemoMode r then
    mret (Some (demoResult cpuCores memoryGiB (nn_Name req),
                demoUtilization cpuCores memoryGiB (nn_Name req)))
  else
  let memoryBytes := wrap64 (wrap64 (wrap64 (memoryGiB * 1024) * 1024) * 1024) in
  got ← QueryVMUtilization (nn_Name req) (nn_Namespace req) (ps_LookbackDays (rp_Spec policy))
          cpuCores memoryBytes;
  match got with
  | Err _ => mret None
  | Ok utilization =>
      if vu_DataPoints utilization <? minDataPoints then
        _ ← deleteExistingRecommendation (nn_Name req) (nn_Namespace req); mret None
      else
      let utilization := with_current cpuCores memoryGiB utilization in
      match Calculator.Analyze (analysis_input policy utilization) with
      | None => _ ← deleteExistingRecommendation (nn_Name req) (nn_Namespace req); mret None
      | Some result => mret (Some (result, utilization))
      end
  end.

(** The new object. *)
Definition new_recommendation (req : NamespacedName) (policy : RightsizingPolicy)
    (cpuCores memoryGiB : Z) (result : Calculator.AnalysisResult) (u : VMUtilization)
    : prog Ev RightsizingRecommendation :=
  current ← spec_of cpuCores memoryGiB;
  recommended ← recommended_of result;
  savings ← savings_of result;
  let key := recName (nn_Name req) (nn_Namespace req) in
  mret {|
    rr_Meta := {| om_Name := nn_Name key; om_Namespace := nn_Namespace key; om_ResourceVersion := "" |};
    rr_Spec := {|
      sp_VirtualMachineRef := {| ref_Name := nn_Name req; ref_Namespace := nn_Namespace req |};
      sp_Direction := Calculator.string_of_Direction (Calculator.ar_Direction result);
      sp_Current := current;
      sp_Recommended := recommended;
      sp_Savings := savings;
      sp_Metrics := metrics_of (ps_LookbackDays (rp_Spec policy)) u;
      sp_HotplugCapable := false;
      sp_Reason := Calculator.ar_Reason result |};
    rr_Status := zero_Status |}.

Definition create_recommendation (req : NamespacedName) (policy : RightsizingPolicy)
    (cpuCores memoryGiB : Z) (result : Calculator.AnalysisResult) (u : VMUtilization) (now : Z)
    : prog Ev (Prelude.result RightsizingRecommendation) :=
  rec ← new_recommendation req policy cpuCores memoryGiB result u;
  created ← call (KCreateRec rec);
  match created with
  | Err e => mret (Err (EWrap "creating recommendation" e))
  | Ok rec =>
      upd ← UpdateStatus (rec |> upd_Status (λ st, st |> set_State StatePending
                                             |> set_LastCalculated (Some now)));
      match upd with
      | Err e => mret (Err (EWrap "updating recommendation status" e))
      | Ok rec => mret (Ok rec)
      end
  end.

(** Reminder and expiry of an approval request. *)
Definition expire_or_remind (r : RightsizingRecommendationReconciler)
    (rec : RightsizingRecommendation) : prog Ev (Prelude.result RightsizingRecommendation) :=
  if negb (String.eqb (rr_state rec) StateAwaitingApproval) then mret (Ok rec) else
  match st_NotifiedAt (rr_Status rec) with
  | None => mret (Ok rec)
  | Some notifiedAt =>
      t ← call TimeNow;
      let elapsed := time_sub t notifiedAt in
      if 14 * 24 * Hour <? elapsed then
        upd ← UpdateStatus (rec |> upd_Status (λ st, st |> set_State StatePending |> set_Owner ""
                 |> set_ApprovalToken "" |> set_NotifiedAt None |> set_ReminderSentAt None));
        match upd with
        | Err e => mret (Err (EWrap "resetting expired approval" e))
        | Ok rec => mret (Ok rec)
        end
      else if (7 * 24 * Hour <? elapsed) && bool_decide (st_ReminderSentAt (rr_Status rec) = None) then
        _ ← match re_Notifier r with
            | Some d =>
                SendAllExcept d (rec_notification (sp_VirtualMachineRef (rr_Spec rec)) rec
                    (st_Owner (rr_Status rec))
                    (approval_url (re_ApprovalRouteHost r) (st_ApprovalToken (rr_Status rec))))
                  ["servicenow"]
            | None => mret []
            end;
        now ← call TimeNow;
        upd ← UpdateStatus (rec |> upd_Status (set_ReminderSentAt (Some now)));
        match upd with
        | Err e => mret (Err (EWrap "updating reminder status" e))
        | Ok rec => mret (Ok rec)
        end
      else mret (Ok rec)
  end.

(** New values for an existing recommendation. *)
Definition refresh_recommendation (policy : RightsizingPolicy) (result : Calculator.AnalysisResult)
    (u : VMUtilization) (now : Z) (rec : RightsizingRecommendation)
    : prog Ev (Prelude.result RightsizingRecommendation) :=
  recommended ← recommended_of result;
  savings ← savings_of result;
  let rec := rec |> upd_Spec (λ sp, sp
    |> set_Direction (Calculator.string_of_Direction (Calculator.ar_Direction result))
    |> set_Recommended recommended
    |> set_Savings savings
    |> set_Metrics (metrics_of (ps_LookbackDays (rp_Spec policy)) u)
    |> set_Reason (Calculator.ar_Reason result)) in
  upd ← call (KUpdateRec rec);
  match upd with
  | Err e => mret (Err (EWrap "updating recommendation" e))
  | Ok rec =>
      upd ← UpdateStatus (rec |> upd_Status (set_LastCalculated (Some now)));
      match upd with
      | Err e => mret (Err (EWrap "updating recommendation status" e))
      | Ok rec => mret (Ok rec)
      end
  end.

(** The recommendation to consider for auto-apply; [None] when it is applied or
    awaiting approval and left alone. *)
Definition upsert (r : RightsizingRecommendationReconciler) (req : NamespacedName)
    (policy : RightsizingPolicy) (cpuCores memoryGiB : Z)
    (result : Calculator.AnalysisResult) (u : VMUtilization)
    : prog Ev (Prelude.result (option RightsizingRecommendation)) :=
  now ← call TimeNow;
  got ← call (KGetRec (recName (nn_Name req) (nn_Namespace req)));
  match got with
  | Err e =>
      if IsNotFound e then
        res ← create_recommendation req policy cpuCores memoryGiB result u now;
        mret (match res with Ok rec => Ok (Some rec) | Err e => Err e end)
      else mret (Err (EWrap "fetching recommendation" e))
  | Ok rec =>
      res ← expire_or_remind r rec;
      match res with
      | Err e => mret (Err e)
      | Ok rec =>
          if protected_state (rr_state rec) then mret (Ok None) else
          res ← refresh_recommendation policy result u now rec;
          mret (match res with Ok rec => Ok (Some rec) | Err e => Err e end)
      end
  end.

Definition excluded (vm : Unstructured) : bool :=
  String.eqb (default "" (GetAnnotations vm !! AnnotationExclude)) "true".

Definition Reconcile `{!PrometheusQuerier} (r : RightsizingRecommendationReconciler)
    (req : NamespacedName) : prog Ev (Prelude.result Z) :=
  pol ← fetch_policy;
  match pol with
  | Err e => mret (Err e)
  | Ok policy =>
      let requeueAfter := requeue_interval policy in
      got ← getVM (nn_Name req) (nn_Namespace req);
      match got with
      | Err _ => mret (Ok requeueAfter)
      | Ok (vm, cpuCores, memoryGiB) =>
          if excluded vm then
            _ ← deleteExistingRecommendation (nn_Name req) (nn_Namespace req);
            mret (Ok requeueAfter)
          else
          analysis ← analyze r req policy cpuCores memoryGiB;
          match analysis with
          | None => mret (Ok requeueAfter)
          | Some (result, utilization) =>
              res ← upsert r req policy cpuCores memoryGiB result utilization;
              match res with
              | Err e => mret (Err e)
              | Ok None => mret (Ok requeueAfter)
              | Ok (Some rec) =>
                  _ ← (if am_Enabled (ps_AutoMode (rp_Spec policy))
                           && String.eqb (rr_state rec) StatePending
                       then autoApply r rec vm else mret tt);
                  mret (Ok requeueAfter)
              end
          end
      end
  end.
End Controller.
