(* ===== verification/Restart.v ===== *)
(** * The restart controller, internal/controller/restart_controller.go *)
From S2P Require Import Prelude External ApiTypes Effects World Approval Applier Controller.
Local Open Scope Z_scope.
Local Open Scope ovro_scope.

Section Restart.
Context `{P : Platform}.

(** The interface, and its implementation by the applier. *)
Class VMRestarter : Type :=
  RestartVM_of : string → string → prog Ev (result unit).
#[export] Instance applier_restarter (a : Applier) : VMRestarter := RestartVM a.

Definition restart_failed (e : goerr) (rec : RightsizingRecommendation) : RightsizingRecommendation :=
  rec |> upd_Status (λ st, st |> set_State StateFailed
           |> set_Message ("restart failed: " +:+ Error e)).
Definition restart_done (now : Z) (rec : RightsizingRecommendation) : RightsizingRecommendation :=
  rec |> upd_Status (λ st, st |> set_State StateApplied |> set_AppliedAt (Some now)
           |> set_ScheduledRestartAt None).

(** [time.Until] reads the clock again. *)
Definition RestartReconcile `{!VMRestarter} (req : NamespacedName) : prog Ev (result Z) :=
  got ← call (KGetRec req);
  match got with
  | Err e => if IsNotFound e then mret (Ok 0)
             else mret (Err (EWrap "fetching recommendation" e))
  | Ok rec =>
      if negb (String.eqb (rr_state rec) StateAppliedPendingRestart) then mret (Ok 0) else
      match st_ScheduledRestartAt (rr_Status rec) with
      | None => mret (Ok (5 * Minute))
      | Some scheduledTime =>
          now ← call TimeNow;
          if now <? scheduledTime then
            now' ← call TimeNow;
            mret (Ok (time_sub scheduledTime now'))
          else
          let ref := sp_VirtualMachineRef (rr_Spec rec) in
          restarted ← RestartVM_of (ref_Name ref) (ref_Namespace ref);
          match restarted with
          | Err e =>
              _ ← call (KUpdateRecStatus (restart_failed e rec));
              mret (Err (EWrap "restarting VM" e))
          | Ok _ =>
              nowMeta ← call TimeNow;
              upd ← call (KUpdateRecStatus (restart_done nowMeta rec));
              match upd with
              | Err e => mret (Err (EWrap "updating status after restart" e))
              | Ok _ => mret (Ok 0)
              end
          end
      end
  end.
End Restart.
