(* ===== verification/ApiServer.v ===== *)
(** * The API server: authentication and handlers

    internal/apiserver/middleware.go and handlers.go.  A handler takes the
    response writer and the request and returns the writer; a panic ends the
    request without a response. *)
From S2P Require Import Prelude GoStrings GoTime GoJson GoFloat External ApiTypes Effects World.
From S2P Require Import Http Approval Owner Notifier.
From S2P Require Controller.
Local Open Scope Z_scope.
Local Open Scope ovro_scope.

Record OverviewResponse : Type := {
  ov_TotalVMs : Z;
  ov_DownsizeCandidates : Z;
  ov_UpsizeNeeded : Z;
  ov_AppliedToday : Z;
  ov_TotalCPUSavings : Z;
  ov_TotalMemorySavings : Z
}.
Record ApplyRequest : Type := { ap_RestartOption : string; ap_ScheduledAt : string }.
Record VMListItem : Type := {
  vl_Name : string; vl_Namespace : string; vl_Excluded : bool; vl_Running : bool;
  vl_CPUCores : Z; vl_Memory : string
}.

Definition maxBodySize : Z := 1048576.

(** ** Paths and methods, middleware.go *)
Definition extractBearerToken (r : Request) : string :=
  let auth := Header_Get r "Authorization" in
  if String.eqb auth "" then "" else
  match SplitN2 auth (chr 32) with
  | [scheme; token] => if negb (EqualFold scheme "bearer") then "" else token
  | _ => ""
  end.

Definition httpMethodToVerb (method : string) : string :=
  if String.eqb method "GET" then "get"
  else if String.eqb method "POST" then "update"
  else if String.eqb method "PUT" then "update"
  else if String.eqb method "DELETE" then "delete"
  else "get".

Definition path_parts (path : string) : list string := Split (TrimPrefix path "/") (chr 47).

Definition extractNamespaceFromPath (path : string) : string :=
  let parts := path_parts path in
  if (5 <=? length parts)%nat
     && (String.eqb (nth 2 parts "") "recommendations" || String.eqb (nth 2 parts "") "vms")
  then nth 3 parts "" else "".

Definition resourceFromPath (path : string) : string :=
  let parts := path_parts path in
  if (3 <=? length parts)%nat then
    if String.eqb (nth 2 parts "") "policy" then "rightsizingpolicies"
    else if String.eqb (nth 2 parts "") "vms" then "virtualmachines"
    else "rightsizingrecommendations"
  else "rightsizingrecommendations".

Definition api_group : string := "rightsizing.redhatconsulting.io".

Section ApiServer.
Context `{P : Platform} `{J : JwtLib}.

(** What handlers write. *)
Inductive ApiBody : Type :=
| BRecs (l : list RightsizingRecommendation)
| BRec (r : RightsizingRecommendation)
| BPolicy (p : RightsizingPolicy)
| BOverview (o : OverviewResponse)
| BVMs (l : list VMListItem)
| BMap (kvs : list (string * string)).

Abbreviation Writer := (ResponseWriter ApiBody).
Definition Handler : Type := Writer → Request → prog Ev Writer.

(** Clients are non-nil or nil. *)
Record Server : Type := {
  s_Clientset : bool;
  s_DynamicClient : bool;
  s_OwnerResolver : option Resolver;
  s_TokenManager : option TokenManager;
  s_Notifier : option Dispatcher;
  s_ApprovalRouteHost : string;
  s_DemoMode : bool
}.

(** How it is served, in the clear or with TLS. *)
Definition Server_Start (addr : string) : Listener := ListenAndServe addr.
Definition Server_StartTLS (addr certFile keyFile : string) : Listener :=
  ListenAndServeTLS addr {| tls_MinVersion := VersionTLS12; tls_NextProtos := ["http/1.1"] |} certFile keyFile.

(** ** AuthMiddleware *)
Definition AuthMiddleware (clientset : bool) (next : Handler) : Handler := λ w r,
  let token := extractBearerToken r in
  if String.eqb token "" then mret (http_Error "unauthorized" StatusUnauthorized w) else
  if negb clientset then mret (http_Error "internal server error" StatusInternalServerError w) else
  tr ← call (TokenReview token);
  match tr with
  | Err _ => mret (http_Error "unauthorized" StatusUnauthorized w)
  | Ok tr =>
      if negb (tr_Authenticated tr) then mret (http_Error "unauthorized" StatusUnauthorized w) else
      let user := {| ui_Username := tr_Username tr; ui_UID := tr_UID tr; ui_Groups := tr_Groups tr |} in
      result ← call (SubjectAccessReview {|
        sar_User := ui_Username user; sar_Groups := ui_Groups user;
        sar_Verb := httpMethodToVerb (rq_Method r);
        sar_Group := api_group;
        sar_Resource := resourceFromPath (URL_Path r);
        sar_Namespace := extractNamespaceFromPath (URL_Path r) |});
      match result with
      | Err _ => mret (http_Error "forbidden" StatusForbidden w)
      | Ok false => mret (http_Error "forbidden" StatusForbidden w)
      | Ok true => next w (WithUser user r)
      end
  end.

(** ** writeJSON: a value with a non-finite number does not encode, and
    nothing is written then *)
Definition finite (x : f64) : bool :=
  match x with S754_nan | S754_infinity _ => false | _ => true end.
Definition rec_encodes (r : RightsizingRecommendation) : bool :=
  let m := sp_Metrics (rr_Spec r) in
  finite (ms_CPUP95Percent m) && finite (ms_MemoryP95Percent m)
  && finite (ms_CPUMaxPercent m) && finite (ms_MemoryMaxPercent m).
Definition encodes (b : ApiBody) : bool :=
  match b with
  | BRecs l => forallb rec_encodes l
  | BRec r => rec_encodes r
  | _ => true
  end.
Definition writeJSON (w : Writer) (v : ApiBody) : Writer :=
  let w := Header_Set "Content-Type" "application/json" w in
  if encodes v then Write (Value v) w else w.

Definition internal_error : Writer → Writer :=
  http_Error "internal server error" StatusInternalServerError.

(** ** Namespace access *)
Definition canUserAccessNamespace (s : Server) (user : option UserInfo) (namespace verb : string)
    : prog Ev bool :=
  match user with
  | None => mret false
  | Some u =>
      if negb (s_Clientset s) then mret false else
      result ← call (SubjectAccessReview {|
        sar_User := ui_Username u; sar_Groups := ui_Groups u; sar_Verb := verb;
        sar_Group := api_group; sar_Resource := "rightsizingrecommendations";
        sar_Namespace := namespace |});
      mret (match result with Ok allowed => allowed | Err _ => false end)
  end.

(** The answer for a namespace, asked once and remembered in [checked]. *)
Definition check_namespace (s : Server) (user : UserInfo) (checked : gmap string bool) (ns : string)
    : prog Ev (bool * gmap string bool) :=
  match checked !! ns with
  | Some allowed => mret (allowed, checked)
  | None =>
      allowed ← canUserAccessNamespace s (Some user) ns "get";
      mret (allowed, <[ns := allowed]> checked)
  end.

(** The loop over items, keeping those of allowed namespaces. *)
Fixpoint filter_namespaces {A} (s : Server) (user : UserInfo) (ns_of : A → string)
    (checked : gmap string bool) (items : list A) : prog Ev (list A) :=
  match items with
  | [] => mret []
  | item :: rest =>
      '(allowed, checked) ← check_namespace s user checked (ns_of item);
      filtered ← filter_namespaces s user ns_of checked rest;
      mret (if allowed : bool then item :: filtered else filtered)
  end.

Definition filterByNamespaceAccess (s : Server) (r : Request) (items : list RightsizingRecommendation)
    : prog Ev (list RightsizingRecommendation) :=
  match UserInfoFromContext r with
  | None => mret []
  | Some user => filter_namespaces s user (λ i, om_Namespace (rr_Meta i)) ∅ items
  end.

(** ** Reading recommendations *)
Definition keep_if (want : string) (sel : RightsizingRecommendation → string)
    (items : list RightsizingRecommendation) : list RightsizingRecommendation :=
  if negb (String.eqb want "") then filter (λ i, sel i = want) items else items.

Definition handleListRecommendations (s : Server) : Handler := λ w r,
  got ← call (KListRec (Query_Get r "namespace"));
  match got with
  | Err _ => mret (internal_error w)
  | Ok list =>
      items ← filterByNamespaceAccess s r list;
      let items := keep_if (Query_Get r "direction") (λ i, sp_Direction (rr_Spec i)) items in
      let items := keep_if (Query_Get r "state") rr_state items in
      mret (writeJSON w (BRecs items))
  end.

Definition path_key (r : Request) : NamespacedName :=
  NSName (PathValue r "namespace") (PathValue r "name").

Definition handleGetRecommendation (s : Server) : Handler := λ w r,
  got ← call (KGetRec (path_key r));
  match got with
  | Err _ => mret (http_Error "not found" StatusNotFound w)
  | Ok rec => mret (writeJSON w (BRec rec))
  end.

(** ** handleApply *)
Definition decode_ApplyRequest : decoder ApplyRequest := decode_struct [
  mk_field "restartOption" decode_string ap_RestartOption
    (λ v a, {| ap_RestartOption := v; ap_ScheduledAt := ap_ScheduledAt a |});
  mk_field "scheduledAt" decode_string ap_ScheduledAt
    (λ v a, {| ap_RestartOption := ap_RestartOption a; ap_ScheduledAt := v |})].
Definition zero_ApplyRequest : ApplyRequest := {| ap_RestartOption := ""; ap_ScheduledAt := "" |}.

Definition update_or_error (rec : RightsizingRecommendation) (w : Writer)
    (k : RightsizingRecommendation → prog Ev Writer) : prog Ev Writer :=
  upd ← call (KUpdateRecStatus rec);
  match upd with
  | Err _ => mret (internal_error w)
  | Ok rec => k rec
  end.

Definition accepted (w : Writer) (owner message approvalURL : string) : Writer :=
  writeJSON (WriteHeader StatusAccepted w) (BMap [
    ("approvalUrl", approvalURL); ("message", message);
    ("owner", owner); ("status", "awaiting-approval")]).

Definition handleApply_demo (s : Server) (tm : TokenManager) (rec : RightsizingRecommendation)
    : Handler := λ w r,
  let demoOwner := "demo-user@example.com" in
  tok ← GenerateToken tm (PathValue r "namespace") (PathValue r "name") demoOwner (14 * 24 * Hour);
  match tok with
  | Err _ => mret (http_Error "failed to generate approval token" StatusInternalServerError w)
  | Ok token =>
      now ← call TimeNow;
      update_or_error (Controller.await_approval demoOwner token now rec) w (λ _,
        mret (accepted w demoOwner "Demo mode: use the approval URL to approve or reject."
                (approval_url (s_ApprovalRouteHost s) token)))
  end.

Definition handleApply_owner (s : Server) (tm : TokenManager) (d : Dispatcher) (ownerStr : string)
    (rec : RightsizingRecommendation) : Handler := λ w r,
  let ref := sp_VirtualMachineRef (rr_Spec rec) in
  tok ← GenerateToken tm (PathValue r "namespace") (PathValue r "name") ownerStr (14 * 24 * Hour);
  match tok with
  | Err _ => mret (http_Error "failed to generate approval token" StatusInternalServerError w)
  | Ok token =>
      now ← call TimeNow;
      update_or_error (Controller.await_approval ownerStr token now rec) w (λ rec,
        let approvalURL := approval_url (s_ApprovalRouteHost s) token in
        _ ← SendAll d (rec_notification ref rec ownerStr approvalURL);
        mret (accepted w ownerStr "Notification sent to owner. Awaiting approval." approvalURL))
  end.

(** The state after an approval, [None] for a schedule that does not parse. *)
Definition apply_state (req : ApplyRequest) (now : Z) (rec : RightsizingRecommendation)
    : option RightsizingRecommendation :=
  if sp_HotplugCapable (rr_Spec rec) then
    Some (rec |> upd_Status (λ st, st |> set_State StateApplied |> set_AppliedAt (Some now)))
  else
    let rec := rec |> upd_Status (set_State StateAppliedPendingRestart) in
    if String.eqb (ap_RestartOption req) "schedule" then
      t ← Parse_RFC3339 (ap_ScheduledAt req);
      Some (rec |> upd_Status (set_ScheduledRestartAt (Some t)))
    else if String.eqb (ap_RestartOption req) "now" then
      Some (rec |> upd_Status (set_AppliedAt (Some now)))
    else Some rec.

Definition handleApply_direct (req : ApplyRequest) (rec : RightsizingRecommendation) : Handler := λ w r,
  now ← call TimeNow;
  let rec := rec |> upd_Status (set_RevertConfig (Controller.revert_config rec)) in
  match apply_state req now rec with
  | None => mret (http_Error "invalid scheduledAt format (use RFC3339)" StatusBadRequest w)
  | Some rec => update_or_error rec w (λ rec, mret (writeJSON w (BRec rec)))
  end.

Definition handleApply (s : Server) : Handler := λ w r,
  match DecodeBody maxBodySize r decode_ApplyRequest zero_ApplyRequest with
  | None => mret (http_Error "invalid request body" StatusBadRequest w)
  | Some req =>
      got ← call (KGetRec (path_key r));
      match got with
      | Err _ => mret (http_Error "recommendation not found" StatusNotFound w)
      | Ok rec =>
          if negb (String.eqb (rr_state rec) StatePending)
          then mret (http_Error "recommendation is not in pending state" StatusConflict w) else
          match s_DemoMode s, s_TokenManager s with
          | true, Some tm => handleApply_demo s tm rec w r
          | _, _ =>
              match s_OwnerResolver s, s_TokenManager s, s_Notifier s with
              | Some resolver, Some tm, Some d =>
                  let ref := sp_VirtualMachineRef (rr_Spec rec) in
                  o ← ResolveOwner resolver (ref_Name ref) (ref_Namespace ref);
                  let ownerStr := match o with Ok o => o | Err _ => "" end in
                  if negb (String.eqb ownerStr "") then handleApply_owner s tm d ownerStr rec w r
                  else handleApply_direct req rec w r
              | _, _, _ => handleApply_direct req rec w r
              end
          end
      end
  end.
End ApiServer.
