(* ===== verification/Handlers.v ===== *)
(** * The API server: the other handlers and the routes

    The rest of internal/apiserver/handlers.go, and the routing of server.go. *)
From S2P Require Import Prelude GoStrings GoTime GoJson External ApiTypes Effects World.
From S2P Require Import Http Approval Owner Notifier ApiServer.
From S2P Require Controller.
Local Open Scope Z_scope.
Local Open Scope ovro_scope.

Section Handlers.
Context `{P : Platform} `{J : JwtLib}.

(** ** Revert *)
Definition handleRevert (s : Server) : Handler := λ w r,
  got ← call (KGetRec (path_key r));
  match got with
  | Err _ => mret (http_Error "recommendation not found" StatusNotFound w)
  | Ok rec =>
      if negb (String.eqb (rr_state rec) StateApplied)
         && negb (String.eqb (rr_state rec) StateAppliedPendingRestart)
      then mret (http_Error "recommendation cannot be reverted in current state" StatusConflict w)
      else match st_RevertConfig (rr_Status rec) with
           | None => mret (http_Error "no revert config available" StatusConflict w)
           | Some _ =>
               update_or_error (rec |> upd_Status (set_State StateReverted)) w
                 (λ rec, mret (writeJSON w (BRec rec)))
           end
  end.

(** ** Exclusion: a merge patch of one annotation *)
Definition exclude_patch (v : json) : json :=
  JObject [("metadata", JObject [("annotations", JObject [(AnnotationExclude, v)])])].

Definition handleExclude (s : Server) : Handler := λ w r,
  if negb (s_DynamicClient s) then mret (internal_error w) else
  res ← call (DynPatchVM (path_key r) (exclude_patch (JString "true")) []);
  match res with
  | Err _ => mret (http_Error "failed to exclude VM" StatusInternalServerError w)
  | Ok _ => mret (writeJSON w (BMap [("status", "excluded")]))
  end.

Definition handleRemoveExclusion (s : Server) : Handler := λ w r,
  if negb (s_DynamicClient s) then mret (internal_error w) else
  res ← call (DynPatchVM (path_key r) (exclude_patch JNull) []);
  match res with
  | Err _ => mret (http_Error "failed to remove exclusion" StatusInternalServerError w)
  | Ok _ => mret (writeJSON w (BMap [("status", "monitoring resumed")]))
  end.

(** ** Overview *)
Definition overview_add (today : Z) (o : OverviewResponse) (item : RightsizingRecommendation)
    : OverviewResponse :=
  let pending := String.eqb (rr_state item) StatePending in
  let direction := sp_Direction (rr_Spec item) in
  let down := String.eqb direction DirectionDownsize && pending in
  let up := negb (String.eqb direction DirectionDownsize)
            && String.eqb direction DirectionUpsize && pending in
  let applied := match st_AppliedAt (rr_Status item) with Some t => today <? t | None => false end in
  {| ov_TotalVMs := ov_TotalVMs o;
     ov_DownsizeCandidates := if down then wrap64 (ov_DownsizeCandidates o + 1) else ov_DownsizeCandidates o;
     ov_UpsizeNeeded := if up then wrap64 (ov_UpsizeNeeded o + 1) else ov_UpsizeNeeded o;
     ov_AppliedToday := if applied then wrap64 (ov_AppliedToday o + 1) else ov_AppliedToday o;
     ov_TotalCPUSavings := if down then wrap32 (ov_TotalCPUSavings o + sv_CPU (sp_Savings (rr_Spec item)))
                           else ov_TotalCPUSavings o;
     ov_TotalMemorySavings :=
       if down then wrap64 (ov_TotalMemorySavings o + Q_Value (sv_Memory (sp_Savings (rr_Spec item))))
       else ov_TotalMemorySavings o |}.

(** [t.Truncate(24 * time.Hour)]: the zero time is a midnight *)
Definition day_start (t : Z) : Z := t - t mod (24 * Hour).

Definition overview_of (t : Z) (items : list RightsizingRecommendation) : OverviewResponse :=
  foldl (overview_add (day_start t)) {|
    ov_TotalVMs := Z.of_nat (length items); ov_DownsizeCandidates := 0; ov_UpsizeNeeded := 0;
    ov_AppliedToday := 0; ov_TotalCPUSavings := 0; ov_TotalMemorySavings := 0 |} items.

Definition handleOverview (s : Server) : Handler := λ w r,
  got ← call (KListRec "");
  match got with
  | Err _ => mret (internal_error w)
  | Ok list =>
      items ← filterByNamespaceAccess s r list;
      t ← call TimeNow;
      mret (writeJSON w (BOverview (overview_of t items)))
  end.

(** ** Virtual machines *)
Definition vm_item (vm : Unstructured) : VMListItem :=
  let '(printableStatus, _, _) := NestedString vm ["status"; "printableStatus"] in
  let '(cpuCores, _, _) := NestedInt64 vm Controller.cores_path in
  let '(memStr, _, _) := NestedString vm Controller.requests_path in
  {| vl_Name := GetName vm;
     vl_Namespace := GetNamespace vm;
     vl_Excluded := String.eqb (default "" (GetAnnotations vm !! AnnotationExclude)) "true";
     vl_Running := String.eqb printableStatus "Running";
     vl_CPUCores := cpuCores;
     vl_Memory := if String.eqb memStr "" then "0" else memStr |}.

Definition handleListVMs (s : Server) : Handler := λ w r,
  if negb (s_DynamicClient s) then mret (internal_error w) else
  match UserInfoFromContext r with
  | None => mret (http_Error "unauthorized" StatusUnauthorized w)
  | Some user =>
      got ← call DynListVMs;
      match got with
      | Err _ => mret (internal_error w)
      | Ok vms =>
          items ← filter_namespaces s user GetNamespace ∅ vms;
          mret (writeJSON w (BVMs (vm_item <$> items)))
      end
  end.

(** ** Policy *)
Definition handleGetPolicy (s : Server) : Handler := λ w r,
  got ← call (KGetPolicy "default");
  match got with
  | Ok p => mret (writeJSON w (BPolicy p))
  | Err _ => p ← Controller.defaultPolicy; mret (writeJSON w (BPolicy p))
  end.

(** A Quantity decodes from a string or a number, [null] being zero.  (Apimachinery
    reads the characters between the quotes as they are; written with an escape, a
    quantity is refused there, which decoded documents do not show.) *)
Definition decode_quantity : decoder Quantity := λ j _,
  match j with
  | JString s => ParseQuantity (TrimSpace s)
  | JNumber lit => ParseQuantity lit
  | JNull => Some Q_zero
  | _ => None
  end.

Definition decode_AlgorithmSpec : decoder AlgorithmSpec := decode_struct [
  mk_field "percentile" (decode_int 64) al_Percentile
    (λ v a, {| al_Percentile := v; al_HeadroomPercent := al_HeadroomPercent a |});
  mk_field "headroomPercent" (decode_int 64) al_HeadroomPercent
    (λ v a, {| al_Percentile := al_Percentile a; al_HeadroomPercent := v |})].
Definition decode_ThresholdsSpec : decoder ThresholdsSpec := decode_struct [
  mk_field "minCpuSavings" (decode_int 32) th_MinCPUSavings
    (λ v t, {| th_MinCPUSavings := v; th_MinMemorySavings := th_MinMemorySavings t;
               th_UpsizeUtilizationPercent := th_UpsizeUtilizationPercent t |});
  mk_field "minMemorySavings" decode_quantity th_MinMemorySavings
    (λ v t, {| th_MinCPUSavings := th_MinCPUSavings t; th_MinMemorySavings := v;
               th_UpsizeUtilizationPercent := th_UpsizeUtilizationPercent t |});
  mk_field "upsizeUtilizationPercent" (decode_int 64) th_UpsizeUtilizationPercent
    (λ v t, {| th_MinCPUSavings := th_MinCPUSavings t; th_MinMemorySavings := th_MinMemorySavings t;
               th_UpsizeUtilizationPercent := v |})].
Definition decode_AutoModeSpec : decoder AutoModeSpec := decode_struct [
  mk_field "enabled" decode_bool am_Enabled
    (λ v a, {| am_Enabled := v; am_Schedule := am_Schedule a |});
  mk_field "schedule" decode_string am_Schedule
    (λ v a, {| am_Enabled := am_Enabled a; am_Schedule := v |})].
Definition decode_MetricsStorageSpec : decoder MetricsStorageSpec := decode_struct [
  mk_field "retentionDays" (decode_int 64) mt_RetentionDays
    (λ v m, {| mt_RetentionDays := v; mt_StorageSize := mt_StorageSize m |});
  mk_field "storageSize" decode_quantity mt_StorageSize
    (λ v m, {| mt_RetentionDays := mt_RetentionDays m; mt_StorageSize := v |})].

Definition zero_PolicySpec : RightsizingPolicySpec := {|
  ps_LookbackDays := 0;
  ps_Algorithm := {| al_Percentile := 0; al_HeadroomPercent := 0 |};
  ps_Thresholds := {| th_MinCPUSavings := 0; th_MinMemorySavings := Q_zero;
                      th_UpsizeUtilizationPercent := 0 |};
  ps_RevertRetentionDays := 0;
  ps_AutoMode := {| am_Enabled := false; am_Schedule := "" |};
  ps_ReconcileIntervalMinutes := 0;
  ps_MetricsStorage := {| mt_RetentionDays := 0; mt_StorageSize := Q_zero |} |}.

(** Rebuilds a spec from new values of some fields. *)
Definition policy_spec lookback alg th retention auto interval storage : RightsizingPolicySpec := {|
  ps_LookbackDays := lookback; ps_Algorithm := alg; ps_Thresholds := th;
  ps_RevertRetentionDays := retention; ps_AutoMode := auto;
  ps_ReconcileIntervalMinutes := interval; ps_MetricsStorage := storage |}.

Definition decode_PolicySpec : decoder RightsizingPolicySpec := decode_struct [
  mk_field "lookbackDays" (decode_int 64) ps_LookbackDays
    (λ v p, policy_spec v (ps_Algorithm p) (ps_Thresholds p) (ps_RevertRetentionDays p)
              (ps_AutoMode p) (ps_ReconcileIntervalMinutes p) (ps_MetricsStorage p));
  mk_field "algorithm" decode_AlgorithmSpec ps_Algorithm
    (λ v p, policy_spec (ps_LookbackDays p) v (ps_Thresholds p) (ps_RevertRetentionDays p)
              (ps_AutoMode p) (ps_ReconcileIntervalMinutes p) (ps_MetricsStorage p));
  mk_field "thresholds" decode_ThresholdsSpec ps_Thresholds
    (λ v p, policy_spec (ps_LookbackDays p) (ps_Algorithm p) v (ps_RevertRetentionDays p)
              (ps_AutoMode p) (ps_ReconcileIntervalMinutes p) (ps_MetricsStorage p));
  mk_field "revertRetentionDays" (decode_int 64) ps_RevertRetentionDays
    (λ v p, policy_spec (ps_LookbackDays p) (ps_Algorithm p) (ps_Thresholds p) v
              (ps_AutoMode p) (ps_ReconcileIntervalMinutes p) (ps_MetricsStorage p));
  mk_field "autoMode" decode_AutoModeSpec ps_AutoMode
    (λ v p, policy_spec (ps_LookbackDays p) (ps_Algorithm p) (ps_Thresholds p)
              (ps_RevertRetentionDays p) v (ps_ReconcileIntervalMinutes p) (ps_MetricsStorage p));
  mk_field "reconcileIntervalMinutes" (decode_int 64) ps_ReconcileIntervalMinutes
    (λ v p, policy_spec (ps_LookbackDays p) (ps_Algorithm p) (ps_Thresholds p)
              (ps_RevertRetentionDays p) (ps_AutoMode p) v (ps_MetricsStorage p));
  mk_field "metricsStorage" decode_MetricsStorageSpec ps_MetricsStorage
    (λ v p, policy_spec (ps_LookbackDays p) (ps_Algorithm p) (ps_Thresholds p)
              (ps_RevertRetentionDays p) (ps_AutoMode p) (ps_ReconcileIntervalMinutes p) v)].

(** The first complaint about a policy, in the order of the checks. *)
Definition validate_policy (p : RightsizingPolicySpec) : option string :=
  if (ps_LookbackDays p <=? 0) || (365 <? ps_LookbackDays p)
  then Some "lookbackDays must be between 1 and 365"
  else if (al_Percentile (ps_Algorithm p) <? 1) || (100 <? al_Percentile (ps_Algorithm p))
  then Some "percentile must be between 1 and 100"
  else if al_HeadroomPercent (ps_Algorithm p) <? 0
  then Some "headroomPercent must be non-negative"
  else if th_MinCPUSavings (ps_Thresholds p) <? 0
  then Some "minCpuSavings must be non-negative"
  else if (th_UpsizeUtilizationPercent (ps_Thresholds p) <? 1)
          || (100 <? th_UpsizeUtilizationPercent (ps_Thresholds p))
  then Some "upsizeUtilizationPercent must be between 1 and 100"
  else if ps_ReconcileIntervalMinutes p <=? 0
  then Some "reconcileIntervalMinutes must be greater than 0"
  else if ps_RevertRetentionDays p <=? 0
  then Some "revertRetentionDays must be greater than 0"
  else None.

Definition handleUpdatePolicy (s : Server) : Handler := λ w r,
  match DecodeBody maxBodySize r decode_PolicySpec zero_PolicySpec with
  | None => mret (http_Error "invalid request body" StatusBadRequest w)
  | Some policySpec =>
      match validate_policy policySpec with
      | Some complaint => mret (http_Error complaint StatusBadRequest w)
      | None =>
          got ← call (KGetPolicy "default");
          match got with
          | Err _ => mret (http_Error "policy not found" StatusNotFound w)
          | Ok policy =>
              upd ← call (KUpdatePolicy {| rp_Name := rp_Name policy;
                                           rp_ResourceVersion := rp_ResourceVersion policy;
                                           rp_Spec := policySpec |});
              match upd with
              | Err _ => mret (internal_error w)
              | Ok policy => mret (writeJSON w (BPolicy policy))
              end
          end
      end
  end.

(** ** Rejection *)
Definition reject (by_ reason : string) (now : Z) (rec : RightsizingRecommendation)
    : RightsizingRecommendation :=
  rec |> upd_Status (λ st, st |> set_State StatePending |> set_RejectedBy by_
    |> set_RejectedAt (Some now) |> set_RejectionReason reason |> set_Owner ""
    |> set_ApprovalToken "" |> set_NotifiedAt None).

Definition decode_reason : decoder string :=
  decode_struct [mk_field "reason" decode_string (λ s, s) (λ v _, v)].

(** [user.Username] on a request without a user is a nil dereference. *)
Definition handleReject (s : Server) : Handler := λ w r,
  match DecodeBody maxBodySize r decode_reason "" with
  | None => mret (http_Error "invalid request body" StatusBadRequest w)
  | Some reason =>
      got ← call (KGetRec (path_key r));
      match got with
      | Err _ => mret (http_Error "recommendation not found" StatusNotFound w)
      | Ok rec =>
          if negb (String.eqb (rr_state rec) StateAwaitingApproval)
          then mret (http_Error "recommendation is not awaiting approval" StatusConflict w) else
          now ← call TimeNow;
          user ← must "nil pointer dereference" (UserInfoFromContext r);
          update_or_error (reject (ui_Username user) reason now rec) w
            (λ rec, mret (writeJSON w (BRec rec)))
      end
  end.

(** ** The owner's decision, forwarded by the approval proxy *)
Definition approve (owner : string) (now : Z) (rec : RightsizingRecommendation)
    : RightsizingRecommendation :=
  rec |> upd_Status (λ st, st |> set_ApprovedBy owner |> set_ApprovedAt (Some now)
                        |> set_ApprovalToken "").

Definition handleOwnerApprove (s : Server) : Handler := λ w r,
  match DecodeBody maxBodySize r decode_ApplyRequest zero_ApplyRequest with
  | None => mret (http_Error "invalid request body" StatusBadRequest w)
  | Some req =>
      let ownerStr := Header_Get r "X-Approval-Owner" in
      got ← call (KGetRec (path_key r));
      match got with
      | Err _ => mret (http_Error "recommendation not found" StatusNotFound w)
      | Ok rec =>
          if negb (String.eqb (rr_state rec) StateAwaitingApproval)
          then mret (http_Error "recommendation is not awaiting approval" StatusConflict w) else
          now ← call TimeNow;
          match apply_state req now (approve ownerStr now rec) with
          | None => mret (http_Error "invalid scheduledAt format" StatusBadRequest w)
          | Some rec => update_or_error rec w (λ rec, mret (writeJSON w (BRec rec)))
          end
      end
  end.

Record RejectRequest : Type := { rj_Reason : string; rj_Action : string }.
Definition decode_RejectRequest : decoder RejectRequest := decode_struct [
  mk_field "reason" decode_string rj_Reason
    (λ v a, {| rj_Reason := v; rj_Action := rj_Action a |});
  mk_field "action" decode_string rj_Action
    (λ v a, {| rj_Reason := rj_Reason a; rj_Action := v |})].

Definition handleOwnerReject (s : Server) : Handler := λ w r,
  match DecodeBody maxBodySize r decode_RejectRequest {| rj_Reason := ""; rj_Action := "" |} with
  | None => mret (http_Error "invalid request body" StatusBadRequest w)
  | Some req =>
      let ownerStr := Header_Get r "X-Approval-Owner" in
      got ← call (KGetRec (path_key r));
      match got with
      | Err _ => mret (http_Error "recommendation not found" StatusNotFound w)
      | Ok rec =>
          if negb (String.eqb (rr_state rec) StateAwaitingApproval)
          then mret (http_Error "recommendation is not awaiting approval" StatusConflict w) else
          now ← call TimeNow;
          _ ← (if String.eqb (rj_Action req) "exclude" && s_DynamicClient s then
                 let ref := sp_VirtualMachineRef (rr_Spec rec) in
                 call (DynPatchVM (NSName (ref_Namespace ref) (ref_Name ref))
                         (exclude_patch (JString "true")) [])
               else mret (Ok tt));
          update_or_error (reject ownerStr (rj_Reason req) now rec) w
            (λ rec, mret (writeJSON w (BRec rec)))
      end
  end.

(** ** server.go: options and routes *)
Definition ServerOption : Type := Server → Server.
Definition WithOwnerResolver (x : Resolver) : ServerOption := λ s,
  {| s_Clientset := s_Clientset s; s_DynamicClient := s_DynamicClient s;
     s_OwnerResolver := Some x; s_TokenManager := s_TokenManager s; s_Notifier := s_Notifier s;
     s_ApprovalRouteHost := s_ApprovalRouteHost s; s_DemoMode := s_DemoMode s |}.
Definition WithTokenManager (x : TokenManager) : ServerOption := λ s,
  {| s_Clientset := s_Clientset s; s_DynamicClient := s_DynamicClient s;
     s_OwnerResolver := s_OwnerResolver s; s_TokenManager := Some x; s_Notifier := s_Notifier s;
     s_ApprovalRouteHost := s_ApprovalRouteHost s; s_DemoMode := s_DemoMode s |}.
Definition WithNotifier (x : Dispatcher) : ServerOption := λ s,
  {| s_Clientset := s_Clientset s; s_DynamicClient := s_DynamicClient s;
     s_OwnerResolver := s_OwnerResolver s; s_TokenManager := s_TokenManager s; s_Notifier := Some x;
     s_ApprovalRouteHost := s_ApprovalRouteHost s; s_DemoMode := s_DemoMode s |}.
Definition WithApprovalRouteHost (x : string) : ServerOption := λ s,
  {| s_Clientset := s_Clientset s; s_DynamicClient := s_DynamicClient s;
     s_OwnerResolver := s_OwnerResolver s; s_TokenManager := s_TokenManager s;
     s_Notifier := s_Notifier s; s_ApprovalRouteHost := x; s_DemoMode := s_DemoMode s |}.
Definition WithDemoMode (x : bool) : ServerOption := λ s,
  {| s_Clientset := s_Clientset s; s_DynamicClient := s_DynamicClient s;
     s_OwnerResolver := s_OwnerResolver s; s_TokenManager := s_TokenManager s;
     s_Notifier := s_Notifier s; s_ApprovalRouteHost := s_ApprovalRouteHost s; s_DemoMode := x |}.

Definition NewServer (clientset dynamicClient : bool) (opts : list ServerOption) : Server :=
  foldl (λ s opt, opt s)
    {| s_Clientset := clientset; s_DynamicClient := dynamicClient; s_OwnerResolver := None;
       s_TokenManager := None; s_Notifier := None; s_ApprovalRouteHost := ""; s_DemoMode := false |}
    opts.

(** A pattern: method and segments, a wildcard naming the segment it matches. *)
Inductive segment : Type := Lit (s : string) | Wild (name : string).
Record Route : Type := {
  rt_Method : string; rt_Pattern : list segment; rt_Handler : Handler
}.

Definition api (segs : list segment) : list segment := Lit "api" :: Lit "v1" :: segs.
Definition item : list segment := [Wild "namespace"; Wild "name"].

Definition registerRoutes (s : Server) : list Route :=
  let auth := AuthMiddleware (s_Clientset s) in
  let recs := Lit "recommendations" in
  let internal := [Lit "internal"; Lit "recommendations"] in [
  {| rt_Method := "GET"; rt_Pattern := api [recs]; rt_Handler := auth (handleListRecommendations s) |};
  {| rt_Method := "GET"; rt_Pattern := api (recs :: item); rt_Handler := auth (handleGetRecommendation s) |};
  {| rt_Method := "POST"; rt_Pattern := api (recs :: item ++ [Lit "apply"]); rt_Handler := auth (handleApply s) |};
  {| rt_Method := "POST"; rt_Pattern := api (recs :: item ++ [Lit "revert"]); rt_Handler := auth (handleRevert s) |};
  {| rt_Method := "GET"; rt_Pattern := api [Lit "vms"]; rt_Handler := auth (handleListVMs s) |};
  {| rt_Method := "POST"; rt_Pattern := api (Lit "vms" :: item ++ [Lit "exclude"]); rt_Handler := auth (handleExclude s) |};
  {| rt_Method := "DELETE"; rt_Pattern := api (Lit "vms" :: item ++ [Lit "exclude"]); rt_Handler := auth (handleRemoveExclusion s) |};
  {| rt_Method := "GET"; rt_Pattern := api [Lit "overview"]; rt_Handler := auth (handleOverview s) |};
  {| rt_Method := "GET"; rt_Pattern := api [Lit "policy"]; rt_Handler := auth (handleGetPolicy s) |};
  {| rt_Method := "PUT"; rt_Pattern := api [Lit "policy"]; rt_Handler := auth (handleUpdatePolicy s) |};
  {| rt_Method := "POST"; rt_Pattern := api (recs :: item ++ [Lit "reject"]); rt_Handler := auth (handleReject s) |};
  {| rt_Method := "GET"; rt_Pattern := api (internal ++ item); rt_Handler := handleGetRecommendation s |};
  {| rt_Method := "POST"; rt_Pattern := api (internal ++ item ++ [Lit "owner-approve"]); rt_Handler := handleOwnerApprove s |};
  {| rt_Method := "POST"; rt_Pattern := api (internal ++ item ++ [Lit "owner-reject"]); rt_Handler := handleOwnerReject s |}].

(** ** http.ServeMux on these patterns *)
Fixpoint match_segments (pat : list segment) (path : list string)
    : option (list (string * string)) :=
  match pat, path with
  | [], [] => Some []
  | Lit l :: pat', s :: path' => if String.eqb l s then match_segments pat' path' else None
  | Wild n :: pat', s :: path' =>
      if String.eqb s "" then None else m ← match_segments pat' path'; Some ((n, s) :: m)
  | _, _ => None
  end.
(** A GET pattern serves HEAD too. *)
Definition method_matches (pat m : string) : bool :=
  String.eqb pat m || (String.eqb pat "GET" && String.eqb m "HEAD").

Fixpoint find_route (routes : list Route) (method : string) (path : list string)
    : option (Handler * list (string * string)) :=
  match routes with
  | [] => None
  | rt :: rest =>
      match (if method_matches (rt_Method rt) method then match_segments (rt_Pattern rt) path else None) with
      | Some pv => Some (rt_Handler rt, pv)
      | None => find_route rest method path
      end
  end.

Definition ServeHTTP (s : Server) : Handler := λ w r,
  if negb (rq_Clean r) then mret (WriteHeader StatusMovedPermanently w) else
  match find_route (registerRoutes s) (rq_Method r) (rq_Segments r) with
  | Some (h, pv) => h w (WithPathValues pv r)
  | None =>
      if existsb (λ rt, bool_decide (is_Some (match_segments (rt_Pattern rt) (rq_Segments r))))
           (registerRoutes s)
      then mret (http_Error "Method Not Allowed" StatusMethodNotAllowed w)
      else mret (http_Error "404 page not found" StatusNotFound w)
  end.
End Handlers.
