(* ===== verification/Proxy.v ===== *)
(** * The approval proxy, internal/approvalproxy/proxy.go

    The public side of the approval workflow: it checks the token of a link,
    shows the recommendation and forwards the owner's decision to the API
    server's internal endpoints.  A rendered template is its name and its data. *)
From S2P Require Import Prelude GoStrings GoStrconv GoTime GoJson HttpMessage GoFloat External ApiTypes Effects World.
From S2P Require Import Http Approval.
Local Open Scope Z_scope.

Record ApprovalPageData : Type := {
  ap_VMName : string;
  ap_Namespace : string;
  ap_Direction : string;
  ap_CurrentCPU : Z;
  ap_CurrentMemory : string;
  ap_RecommendedCPU : Z;
  ap_RecommendedMemory : string;
  ap_CPUSavings : Z;
  ap_MemorySavings : string;
  ap_CPUP95 : f64;
  ap_MemP95 : f64;
  ap_CPUMax : f64;
  ap_MemMax : f64;
  ap_LookbackDays : Z;
  ap_Token : string;
  ap_Owner : string;
  ap_HotplugCapable : bool
}.

Record ResultPageData : Type := { rp_Title : string; rp_Message : string; rp_IsError : bool }.

Inductive Page : Type :=
| ApprovalHtml (d : ApprovalPageData)
| ErrorHtml (d : ResultPageData)
| ResultHtml (d : ResultPageData).

(** ** Decoding the backend's answer: the fields the page shows *)
Record backendRecommendation : Type := {
  br_Name : string; br_Namespace : string; br_Direction : string;
  br_CurrentCores : Z; br_CurrentMemory : string;
  br_RecommendedCores : Z; br_RecommendedMemory : string;
  br_SavingsCPU : Z; br_SavingsMemory : string;
  br_LookbackDays : Z;
  br_CPUP95Percent : f64; br_MemoryP95Percent : f64;
  br_CPUMaxPercent : f64; br_MemoryMaxPercent : f64;
  br_HotplugCapable : bool
}.
Definition zero_backendRecommendation : backendRecommendation := {|
  br_Name := ""; br_Namespace := ""; br_Direction := ""; br_CurrentCores := 0; br_CurrentMemory := "";
  br_RecommendedCores := 0; br_RecommendedMemory := ""; br_SavingsCPU := 0; br_SavingsMemory := "";
  br_LookbackDays := 0; br_CPUP95Percent := S754_zero false; br_MemoryP95Percent := S754_zero false;
  br_CPUMaxPercent := S754_zero false; br_MemoryMaxPercent := S754_zero false;
  br_HotplugCapable := false |}.

(** A float64 target: the literal read by strconv. *)
Definition decode_float : decoder f64 := λ j cur,
  match j with JNumber lit => ParseFloat lit | JNull => Some cur | _ => None end.

(** The groups of fields, each decoded by its own struct. *)
Definition ref_fields (name namespace direction : string) (r : backendRecommendation)
    : backendRecommendation := {|
  br_Name := name; br_Namespace := namespace; br_Direction := direction;
  br_CurrentCores := br_CurrentCores r; br_CurrentMemory := br_CurrentMemory r;
  br_RecommendedCores := br_RecommendedCores r; br_RecommendedMemory := br_RecommendedMemory r;
  br_SavingsCPU := br_SavingsCPU r; br_SavingsMemory := br_SavingsMemory r;
  br_LookbackDays := br_LookbackDays r; br_CPUP95Percent := br_CPUP95Percent r;
  br_MemoryP95Percent := br_MemoryP95Percent r; br_CPUMaxPercent := br_CPUMaxPercent r;
  br_MemoryMaxPercent := br_MemoryMaxPercent r; br_HotplugCapable := br_HotplugCapable r |}.
Definition size_fields (cores : Z) (mem : string) (rcores : Z) (rmem : string) (scpu : Z) (smem : string)
    (hotplug : bool) (r : backendRecommendation) : backendRecommendation := {|
  br_Name := br_Name r; br_Namespace := br_Namespace r; br_Direction := br_Direction r;
  br_CurrentCores := cores; br_CurrentMemory := mem;
  br_RecommendedCores := rcores; br_RecommendedMemory := rmem;
  br_SavingsCPU := scpu; br_SavingsMemory := smem;
  br_LookbackDays := br_LookbackDays r; br_CPUP95Percent := br_CPUP95Percent r;
  br_MemoryP95Percent := br_MemoryP95Percent r; br_CPUMaxPercent := br_CPUMaxPercent r;
  br_MemoryMaxPercent := br_MemoryMaxPercent r; br_HotplugCapable := hotplug |}.
Definition metric_fields (days : Z) (p95c p95m maxc maxm : f64) (r : backendRecommendation)
    : backendRecommendation := {|
  br_Name := br_Name r; br_Namespace := br_Namespace r; br_Direction := br_Direction r;
  br_CurrentCores := br_CurrentCores r; br_CurrentMemory := br_CurrentMemory r;
  br_RecommendedCores := br_RecommendedCores r; br_RecommendedMemory := br_RecommendedMemory r;
  br_SavingsCPU := br_SavingsCPU r; br_SavingsMemory := br_SavingsMemory r;
  br_LookbackDays := days; br_CPUP95Percent := p95c; br_MemoryP95Percent := p95m;
  br_CPUMaxPercent := maxc; br_MemoryMaxPercent := maxm; br_HotplugCapable := br_HotplugCapable r |}.

Definition set_sizes (f : Z * string * Z * string * Z * string → Z * string * Z * string * Z * string)
    (r : backendRecommendation) : backendRecommendation :=
  let '(c, m, rc, rm, sc, sm) := f (br_CurrentCores r, br_CurrentMemory r, br_RecommendedCores r,
    br_RecommendedMemory r, br_SavingsCPU r, br_SavingsMemory r) in
  size_fields c m rc rm sc sm (br_HotplugCapable r) r.

Definition decode_cores {A} (get : A → Z) (set : Z → A → A) : field A :=
  {| f_name := "cpu"; f_decode := decode_struct [mk_field "cores" (decode_int 32) get set] |}.

Definition spec_fields : list (field backendRecommendation) := [
  {| f_name := "virtualMachineRef"; f_decode := decode_struct [
       mk_field "name" decode_string br_Name
         (λ v r, ref_fields v (br_Namespace r) (br_Direction r) r);
       mk_field "namespace" decode_string br_Namespace
         (λ v r, ref_fields (br_Name r) v (br_Direction r) r)] |};
  mk_field "direction" decode_string br_Direction
    (λ v r, ref_fields (br_Name r) (br_Namespace r) v r);
  {| f_name := "current"; f_decode := decode_struct [
       decode_cores br_CurrentCores (λ v, set_sizes (λ '(c, m, rc, rm, sc, sm), (v, m, rc, rm, sc, sm)));
       mk_field "memory" decode_string br_CurrentMemory
         (λ v, set_sizes (λ '(c, m, rc, rm, sc, sm), (c, v, rc, rm, sc, sm)))] |};
  {| f_name := "recommended"; f_decode := decode_struct [
       decode_cores br_RecommendedCores (λ v, set_sizes (λ '(c, m, rc, rm, sc, sm), (c, m, v, rm, sc, sm)));
       mk_field "memory" decode_string br_RecommendedMemory
         (λ v, set_sizes (λ '(c, m, rc, rm, sc, sm), (c, m, rc, v, sc, sm)))] |};
  {| f_name := "savings"; f_decode := decode_struct [
       mk_field "cpu" (decode_int 32) br_SavingsCPU
         (λ v, set_sizes (λ '(c, m, rc, rm, sc, sm), (c, m, rc, rm, v, sm)));
       mk_field "memory" decode_string br_SavingsMemory
         (λ v, set_sizes (λ '(c, m, rc, rm, sc, sm), (c, m, rc, rm, sc, v)))] |};
  {| f_name := "metrics"; f_decode := decode_struct [
       mk_field "lookbackDays" (decode_int 64) br_LookbackDays
         (λ v r, metric_fields v (br_CPUP95Percent r) (br_MemoryP95Percent r) (br_CPUMaxPercent r) (br_MemoryMaxPercent r) r);
       mk_field "cpuP95Percent" decode_float br_CPUP95Percent
         (λ v r, metric_fields (br_LookbackDays r) v (br_MemoryP95Percent r) (br_CPUMaxPercent r) (br_MemoryMaxPercent r) r);
       mk_field "memoryP95Percent" decode_float br_MemoryP95Percent
         (λ v r, metric_fields (br_LookbackDays r) (br_CPUP95Percent r) v (br_CPUMaxPercent r) (br_MemoryMaxPercent r) r);
       mk_field "cpuMaxPercent" decode_float br_CPUMaxPercent
         (λ v r, metric_fields (br_LookbackDays r) (br_CPUP95Percent r) (br_MemoryP95Percent r) v (br_MemoryMaxPercent r) r);
       mk_field "memoryMaxPercent" decode_float br_MemoryMaxPercent
         (λ v r, metric_fields (br_LookbackDays r) (br_CPUP95Percent r) (br_MemoryP95Percent r) (br_CPUMaxPercent r) v r)] |};
  mk_field "hotplugCapable" decode_bool br_HotplugCapable
    (λ v r, size_fields (br_CurrentCores r) (br_CurrentMemory r) (br_RecommendedCores r)
              (br_RecommendedMemory r) (br_SavingsCPU r) (br_SavingsMemory r) v r)].

Definition decode_spec : decoder backendRecommendation := decode_struct spec_fields.

Definition decode_backendRecommendation : decoder backendRecommendation :=
  decode_struct [{| f_name := "spec"; f_decode := decode_spec |}].

Section Proxy.
Context `{P : Platform} `{J : JwtLib}.

Record ApprovalProxy : Type := { px_tokenManager : TokenManager; px_backendURL : string }.

Definition New (tokenManager : TokenManager) (backendURL : string) : ApprovalProxy :=
  {| px_tokenManager := tokenManager; px_backendURL := TrimRight backendURL (chr 47) |}.

Abbreviation Writer := (ResponseWriter Page).
Definition PageHandler : Type := Writer → Request → prog Ev Writer.

Definition html (w : Writer) : Writer := Header_Set "Content-Type" "text/html; charset=utf-8" w.

Definition renderError (w : Writer) (statusCode : Z) (title message : string) : Writer :=
  Write (Value (ErrorHtml {| rp_Title := title; rp_Message := message; rp_IsError := true |}))
    (WriteHeader statusCode (html w)).
Definition renderResult (w : Writer) (title message : string) : Writer :=
  Write (Value (ResultHtml {| rp_Title := title; rp_Message := message; rp_IsError := false |})) (html w).

Definition recommendation_url (p : ApprovalProxy) (namespace name : string) : string :=
  px_backendURL p +:+ "/api/v1/internal/recommendations/" +:+ namespace +:+ "/" +:+ name.

Definition fetchRecommendation (p : ApprovalProxy) (namespace name : string)
    : prog Ev (result backendRecommendation) :=
  let url := recommendation_url p namespace name in
  ok ← call (ParseURL url);
  match ok with
  | Err e => mret (Err (EWrap ("GET " +:+ url) e))
  | Ok _ =>
      resp ← call (HttpDo {| hq_Method := "GET"; hq_URL := url; hq_Header := []; hq_Body := NoBody |});
      match resp with
      | Err e => mret (Err (EWrap ("GET " +:+ url) e))
      | Ok r =>
          if negb (hr_StatusCode r =? 200)
          then mret (Err (EOther ("GET " +:+ url +:+ " returned " +:+ itoa (hr_StatusCode r) +:+ ": " +:+ hr_Body r)))
          else
          match (j ← hr_first r; decode_backendRecommendation j zero_backendRecommendation) with
          | None => mret (Err (EWrap "decoding recommendation" (EOther "invalid JSON")))
          | Some rec => mret (Ok rec)
          end
      end
  end.

Definition page_data (rec : backendRecommendation) (tokenStr owner : string) : ApprovalPageData := {|
  ap_VMName := br_Name rec; ap_Namespace := br_Namespace rec; ap_Direction := br_Direction rec;
  ap_CurrentCPU := br_CurrentCores rec; ap_CurrentMemory := br_CurrentMemory rec;
  ap_RecommendedCPU := br_RecommendedCores rec; ap_RecommendedMemory := br_RecommendedMemory rec;
  ap_CPUSavings := br_SavingsCPU rec; ap_MemorySavings := br_SavingsMemory rec;
  ap_CPUP95 := br_CPUP95Percent rec; ap_MemP95 := br_MemoryP95Percent rec;
  ap_CPUMax := br_CPUMaxPercent rec; ap_MemMax := br_MemoryMaxPercent rec;
  ap_LookbackDays := br_LookbackDays rec;
  ap_Token := tokenStr; ap_Owner := owner; ap_HotplugCapable := br_HotplugCapable rec |}.

Definition invalid_token (w : Writer) : Writer :=
  renderError w StatusUnauthorized "Invalid or Expired Token"
    "The approval link is invalid or has expired. Please request a new approval link.".

Definition handleGetApprove (p : ApprovalProxy) : PageHandler := λ w r,
  let tokenStr := Query_Get r "token" in
  if String.eqb tokenStr "" then
    mret (renderError w StatusBadRequest "Missing Token" "No approval token was provided in the request.")
  else
  got ← ValidateToken (px_tokenManager p) tokenStr;
  match got with
  | Err _ => mret (invalid_token w)
  | Ok claims =>
      rec ← fetchRecommendation p (ac_Namespace claims) (ac_RecName claims);
      match rec with
      | Err _ => mret (renderError w StatusBadGateway "Unable to Load Recommendation"
          "Could not retrieve the recommendation details. Please try again later.")
      | Ok rec => mret (Write (Value (ApprovalHtml (page_data rec tokenStr (ac_Owner claims)))) (html w))
      end
  end.

(** A time without zone, as a browser's datetime field gives it, becomes UTC. *)
Definition normalize_schedule (scheduledAt : string) : string :=
  match Parse_RFC3339 scheduledAt with
  | Some _ => scheduledAt
  | None =>
      match Parse_minutes scheduledAt with
      | Some t => Format_RFC3339 t
      | None => scheduledAt
      end
  end.

(** The endpoint and the payload for an action, keys in the order they are
    marshalled in; [None] for an unknown action. *)
Definition decision (action restartOption scheduledAt reason : string)
    : option (string * list (string * string)) :=
  if String.eqb action "approve" then
    Some ("owner-approve", ("restartOption", restartOption) ::
            (if negb (String.eqb scheduledAt "") then [("scheduledAt", normalize_schedule scheduledAt)] else []))
  else if String.eqb action "reject" then Some ("owner-reject", [("reason", reason)])
  else if String.eqb action "exclude" then Some ("owner-reject", [("exclude", "true"); ("reason", reason)])
  else None.

Definition result_page (w : Writer) (action restartOption scheduledAt : string) : Writer :=
  if String.eqb action "approve" then
    let scheduledAt := if negb (String.eqb scheduledAt "") then normalize_schedule scheduledAt else "" in
    let message := "The rightsizing recommendation has been approved and will be applied." in
    renderResult w "Recommendation Approved"
      (if String.eqb restartOption "schedule" && negb (String.eqb scheduledAt "")
       then message +:+ " The VM restart is scheduled for " +:+ scheduledAt +:+ "."
       else if String.eqb restartOption "later"
       then message +:+ " The VM will need to be restarted manually to apply the changes."
       else message)
  else if String.eqb action "reject" then
    renderResult w "Recommendation Rejected" "The rightsizing recommendation has been rejected."
  else renderResult w "VM Excluded from Rightsizing"
    "The VM has been excluded from future rightsizing recommendations.".

Definition backend_request (p : ApprovalProxy) (claims : ApprovalClaims) (endpoint : string)
    (payload : list (string * string)) : HttpRequest := {|
  hq_Method := "POST";
  hq_URL := recommendation_url p (ac_Namespace claims) (ac_RecName claims) +:+ "/" +:+ endpoint;
  hq_Header := [("Content-Type", "application/json"); ("X-Approval-Owner", ac_Owner claims)];
  hq_Body := JsonBody (json_of_strings payload) |}.

Definition handlePostApprove (p : ApprovalProxy) : PageHandler := λ w r,
  match rq_Form r with
  | None => mret (renderError w StatusBadRequest "Invalid Form" "The submitted form data could not be parsed.")
  | Some _ =>
      let tokenStr := FormValue r "token" in
      if String.eqb tokenStr "" then
        mret (renderError w StatusBadRequest "Missing Token" "No approval token was provided.")
      else
      got ← ValidateToken (px_tokenManager p) tokenStr;
      match got with
      | Err _ => mret (invalid_token w)
      | Ok claims =>
          let action := FormValue r "action" in
          let restartOption := FormValue r "restartOption" in
          let scheduledAt := FormValue r "scheduledAt" in
          match decision action restartOption scheduledAt (FormValue r "reason") with
          | None => mret (renderError w StatusBadRequest "Invalid Action"
              "The selected action is not valid. Please go back and try again.")
          | Some (endpoint, payload) =>
              let req := backend_request p claims endpoint payload in
              ok ← call (ParseURL (hq_URL req));
              match ok with
              | Err _ => mret (renderError w StatusInternalServerError "Internal Error"
                  "An unexpected error occurred. Please try again later.")
              | Ok _ =>
                  resp ← call (HttpDo req);
                  match resp with
                  | Err _ => mret (renderError w StatusBadGateway "Backend Unavailable"
                      "Could not reach the backend service. Please try again later.")
                  | Ok resp =>
                      if 400 <=? hr_StatusCode resp then
                        mret (renderError w StatusBadGateway "Action Failed"
                          ("The backend returned an error (HTTP " +:+ itoa (hr_StatusCode resp) +:+
                           "). Please try again or contact your administrator."))
                      else mret (result_page w action restartOption scheduledAt)
                  end
              end
          end
      end
  end.

Definition handleHealthz : PageHandler := λ w r, mret (Write (Text ("ok" +:+ newline)) (WriteHeader StatusOK w)).

(** The three routes. *)
Definition proxy_ServeHTTP (p : ApprovalProxy) : PageHandler := λ w r,
  let get := String.eqb (rq_Method r) "GET" || String.eqb (rq_Method r) "HEAD" in
  let not_allowed := mret (http_Error "Method Not Allowed" StatusMethodNotAllowed w) in
  if negb (rq_Clean r) then mret (WriteHeader StatusMovedPermanently w) else
  match rq_Segments r with
  | [seg] =>
      if String.eqb seg "approve" then
        if get then handleGetApprove p w r
        else if String.eqb (rq_Method r) "POST" then handlePostApprove p w r
        else not_allowed
      else if String.eqb seg "healthz" then
        if get then handleHealthz w r else not_allowed
      else mret (http_Error "404 page not found" StatusNotFound w)
  | _ => mret (http_Error "404 page not found" StatusNotFound w)
  end.

(** How it is served. *)
Definition Proxy_ListenAndServe (addr : string) : Listener := ListenAndServe addr.
Definition Proxy_ListenAndServeTLS (addr certFile keyFile : string) : Listener :=
  ListenAndServeTLS addr {| tls_MinVersion := VersionTLS12; tls_NextProtos := ["http/1.1"] |} certFile keyFile.
End Proxy.
