(* ===== verification/RecJson.v ===== *)
(** * Recommendations in JSON, api/v1alpha1/rightsizingrecommendation_types.go

    The struct tags, as encoding/json writes them: this is what the API server
    answers and the approval proxy reads.  How quantities, times and metadata are
    written is the packages' matter; a quantity is documented to be its canonical
    string.  A float is written as a literal that reads back as the same float. *)
From S2P Require Import Prelude GoStrings GoStrconv GoJson JsonText JsonTextFacts GoFloat External ApiTypes.
From S2P Require Import Effects World Http Proxy.
Local Open Scope Z_scope.

Class JsonForeign `{P : Platform} : Type := {
  json_of_time : Z → json;
  json_of_metadata : ObjectMeta → json;
  (** the inlined kind and apiVersion, left out when empty *)
  json_of_TypeMeta : RightsizingRecommendation → list (string * json)
}.

Class JsonForeignLaws `{JF : JsonForeign} : Prop := {
  time_ok t : printable (json_of_time t) = true ∧ (depth (json_of_time t) <= 100)%nat;
  metadata_ok m : printable (json_of_metadata m) = true ∧ (depth (json_of_metadata m) <= 100)%nat;
  type_keys r k j : (k, j) ∈ json_of_TypeMeta r → k ∈ ["kind"; "apiVersion"] ∧ printable j = true ∧ depth j = O
}.

Section RecJson.
Context `{P : Platform} `{JF : !JsonForeign}.
(** strconv's text for a float64 *)
Context (text : f64 → string).

(** [omitempty] *)
Definition omit_string (name s : string) : list (string * json) :=
  if String.eqb s "" then [] else [(name, JString s)].
Definition omit_nil {A} (name : string) (f : A → json) (p : option A) : list (string * json) :=
  match p with None => [] | Some a => [(name, f a)] end.

Definition json_int (z : Z) : json := JNumber (itoa z).
Definition json_float (x : f64) : json := JNumber (text x).
Definition json_quantity (q : Quantity) : json := JString (Q_String q).

Definition json_of_CPUSpec (c : CPUSpec) : json := JObject
  [("cores", json_int (cpu_Cores c)); ("sockets", json_int (cpu_Sockets c)); ("threads", json_int (cpu_Threads c))].
Definition json_of_ResourceSpec (r : ResourceSpec) : json := JObject
  [("cpu", json_of_CPUSpec (rs_CPU r)); ("memory", json_quantity (rs_Memory r))].
Definition json_of_ObjectRef (r : ObjectRef) : json := JObject
  [("name", JString (ref_Name r)); ("namespace", JString (ref_Namespace r))].
Definition json_of_MetricsSnapshot (m : MetricsSnapshot) : json := JObject
  [("lookbackDays", json_int (ms_LookbackDays m));
   ("cpuP95Percent", json_float (ms_CPUP95Percent m)); ("memoryP95Percent", json_float (ms_MemoryP95Percent m));
   ("cpuMaxPercent", json_float (ms_CPUMaxPercent m)); ("memoryMaxPercent", json_float (ms_MemoryMaxPercent m))].
Definition json_of_SavingsSpec (s : SavingsSpec) : json := JObject
  [("cpu", json_int (sv_CPU s)); ("memory", json_quantity (sv_Memory s))].

Definition json_of_Spec (s : RightsizingRecommendationSpec) : json := JObject (
  [("virtualMachineRef", json_of_ObjectRef (sp_VirtualMachineRef s));
   ("direction", JString (sp_Direction s));
   ("current", json_of_ResourceSpec (sp_Current s));
   ("recommended", json_of_ResourceSpec (sp_Recommended s));
   ("savings", json_of_SavingsSpec (sp_Savings s));
   ("metrics", json_of_MetricsSnapshot (sp_Metrics s));
   ("hotplugCapable", JBool (sp_HotplugCapable s))] ++ omit_string "reason" (sp_Reason s)).

Definition json_of_Status (s : RightsizingRecommendationStatus) : json := JObject (
  omit_string "state" (st_State s) ++
  omit_nil "lastCalculated" json_of_time (st_LastCalculated s) ++
  omit_nil "appliedAt" json_of_time (st_AppliedAt s) ++
  omit_nil "scheduledRestartAt" json_of_time (st_ScheduledRestartAt s) ++
  omit_nil "revertBefore" json_of_time (st_RevertBefore s) ++
  omit_nil "revertConfig" json_of_ResourceSpec (st_RevertConfig s) ++
  omit_string "message" (st_Message s) ++
  omit_string "owner" (st_Owner s) ++
  omit_string "approvalToken" (st_ApprovalToken s) ++
  omit_nil "notifiedAt" json_of_time (st_NotifiedAt s) ++
  omit_string "approvedBy" (st_ApprovedBy s) ++
  omit_nil "approvedAt" json_of_time (st_ApprovedAt s) ++
  omit_string "rejectedBy" (st_RejectedBy s) ++
  omit_nil "rejectedAt" json_of_time (st_RejectedAt s) ++
  omit_string "rejectionReason" (st_RejectionReason s) ++
  omit_string "serviceNowIncident" (st_ServiceNowIncident s) ++
  omit_nil "reminderSentAt" json_of_time (st_ReminderSentAt s)).

Definition json_of_Recommendation (r : RightsizingRecommendation) : json := JObject (
  json_of_TypeMeta r ++
  [("metadata", json_of_metadata (rr_Meta r)); ("spec", json_of_Spec (rr_Spec r));
   ("status", json_of_Status (rr_Status r))]).

(** ** What the proxy makes of it *)

(** Each field of a recommendation in its Go type. *)
Definition in_range (s : RightsizingRecommendationSpec) : Prop :=
  let i32 z := - 2 ^ 31 <= z < 2 ^ 31 in
  i32 (cpu_Cores (rs_CPU (sp_Current s))) ∧ i32 (cpu_Cores (rs_CPU (sp_Recommended s))) ∧
  i32 (sv_CPU (sp_Savings s)) ∧ - 2 ^ 63 <= ms_LookbackDays (sp_Metrics s) < 2 ^ 63.

(** strconv promises: the text is a number and reads back as what was written. *)
Definition reads_back (s : RightsizingRecommendationSpec) : Prop :=
  let m := sp_Metrics s in
  ∀ x, x ∈ [ms_CPUP95Percent m; ms_MemoryP95Percent m; ms_CPUMaxPercent m; ms_MemoryMaxPercent m] →
    number_literal (text x) = true ∧ ParseFloat (text x) = Some x.

(** The fields the page shows; strings arrive as valid UTF-8. *)
Definition shown (s : RightsizingRecommendationSpec) : backendRecommendation := {|
  br_Name := ToValidUTF8 (ref_Name (sp_VirtualMachineRef s));
  br_Namespace := ToValidUTF8 (ref_Namespace (sp_VirtualMachineRef s));
  br_Direction := ToValidUTF8 (sp_Direction s);
  br_CurrentCores := cpu_Cores (rs_CPU (sp_Current s));
  br_CurrentMemory := ToValidUTF8 (Q_String (rs_Memory (sp_Current s)));
  br_RecommendedCores := cpu_Cores (rs_CPU (sp_Recommended s));
  br_RecommendedMemory := ToValidUTF8 (Q_String (rs_Memory (sp_Recommended s)));
  br_SavingsCPU := sv_CPU (sp_Savings s);
  br_SavingsMemory := ToValidUTF8 (Q_String (sv_Memory (sp_Savings s)));
  br_LookbackDays := ms_LookbackDays (sp_Metrics s);
  br_CPUP95Percent := ms_CPUP95Percent (sp_Metrics s); br_MemoryP95Percent := ms_MemoryP95Percent (sp_Metrics s);
  br_CPUMaxPercent := ms_CPUMaxPercent (sp_Metrics s); br_MemoryMaxPercent := ms_MemoryMaxPercent (sp_Metrics s);
  br_HotplugCapable := sp_HotplugCapable s |}.

Lemma decode_fields_app {A} (fs : list (field A)) kvs1 kvs2 a :
  decode_fields fs (kvs1 ++ kvs2) a = decode_fields fs kvs1 a ≫= decode_fields fs kvs2.
Proof.
  revert a. induction kvs1 as [|[k j] kvs1 IH]; intros a; [done|]. cbn [app decode_fields].
  destruct (find_field fs k) as [f|]; [|apply IH]. cbn [mbind option_bind].
  destruct (f_decode f j a); [apply IH|done].
Qed.
Lemma decode_fields_skip {A} (fs : list (field A)) kvs a :
  (∀ k j, (k, j) ∈ kvs → find_field fs k = None) → decode_fields fs kvs a = Some a.
Proof.
  induction kvs as [|[k j] kvs IH]; intros H; [done|]. cbn [decode_fields].
  rewrite (H k j) by left. apply IH. intros k' j' Hin. apply (H k' j'). by right.
Qed.
Lemma decode_fields_cons {A} (fs : list (field A)) k j kvs a f a' :
  find_field fs k = Some f → f_decode f j a = Some a' → decode_fields fs ((k, j) :: kvs) a = decode_fields fs kvs a'.
Proof. cbn [decode_fields]. by intros -> ->. Qed.

Lemma decode_json_int bits z cur : - 2 ^ (bits - 1) <= z < 2 ^ (bits - 1) → decode_int bits (json_int z) cur = Some z.
Proof. apply parse_int_itoa. Qed.

(** The members that are always there, as literals and strings. *)
Lemma decode_members n ns d c1 k1 t1 m1 c2 k2 t2 m2 sv m3 lb f1 f2 f3 f4 hp
    zc1 zc2 zsv zlb x1 x2 x3 x4 :
  parse_int 32 c1 = Some zc1 → parse_int 32 c2 = Some zc2 → parse_int 32 sv = Some zsv → parse_int 64 lb = Some zlb →
  ParseFloat f1 = Some x1 → ParseFloat f2 = Some x2 → ParseFloat f3 = Some x3 → ParseFloat f4 = Some x4 →
  decode_fields spec_fields
    [("virtualMachineRef", JObject [("name", JString n); ("namespace", JString ns)]);
     ("direction", JString d);
     ("current", JObject [("cpu", JObject [("cores", JNumber c1); ("sockets", k1); ("threads", t1)]);
                          ("memory", JString m1)]);
     ("recommended", JObject [("cpu", JObject [("cores", JNumber c2); ("sockets", k2); ("threads", t2)]);
                          ("memory", JString m2)]);
     ("savings", JObject [("cpu", JNumber sv); ("memory", JString m3)]);
     ("metrics", JObject [("lookbackDays", JNumber lb); ("cpuP95Percent", JNumber f1);
                          ("memoryP95Percent", JNumber f2);
                          ("cpuMaxPercent", JNumber f3); ("memoryMaxPercent", JNumber f4)]);
     ("hotplugCapable", JBool hp)] zero_backendRecommendation =
  Some {| br_Name := n; br_Namespace := ns; br_Direction := d; br_CurrentCores := zc1; br_CurrentMemory := m1;
          br_RecommendedCores := zc2; br_RecommendedMemory := m2; br_SavingsCPU := zsv; br_SavingsMemory := m3;
          br_LookbackDays := zlb; br_CPUP95Percent := x1; br_MemoryP95Percent := x2;
          br_CPUMaxPercent := x3; br_MemoryMaxPercent := x4; br_HotplugCapable := hp |}.
Proof.
  intros H1 H2 H3 H4 F1 F2 F3 F4. lazy -[parse_int ParseFloat].
  rewrite H1, H2, H3, H4, F1, F2, F3, F4. reflexivity.
Qed.

Lemma decode_spec_shown s : in_range s → reads_back s →
  decode_spec (marshalled (json_of_Spec s)) zero_backendRecommendation = Some (shown s).
Proof.
  destruct s as [[n ns] d [[c1 k1 t1] m1] [[c2 k2 t2] m2] [sv m3] [lb f1 f2 f3 f4] hp reason].
  intros (H1%(parse_int_itoa 32) & H2%(parse_int_itoa 32) & H3%(parse_int_itoa 32) & H4%(parse_int_itoa 64)) Hf.
  unfold reads_back in Hf. cbn in H1, H2, H3, H4, Hf.
  destruct (Hf f1) as [_ F1]; [set_solver|]. destruct (Hf f2) as [_ F2]; [set_solver|].
  destruct (Hf f3) as [_ F3]; [set_solver|]. destruct (Hf f4) as [_ F4]; [set_solver|].
  unfold decode_spec, json_of_Spec. cbn [marshalled decode_struct]. rewrite map_app, decode_fields_app.
  pose proof (decode_members (ToValidUTF8 n) (ToValidUTF8 ns) (ToValidUTF8 d)
    (itoa c1) (json_int k1) (json_int t1) (ToValidUTF8 (Q_String m1))
    (itoa c2) (json_int k2) (json_int t2) (ToValidUTF8 (Q_String m2))
    (itoa sv) (ToValidUTF8 (Q_String m3)) (itoa lb) (text f1) (text f2) (text f3) (text f4) hp
    _ _ _ _ _ _ _ _ H1 H2 H3 H4 F1 F2 F3 F4) as E.
  match goal with |- decode_fields spec_fields ?kvs _ ≫= _ = _ =>
    match type of E with decode_fields _ ?kvs' _ = _ => change kvs with kvs' end end.
  rewrite E. cbn [mbind option_bind].
  apply decode_fields_skip. intros k j. unfold omit_string. cbn [sp_Reason]. destruct (String.eqb reason ""); cbn; [set_solver|].
  by intros [= -> _]%list_elem_of_singleton.
Qed.

Context `{!JsonForeignLaws}.

Lemma decode_shown r : in_range (rr_Spec r) → reads_back (rr_Spec r) →
  decode_backendRecommendation (marshalled (json_of_Recommendation r)) zero_backendRecommendation
  = Some (shown (rr_Spec r)).
Proof.
  intros Hi Hf. unfold decode_backendRecommendation, json_of_Recommendation. cbn [marshalled decode_struct].
  rewrite map_app, decode_fields_app, decode_fields_skip.
  - transitivity (decode_spec (marshalled (json_of_Spec (rr_Spec r))) zero_backendRecommendation ≫= Some); [reflexivity|].
    by rewrite decode_spec_shown.
  - intros k j ([k' j'] & [= -> ->] & Hin)%list_elem_of_fmap. destruct (type_keys _ _ _ Hin) as [Hk _]. cbn [fst].
    rewrite elem_of_cons, list_elem_of_singleton in Hk. by destruct Hk as [-> | ->].
Qed.

(** ** The text *)
Definition small (n : nat) (j : json) : Prop := printable j = true ∧ (depth j <= n)%nat.

Lemma small_object n kvs : Forall (λ kv, small n kv.2) kvs → small (S n) (JObject kvs).
Proof.
  intros Hall. split; cbn [printable depth].
  - induction Hall as [|kv kvs [Hp _] _ IH]; [done|]. cbn [forallb]. by rewrite Hp.
  - apply le_n_S. induction Hall as [|kv kvs [_ Hd] _ IH]; [cbn; lia|by apply Nat.max_lub].
Qed.
Lemma small_string n s : small n (JString s).
Proof. split; [done|cbn; lia]. Qed.
Lemma small_int n z : small n (json_int z).
Proof. split; [apply number_literal_itoa|cbn; lia]. Qed.
Lemma small_time t : small 100 (json_of_time t).
Proof. apply time_ok. Qed.
Lemma small_resource n r : small (S (S n)) (json_of_ResourceSpec r).
Proof.
  apply small_object. constructor; [|constructor; [apply small_string|constructor]].
  apply small_object. repeat constructor; apply number_literal_itoa || (cbn; lia).
Qed.
Lemma small_omit_string n name s : Forall (λ kv : string * json, small n kv.2) (omit_string name s).
Proof. unfold omit_string. destruct (String.eqb s ""); repeat constructor; cbn; lia. Qed.
Lemma small_omit_nil {A} n name (f : A → json) p : (∀ a, small n (f a)) →
  Forall (λ kv : string * json, small n kv.2) (omit_nil name f p).
Proof. intros Hf. destruct p; repeat constructor; apply Hf. Qed.

Ltac small_tac := repeat (cbn [snd]; first
  [ apply Forall_nil_2 | apply Forall_cons_2 | apply Forall_app; split | apply small_omit_string
  | apply small_string | apply small_int | apply small_resource | apply small_time
  | apply small_omit_nil; intros | apply small_object ]).

Lemma small_metrics s : reads_back s → small 99 (json_of_MetricsSnapshot (sp_Metrics s)).
Proof.
  intros Hf.
  assert (∀ x, x ∈ [ms_CPUP95Percent (sp_Metrics s); ms_MemoryP95Percent (sp_Metrics s);
    ms_CPUMaxPercent (sp_Metrics s); ms_MemoryMaxPercent (sp_Metrics s)] → small 98 (json_float x)) as Hx.
  { intros x Hin. split; [by apply Hf|cbn; lia]. }
  small_tac; apply Hx; set_solver.
Qed.

Lemma small_rec r : reads_back (rr_Spec r) → small 102 (json_of_Recommendation r).
Proof.
  intros Hf. apply small_object. apply Forall_app. split.
  { apply Forall_forall. intros [k j] (_ & Hp & Hd)%type_keys. split; [done|cbn; lia]. }
  repeat apply Forall_cons_2; cbn [snd]; [| | |apply Forall_nil_2].
  - destruct (metadata_ok (rr_Meta r)). split; [done|lia].
  - apply (small_object 100). apply Forall_app. split; [|apply small_omit_string].
    repeat apply Forall_cons_2; cbn [snd]; try (by small_tac); [|split; [done|cbn; lia]].
    destruct (small_metrics _ Hf). split; [done|lia].
  - small_tac.
Qed.
End RecJson.
