(* ===== verification/Main.v ===== *)
(** * Wiring, cmd/main.go and cmd/approval-proxy/main.go

    The two adapters defined there and how the parts are put together from the
    settings: which components the API server and the controller get.  Reading
    files and the environment is left to the settings record. *)
From S2P Require Import Prelude GoFloat External ApiTypes Effects World.
From S2P Require Import Http Approval Owner Applier Notifier ApiServer Handlers.
From S2P Require Prometheus Controller Restart Proxy.
Local Open Scope Z_scope.

Section Main.
Context `{P : Platform} `{GI : GoImpl} `{J : JwtLib}.

(** [prometheusAdapter]: the current sizes are left zero. *)
Definition prometheusAdapter (client : Prometheus.Client) : Controller.PrometheusQuerier :=
  λ vmName namespace lookbackDays cpuCores memoryBytes,
    u ← Prometheus.GetVMUtilization client vmName namespace lookbackDays cpuCores memoryBytes;
    mret (match u with
          | Err e => Err e
          | Ok u => Ok {|
              Controller.vu_CurrentCPUCores := 0; Controller.vu_CurrentMemoryGiB := 0;
              Controller.vu_CPUP95Percent := Prometheus.pu_CPUP95Percent u;
              Controller.vu_MemoryP95Percent := Prometheus.pu_MemoryP95Percent u;
              Controller.vu_CPUMaxPercent := Prometheus.pu_CPUMaxPercent u;
              Controller.vu_MemoryMaxPercent := Prometheus.pu_MemoryMaxPercent u;
              Controller.vu_DataPoints := Prometheus.pu_DataPoints u |}
          end).

(** [k8sSecretGetter] *)
Definition k8sSecretGetter : SecretGetter := λ name namespace,
  call (KGetSecretData (NSName namespace name)).

(** The settings after flags and environment: [se_SigningKeyPath] is empty or
    names a file, [se_SigningKey] what reading it gives; [se_DemoKey] the random
    key, if reading randomness works; [se_NotificationConfig] is [None] when
    there is no such file, and otherwise what reading and parsing it gives. *)
Record Settings : Type := {
  se_DemoMode : bool;
  se_SigningKeyPath : string;
  se_SigningKey : result string;
  se_DemoKey : result string;
  se_ApprovalRouteHost : string;
  se_NotificationConfig : option (result NotifierConfig);
  se_PrometheusURL : string;
  se_PrometheusTokenFile : option string
}.

(** The flags that reach the settings, with their defaults, and what they become:
    the environment overrides two of them.  [getenv] gives the empty string for a
    variable that is not set, [readFile] the contents of a file, [notifications]
    whether the notification file exists and what it holds, [randomKey] 32 bytes. *)
Record Flags : Type := {
  fl_apiAddr : string;
  fl_prometheusURL : string;
  fl_approvalRouteHost : string;
  fl_signingKeyPath : string;
  fl_notificationConfigPath : string
}.
Definition default_flags : Flags := {|
  fl_apiAddr := ":8443"; fl_prometheusURL := "http://victoriametrics.ovro-system.svc:8428";
  fl_approvalRouteHost := ""; fl_signingKeyPath := "";
  fl_notificationConfigPath := "/etc/ovro/notifications/config.yaml" |}.

Definition or_env (getenv : string → string) (name flag : string) : string :=
  if String.eqb (getenv name) "" then flag else getenv name.

Definition settings_of (getenv : string → string) (readFile : string → result string)
    (notifications : string → option (result NotifierConfig)) (randomKey : result string)
    (fl : Flags) : Settings :=
  let path := or_env getenv "SIGNING_KEY_PATH" (fl_signingKeyPath fl) in {|
  se_DemoMode := String.eqb (getenv "OVRO_DEMO_MODE") "true";
  se_SigningKeyPath := path;
  se_SigningKey := readFile path;
  se_DemoKey := randomKey;
  se_ApprovalRouteHost := or_env getenv "OVRO_APPROVAL_ROUTE_HOST" (fl_approvalRouteHost fl);
  se_NotificationConfig := notifications (fl_notificationConfigPath fl);
  se_PrometheusURL := fl_prometheusURL fl;
  se_PrometheusTokenFile :=
    match readFile "/var/run/secrets/kubernetes.io/serviceaccount/token" with
    | Ok data => Some data | Err _ => None end |}.

(** [apiServerRunnable.Start]: with TLS when both files are given. *)
Definition start (addr certFile keyFile : string) : Listener :=
  if negb (String.eqb certFile "") && negb (String.eqb keyFile "")
  then Server_StartTLS addr certFile keyFile else Server_Start addr.
Definition api_listener (getenv : string → string) (fl : Flags) : Listener :=
  start (fl_apiAddr fl) (getenv "TLS_CERT_FILE") (getenv "TLS_KEY_FILE").

(** What is running: an exit of the process is an error. *)
Record Operator : Type := {
  op_Server : Server;
  op_Reconciler : Controller.RightsizingRecommendationReconciler;
  op_Querier : Controller.PrometheusQuerier;
  op_Restarter : Restart.VMRestarter
}.

Definition operator (s : Settings) (routeHost : string) (tokenMgr : option TokenManager)
    (dispatcher : option Dispatcher) (opts : list ServerOption) : Operator := {|
  op_Server := NewServer true true opts;
  op_Reconciler := {|
    Controller.re_DemoMode := se_DemoMode s;
    Controller.re_Applier := Some mkApplier;
    Controller.re_OwnerResolver := Some mkResolver;
    Controller.re_TokenManager := tokenMgr;
    Controller.re_Notifier := dispatcher;
    Controller.re_ApprovalRouteHost := routeHost |};
  op_Querier := prometheusAdapter (Prometheus.NewClient (se_PrometheusTokenFile s) (se_PrometheusURL s));
  op_Restarter := Restart.applier_restarter mkApplier |}.

(** The branch of demo mode without a key file. *)
Definition setup_demo (s : Settings) (opts : list ServerOption) : result Operator :=
  match se_DemoKey s with
  | Err e => Err e
  | Ok key =>
      let tm := NewTokenManager key in
      let host := if String.eqb (se_ApprovalRouteHost s) "" then "localhost:8443" else se_ApprovalRouteHost s in
      Ok (operator s host (Some tm) None (opts ++ [WithTokenManager tm; WithApprovalRouteHost host]))
  end.

(** The branch with a key file. *)
Definition setup_signed (s : Settings) (opts : list ServerOption) : prog Ev (result Operator) :=
  match se_SigningKey s with
  | Err e => mret (Err e)
  | Ok key =>
      let tm := NewTokenManager key in
      let host := se_ApprovalRouteHost s in
      let opts := opts ++ [WithTokenManager tm; WithOwnerResolver mkResolver]
                    ++ (if negb (String.eqb host "") then [WithApprovalRouteHost host] else []) in
      match se_NotificationConfig s with
      | None => mret (Ok (operator s host (Some tm) None opts))
      | Some (Err e) => mret (Err e)
      | Some (Ok cfg) =>
          d ← @NewDispatcher _ k8sSecretGetter cfg;
          mret (match d with
                | Err e => Err e
                | Ok d => Ok (operator s host (Some tm) (Some d) (opts ++ [WithNotifier d]))
                end)
      end
  end.

Definition setup (s : Settings) : prog Ev (result Operator) :=
  let opts := if se_DemoMode s then [WithDemoMode true] else [] in
  if se_DemoMode s && String.eqb (se_SigningKeyPath s) "" then mret (setup_demo s opts)
  else if negb (String.eqb (se_SigningKeyPath s) "") then setup_signed s opts
  else mret (Ok (operator s (se_ApprovalRouteHost s) None None opts)).

(** ** cmd/approval-proxy *)
Record ProxyFlags : Type := {
  pf_addr : string; pf_backendURL : string; pf_signingKeyPath : string;
  pf_certFile : string; pf_keyFile : string
}.

(** The environment first, then both settings are required, then the key is read. *)
Definition proxy_main (getenv : string → string) (readFile : string → result string) (fl : ProxyFlags)
    : result (Proxy.ApprovalProxy * Listener) :=
  let backendURL := or_env getenv "BACKEND_URL" (pf_backendURL fl) in
  let signingKeyPath := or_env getenv "SIGNING_KEY_PATH" (pf_signingKeyPath fl) in
  let certFile := or_env getenv "TLS_CERT_FILE" (pf_certFile fl) in
  let keyFile := or_env getenv "TLS_KEY_FILE" (pf_keyFile fl) in
  if String.eqb backendURL "" then Err (EOther "backend-url is required (flag or BACKEND_URL env var)")
  else if String.eqb signingKeyPath ""
  then Err (EOther "signing-key-path is required (flag or SIGNING_KEY_PATH env var)")
  else match readFile signingKeyPath with
       | Err e => Err e
       | Ok key =>
           Ok (Proxy.New (NewTokenManager key) backendURL,
               if negb (String.eqb certFile "") && negb (String.eqb keyFile "")
               then Proxy.Proxy_ListenAndServeTLS (pf_addr fl) certFile keyFile
               else Proxy.Proxy_ListenAndServe (pf_addr fl))
       end.
End Main.
