(* ===== verification/Scheme.v ===== *)
(** * The scheme, api/v1alpha1/groupversion_info.go and the init functions

    A client can only send and receive objects of the kinds its scheme knows.
    The scheme itself is apimachinery's; here is what the packages register. *)
From S2P Require Import Prelude External ApiTypes Effects World.
Local Open Scope Z_scope.

Record GroupVersionKind : Type := { gvk_Group : string; gvk_Version : string; gvk_Kind : string }.

(** [runtime.Scheme], a [scheme.Builder]'s [AddToScheme] for the objects
    registered with it, and client-go's own; adding may fail. *)
Class SchemeLib : Type := {
  Scheme : Type;
  NewScheme : Scheme;
  Recognizes : Scheme → GroupVersionKind → Prop;
  AddKnownTypes : string * string → list string → Scheme → Scheme * result unit;
  clientgo_AddToScheme : Scheme → Scheme * result unit
}.

Class SchemeLaws (L : SchemeLib) : Prop := {
  known_added gv kinds s s' k : AddKnownTypes gv kinds s = (s', Ok tt) →
    (Recognizes s k ∨ (gvk_Group k, gvk_Version k) = gv ∧ gvk_Kind k ∈ kinds) → Recognizes s' k;
  core_added s s' kind : clientgo_AddToScheme s = (s', Ok tt) → kind ∈ ["Namespace"; "Secret"] →
    Recognizes s' {| gvk_Group := ""; gvk_Version := "v1"; gvk_Kind := kind |}
}.

(** ** Package v1alpha1 *)
Definition GroupVersion : string * string := ("rightsizing.redhatconsulting.io", "v1alpha1").

(** The [init] functions of the two files with types, in the order of the files. *)
Definition policy_init (registered : list string) : list string :=
  registered ++ ["RightsizingPolicy"; "RightsizingPolicyList"].
Definition recommendation_init (registered : list string) : list string :=
  registered ++ ["RightsizingRecommendation"; "RightsizingRecommendationList"].
Definition SchemeBuilder : list string := recommendation_init (policy_init []).

Definition kind_of (kind : string) : GroupVersionKind :=
  {| gvk_Group := GroupVersion.1; gvk_Version := GroupVersion.2; gvk_Kind := kind |}.

Section Scheme.
Context `{L : SchemeLib}.

Definition AddToScheme : Scheme → Scheme * result unit := AddKnownTypes GroupVersion SchemeBuilder.

(** [SetupScheme] of the controller package ignores the error. *)
Definition SetupScheme : Scheme := (AddToScheme NewScheme).1.

(** [init] of cmd/main.go: [utilruntime.Must] panics on an error. *)
Definition main_init : option Scheme :=
  match clientgo_AddToScheme NewScheme with
  | (s, Ok _) => match AddToScheme s with (s', Ok _) => Some s' | (_, Err _) => None end
  | (_, Err _) => None
  end.

(** ** The kinds the operator's clients need

    Virtual machines are unstructured objects, which need no registration. *)
Definition core_kind (kind : string) : GroupVersionKind :=
  {| gvk_Group := ""; gvk_Version := "v1"; gvk_Kind := kind |}.
Definition kinds_needed `{P : Platform} {X} (e : Ev X) : list GroupVersionKind :=
  match e with
  | KGetRec _ | KCreateRec _ | KUpdateRec _ | KUpdateRecStatus _ | KDeleteRec _ => [kind_of "RightsizingRecommendation"]
  | KListRec _ => [kind_of "RightsizingRecommendationList"]
  | KGetPolicy _ | KUpdatePolicy _ => [kind_of "RightsizingPolicy"]
  | KGetNamespaceLabels _ => [core_kind "Namespace"]
  | KGetSecretData _ => [core_kind "Secret"]
  | _ => []
  end.

Context `{LL : !SchemeLaws L}.

(** The scheme that main's [init] leaves knows every kind any call of the operator
    is about. *)
Theorem main_scheme_complete `{P : Platform} s {X} (e : Ev X) k :
  main_init = Some s → k ∈ kinds_needed e → Recognizes s k.
Proof.
  unfold main_init, AddToScheme. intros Hs Hk.
  destruct (clientgo_AddToScheme NewScheme) as [s1 [[]|]] eqn:E1; [|done].
  destruct (AddKnownTypes GroupVersion SchemeBuilder s1) as [s2 [[]|]] eqn:E2; [|done]. injection Hs as <-.
  apply (known_added _ _ _ _ _ E2).
  destruct e; cbn in Hk; try (by apply not_elem_of_nil in Hk); apply list_elem_of_singleton in Hk as ->;
    first [left; apply (core_added _ _ _ E1); set_solver | right; split; [done|vm_compute; set_solver]].
Qed.

(** The kinds the controllers watch are among them, in the tests' scheme too. *)
Theorem setup_scheme_knows : (AddToScheme NewScheme).2 = Ok tt →
  Recognizes SetupScheme (kind_of "RightsizingRecommendation") ∧ Recognizes SetupScheme (kind_of "RightsizingPolicy").
Proof.
  unfold SetupScheme. destruct (AddToScheme NewScheme) as [s r] eqn:E. cbn. intros ->.
  split; apply (known_added _ _ _ _ _ E); right; (split; [done|vm_compute; set_solver]).
Qed.
End Scheme.

(** Schemes as sets of kinds have these laws. *)
Section Sets.
#[local] Instance list_scheme : SchemeLib := {|
  Scheme := list GroupVersionKind; NewScheme := []; Recognizes := λ s k, k ∈ s;
  AddKnownTypes := λ gv kinds s,
    (((λ k, {| gvk_Group := gv.1; gvk_Version := gv.2; gvk_Kind := k |}) <$> kinds) ++ s, Ok tt);
  clientgo_AddToScheme := λ s, (core_kind "Namespace" :: core_kind "Secret" :: s, Ok tt)
|}.
#[local] Instance list_scheme_laws : SchemeLaws list_scheme.
Proof.
  split.
  - intros gv kinds s s' [g v k] [= <-] [H|[<- H]]; apply elem_of_app; [by right|left].
    apply list_elem_of_fmap. by exists k.
  - intros s s' kind [= <-] H. unfold core_kind. set_solver.
Qed.
Example main_init_ok : ∃ s, main_init = Some s ∧ length s = 6%nat.
Proof. eexists. split; [reflexivity|reflexivity]. Qed.
End Sets.
