(* ===== verification/Manager.v ===== *)
(** * Starting the manager, the rest of cmd/main.go

    The flags of the manager, the TLS options its two servers share, and main
    itself: the calls to controller-runtime it makes, in order, each of which
    ends the process when it fails.  Slices are modelled with their backing
    arrays, since two of them start from the same one; how much room [append]
    allocates is the compiler's choice, so it is the class [Growth]. *)
From S2P Require Import Prelude GoStrings GoFloat External ApiTypes Effects World.
From S2P Require Import Http Approval Notifier ApiServer Handlers Main Scheme.
From S2P Require Controller Restart.
Local Open Scope nat_scope.

(** ** Slices *)

(** The capacity of the array that [append] allocates for [n] elements. *)
Class Growth : Type := { grow : nat → nat; grow_enough : ∀ n, n <= grow n }.

Record Slice : Type := { sl_array : nat; sl_len : nat; sl_cap : nat }.

Section Slices.
Context {A : Type} `{!Growth}.

(** The backing arrays allocated so far, by the elements written to them. *)
Definition Arrays : Type := list (list A).

Definition nil_slice : Slice := {| sl_array := 0; sl_len := 0; sl_cap := 0 |}.

Definition elements (h : Arrays) (s : Slice) : list A :=
  firstn (sl_len s) (default [] (h !! sl_array s)).

(** [append(s, x)]: in place when there is room, else in a new array. *)
Definition append (h : Arrays) (s : Slice) (x : A) : Arrays * Slice :=
  if sl_len s <? sl_cap s
  then (alter (λ a, firstn (sl_len s) a ++ x :: skipn (S (sl_len s)) a) (sl_array s) h,
        {| sl_array := sl_array s; sl_len := S (sl_len s); sl_cap := sl_cap s |})
  else (h ++ [elements h s ++ [x]],
        {| sl_array := length h; sl_len := S (sl_len s); sl_cap := grow (S (sl_len s)) |}).
End Slices.
Arguments Arrays A : clear implicits.

(** ** Paths: [filepath.Clean] and [filepath.Join] of two elements *)

(** One element of a path, onto the cleaned elements in reverse. *)
Definition clean_step (rooted : bool) (stack : list string) (seg : string) : list string :=
  if String.eqb seg "" || String.eqb seg "." then stack
  else if String.eqb seg ".." then
    match stack with
    | [] => if rooted then [] else [".."]
    | top :: rest => if String.eqb top ".." then ".." :: stack else rest
    end
  else seg :: stack.

Definition Clean (path : string) : string :=
  let rooted := HasPrefix path "/" in
  let body := join (chr 47) (rev (foldl (clean_step rooted) [] (Split path (chr 47)))) in
  if rooted then "/" +:+ body else if String.eqb body "" then "." else body.

Definition Join (a b : string) : string :=
  if String.eqb a "" then (if String.eqb b "" then "" else Clean b) else Clean (a +:+ "/" +:+ b).

(** ** The TLS options of the metrics and webhook servers *)

(** [certwatcher.New(cert, key)] *)
Record CertWatcher : Type := { cw_cert : string; cw_key : string }.

Inductive TLSOption : Type := DisableHTTP2 | GetCertificate (w : CertWatcher).

Record ManagerFlags : Type := {
  mf_metricsAddr : string;
  mf_metricsCertPath : string; mf_metricsCertName : string; mf_metricsCertKey : string;
  mf_webhookCertPath : string; mf_webhookCertName : string; mf_webhookCertKey : string;
  mf_enableLeaderElection : bool;
  mf_probeAddr : string;
  mf_secureMetrics : bool;
  mf_enableHTTP2 : bool;
  mf_flags : Flags
}.
Definition default_manager_flags : ManagerFlags := {|
  mf_metricsAddr := "0";
  mf_metricsCertPath := ""; mf_metricsCertName := "tls.crt"; mf_metricsCertKey := "tls.key";
  mf_webhookCertPath := ""; mf_webhookCertName := "tls.crt"; mf_webhookCertKey := "tls.key";
  mf_enableLeaderElection := false; mf_probeAddr := ":8081"; mf_secureMetrics := true;
  mf_enableHTTP2 := false; mf_flags := default_flags |}.

Definition watcher_of (path name key : string) : option CertWatcher :=
  if String.eqb path "" then None
  else Some {| cw_cert := Join path name; cw_key := Join path key |}.
Definition webhookCertWatcher (fl : ManagerFlags) : option CertWatcher :=
  watcher_of (mf_webhookCertPath fl) (mf_webhookCertName fl) (mf_webhookCertKey fl).
Definition metricsCertWatcher (fl : ManagerFlags) : option CertWatcher :=
  watcher_of (mf_metricsCertPath fl) (mf_metricsCertName fl) (mf_metricsCertKey fl).

Definition append_watcher `{!Growth} (h : Arrays TLSOption) (s : Slice) (w : option CertWatcher)
    : Arrays TLSOption * Slice :=
  match w with Some w => append h s (GetCertificate w) | None => (h, s) end.

(** [tlsOpts], then [webhookTLSOpts] and the metrics server's options from it. *)
Definition tls_options `{!Growth} (enableHTTP2 : bool) (webhook metrics : option CertWatcher)
    : Arrays TLSOption * Slice * Slice :=
  let '(h, tlsOpts) := if enableHTTP2 then ([], nil_slice) else append [] nil_slice DisableHTTP2 in
  let '(h, webhookTLSOpts) := append_watcher h tlsOpts webhook in
  let '(h, metricsTLSOpts) := append_watcher h tlsOpts metrics in
  (h, webhookTLSOpts, metricsTLSOpts).

(** What the options make of a [tls.Config]: the protocols offered, when
    restricted, and the certificate. *)
Record TLSConfig : Type := { tc_NextProtos : option (list string); tc_cert : option CertWatcher }.
Definition apply_option (c : TLSConfig) (o : TLSOption) : TLSConfig :=
  match o with
  | DisableHTTP2 => {| tc_NextProtos := Some ["http/1.1"]; tc_cert := tc_cert c |}
  | GetCertificate w => {| tc_NextProtos := tc_NextProtos c; tc_cert := Some w |}
  end.
Definition tls_config (opts : list TLSOption) : TLSConfig :=
  foldl apply_option {| tc_NextProtos := None; tc_cert := None |} opts.

(** ** The calls main makes *)
Section Manager.
Context `{P : Platform} `{GI : GoImpl} `{J : JwtLib} `{!Growth}.

Record ManagerOptions : Type := {
  mo_MetricsAddr : string;
  mo_SecureServing : bool;
  (** the authentication and authorization filter of the metrics endpoint *)
  mo_FilterProvider : bool;
  mo_HealthProbeBindAddress : string;
  mo_LeaderElection : bool;
  mo_LeaderElectionID : string
}.
Definition manager_options (fl : ManagerFlags) : ManagerOptions := {|
  mo_MetricsAddr := mf_metricsAddr fl; mo_SecureServing := mf_secureMetrics fl;
  mo_FilterProvider := mf_secureMetrics fl;
  mo_HealthProbeBindAddress := mf_probeAddr fl; mo_LeaderElection := mf_enableLeaderElection fl;
  mo_LeaderElectionID := "1d6cd375.redhatconsulting.io" |}.

(** What is registered: a controller with its name, the kind it watches and what
    it runs for each object; or something the manager runs. *)
Inductive Reconciler : Type :=
| RecommendationReconciler (re : Controller.RightsizingRecommendationReconciler)
    (querier : Controller.PrometheusQuerier)
| RestartReconciler (restarter : Restart.VMRestarter).
Inductive Runnable : Type :=
| RunWatcher (w : CertWatcher)
| RunServer (s : Server) (l : Listener).

(** Each of these ends the process with status 1 when it fails; [Start] is given
    the two servers' TLS options, read when the servers start. *)
Inductive Step : Type :=
| NewCertWatcher (w : CertWatcher)
| GetConfigOrDie
| NewManager (o : ManagerOptions)
| NewForConfig (client : string)
| RegisterController (name : string) (watches : GroupVersionKind) (r : Reconciler)
| AddRunnable (r : Runnable)
| AddHealthzCheck (name : string)
| AddReadyzCheck (name : string)
| Start (webhook metrics : list TLSOption).

Inductive BootEv : Type → Type :=
| Client {X} (e : Ev X) : BootEv X
| Boot (s : Step) : BootEv (result unit).

(** [SetupWithManager] of the two controllers. *)
Definition VirtualMachine : GroupVersionKind :=
  {| gvk_Group := "kubevirt.io"; gvk_Version := "v1"; gvk_Kind := "VirtualMachine" |}.
Definition RecommendationKind : GroupVersionKind := kind_of "RightsizingRecommendation".
Definition SetupRecommendation (op : Operator) : Step :=
  RegisterController "rightsizingrecommendation" VirtualMachine
    (RecommendationReconciler (op_Reconciler op) (op_Querier op)).
Definition SetupRestart (op : Operator) : Step :=
  RegisterController "restart" RecommendationKind (RestartReconciler (op_Restarter op)).

(** Steps one after the other, and then [k]. *)
Fixpoint boot (steps : list Step) (k : prog BootEv Z) : prog BootEv Z :=
  match steps with
  | [] => k
  | s :: rest =>
      r ← call (Boot s);
      match r with
      | Err _ => mret 1%Z
      | Ok _ => boot rest k
      end
  end.

Definition add_watcher (w : option CertWatcher) : list Step :=
  match w with Some w => [AddRunnable (RunWatcher w)] | None => [] end.
Definition new_watcher (w : option CertWatcher) : list Step :=
  match w with Some w => [NewCertWatcher w] | None => [] end.

(** Before the operator's parts are built, and from there to the start. *)
Definition preparation (fl : ManagerFlags) : list Step :=
  new_watcher (webhookCertWatcher fl) ++ new_watcher (metricsCertWatcher fl) ++
  [GetConfigOrDie; NewManager (manager_options fl);
   GetConfigOrDie; NewForConfig "kubernetes"; NewForConfig "dynamic"].

Definition registration (getenv : string → string) (fl : ManagerFlags) (op : Operator) : list Step :=
  [SetupRecommendation op; SetupRestart op] ++
  add_watcher (metricsCertWatcher fl) ++ add_watcher (webhookCertWatcher fl) ++
  [AddHealthzCheck "healthz"; AddReadyzCheck "readyz";
   AddRunnable (RunServer (op_Server op) (api_listener getenv (mf_flags fl)))].

Definition start_manager (fl : ManagerFlags) : Step :=
  let '(h, webhookTLSOpts, metricsTLSOpts) :=
    tls_options (mf_enableHTTP2 fl) (webhookCertWatcher fl) (metricsCertWatcher fl) in
  Start (elements h webhookTLSOpts) (elements h metricsTLSOpts).

(** [main], with the exit status. *)
Definition main (getenv : string → string) (readFile : string → result string)
    (notifications : string → option (result NotifierConfig)) (randomKey : result string)
    (fl : ManagerFlags) : prog BootEv Z :=
  boot (preparation fl) (
  op ← embed (@Client) (setup (settings_of getenv readFile notifications randomKey (mf_flags fl)));
  match op with
  | Err _ => mret 1%Z
  | Ok op => boot (registration getenv fl op ++ [start_manager fl]) (mret 0%Z)
  end).
End Manager.
