(* ===== verification/Lifecycle.v ===== *)
(** * The life of a recommendation

    The transitions the program may make of a recommendation's status, and a
    logic to show that a program writes a status only as a transition of an
    object it was given: [gwp known p Q] walks through [p] with the objects known
    so far.  The theorems about each handler and controller are in the files
    that follow; [Cluster] puts them together. *)
From S2P Require Import Prelude External ApiTypes Effects World.
From S2P Require Import Http Approval Owner Applier Notifier Controller Restart ApiServer Handlers.
Local Open Scope Z_scope.
Local Open Scope ovro_scope.

Section Lifecycle.
Context `{P : Platform}.

(** ** Transitions *)

(** A created object gets its first state. *)
Definition initial (now : Z) (r : RightsizingRecommendation) : RightsizingRecommendation :=
  r |> upd_Status (λ st, st |> set_State StatePending |> set_LastCalculated (Some now)).

Definition expired (r : RightsizingRecommendation) : RightsizingRecommendation :=
  r |> upd_Status (λ st, st |> set_State StatePending |> set_Owner "" |> set_ApprovalToken ""
           |> set_NotifiedAt None |> set_ReminderSentAt None).

Definition reminded (now : Z) (r : RightsizingRecommendation) : RightsizingRecommendation :=
  r |> upd_Status (set_ReminderSentAt (Some now)).

(** What automatic application leaves: hotplugged, to be restarted, or failed. *)
Inductive auto_applied (now : Z) (r : RightsizingRecommendation) : RightsizingRecommendation → Prop :=
| auto_hotplug : auto_applied now r (r |> upd_Status (set_RevertConfig (revert_config r))
    |> upd_Status (λ st, st |> set_State StateApplied |> set_AppliedAt (Some now)))
| auto_restart : auto_applied now r (r |> upd_Status (set_RevertConfig (revert_config r))
    |> upd_Status (set_State StateAppliedPendingRestart))
| auto_failed msg : auto_applied now r (r |> upd_Status (set_RevertConfig (revert_config r))
    |> upd_Status (λ st, st |> set_State StateFailed |> set_Message msg)).

(** The VM a recommendation is about. *)
Definition vm_of (rec : RightsizingRecommendation) : NamespacedName :=
  let ref := sp_VirtualMachineRef (rr_Spec rec) in NSName (ref_Namespace ref) (ref_Name ref).

Definition in_state (s : string) (r : RightsizingRecommendation) : Prop := rr_state r = s.

Inductive transition (r : RightsizingRecommendation) : RightsizingRecommendation → Prop :=
| t_await owner token now :
    in_state StatePending r → owner ≠ "" → transition r (await_approval owner token now r)
| t_apply req now r' :
    in_state StatePending r →
    apply_state req now (r |> upd_Status (set_RevertConfig (revert_config r))) = Some r' →
    transition r r'
| t_auto now r' : in_state StatePending r → auto_applied now r r' → transition r r'
| t_approve owner req now r' :
    in_state StateAwaitingApproval r → apply_state req now (approve owner now r) = Some r' →
    transition r r'
| t_reject who reason now :
    in_state StateAwaitingApproval r → transition r (reject who reason now r)
| t_expire now notifiedAt :
    in_state StateAwaitingApproval r → st_NotifiedAt (rr_Status r) = Some notifiedAt →
    fourteenDays < time_sub now notifiedAt → transition r (expired r)
| t_remind now notifiedAt now' :
    in_state StateAwaitingApproval r → st_NotifiedAt (rr_Status r) = Some notifiedAt →
    sevenDays < time_sub now notifiedAt <= fourteenDays → st_ReminderSentAt (rr_Status r) = None →
    transition r (r |> upd_Status (set_ReminderSentAt (Some now')))
| t_recalculate now :
    transition r (r |> upd_Status (set_LastCalculated (Some now)))
| t_revert :
    in_state StateApplied r ∨ in_state StateAppliedPendingRestart r →
    st_RevertConfig (rr_Status r) ≠ None → transition r (r |> upd_Status (set_State StateReverted))
| t_restarted at_ now now' :
    in_state StateAppliedPendingRestart r → st_ScheduledRestartAt (rr_Status r) = Some at_ →
    at_ <= now → transition r (restart_done now' r)
| t_restart_failed at_ now e :
    in_state StateAppliedPendingRestart r → st_ScheduledRestartAt (rr_Status r) = Some at_ →
    at_ <= now → transition r (restart_failed e r).

(** A transition changes the status only. *)
Lemma apply_state_meta req now r r' : apply_state req now r = Some r' →
  rr_Meta r' = rr_Meta r ∧ rr_Spec r' = rr_Spec r ∧
  (rr_state r' = StateApplied ∨ rr_state r' = StateAppliedPendingRestart) ∧
  st_RevertConfig (rr_Status r') = st_RevertConfig (rr_Status r) ∧
  st_ApprovedBy (rr_Status r') = st_ApprovedBy (rr_Status r).
Proof.
  unfold apply_state. destruct (sp_HotplugCapable _); [intros [= <-]; split_and!; eauto|].
  destruct (String.eqb _ "schedule").
  - destruct (GoTime.Parse_RFC3339 _); simpl; intros [= <-]; split_and!; eauto.
  - destruct (String.eqb _ "now"); intros [= <-]; split_and!; eauto.
Qed.

Lemma transition_meta r r' : transition r r' → rr_Meta r' = rr_Meta r ∧ rr_Spec r' = rr_Spec r.
Proof.
  destruct 1; try done.
  - match goal with H : apply_state _ _ _ = _ |- _ => apply apply_state_meta in H end. naive_solver.
  - by match goal with H : auto_applied _ _ _ |- _ => destruct H end.
  - match goal with H : apply_state _ _ _ = _ |- _ => apply apply_state_meta in H end. naive_solver.
Qed.

(** ** Objects a run has been given, and how *)
Inductive origin : Type := Created | Given.
Definition known_objects : Type := list (origin * RightsizingRecommendation).

Definition answers (o : obs Ev) : known_objects :=
  match o with
  | Obs e x =>
      match e in Ev X return X → known_objects with
      | KGetRec _ | KUpdateRec _ | KUpdateRecStatus _ => λ x,
          match x with Ok r => [(Given, r)] | Err _ => [] end
      | KListRec _ => λ x, match x with Ok l => (λ r, (Given, r)) <$> l | Err _ => [] end
      | KCreateRec _ => λ x, match x with Ok r => [(Created, r)] | Err _ => [] end
      | _ => λ _, []
      end x
  end.

(** A status write is the first state of an object this run created, or a
    transition of an object it was given. *)
Definition justified (known : known_objects) (r' : RightsizingRecommendation) : Prop :=
  (∃ r now, (Created, r) ∈ known ∧ r' = initial now r) ∨
  (∃ r, (Given, r) ∈ known ∧ transition r r').

(** New recommended values: which VM it is about, its size on record and the
    status stay. *)
Definition revises (r r' : RightsizingRecommendation) : Prop :=
  rr_Meta r' = rr_Meta r ∧ rr_Status r' = rr_Status r ∧
  sp_VirtualMachineRef (rr_Spec r') = sp_VirtualMachineRef (rr_Spec r) ∧
  sp_Current (rr_Spec r') = sp_Current (rr_Spec r) ∧
  sp_HotplugCapable (rr_Spec r') = sp_HotplugCapable (rr_Spec r).

(** A spec write revises, and a delete removes, an object given to the run that
    is neither applied nor awaiting approval. *)
Definition call_ok (known : known_objects) {X} (e : Ev X) : Prop :=
  match e with
  | KUpdateRecStatus r' => justified known r'
  | KUpdateRec r' =>
      ∃ r, (Given, r) ∈ known ∧ protected_state (rr_state r) = false ∧ revises r r'
  | KDeleteRec key =>
      ∃ r, (Given, r) ∈ known ∧ protected_state (rr_state r) = false ∧ key = rr_key r
  | _ => True
  end.

Fixpoint gwp {A} (known : known_objects) (p : prog Ev A) (Q : known_objects → A → Prop) : Prop :=
  match p with
  | Return a => Q known a
  | Crash _ => True
  | Vis e k => call_ok known e ∧ ∀ x, gwp (answers (Obs e x) ++ known) (k x) Q
  end.

Lemma gwp_mono {A} known (p : prog Ev A) (Q Q' : known_objects → A → Prop) :
  gwp known p Q → (∀ known' a, Q known' a → Q' known' a) → gwp known p Q'.
Proof.
  revert known. induction p as [a|m|X e k IH]; intros known; simpl; [auto|done|].
  intros [? H] HQ. split; [done|]. intros x. eapply IH; eauto.
Qed.

Lemma gwp_bind {A B} known (p : prog Ev A) (f : A → prog Ev B) Q :
  gwp known p (λ known' a, gwp known' (f a) Q) → gwp known (p ≫= f) Q.
Proof.
  unfold mbind, prog_mbind. revert known. induction p as [a|m|X e k IH]; intros known; simpl; [auto|done|].
  intros [? H]. split; [done|]. intros x. apply IH, H.
Qed.

(** A part that changes no recommendation: only what is known grows. *)
Definition quiet (X : Type) (e : Ev X) : Prop :=
  match e with KUpdateRecStatus _ | KUpdateRec _ | KDeleteRec _ => False | _ => True end.

Lemma quiet_call_ok {X} known (e : Ev X) : quiet X e → call_ok known e.
Proof. by destruct e. Qed.

Lemma gwp_quiet {A} known (p : prog Ev A) (Q : known_objects → A → Prop) :
  only quiet p → (∀ known' a, known ⊆ known' → Q known' a) → gwp known p Q.
Proof.
  revert known. induction p as [a|m|X e k IH]; intros known; simpl.
  - intros _ HQ. by apply HQ.
  - done.
  - intros [He Hk] HQ. split; [by apply quiet_call_ok|]. intros x. apply IH; [done|].
    intros known' a Hs. apply HQ. set_solver.
Qed.

Lemma gwp_call {X} known (e : Ev X) (Q : known_objects → X → Prop) :
  call_ok known e → (∀ x, Q (answers (Obs e x) ++ known) x) → gwp known (call e) Q.
Proof. by split. Qed.

Lemma gwp_must {A} known msg (o : option A) (Q : known_objects → A → Prop) :
  (∀ a, o = Some a → Q known a) → gwp known (must msg o) Q.
Proof. destruct o; simpl; auto. Qed.

(** The runs of a program that passes. *)
Fixpoint justified_trace (known : known_objects) (tr : list (obs Ev)) : Prop :=
  match tr with
  | [] => True
  | Obs e x :: tr' => call_ok known e ∧ justified_trace (answers (Obs e x) ++ known) tr'
  end.

Lemma gwp_runs {A} known (p : prog Ev A) Q tr out :
  gwp known p Q → runs p tr out → justified_trace known tr.
Proof.
  revert known tr. induction p as [a|m|X e k IH]; intros known tr; simpl.
  - by intros _ [-> _].
  - by intros _ [-> _].
  - intros [Hc Hk] (x & tr' & -> & Hr). split; [done|]. eapply IH; [apply Hk|exact Hr].
Qed.

Lemma call_ok_mono known known' {X} (e : Ev X) :
  known ⊆ known' → call_ok known e → call_ok known' e.
Proof. intros Hs. destruct e; simpl; unfold justified; naive_solver. Qed.

Lemma justified_trace_mono known known' tr :
  known ⊆ known' → justified_trace known tr → justified_trace known' tr.
Proof.
  revert known known'. induction tr as [|[X e x] tr IH]; intros known known' Hs; simpl; [done|].
  intros [Hc Ht]. split; [by eapply call_ok_mono|]. eapply IH; [|exact Ht]. set_solver.
Qed.

(** A process is a sequence of runs: what it knew before only helps. *)
Lemma justified_trace_app known tr1 tr2 :
  justified_trace known tr1 → justified_trace [] tr2 → justified_trace known (tr1 ++ tr2).
Proof.
  revert known. induction tr1 as [|[X e x] tr1 IH]; intros known; simpl.
  - intros _ H. eapply justified_trace_mono; [|exact H]. set_solver.
  - intros [Hc Ht] H. split; [done|]. by apply IH.
Qed.
End Lifecycle.

(** Walks through a program of calls under [gwp]; status writes and loops over
    other programs are left. *)
Ltac gwp_step :=
  first
    [ progress intros
    | exact I
    | apply gwp_bind
    | apply gwp_call; [by apply quiet_call_ok|]
    | progress cbn [gwp mret prog_ret]
    | case_match ].
Ltac gwp_walk := repeat gwp_step.
