(* ===== verification/LifecycleFacts.v ===== *)
(** * Every status write is a transition

    Program by program: the API server's handlers, the recommendation controller
    and the restart controller write a status only as a transition of an object
    they were given, or as the first state of one they created. *)
From S2P Require Import Prelude GoFloat External ApiTypes Effects World.
From S2P Require Import Http Approval Owner Applier Notifier NotifierFacts Controller Restart ApiServer Handlers Lifecycle.
Local Open Scope Z_scope.
Local Open Scope ovro_scope.

Section Quiet.
Context `{P : Platform} `{J : JwtLib}.

Lemma outward_quiet X (e : Ev X) : outward X e → quiet X e.
Proof. by destruct e. Qed.

Lemma tame_quiet {A} (p : prog Ev A) : tame p → only quiet p.
Proof. intros [_ H]. eapply only_mono; [|exact H]. apply outward_quiet. Qed.

Lemma quiet_ResolveOwner r vmName namespace : only quiet (ResolveOwner r vmName namespace).
Proof.
  unfold ResolveOwner. split; [done|]. intros [vm|]; cbn; [|done].
  destruct (GetLabels vm !! _); cbn; [done|]. split; [done|]. intros [l|]; cbn; [|done].
  by destruct (l !! _).
Qed.

Lemma quiet_GenerateToken tm ns rec owner ttl : only quiet (GenerateToken tm ns rec owner ttl).
Proof. by repeat split. Qed.

Lemma quiet_SendAll d n : tame_dispatcher d → only quiet (SendAll d n).
Proof. intros. by apply tame_quiet, tame_SendAll. Qed.
Lemma quiet_SendAllExcept d n l : tame_dispatcher d → only quiet (SendAllExcept d n l).
Proof. intros. by apply tame_quiet, tame_SendAllExcept. Qed.

Lemma quiet_canUserAccess s u ns verb : only quiet (canUserAccessNamespace s u ns verb).
Proof. unfold canUserAccessNamespace. destruct u; cbn; [|done]. by destruct (s_Clientset s). Qed.

Lemma quiet_filter_namespaces {A} s u (ns_of : A → string) checked items :
  only quiet (filter_namespaces s u ns_of checked items).
Proof.
  revert checked. induction items as [|i items IH]; intros checked; [done|].
  cbn [filter_namespaces]. apply only_bind.
  - unfold check_namespace. destruct (checked !! _); [done|].
    apply only_bind; [apply quiet_canUserAccess|done].
  - intros [b checked']. apply only_bind; [apply IH|done].
Qed.

Lemma quiet_filterByNamespaceAccess s r items : only quiet (filterByNamespaceAccess s r items).
Proof. unfold filterByNamespaceAccess. destruct (UserInfoFromContext r); [apply quiet_filter_namespaces|done]. Qed.
End Quiet.

Section Handlers.
Context `{P : Platform} `{J : JwtLib}.
Implicit Types (known : known_objects) (s : Server).

Definition anything {A} : known_objects → A → Prop := λ _ _, True.

Lemma gwp_update_or_error known rec w k :
  justified known rec → (∀ known' r, known ⊆ known' → gwp known' (k r) anything) →
  gwp known (update_or_error rec w k) anything.
Proof.
  intros Hj Hk. unfold update_or_error. apply gwp_bind, gwp_call; [done|].
  intros [r|]; [|done]. apply Hk. set_solver.
Qed.

Lemma gwp_write known rec w (f : RightsizingRecommendation → ResponseWriter ApiBody) :
  justified known rec → gwp known (update_or_error rec w (λ r, mret (f r))) anything.
Proof. intros. by apply gwp_update_or_error. Qed.

Lemma given known r r' : (Given, r) ∈ known → transition r r' → justified known r'.
Proof. right. eauto. Qed.

Lemma gwp_handleApply_demo known s tm rec w r :
  (Given, rec) ∈ known → in_state StatePending rec → gwp known (handleApply_demo s tm rec w r) anything.
Proof.
  intros Hin Hst. unfold handleApply_demo. apply gwp_bind, gwp_quiet; [apply quiet_GenerateToken|].
  intros known1 [tok|] Hs; [|done]. gwp_step. gwp_step. intros now.
  apply gwp_write. eapply given; [|by apply t_await]. set_solver.
Qed.

Lemma gwp_handleApply_owner known s tm d owner rec w r :
  tame_dispatcher d → owner ≠ "" →
  (Given, rec) ∈ known → in_state StatePending rec →
  gwp known (handleApply_owner s tm d owner rec w r) anything.
Proof.
  intros Hd Ho Hin Hst. unfold handleApply_owner. apply gwp_bind, gwp_quiet; [apply quiet_GenerateToken|].
  intros known1 [tok|] Hs; [|done]. gwp_step. gwp_step. intros now.
  apply gwp_update_or_error; [eapply given; [|by apply t_await]; set_solver|].
  intros. apply gwp_bind, gwp_quiet; [by apply quiet_SendAll|done].
Qed.

Lemma gwp_handleApply_direct known req rec w r :
  (Given, rec) ∈ known → in_state StatePending rec →
  gwp known (handleApply_direct req rec w r) anything.
Proof.
  intros Hin Hst. unfold handleApply_direct. gwp_step. gwp_step. intros now.
  destruct (apply_state _ _ _) as [rec'|] eqn:E; [|done].
  apply gwp_write. eapply given; [|by eapply t_apply]. set_solver.
Qed.

Definition tame_server s : Prop := ∀ d, s_Notifier s = Some d → tame_dispatcher d.

Lemma state_eqb r st : negb (String.eqb (rr_state r) st) = false → in_state st r.
Proof. by intros H%negb_false_iff%String.eqb_eq. Qed.

Lemma gwp_handleApply known s w r : tame_server s → gwp known (handleApply s w r) anything.
Proof.
  intros Hs. unfold handleApply. destruct (DecodeBody _ _ _ _) as [req|]; [|done].
  gwp_step. gwp_step. intros [rec|]; [|done].
  destruct (negb _) eqn:Hst; [done|]. apply state_eqb in Hst.
  assert (Hin : ∀ l, (Given, rec) ∈ l ++ (answers (Obs (KGetRec (path_key r)) (Ok rec)) ++ known))
    by set_solver.
  pose proof (Hin []) as Hin0. simpl app in Hin0.
  assert (Hdir : gwp (answers (Obs (KGetRec (path_key r)) (Ok rec)) ++ known)
    (handleApply_direct req rec w r) anything) by by apply gwp_handleApply_direct.
  destruct (s_DemoMode s), (s_TokenManager s) as [tm|];
    try by destruct (s_OwnerResolver s). { by apply gwp_handleApply_demo. }
  destruct (s_OwnerResolver s) as [res|], (s_Notifier s) as [d|] eqn:Hn; try done.
  apply gwp_bind, gwp_quiet; [apply quiet_ResolveOwner|]. intros known1 o Hk.
  destruct (negb (String.eqb _ "")) eqn:Ho.
  - apply gwp_handleApply_owner; [by apply Hs| |set_solver|done].
    by apply negb_true_iff, String.eqb_neq in Ho.
  - apply gwp_handleApply_direct; [set_solver|done].
Qed.

Lemma gwp_handleRevert known s w r : gwp known (handleRevert s w r) anything.
Proof.
  unfold handleRevert. gwp_step. gwp_step. intros [rec|]; [|done].
  destruct (_ && _) eqn:Hst; [done|]. destruct (st_RevertConfig _) eqn:Hr; [|done].
  apply gwp_write. eapply given; [|apply t_revert]; [set_solver| |by rewrite Hr].
  apply andb_false_iff in Hst as [H|H]; apply state_eqb in H; auto.
Qed.

Lemma gwp_handleReject known s w r : gwp known (handleReject s w r) anything.
Proof.
  unfold handleReject. destruct (DecodeBody _ _ _ _) as [req|]; [|done].
  gwp_step. gwp_step. intros [rec|]; [|done]. destruct (negb _) eqn:Hst; [done|]. apply state_eqb in Hst.
  gwp_step. gwp_step. intros now. apply gwp_bind, gwp_must. intros user _.
  apply gwp_write. eapply given; [|by apply t_reject]. set_solver.
Qed.

Lemma gwp_handleOwnerApprove known s w r : gwp known (handleOwnerApprove s w r) anything.
Proof.
  unfold handleOwnerApprove. destruct (DecodeBody _ _ _ _) as [req|]; [|done].
  gwp_step. gwp_step. intros [rec|]; [|done]. destruct (negb _) eqn:Hst; [done|]. apply state_eqb in Hst.
  gwp_step. gwp_step. intros now. destruct (apply_state _ _ _) as [rec'|] eqn:E; [|done].
  apply gwp_write. eapply given; [|by eapply t_approve]. set_solver.
Qed.

Lemma gwp_handleOwnerReject known s w r : gwp known (handleOwnerReject s w r) anything.
Proof.
  unfold handleOwnerReject. destruct (DecodeBody _ _ _ _) as [req|]; [|done].
  gwp_step. gwp_step. intros [rec|]; [|done]. destruct (negb _) eqn:Hst; [done|]. apply state_eqb in Hst.
  gwp_step. gwp_step. intros now. apply gwp_bind.
  apply gwp_quiet; [by destruct (_ && _)|]. intros known1 _ Hk.
  apply gwp_write. eapply given; [|by apply t_reject]. set_solver.
Qed.

(** The handlers that write no recommendation status at all. *)
Lemma quiet_readers s w r :
  only quiet (handleListRecommendations s w r) ∧ only quiet (handleGetRecommendation s w r) ∧
  only quiet (handleExclude s w r) ∧ only quiet (handleRemoveExclusion s w r) ∧
  only quiet (handleOverview s w r) ∧ only quiet (handleListVMs s w r) ∧
  only quiet (handleGetPolicy s w r) ∧ only quiet (handleUpdatePolicy s w r).
Proof.
  split_and!.
  - split; [done|]. intros [l|]; cbn; [|done]. apply only_bind; [apply quiet_filterByNamespaceAccess|done].
  - split; [done|]. by intros [|].
  - unfold handleExclude. destruct (negb _); [done|]. split; [done|]. by intros [|].
  - unfold handleRemoveExclusion. destruct (negb _); [done|]. split; [done|]. by intros [|].
  - split; [done|]. intros [l|]; cbn; [|done]. apply only_bind; [apply quiet_filterByNamespaceAccess|done].
  - unfold handleListVMs. destruct (negb _); [done|]. destruct (UserInfoFromContext r); [|done].
    split; [done|]. intros [l|]; cbn; [|done]. apply only_bind; [apply quiet_filter_namespaces|done].
  - split; [done|]. intros [|]; cbn; [done|]. apply only_bind; [|done].
    unfold defaultPolicy, must. by destruct DefaultPolicySpec.
  - unfold handleUpdatePolicy. destruct (DecodeBody _ _ _ _) as [p|]; [|done].
    destruct (validate_policy p); [done|]. split; [done|]. intros [|]; cbn; [|done].
    split; [done|]. by intros [|].
Qed.
End Handlers.

Section Controllers.
Context `{P : Platform} `{GI : GoImpl} `{J : JwtLib}.
Implicit Types (known : known_objects).

(** A result, when there is one, is an object the run was given. *)
Definition returned known (res : result RightsizingRecommendation) : Prop :=
  ∀ rec, res = Ok rec → (Given, rec) ∈ known.

Lemma gwp_UpdateStatus known rec (Q : known_objects → result RightsizingRecommendation → Prop) :
  justified known rec →
  (∀ known' res, known ⊆ known' → returned known' res → Q known' res) →
  gwp known (UpdateStatus rec) Q.
Proof.
  intros Hj HQ. apply gwp_call; [done|]. intros [r|e]; apply HQ; try set_solver;
    intros ? Heq; simplify_eq; set_solver.
Qed.

(** An update followed by the wrapping of its error. *)
Lemma gwp_update_wrap known rec ctx :
  justified known rec →
  gwp known (upd ← UpdateStatus rec;
             match upd with Err e => mret (Err (EWrap ctx e)) | Ok rec => mret (Ok rec) end) returned.
Proof.
  intros Hj. apply gwp_bind, gwp_UpdateStatus; [done|]. by intros known' [r|] _ Hr; [|intros ? ?].
Qed.

Lemma quiet_gi n : only quiet (gi n).
Proof. unfold gi, must. by destruct (MustParse _). Qed.
Lemma quiet_spec_of c m : only quiet (spec_of c m).
Proof. apply only_bind; [apply quiet_gi|done]. Qed.
Lemma quiet_savings_of r : only quiet (savings_of r).
Proof. apply only_bind; [apply quiet_gi|done]. Qed.
Lemma quiet_new_recommendation req policy c m r u :
  only quiet (new_recommendation req policy c m r u).
Proof.
  apply only_bind; [apply quiet_spec_of|]. intros cur.
  apply only_bind; [apply quiet_spec_of|]. intros rcm.
  apply only_bind; [apply quiet_savings_of|done].
Qed.
Lemma quiet_fetch_policy : only quiet fetch_policy.
Proof.
  split; [done|]. intros [|e]; cbn; [done|]. destruct (IsNotFound e); [|done].
  apply only_bind; [|done]. unfold defaultPolicy, must. by destruct DefaultPolicySpec.
Qed.

Lemma gwp_deleteExisting known vm ns Q :
  (∀ known' a, known ⊆ known' → Q known' a) → gwp known (deleteExistingRecommendation vm ns) Q.
Proof.
  intros HQ. unfold deleteExistingRecommendation. gwp_step. gwp_step. intros [rec|]; [|apply HQ; set_solver].
  destruct (protected_state _) eqn:Hp; [apply HQ; set_solver|].
  apply gwp_bind, gwp_call; [exists rec; split_and!; [set_solver|done..]|].
  intros x. apply HQ. set_solver.
Qed.

Lemma gwp_create known req policy c m r u now :
  gwp known (create_recommendation req policy c m r u now) returned.
Proof.
  unfold create_recommendation. apply gwp_bind, gwp_quiet; [apply quiet_new_recommendation|].
  intros known1 rec _. apply gwp_bind, gwp_call; [done|]. intros [rec'|]; [|by intros ? ?].
  apply gwp_update_wrap. left. exists rec', now. split; [set_solver|done].
Qed.

Definition tame_reconciler (r : RightsizingRecommendationReconciler) : Prop :=
  ∀ d, re_Notifier r = Some d → tame_dispatcher d.

Lemma gwp_expire_or_remind known r rec :
  tame_reconciler r → (Given, rec) ∈ known → gwp known (expire_or_remind r rec) returned.
Proof.
  intros Ht Hin. assert (Hsame : returned known (Ok rec)) by (by intros ? [= <-]).
  unfold expire_or_remind. destruct (negb _) eqn:Hst; [done|]. apply state_eqb in Hst.
  destruct (st_NotifiedAt _) as [notified|] eqn:Hn; [|done].
  gwp_step. gwp_step. intros t. destruct (14 * 24 * Hour <? time_sub t notified) eqn:H14.
  - apply gwp_update_wrap. apply (given _ rec); [set_solver|].
    apply (t_expire rec t notified); [done..|]. apply Z.ltb_lt in H14. exact H14.
  - destruct (_ && _) eqn:H7; [|intros ? [= <-]; set_solver].
    apply andb_true_iff in H7 as [H7%Z.ltb_lt Hr%bool_decide_eq_true]. apply Z.ltb_ge in H14.
    apply gwp_bind, gwp_quiet.
    { destruct (re_Notifier r) as [d|] eqn:Hd; [|done]. by apply quiet_SendAllExcept, Ht. }
    intros known1 _ Hk. gwp_step. gwp_step. intros now.
    apply gwp_update_wrap. apply (given _ rec); [set_solver|].
    apply (t_remind rec t notified); [done..|split; [exact H7|exact H14]|done].
Qed.

Lemma gwp_refresh known policy r u now rec :
  (Given, rec) ∈ known → protected_state (rr_state rec) = false →
  gwp known (refresh_recommendation policy r u now rec) returned.
Proof.
  intros Hin Hp. unfold refresh_recommendation.
  apply gwp_bind, gwp_quiet; [apply quiet_spec_of|]. intros known1 rs Hk1.
  apply gwp_bind, gwp_quiet; [apply quiet_savings_of|]. intros known2 sv Hk2.
  apply gwp_bind, gwp_call; [exists rec; split_and!; [set_solver|done..]|].
  intros [rec'|]; [|by intros ? ?]. apply gwp_update_wrap. eapply given; [|apply t_recalculate]. set_solver.
Qed.

Lemma gwp_upsert known r req policy c m res u :
  tame_reconciler r →
  gwp known (upsert r req policy c m res u)
    (λ known' out, ∀ rec, out = Ok (Some rec) → (Given, rec) ∈ known').
Proof.
  intros Ht. unfold upsert. gwp_step. gwp_step. intros now. gwp_step. gwp_step. intros [rec|e].
  - apply gwp_bind. eapply gwp_mono; [apply gwp_expire_or_remind; [done|set_solver]|].
    intros known1 [rec1|] Hr; [|by intros ? ?]. cbn.
    destruct (protected_state _) eqn:Hp; [by intros ? ?|].
    apply gwp_bind. eapply gwp_mono; [apply gwp_refresh; [by apply Hr|done]|].
    intros known2 [rec2|] Hr2 ? [= <-]; by apply Hr2.
  - destruct (IsNotFound e); [|by intros ? ?].
    apply gwp_bind. eapply gwp_mono; [apply gwp_create|].
    intros known2 [rec2|] Hr2 ? [= <-]; by apply Hr2.
Qed.

Lemma quiet_PatchVM a name ns c q : only quiet (PatchVMResources a name ns c q).
Proof. split; [done|]. by intros [|]. Qed.

Lemma gwp_autoApply_direct known r rec vm :
  (Given, rec) ∈ known → in_state StatePending rec → gwp known (autoApply_direct r rec vm) anything.
Proof.
  intros Hin Hst. unfold autoApply_direct. gwp_step. gwp_step. intros now.
  apply gwp_bind, gwp_quiet; [destruct (re_Applier r); [apply quiet_PatchVM|done]|].
  intros known1 [|e] Hk.
  - apply gwp_bind, gwp_UpdateStatus; [|done].
    apply (given _ rec); [set_solver|]. apply (t_auto rec now); [done|].
    destruct (IsHotplugCapable vm); constructor.
  - apply gwp_bind, gwp_UpdateStatus; [|done].
    apply (given _ rec); [set_solver|]. apply (t_auto rec now); [done|]. constructor.
Qed.

Lemma gwp_autoApply known r rec vm :
  tame_reconciler r → (Given, rec) ∈ known → in_state StatePending rec →
  gwp known (autoApply r rec vm) anything.
Proof.
  intros Ht Hin Hst. pose proof (gwp_autoApply_direct known r rec vm Hin Hst) as Hd.
  unfold autoApply. destruct (re_OwnerResolver r), (re_TokenManager r) as [tm|]; try done.
  apply gwp_bind, gwp_quiet; [apply quiet_ResolveOwner|]. intros known1 o Hk.
  destruct (negb (String.eqb _ "")) eqn:Ho; [|by apply gwp_autoApply_direct; [set_solver|]].
  apply negb_true_iff, String.eqb_neq in Ho.
  unfold autoApply_approval. apply gwp_bind, gwp_quiet; [apply quiet_GenerateToken|].
  intros known2 [tok|] Hk2; [|done]. gwp_step. gwp_step. intros now.
  apply gwp_bind, gwp_UpdateStatus; [apply (given _ rec); [set_solver|by apply t_await]|].
  intros known3 [rec'|] _ _; [|done].
  destruct (re_Notifier r) as [d|] eqn:Hn; [|done].
  destruct (negb _); [|done]. apply gwp_bind, gwp_quiet; [by apply quiet_SendAll, Ht|done].
Qed.

(** The metrics backend only queries. *)
Definition quiet_querier (PQ : PrometheusQuerier) : Prop :=
  ∀ name ns days cores bytes, only quiet (QueryVMUtilization name ns days cores bytes).

Lemma gwp_Reconcile known `{PQ : !PrometheusQuerier} r req :
  quiet_querier PQ → tame_reconciler r → gwp known (Reconcile r req) anything.
Proof.
  intros Hq Ht. unfold Reconcile. apply gwp_bind, gwp_quiet; [apply quiet_fetch_policy|].
  intros known1 [policy|] _; [|done]. apply gwp_bind, gwp_quiet; [split; [done|]; by intros [|]|].
  intros known2 [[[vm c] m]|] _; [|done]. destruct (excluded vm).
  { apply gwp_bind, gwp_deleteExisting. done. }
  apply gwp_bind. eapply (gwp_mono _ _ anything).
  { unfold analyze. destruct (re_DemoMode r); [done|].
    apply gwp_bind, gwp_quiet; [apply Hq|]. intros known3 [u|] _; [|done].
    destruct (_ <? _); [by apply gwp_bind, gwp_deleteExisting|].
    destruct (Calculator.Analyze _); [done|]. by apply gwp_bind, gwp_deleteExisting. }
  intros known3 [[res u]|] _; [|done].
  apply gwp_bind. eapply gwp_mono; [by apply gwp_upsert|].
  intros known4 [[rec|]|] Hr; [|done..].
  apply gwp_bind. destruct (_ && _) eqn:Ha; [|done].
  apply andb_true_iff in Ha as [_ Hst%String.eqb_eq].
  eapply gwp_mono; [apply gwp_autoApply; [done|by apply Hr|exact Hst]|done].
Qed.

Lemma gwp_RestartReconcile known a req :
  gwp known (@RestartReconcile _ (applier_restarter a) req) anything.
Proof.
  unfold RestartReconcile. gwp_step. gwp_step. intros [rec|e]; [|by destruct (IsNotFound e)].
  destruct (negb _) eqn:Hst; [done|]. apply state_eqb in Hst.
  destruct (st_ScheduledRestartAt _) as [at_|] eqn:Hat; [|done].
  gwp_step. gwp_step. intros now. destruct (now <? at_) eqn:Hlt; [done|]. apply Z.ltb_ge in Hlt.
  apply gwp_bind, gwp_quiet; [split; [done|]; by intros [|]|].
  intros known1 [|e] Hk.
  - gwp_step. gwp_step. intros now'. apply gwp_bind, gwp_call; [|by intros [|]].
    apply (given _ rec); [set_solver|]. by eapply t_restarted.
  - apply gwp_bind, gwp_call; [|done]. apply (given _ rec); [set_solver|]. by eapply t_restart_failed.
Qed.
End Controllers.
