(* ===== verification/Cluster.v ===== *)
(** * The cluster: many requests and reconciliations at once

    The API server is an interface: [ApiServerLaws] states what Kubernetes
    documents of it (versions identify contents, an update with a stale version
    is refused, the status subresource changes the status only).  Reads may be
    stale, as the controller's cache is, and a failed call may have taken effect.
    Whatever runs of the program interleave against such a server, the stored
    recommendations change only along the transitions of [Lifecycle]. *)
From S2P Require Import Prelude GoFloat External ApiTypes Effects World.
From S2P Require Import Http Approval Owner Applier Notifier NotifierFacts Controller Restart ApiServer Handlers.
From S2P Require Import Lifecycle LifecycleFacts.
Local Open Scope Z_scope.
Local Open Scope ovro_scope.

(** Times are kept in whole seconds by the server. *)
Definition whole (t : option Z) : option Z := (λ z, z - z mod Second) <$> t.

Section Cluster.
Context `{P : Platform}.

Definition persist (st : RightsizingRecommendationStatus) : RightsizingRecommendationStatus := {|
  st_State := st_State st; st_LastCalculated := whole (st_LastCalculated st);
  st_AppliedAt := whole (st_AppliedAt st); st_ScheduledRestartAt := whole (st_ScheduledRestartAt st);
  st_RevertBefore := whole (st_RevertBefore st); st_RevertConfig := st_RevertConfig st;
  st_Message := st_Message st; st_Owner := st_Owner st; st_ApprovalToken := st_ApprovalToken st;
  st_NotifiedAt := whole (st_NotifiedAt st); st_ApprovedBy := st_ApprovedBy st;
  st_ApprovedAt := whole (st_ApprovedAt st); st_RejectedBy := st_RejectedBy st;
  st_RejectedAt := whole (st_RejectedAt st); st_RejectionReason := st_RejectionReason st;
  st_ServiceNowIncident := st_ServiceNowIncident st; st_ReminderSentAt := whole (st_ReminderSentAt st) |}.

(** A write is made against a version, none meaning any. *)
Definition same_version (r cur : RightsizingRecommendation) : Prop :=
  rr_Meta r = rr_Meta cur ∨ om_ResourceVersion (rr_Meta r) = "".

Class ApiServer (W : Type) : Type := {
  ks_step : ∀ X, W → Ev X → X → W → Prop;
  ks_stored : W → NamespacedName → option RightsizingRecommendation;
  (** every object stored at some time so far *)
  ks_seen : W → RightsizingRecommendation → Prop;
  ks_ok : W → Prop
}.

(** How the store changes in a call. *)
Inductive store_change `{ApiServer W} (w w' : W) : ∀ X, Ev X → Prop :=
| sc_same X (e : Ev X) : (∀ k, ks_stored w' k = ks_stored w k) → store_change w w' X e
| sc_create r r' :
    ks_stored w (rr_key r) = None → rr_key r' = rr_key r → rr_Status r' = zero_Status →
    (∀ k, ks_stored w' k = if decide (k = rr_key r) then Some r' else ks_stored w k) →
    store_change w w' _ (KCreateRec r)
| sc_update r cur r' :
    ks_stored w (rr_key r) = Some cur → same_version r cur →
    rr_key r' = rr_key r → rr_Spec r' = rr_Spec r → rr_Status r' = rr_Status cur →
    (∀ k, ks_stored w' k = if decide (k = rr_key r) then Some r' else ks_stored w k) →
    store_change w w' _ (KUpdateRec r)
| sc_status r cur r' :
    ks_stored w (rr_key r) = Some cur → same_version r cur →
    rr_key r' = rr_key r → rr_Spec r' = rr_Spec cur → rr_Status r' = persist (rr_Status r) →
    (∀ k, ks_stored w' k = if decide (k = rr_key r) then Some r' else ks_stored w k) →
    store_change w w' _ (KUpdateRecStatus r)
| sc_delete key :
    (∀ k, ks_stored w' k = if decide (k = key) then None else ks_stored w k) →
    store_change w w' _ (KDeleteRec key).

Class ApiServerLaws W `{ApiServer W} : Prop := {
  ks_ok_step X w (e : Ev X) x w' : ks_ok w → ks_step X w e x w' → ks_ok w';
  ks_seen_step X w (e : Ev X) x w' r : ks_step X w e x w' → ks_seen w r → ks_seen w' r;
  ks_stored_seen w k r : ks_ok w → ks_stored w k = Some r → ks_seen w r ∧ rr_key r = k;
  (** a version identifies the contents, and every stored object has one *)
  ks_version w r r' : ks_ok w → ks_seen w r → ks_seen w r' → rr_Meta r = rr_Meta r' → r = r';
  ks_versioned w r : ks_ok w → ks_seen w r → om_ResourceVersion (rr_Meta r) ≠ "";
  (** answers are objects that were stored at some time; created ones are new *)
  ks_answers X w (e : Ev X) x w' o r : ks_ok w → ks_step X w e x w' →
    (o, r) ∈ answers (Obs e x) → ks_seen w' r ∧ (o = Created → rr_Status r = zero_Status);
  ks_changes X w (e : Ev X) x w' : ks_ok w → ks_step X w e x w' → store_change w w' X e
}.

(** ** What a change does to one stored object *)
Inductive evolves : option RightsizingRecommendation → option RightsizingRecommendation → Prop :=
| ev_same o : evolves o o
| ev_create r : rr_Status r = zero_Status → evolves None (Some r)
| ev_revise r r' : protected_state (rr_state r) = false → rr_key r' = rr_key r →
    rr_Status r' = rr_Status r → sp_Current (rr_Spec r') = sp_Current (rr_Spec r) →
    sp_VirtualMachineRef (rr_Spec r') = sp_VirtualMachineRef (rr_Spec r) →
    sp_HotplugCapable (rr_Spec r') = sp_HotplugCapable (rr_Spec r) →
    evolves (Some r) (Some r')
| ev_initial r r' now : rr_Status r = zero_Status → rr_key r' = rr_key r →
    rr_Spec r' = rr_Spec r → rr_Status r' = persist (rr_Status (initial now r)) →
    evolves (Some r) (Some r')
| ev_transition r r0 r' : transition r r0 → rr_key r' = rr_key r →
    rr_Spec r' = rr_Spec r → rr_Status r' = persist (rr_Status r0) → evolves (Some r) (Some r')
| ev_delete o : evolves o None.

(** ** Interleavings: who made each call *)
Definition log : Type := list (nat * obs Ev).
Fixpoint proj (i : nat) (g : log) : list (obs Ev) :=
  match g with
  | [] => []
  | (j, o) :: g' => if decide (j = i) then o :: proj i g' else proj i g'
  end.

(** Each call of a process is justified by what that process knows. *)
Fixpoint justified_log (known : nat → known_objects) (g : log) : Prop :=
  match g with
  | [] => True
  | (i, Obs e x) :: g' =>
      call_ok (known i) e ∧
      justified_log (λ j, if decide (j = i) then answers (Obs e x) ++ known i else known j) g'
  end.

Lemma justified_log_proj known g :
  (∀ i, justified_trace (known i) (proj i g)) → justified_log known g.
Proof.
  revert known. induction g as [|[i [X e x]] g IH]; intros known Hp; [done|].
  pose proof (Hp i) as Hi. cbn in Hi. rewrite decide_True in Hi by done.
  destruct Hi as [Hc Ht]. split; [done|]. apply IH. intros j. destruct (decide (j = i)) as [->|Hj].
  - exact Ht.
  - specialize (Hp j). cbn in Hp. by rewrite decide_False in Hp by congruence.
Qed.

Section Interleaving.
Context `{AS : ApiServer W} `{!ApiServerLaws W}.

(** Everything the processes know was stored at some time. *)
Definition grounded (w : W) (known : known_objects) : Prop :=
  ∀ o r, (o, r) ∈ known → ks_seen w r ∧ (o = Created → rr_Status r = zero_Status).

Lemma grounded_current w known o r cur :
  ks_ok w → grounded w known → (o, r) ∈ known →
  ks_seen w cur → rr_Meta r = rr_Meta cur → r = cur.
Proof. intros Hok Hg Hin Hs Hm. eapply ks_version; [done| |done|done]. by eapply Hg. Qed.

Lemma grounded_same_version w known o r r' cur :
  ks_ok w → grounded w known → (o, r) ∈ known → rr_Meta r' = rr_Meta r →
  ks_stored w (rr_key r') = Some cur → same_version r' cur → r = cur ∧ rr_key r' = rr_key cur.
Proof.
  intros Hok Hg Hin Hm Hst Hv. destruct (ks_stored_seen _ _ _ Hok Hst) as [Hseen Hk].
  split; [|done]. eapply grounded_current; [done..|].
  destruct Hv as [Hv|Hv]; [congruence|].
  exfalso. apply (ks_versioned w r); [done|by eapply Hg|congruence].
Qed.

(** A justified call changes the store only as an evolution. *)
Lemma call_ok_evolves w known X (e : Ev X) x w' :
  ks_ok w → grounded w known → call_ok known e → ks_step X w e x w' →
  ∀ k, evolves (ks_stored w k) (ks_stored w' k).
Proof.
  intros Hok Hg Hc Hs k. pose proof (ks_changes _ _ _ _ _ Hok Hs) as Hch.
  destruct Hch as [X e Hk|r r' Hn Hk Hz Hst|r cur r' Hcur Hv Hk Hsp Hstat Hst
    |r cur r' Hcur Hv Hk Hsp Hstat Hst|key Hst]; rewrite ?Hk, ?Hst.
  - constructor.
  - destruct (decide _) as [->|]; [|constructor]. rewrite Hn. by constructor.
  - destruct (decide _) as [->|]; [|constructor]. rewrite Hcur.
    destruct Hc as (r0 & Hin & Hp & Hm & Hs0 & Hv0 & Hc0 & Hh0).
    destruct (grounded_same_version w known Given r0 r cur) as [-> Hkey]; try done.
    apply ev_revise; congruence.
  - destruct (decide _) as [->|]; [|constructor]. rewrite Hcur.
    destruct Hc as [(r0 & now & Hin & ->)|(r0 & Hin & Ht)].
    + destruct (grounded_same_version w known Created r0 (initial now r0) cur) as [-> Hkey]; try done.
      destruct (Hg _ _ Hin) as [_ Hz]. eapply ev_initial; [by apply Hz|congruence|done|done].
    + destruct (transition_meta _ _ Ht) as [Hm _].
      destruct (grounded_same_version w known Given r0 r cur) as [-> Hkey]; try done.
      eapply ev_transition; [done|congruence|done|done].
  - destruct (decide _) as [->|]; constructor.
Qed.

(** What must be an invariant of every stored object, if evolution keeps it. *)
Definition stored_inv (I : RightsizingRecommendation → Prop) (w : W) : Prop :=
  ∀ k r, ks_stored w k = Some r → I r.
Definition kept (I : RightsizingRecommendation → Prop) : Prop :=
  ∀ o o', evolves o o' → (∀ r, o = Some r → I r) → ∀ r', o' = Some r' → I r'.

Lemma interleaving_invariant I known g w w' :
  kept I → ks_ok w → (∀ i, grounded w (known i)) → justified_log known g →
  steps ks_step w (g.*2) w' → stored_inv I w → stored_inv I w'.
Proof.
  intros Hkept. revert w known. induction g as [|[i [X e x]] g IH]; intros w known Hok Hg Hj Hs HI.
  - cbn in Hs. by subst.
  - destruct Hs as (w1 & Hs1 & Hs). destruct Hj as [Hc Hj].
    refine (IH _ _ _ _ Hj Hs _).
    + by eapply ks_ok_step.
    + intros j o r Hin. destruct (decide (j = i)) as [->|].
      * apply elem_of_app in Hin as [Hin|Hin]; [by eapply ks_answers|].
        destruct (Hg _ _ _ Hin). split; [|done]. by eapply ks_seen_step.
      * destruct (Hg _ _ _ Hin). split; [|done]. by eapply ks_seen_step.
    + intros k r' Hr'. eapply (Hkept _ _ (call_ok_evolves _ _ _ _ _ _ Hok (Hg i) Hc Hs1 k)); [|done].
      intros r Hr. by eapply HI.
Qed.

Lemma interleaving_evolves known g1 i o g2 w w' :
  ks_ok w → (∀ i, grounded w (known i)) → justified_log known (g1 ++ (i, o) :: g2) →
  steps ks_step w ((g1 ++ (i, o) :: g2).*2) w' →
  ∃ w1 w2, steps ks_step w (g1.*2) w1 ∧ steps ks_step w1 [o] w2 ∧ steps ks_step w2 (g2.*2) w' ∧
    ∀ k, evolves (ks_stored w1 k) (ks_stored w2 k).
Proof.
  revert w known. induction g1 as [|[j [Y e y]] g1 IH]; intros w known Hok Hg Hj Hs.
  - destruct o as [X e x]. destruct Hs as (w1 & Hs1 & Hs). destruct Hj as [Hc Hj].
    exists w, w1. split_and!; [done|by exists w1|done|]. by eapply call_ok_evolves.
  - destruct Hs as (w1 & Hs1 & Hs). destruct Hj as [Hc Hj].
    edestruct (IH w1) as (wa & wb & Ha & Hb & Hrest & Hev); [by eapply ks_ok_step| |exact Hj|exact Hs|].
    + intros i' o' r Hin. destruct (decide (i' = j)) as [->|].
      * apply elem_of_app in Hin as [Hin|Hin]; [by eapply ks_answers|].
        destruct (Hg _ _ _ Hin). split; [|done]. by eapply ks_seen_step.
      * destruct (Hg _ _ _ Hin). split; [|done]. by eapply ks_seen_step.
    + exists wa, wb. split_and!; [by exists w1|done..].
Qed.
End Interleaving.
End Cluster.
