(* ===== verification/ClusterFacts.v ===== *)
(** * The cluster-wide guarantees

    For every interleaving of API requests, reconciliations and scheduled
    restarts, cut short anywhere, on a server with stale reads: each stored
    recommendation stays well-formed and changes along the state machine only. *)
From S2P Require Import Prelude GoFloat External ApiTypes Effects World.
From S2P Require Import Http Approval Owner Applier Notifier NotifierFacts Controller Restart ApiServer Handlers.
From S2P Require Import Lifecycle LifecycleFacts Cluster.
Local Open Scope Z_scope.
Local Open Scope ovro_scope.

(** Membership of closed lists, decided by computation. *)
Ltac is_in := refine (bool_decide_eq_true_1 _ _); reflexivity.
Ltac not_in H := exfalso; revert H; refine (bool_decide_eq_false_1 _ _); reflexivity.

Section Activities.
Context `{P : Platform} `{GI : GoImpl} `{J : JwtLib}.

(** ** The API server as a whole *)
Definition passes (h : Handler) : Prop := ∀ known w r, gwp known (h w r) anything.

Lemma passes_quiet (h : Handler) : (∀ w r, only quiet (h w r)) → passes h.
Proof. intros Hq known w r. by apply gwp_quiet. Qed.

Lemma passes_auth cs next : passes next → passes (AuthMiddleware cs next).
Proof.
  intros Hn known w r. unfold AuthMiddleware.
  destruct (String.eqb _ _); [done|]. destruct (negb cs); [done|].
  gwp_step. gwp_step. intros [tr|]; [|done]. destruct (negb _); [done|].
  gwp_step. gwp_step. intros [[|]|]; [|done..]. apply Hn.
Qed.

Lemma passes_routes s : tame_server s → Forall (λ rt, passes (rt_Handler rt)) (registerRoutes s).
Proof.
  intros Hs. pose proof (quiet_readers s) as Hq.
  unfold registerRoutes.
  repeat (apply Forall_cons_2); [..|apply Forall_nil_2]; cbn [rt_Handler]; try apply passes_auth;
    first [ by intros ???; apply gwp_handleApply | by intros ???; apply gwp_handleRevert
          | by intros ???; apply gwp_handleReject | by intros ???; apply gwp_handleOwnerApprove
          | by intros ???; apply gwp_handleOwnerReject
          | apply passes_quiet; intros w r; destruct (Hq w r) as (?&?&?&?&?&?&?&?); assumption ].
Qed.

Lemma find_route_passes routes method path h pv :
  Forall (λ rt, passes (rt_Handler rt)) routes → find_route routes method path = Some (h, pv) → passes h.
Proof.
  induction 1 as [|rt routes Hrt _ IH]; [done|]. cbn [find_route].
  destruct (if method_matches _ _ then _ else _); [by intros [= <- <-]|done].
Qed.

Lemma passes_ServeHTTP s : tame_server s → passes (ServeHTTP s).
Proof.
  intros Hs known w r. unfold ServeHTTP. destruct (negb _); [done|].
  destruct (find_route _ _ _) as [[h pv]|] eqn:E; [|by destruct (existsb _ _)].
  apply (find_route_passes _ _ _ _ _ (passes_routes s Hs) E).
Qed.

(** ** Activities *)
Inductive activity : list (obs Ev) → Prop :=
| act_request s w r tr out :
    tame_server s → runs (ServeHTTP s w r) tr out → activity tr
| act_reconcile (PQ : PrometheusQuerier) rec req tr out :
    quiet_querier PQ → tame_reconciler rec → runs (Reconcile rec req) tr out → activity tr
| act_restart a req tr out :
    runs (@RestartReconcile _ (applier_restarter a) req) tr out → activity tr.

Lemma activity_justified tr : activity tr → justified_trace [] tr.
Proof.
  destruct 1; (eapply gwp_runs; [|done]).
  - by apply passes_ServeHTTP.
  - by apply gwp_Reconcile.
  - apply gwp_RestartReconcile.
Qed.

(** A process: activities one after another, the last one perhaps cut short. *)
Definition process (tr : list (obs Ev)) : Prop :=
  ∃ trs, Forall activity trs ∧ tr `prefix_of` concat trs.

Lemma justified_trace_prefix known tr1 tr2 :
  justified_trace known (tr1 ++ tr2) → justified_trace known tr1.
Proof.
  revert known. induction tr1 as [|[X e x] tr1 IH]; intros known; simpl; [done|].
  intros [? ?]. split; [done|]. by apply IH.
Qed.

Lemma process_justified tr : process tr → justified_trace [] tr.
Proof.
  intros (trs & Ha & rest & Heq). apply (justified_trace_prefix _ _ rest). rewrite <-Heq. clear Heq.
  induction Ha as [|t trs Ht _ IH]; [done|]. simpl.
  apply justified_trace_app; [by apply activity_justified|done].
Qed.
End Activities.

Section Invariant.
Context `{P : Platform}.

(** ** Well-formed recommendations *)
Definition all_states : list string :=
  [StatePending; StateAwaitingApproval; StateAppliedPendingRestart; StateApplied; StateReverted; StateFailed].

Record healthy (r : RightsizingRecommendation) : Prop := {
  h_state : rr_state r ∈ "" :: all_states;
  (** an approval request has an owner and a time *)
  h_awaiting : rr_state r = StateAwaitingApproval →
    st_Owner (rr_Status r) ≠ "" ∧ st_NotifiedAt (rr_Status r) ≠ None;
  (** past pending there is a size to go back to *)
  h_revert : rr_state r ∈ tail all_states → st_RevertConfig (rr_Status r) ≠ None;
  (** and it is the size on record *)
  h_current c : st_RevertConfig (rr_Status r) = Some c → c = sp_Current (rr_Spec r)
}.

Lemma revert_config_current r : revert_config r = Some (sp_Current (rr_Spec r)).
Proof. unfold revert_config. by destruct (sp_Current _). Qed.

Lemma healthy_persist r r' :
  rr_Spec r' = rr_Spec r → rr_Status r' = persist (rr_Status r) → healthy r → healthy r'.
Proof.
  intros Hsp Hst [H1 H2 H3 H4]. split; unfold rr_state in *; rewrite ?Hsp, Hst; simpl; auto.
  intros Ha. destruct (H2 Ha) as [? Hn]. split; [done|]. by destruct (st_NotifiedAt _).
Qed.

(** The states the code distinguishes are different strings. *)
Ltac states :=
  unfold rr_state, in_state, all_states, StatePending, StateAwaitingApproval, StateAppliedPendingRestart,
    StateApplied, StateReverted, StateFailed in *; simpl in *.

Lemma healthy_applied r r' :
  rr_Spec r' = rr_Spec r → st_RevertConfig (rr_Status r') = Some (sp_Current (rr_Spec r)) →
  rr_state r' ∈ [StateApplied; StateAppliedPendingRestart; StateFailed; StateReverted] → healthy r'.
Proof.
  intros Hsp Hr Hst. split.
  - set_solver.
  - intros Ha. rewrite Ha in Hst. not_in Hst.
  - by rewrite Hr.
  - rewrite Hr, Hsp. by intros c [= <-].
Qed.

(** Past pending the size to go back to is the one on record. *)
Lemma healthy_revert r : healthy r → rr_state r ∈ tail all_states →
  st_RevertConfig (rr_Status r) = Some (sp_Current (rr_Spec r)).
Proof.
  intros [_ _ Hr Hc] Hin. destruct (st_RevertConfig _) as [c|] eqn:E; [|by destruct (Hr Hin)].
  by rewrite (Hc c).
Qed.

Lemma healthy_pending r r' :
  rr_Spec r' = rr_Spec r → st_RevertConfig (rr_Status r') = st_RevertConfig (rr_Status r) →
  rr_state r' = StatePending → healthy r → healthy r'.
Proof.
  intros Hsp Hr Hst [_ _ _ H4]. split; rewrite ?Hst, ?Hr, ?Hsp; auto.
  - is_in.
  - intros Hin. not_in Hin.
Qed.

Lemma transition_healthy r r' : transition r r' → healthy r → healthy r'.
Proof.
  intros Ht Hh. destruct Ht as [owner tok now Hst Ho|req now r' Hst Ha|now r' Hst Ha|owner req now r' Hst Ha
    |who reason now Hst|now n Hst|now n now' Hst|now|Hst Hrev|a now now' Hst|a now e Hst].
  - split; simpl; [is_in|done|intros _; by rewrite revert_config_current|].
    rewrite revert_config_current. by intros c [= <-].
  - apply apply_state_meta in Ha as (_ & Hsp & Hs & Hr & _).
    apply (healthy_applied r); [done|rewrite Hr; apply revert_config_current|destruct Hs as [-> | ->]; set_solver].
  - apply (healthy_applied r); destruct Ha; try done; try apply revert_config_current;
      is_in.
  - apply apply_state_meta in Ha as (_ & Hsp & Hs & Hr & _).
    apply (healthy_applied r); [done| |destruct Hs as [-> | ->]; set_solver].
    rewrite Hr. refine (healthy_revert r Hh _). rewrite Hst. is_in.
  - by apply (healthy_pending r).
  - by apply (healthy_pending r).
  - destruct Hh as [Ha Hb Hc Hd]. by split.
  - destruct Hh as [Ha Hb Hc Hd]. by split.
  - apply (healthy_applied r); [done| |is_in].
    refine (healthy_revert r Hh _).
    destruct Hst as [-> | ->]; is_in.
  - apply (healthy_applied r); [done| |is_in].
    refine (healthy_revert r Hh _). rewrite Hst. is_in.
  - apply (healthy_applied r); [done| |is_in].
    refine (healthy_revert r Hh _). rewrite Hst. is_in.
Qed.

Lemma healthy_zero r : rr_Status r = zero_Status → healthy r.
Proof.
  intros Hz. split; unfold rr_state; rewrite Hz; try done; simpl.
  - set_solver.
  - intros Hin. not_in Hin.
Qed.

Lemma healthy_revise r r' :
  rr_Status r' = rr_Status r → sp_Current (rr_Spec r') = sp_Current (rr_Spec r) →
  healthy r → healthy r'.
Proof. intros Hs Hc [Ha Hb Hcc Hd]. split; unfold rr_state in *; rewrite ?Hs, ?Hc; auto. Qed.

Lemma healthy_kept : kept healthy.
Proof.
  intros o o' Hev HI r' Hr'. destruct Hev; simplify_eq; auto using healthy_zero.
  - by eapply healthy_revise; [| |apply HI].
  - eapply healthy_persist; [|done|apply (healthy_pending r); [done|done|done|by apply HI]]. done.
  - destruct (transition_meta _ _ H) as [_ Hsp].
    eapply healthy_persist; [|done|by eapply transition_healthy, HI]. congruence.
Qed.
End Invariant.

Section Theorems.
Context `{P : Platform} `{GI : GoImpl} `{J : JwtLib}.
Context {W : Type} `{AS : !ApiServer W} `{!ApiServerLaws W}.

(** C1: Recommendations stay well-formed.  Start from a cluster without
    recommendations and let any number of processes, each handling API requests,
    reconciling VMs and restarting on schedule, interleave in any way, read stale
    objects, have calls fail, and stop anywhere.  Every stored recommendation is
    then in a known state, awaits approval only with an owner and a notification
    time, and from the moment it leaves pending holds the size to revert to,
    which is the size on record. *)
Theorem cluster_invariant (g : log) (w0 w : W) :
  ks_ok w0 → (∀ k, ks_stored w0 k = None) →
  (∀ i, process (proj i g)) → steps ks_step w0 (g.*2) w →
  ∀ k r, ks_stored w k = Some r → healthy r.
Proof.
  intros Hok Hempty Hproc Hs.
  apply (interleaving_invariant healthy (λ _, []) g w0 w healthy_kept Hok); [|..|exact Hs|].
  - intros i o r Hin. by apply not_elem_of_nil in Hin.
  - apply justified_log_proj. intros i. by apply process_justified.
  - intros k r Hr. rewrite Hempty in Hr. done.
Qed.

(** ** The state machine *)
Definition edges : list (string * string) := [
  (StatePending, StateAwaitingApproval); (StatePending, StateApplied);
  (StatePending, StateAppliedPendingRestart); (StatePending, StateFailed);
  (StateAwaitingApproval, StatePending); (StateAwaitingApproval, StateApplied);
  (StateAwaitingApproval, StateAppliedPendingRestart);
  (StateAppliedPendingRestart, StateApplied); (StateAppliedPendingRestart, StateFailed);
  (StateAppliedPendingRestart, StateReverted); (StateApplied, StateReverted)].

Lemma transition_edge r r' : transition r r' →
  rr_state r' = rr_state r ∨ (rr_state r, rr_state r') ∈ edges.
Proof.
  unfold in_state.
  destruct 1 as [owner tok now Hst Ho|req now r' Hst Ha|now r' Hst Ha|owner req now r' Hst Ha
    |who reason now Hst|now n Hst|now n now' Hst|now|Hst Hrev|a now now' Hst|a now e Hst];
    try (by left); right; try (rewrite Hst).
  - is_in.
  - apply apply_state_meta in Ha as (_ & _ & [-> | ->] & _); is_in.
  - destruct Ha; is_in.
  - apply apply_state_meta in Ha as (_ & _ & [-> | ->] & _); is_in.
  - is_in.
  - is_in.
  - destruct Hst as [-> | ->]; is_in.
  - is_in.
  - is_in.
Qed.

(** C2: The state machine holds whatever interleaves.  In a run of the cluster every
    single call leaves each stored recommendation's state as it is or moves it
    along one of eleven edges (or from nothing to its first state), and while a
    recommendation is applied, waiting for its restart or awaiting approval its
    content (what the owner was asked about) does not change. *)
Theorem cluster_state_machine g1 i o g2 (w0 w : W) :
  ks_ok w0 → (∀ j, process (proj j (g1 ++ (i, o) :: g2))) →
  steps ks_step w0 ((g1 ++ (i, o) :: g2).*2) w →
  ∃ w1 w2, steps ks_step w0 (g1.*2) w1 ∧ steps ks_step w1 [o] w2 ∧ steps ks_step w2 (g2.*2) w ∧
    ∀ k r r', ks_stored w1 k = Some r → ks_stored w2 k = Some r' →
      (rr_state r' = rr_state r ∨ (rr_state r, rr_state r') ∈ edges
       ∨ rr_Status r = zero_Status ∧ rr_state r' = StatePending) ∧
      (protected_state (rr_state r) = true → rr_Spec r' = rr_Spec r).
Proof.
  intros Hok Hproc Hs.
  destruct (interleaving_evolves (λ _, []) g1 i o g2 w0 w Hok) as (w1 & w2 & H1 & H2 & H3 & Hev).
  - intros j o' r Hin. by apply not_elem_of_nil in Hin.
  - apply justified_log_proj. intros j. by apply process_justified.
  - done.
  - exists w1, w2. split_and!; [done..|]. intros k r r' Hr Hr'. specialize (Hev k).
    rewrite Hr, Hr' in Hev. inversion Hev as [|?|? ? Hp ? Hst|? ? ? Hz ? Hsp Hst|? r0 ? Ht ? Hsp Hst|]; subst.
    + auto.
    + split; [left; unfold rr_state; by rewrite Hst|congruence].
    + split; [|done]. right; right. split; [done|]. unfold rr_state. by rewrite Hst.
    + split; [|done]. assert (rr_state r' = rr_state r0) as -> by (unfold rr_state; by rewrite Hst).
      destruct (transition_edge _ _ Ht); auto.
Qed.
End Theorems.
