(* ===== verification/InMemory.v ===== *)
(** * An API server in memory

    A concrete server for the interface of [Cluster]: a map of objects, a counter
    for the versions, and the list of every object ever stored, any of which a
    read may still return.  A write is refused on a stale version, may fail, and
    may take effect although its answer is lost.  It discharges the laws, so that
    the cluster's theorems apply to it. *)
From S2P Require Import Prelude External ApiTypes Effects World Lifecycle Cluster.
Local Open Scope Z_scope.

Section InMemory.
Context `{P : Platform}.

Record Store : Type := {
  im_map : gmap NamespacedName RightsizingRecommendation;
  im_seen : list RightsizingRecommendation;
  im_next : nat
}.

Definition no_objects : Store := {| im_map := ∅; im_seen := []; im_next := O |}.

(** An object as stored: the server sets the version. *)
Definition stamp (st : Store) (key : NamespacedName) (spec : RightsizingRecommendationSpec)
    (status : RightsizingRecommendationStatus) : RightsizingRecommendation := {|
  rr_Meta := {| om_Name := nn_Name key; om_Namespace := nn_Namespace key;
                om_ResourceVersion := itoa (Z.of_nat (im_next st)) |};
  rr_Spec := spec; rr_Status := status |}.

Definition put (st : Store) (r : RightsizingRecommendation) : Store := {|
  im_map := <[rr_key r := r]> (im_map st); im_seen := r :: im_seen st; im_next := S (im_next st) |}.
Definition remove (st : Store) (key : NamespacedName) : Store := {|
  im_map := delete key (im_map st); im_seen := im_seen st; im_next := im_next st |}.

Definition admits (r cur : RightsizingRecommendation) : bool :=
  String.eqb (om_ResourceVersion (rr_Meta r)) (om_ResourceVersion (rr_Meta cur))
  || String.eqb (om_ResourceVersion (rr_Meta r)) "".

(** The object a write would store, if it is accepted. *)
Definition created (st : Store) (r : RightsizingRecommendation) : option RightsizingRecommendation :=
  match im_map st !! rr_key r with
  | Some _ => None
  | None => Some (stamp st (rr_key r) (rr_Spec r) zero_Status)
  end.
Definition updated (st : Store) (r : RightsizingRecommendation) : option RightsizingRecommendation :=
  cur ← im_map st !! rr_key r;
  if admits r cur then Some (stamp st (rr_key r) (rr_Spec r) (rr_Status cur)) else None.
Definition status_updated (st : Store) (r : RightsizingRecommendation) : option RightsizingRecommendation :=
  cur ← im_map st !! rr_key r;
  if admits r cur then Some (stamp st (rr_key r) (rr_Spec cur) (persist (rr_Status r))) else None.

Definition written (st : Store) (o : option RightsizingRecommendation)
    (x : result RightsizingRecommendation) (st' : Store) : Prop :=
  match x with
  | Ok r => o = Some r ∧ st' = put st r
  | Err _ => st' = st ∨ ∃ r, o = Some r ∧ st' = put st r
  end.

Definition im_step X (st : Store) (e : Ev X) : X → Store → Prop :=
  match e in Ev X return X → Store → Prop with
  | KGetRec key => λ x st', st' = st ∧ ∀ r, x = Ok r → r ∈ im_seen st ∧ rr_key r = key
  | KListRec _ => λ x st', st' = st ∧ ∀ l, x = Ok l → ∀ r, r ∈ l → r ∈ im_seen st
  | KCreateRec r => written st (created st r)
  | KUpdateRec r => written st (updated st r)
  | KUpdateRecStatus r => written st (status_updated st r)
  | KDeleteRec key => λ x st', (st' = st ∧ x ≠ Ok tt) ∨ st' = remove st key
  | _ => λ _ st', st' = st
  end.

(** Versions are numbers below the counter and tell objects apart. *)
Record im_ok (st : Store) : Prop := {
  im_stored key r : im_map st !! key = Some r → r ∈ im_seen st ∧ rr_key r = key;
  im_versions r : r ∈ im_seen st →
    ∃ n, (n < im_next st)%nat ∧ om_ResourceVersion (rr_Meta r) = itoa (Z.of_nat n);
  im_unique r r' : r ∈ im_seen st → r' ∈ im_seen st →
    om_ResourceVersion (rr_Meta r) = om_ResourceVersion (rr_Meta r') → r = r'
}.

#[export] Instance in_memory : ApiServer Store := {|
  ks_step := im_step; ks_stored := λ st key, im_map st !! key;
  ks_seen := λ st r, r ∈ im_seen st; ks_ok := im_ok |}.

Lemma no_objects_ok : im_ok no_objects.
Proof. split; set_solver. Qed.

(** ** The operations keep the store well-formed *)
Lemma itoa_nonempty z : itoa z ≠ "".
Proof.
  unfold itoa. destruct z as [|p|p]; cbn; [done| |done].
  destruct (Pos.to_uint p) eqn:E; by apply DecimalPos.Unsigned.to_uint_nonnil in E || done.
Qed.

Lemma put_ok st r : im_ok st → om_ResourceVersion (rr_Meta r) = itoa (Z.of_nat (im_next st)) → im_ok (put st r).
Proof.
  intros [H1 H2 H3] Hv. assert (∀ r', r' ∈ im_seen st → om_ResourceVersion (rr_Meta r') ≠ om_ResourceVersion (rr_Meta r)) as Hnew.
  { intros r' Hin. destruct (H2 _ Hin) as (n & Hn & ->). rewrite Hv. intros ?%itoa_inj. lia. }
  split; simpl.
  - intros key r' [[<- <-]|[_ Hl]]%lookup_insert_Some; [by split; [left|]|].
    destruct (H1 _ _ Hl). by split; [right|].
  - intros r' [->|Hin]%elem_of_cons; [by exists (im_next st); split; [lia|]|].
    destruct (H2 _ Hin) as (n & Hn & ->). by exists n; split; [lia|].
  - intros r1 r2 [->|H]%elem_of_cons [->|H']%elem_of_cons He; [done|by destruct (Hnew _ H')|by destruct (Hnew _ H)|by apply H3].
Qed.

Lemma remove_ok st key : im_ok st → im_ok (remove st key).
Proof. intros [H1 H2 H3]. split; simpl; [|done..]. intros key' r [_ Hl]%lookup_delete_Some. by apply H1. Qed.

Lemma written_cases st o x st' : written st o x st' → st' = st ∨ ∃ r, o = Some r ∧ st' = put st r.
Proof. destruct x; [|done]. intros [-> ->]. eauto. Qed.

(** What is stored by a write carries the next version and the key written to. *)
Lemma stamped st r o : o ∈ [created st r; updated st r; status_updated st r] → ∀ r', o = Some r' →
  om_ResourceVersion (rr_Meta r') = itoa (Z.of_nat (im_next st)) ∧ rr_key r' = rr_key r.
Proof.
  intros Hin r' ->. unfold created, updated, status_updated in Hin.
  assert (∃ spec status, r' = stamp st (rr_key r) spec status) as (spec & status & ->).
  { destruct (im_map st !! rr_key r) as [cur|]; cbn in Hin; [destruct (admits r cur)|]; set_solver. }
  done.
Qed.

Lemma im_step_seen X st (e : Ev X) x st' : im_step X st e x st' →
  st' = st ∨ (∃ key, st' = remove st key) ∨
  ∃ r, st' = put st r ∧ om_ResourceVersion (rr_Meta r) = itoa (Z.of_nat (im_next st)).
Proof.
  assert (∀ r o x', o ∈ [created st r; updated st r; status_updated st r] → written st o x' st' →
    st' = st ∨ (∃ key, st' = remove st key) ∨
    ∃ r, st' = put st r ∧ om_ResourceVersion (rr_Meta r) = itoa (Z.of_nat (im_next st))) as Hw.
  { intros r o x' Hin [->|(r' & Ho & ->)]%written_cases; [by left|].
    right; right. exists r'. split; [done|]. by eapply stamped. }
  destruct e; simpl; try (by intros ->; left); try (by intros [-> _]; left);
    try (apply (Hw r _ x); set_solver).
  intros [ [-> _] | -> ]; eauto.
Qed.

Lemma admits_same st r cur : im_ok st → im_map st !! rr_key r = Some cur → admits r cur = true → same_version r cur.
Proof.
  intros Hok Hl [Hv|Hv]%orb_true_iff; apply String.eqb_eq in Hv; [left|by right].
  destruct (im_stored _ Hok _ _ Hl) as [_ Hk]. unfold rr_key in Hk.
  destruct (rr_Meta r), (rr_Meta cur); simpl in *. congruence.
Qed.

Lemma put_lookup st r key k : rr_key r = key →
  im_map (put st r) !! k = if decide (k = key) then Some r else im_map st !! k.
Proof.
  intros <-. simpl. destruct (decide _) as [->|]; [by rewrite lookup_insert_eq|by rewrite lookup_insert_ne].
Qed.

Lemma im_changes X st (e : Ev X) x st' : im_ok st → im_step X st e x st' → store_change st st' X e.
Proof.
  intros Hok. destruct e; simpl; try (by intros ->; constructor); try (by intros [-> _]; constructor).
  - intros [->|(r' & Ho & ->)]%written_cases; [by constructor|].
    destruct (stamped st r (created st r) ltac:(set_solver) r' Ho) as [_ Hk]. unfold created in Ho.
    destruct (im_map st !! rr_key r) eqn:Hl; [done|]. injection Ho as <-.
    eapply sc_create; [done|exact Hk|done|]. intros k. by apply put_lookup.
  - intros [->|(r' & Ho & ->)]%written_cases; [by constructor|].
    destruct (stamped st r (updated st r) ltac:(set_solver) r' Ho) as [_ Hk]. unfold updated in Ho.
    apply bind_Some in Ho as (cur & Hl & Ho). destruct (admits r cur) eqn:Ha; [|done]. injection Ho as <-.
    eapply sc_update; [done|by eapply admits_same|exact Hk|done|done|]. intros k. by apply put_lookup.
  - intros [->|(r' & Ho & ->)]%written_cases; [by constructor|].
    destruct (stamped st r (status_updated st r) ltac:(set_solver) r' Ho) as [_ Hk]. unfold status_updated in Ho.
    apply bind_Some in Ho as (cur & Hl & Ho). destruct (admits r cur) eqn:Ha; [|done]. injection Ho as <-.
    eapply sc_status; [done|by eapply admits_same|exact Hk|done|done|]. intros k. by apply put_lookup.
  - intros [ [-> _] | -> ]; [by constructor|]. apply sc_delete. intros k. simpl.
    destruct (decide _) as [->|]; [by rewrite lookup_delete_eq|by rewrite lookup_delete_ne].
Qed.

Lemma im_answers X st (e : Ev X) x st' o r : im_step X st e x st' → (o, r) ∈ answers (Obs e x) →
  r ∈ im_seen st' ∧ (o = Created → rr_Status r = zero_Status).
Proof.
  destruct e; simpl; try (by intros _ ?%not_elem_of_nil).
  - intros [-> Hx]. destruct x as [r'|]; [|by intros ?%not_elem_of_nil].
    intros [= -> ->]%list_elem_of_singleton. split; [|done]. by apply Hx.
  - intros [-> Hx]. destruct x as [l|]; [|by intros ?%not_elem_of_nil].
    intros (r' & [= -> ->] & Hin)%list_elem_of_fmap. split; [|done]. by eapply Hx.
  - destruct x as [r'|]; [|by intros _ ?%not_elem_of_nil]. intros [Ho ->] [= -> ->]%list_elem_of_singleton.
    split; [by left|]. intros _. unfold created in Ho. destruct (im_map st !! _); by simplify_eq.
  - destruct x as [r'|]; [|by intros _ ?%not_elem_of_nil]. intros [Ho ->] [= -> ->]%list_elem_of_singleton.
    by split; [left|].
  - destruct x as [r'|]; [|by intros _ ?%not_elem_of_nil]. intros [Ho ->] [= -> ->]%list_elem_of_singleton.
    by split; [left|].
Qed.

#[export] Instance in_memory_laws : ApiServerLaws Store.
Proof.
  split; simpl.
  - intros X st e x st' Hok [->|[[key ->]|(r & -> & Hv)]]%im_step_seen; [done|by apply remove_ok|by apply put_ok].
  - intros X st e x st' r [->|[[key ->]|(r' & -> & _)]]%im_step_seen; [done..|]. by right.
  - intros st k r Hok. apply im_stored, Hok.
  - intros st r r' Hok Hr Hr' Hm. apply (im_unique _ Hok); [done..|]. by rewrite Hm.
  - intros st r Hok Hr. destruct (im_versions _ Hok _ Hr) as (n & _ & ->). apply itoa_nonempty.
  - intros X st e x st' o r _. by apply im_answers.
  - intros X st e x st' Hok. by apply im_changes.
Qed.
End InMemory.
