(* ===== verification/AuthFacts.v ===== *)
(** * Who may do what

    The authentication middleware is a gate; what it authorizes is what the
    handler acts on; lists are cut down to the namespaces the user may read; and
    no request makes the server panic. *)
From S2P Require Import Prelude GoStrings GoFloat GoJson External ApiTypes Effects World.
From S2P Require Import Http Approval Owner Applier Notifier NotifierFacts Controller ApiServer Handlers Lifecycle LifecycleFacts.
Local Open Scope Z_scope.
Local Open Scope ovro_scope.

(** ** Paths *)
Definition slash : Ascii.ascii := chr 47.
Fixpoint has_byte (c : Ascii.ascii) (s : string) : bool :=
  match s with "" => false | String d s' => Ascii.eqb c d || has_byte c s' end.

Lemma Split_plain s sep : has_byte sep s = false → Split s sep = [s].
Proof.
  induction s as [|c s IH]; simpl; [done|]. rewrite Ascii.eqb_sym.
  intros [-> Hs]%orb_false_iff. by rewrite IH.
Qed.

Lemma Split_app s sep t : has_byte sep s = false →
  Split (s +:+ String sep t) sep = s :: Split t sep.
Proof.
  induction s as [|c s IH]; intros Hs.
  - change ("" +:+ String sep t) with (String sep t). cbn [Split]. by rewrite Ascii.eqb_refl.
  - simpl in Hs. apply orb_false_iff in Hs as [Hc Hs]. rewrite Ascii.eqb_sym in Hc.
    change (String c s +:+ String sep t) with (String c (s +:+ String sep t)).
    cbn [Split]. by rewrite Hc, IH.
Qed.

Lemma Split_join segs sep : segs ≠ [] → Forall (λ s, has_byte sep s = false) segs →
  Split (join sep segs) sep = segs.
Proof.
  intros Hne Hf. induction Hf as [|s segs Hs Hf IH]; [done|]. destruct segs as [|s' segs].
  - by apply Split_plain.
  - change (join sep (s :: s' :: segs)) with (s +:+ String sep (join sep (s' :: segs))).
    rewrite Split_app by done. by rewrite IH.
Qed.

Definition plain_path (r : Request) : Prop :=
  rq_Segments r ≠ [] ∧ Forall (λ s, has_byte slash s = false) (rq_Segments r).

Lemma TrimPrefix_slash s : TrimPrefix ("/" +:+ s) "/" = s.
Proof.
  unfold TrimPrefix. rewrite HasPrefix_app. apply (take_drop_app "/" s).
Qed.

Lemma path_parts_segments r : plain_path r → path_parts (URL_Path r) = rq_Segments r.
Proof.
  intros [Hne Hf]. unfold path_parts, URL_Path. rewrite TrimPrefix_slash. by apply Split_join.
Qed.

Section AuthFacts.
Context `{P : Platform} `{J : JwtLib}.

(** ** The gate *)
Definition user_of (t : TokenReviewStatus) : UserInfo :=
  {| ui_Username := tr_Username t; ui_UID := tr_UID t; ui_Groups := tr_Groups t |}.
Definition review_of (u : UserInfo) (r : Request) : SubjectAccessReviewSpec := {|
  sar_User := ui_Username u; sar_Groups := ui_Groups u;
  sar_Verb := httpMethodToVerb (rq_Method r); sar_Group := api_group;
  sar_Resource := resourceFromPath (URL_Path r);
  sar_Namespace := extractNamespaceFromPath (URL_Path r) |}.

(** The two calls that let a request through. *)
Definition admission (r : Request) (t : TokenReviewStatus) : list (obs Ev) :=
  [Obs (TokenReview (extractBearerToken r)) (Ok t);
   Obs (SubjectAccessReview (review_of (user_of t) r)) (Ok true)].

(** The calls of a denied request: reviews only. *)
Definition is_review (X : Type) (e : Ev X) : Prop :=
  match e with TokenReview _ | SubjectAccessReview _ => True | _ => False end.
Definition review_call (o : obs Ev) : Prop := match o with Obs e _ => is_review _ e end.

Lemma middleware_runs cs next w r tr out :
  runs (AuthMiddleware cs next w r) tr out →
  (∃ msg code, out = Returns (http_Error msg code w) ∧ code ∈ [401; 403; 500] ∧ Forall review_call tr) ∨
  (∃ t rest, tr = admission r t ++ rest ∧ extractBearerToken r ≠ "" ∧ cs = true ∧
     tr_Authenticated t = true ∧ runs (next w (WithUser (user_of t) r)) rest out).
Proof.
  unfold AuthMiddleware. destruct (String.eqb_spec (extractBearerToken r) "") as [|Htok].
  { intros [-> ->]. left. do 2 eexists. split_and!; [done|set_solver|done]. }
  destruct cs; cbn [negb].
  2: { intros [-> ->]. left. do 2 eexists. split_and!; [done|set_solver|done]. }
  intros ([t|e] & tr1 & -> & H); cbn [runs mbind prog_mbind prog_bind call mret prog_ret] in H.
  2: { destruct H as [-> ->]. left. do 2 eexists. split_and!; [done|set_solver|by repeat constructor]. }
  destruct (tr_Authenticated t) eqn:Ha; cbn [negb] in H.
  2: { destruct H as [-> ->]. left. do 2 eexists. split_and!; [done|set_solver|by repeat constructor]. }
  destruct H as ([[|]|e] & tr2 & -> & H).
  - right. exists t, tr2. done.
  - destruct H as [-> ->]. left. do 2 eexists. split_and!; [done|set_solver|by repeat constructor].
  - destruct H as [-> ->]. left. do 2 eexists. split_and!; [done|set_solver|by repeat constructor].
Qed.

(** C26: The middleware is a gate.  A request either is answered 401, 403 or 500
    after review calls only, without the handler running; or it carries a token
    that the token review accepted and a subject access review, for that very
    user, the verb of the method, and the resource and namespace of the path,
    was allowed, and then the handler runs, as that user. *)
Theorem middleware_gate cs next w r tr out :
  w_sent w = None → runs (AuthMiddleware cs next w r) tr out →
  (∃ w', out = Returns w' ∧ Status w' ∈ [401; 403; 500] ∧ Forall review_call tr) ∨
  (∃ t rest, tr = admission r t ++ rest ∧ extractBearerToken r ≠ "" ∧
     tr_Authenticated t = true ∧ runs (next w (WithUser (user_of t) r)) rest out).
Proof.
  intros Hw [(msg & code & -> & Hc & Hf)|(t & rest & ? & ? & ? & ? & ?)]%middleware_runs; [left|right].
  - eexists. split_and!; [done| |done]. by rewrite Status_http_Error.
  - by exists t, rest.
Qed.

Lemma only_runs (G : ∀ X, Ev X → Prop) {A} (p : prog Ev A) tr out :
  only G p → runs p tr out → Forall (λ o, match o with Obs e _ => G _ e end) tr.
Proof.
  revert tr. induction p as [a|m|X e k IH]; intros tr; simpl.
  - intros _ [-> _]. constructor.
  - intros _ [-> _]. constructor.
  - intros [He Hk] (x & tr' & -> & Hr). constructor; [done|]. by eapply IH.
Qed.

(** ** What an admitted request may do

    [key] is the object of its path, [whole] whether the review was about the whole
    cluster, [u] the user, and [seen] the recommendations read.  It may read and
    patch that object only, write the status of what it read only, look up the VM
    that this is about with its namespace, list and read or write the policy only
    with access to the whole cluster, and ask about the user's own access; the
    clock and the notifiers are free. *)
Definition in_scope (key : NamespacedName) (whole : bool) (u : UserInfo) (seen : list RightsizingRecommendation)
    (X : Type) (e : Ev X) : Prop :=
  match e with
  | KGetRec k => k = key
  | KUpdateRecStatus r => rr_key r = key ∧ ∃ rec, rec ∈ seen ∧ rr_Meta r = rr_Meta rec ∧ rr_Spec r = rr_Spec rec
  | DynPatchVM k patch subresources =>
      k = key ∧ subresources = [] ∧ (patch = exclude_patch (JString "true") ∨ patch = exclude_patch JNull)
  | KGetVM k => ∃ rec, rec ∈ seen ∧ k = vm_of rec
  | KGetNamespaceLabels ns => ∃ rec, rec ∈ seen ∧ ns = nn_Namespace (vm_of rec)
  | KListRec _ | DynListVMs | KGetPolicy _ | KUpdatePolicy _ => whole = true
  | SubjectAccessReview spec => sar_User spec = ui_Username u ∧ sar_Groups spec = ui_Groups u
  | TimeNow | ParseURL _ | HttpDo _ | Smtp _ => True
  | KCreateRec _ | KUpdateRec _ | KDeleteRec _ | DynGetVM _ | KGetSecretData _ | TokenReview _ => False
  end.
Definition obs_in_scope key whole u seen (o : obs Ev) : Prop := match o with Obs e _ => in_scope key whole u seen _ e end.

(** The API server returns an object under the key asked for. *)
Definition under_key (o : obs Ev) : Prop :=
  match o with
  | Obs e x => match e in Ev X return X → Prop with
               | KGetRec k => λ x, ∀ r, x = Ok r → rr_key r = k | _ => λ _, True end x
  end.

Section Scoped.
Context (key : NamespacedName) (whole : bool) (u : UserInfo).

Definition seen_by (o : obs Ev) : list RightsizingRecommendation :=
  match obs_read o with Some r => [r] | None => [] end.

Fixpoint scoped {A} (seen : list RightsizingRecommendation) (p : prog Ev A) : Prop :=
  match p with
  | Return _ | Crash _ => True
  | Vis e k => in_scope key whole u seen _ e ∧ ∀ x, under_key (Obs e x) → scoped (seen_by (Obs e x) ++ seen) (k x)
  end.

Lemma in_scope_mono seen seen' X (e : Ev X) : seen ⊆ seen' → in_scope key whole u seen X e → in_scope key whole u seen' X e.
Proof. intros Hs. destruct e; simpl; naive_solver. Qed.

Lemma scoped_bind {A B} seen (p : prog Ev A) (f : A → prog Ev B) :
  scoped seen p → (∀ a seen', seen ⊆ seen' → scoped seen' (f a)) → scoped seen (p ≫= f).
Proof.
  unfold mbind, prog_mbind. revert seen. induction p as [a|m|X e k IH]; intros seen; cbn [scoped prog_bind]; [auto|done|].
  intros [He Hk] Hf. split; [done|]. intros x Hx. apply IH; [by apply Hk|]. intros a seen' Hs. apply Hf. set_solver.
Qed.

Lemma scoped_only {A} seen (p : prog Ev A) : only (in_scope key whole u []) p → scoped seen p.
Proof.
  revert seen. induction p as [a|m|X e k IH]; intros seen; simpl; [done..|]. intros [He Hk].
  split; [eapply in_scope_mono, He; set_solver|]. intros x _. by apply IH.
Qed.

Lemma scoped_runs {A} seen (p : prog Ev A) tr out :
  scoped seen p → Forall under_key tr → runs p tr out → Forall (obs_in_scope key whole u (reads tr ++ seen)) tr.
Proof.
  revert seen tr. induction p as [a|m|X e k IH]; intros seen tr; cbn [scoped runs]; [by intros _ _ [-> _]..|].
  intros [He Hk] Hu (x & tr' & -> & Hr). apply Forall_cons in Hu as [Hx Hu]. constructor.
  - cbn [obs_in_scope]. eapply in_scope_mono, He. set_solver.
  - specialize (IH x _ tr' (Hk x Hx) Hu Hr). eapply Forall_impl; [exact IH|]. intros [Y e' y] Hy. refine (in_scope_mono _ _ _ _ _ Hy).
    change (reads (Obs e x :: tr')) with (reads ([Obs e x] ++ tr')). rewrite reads_app.
    assert (reads [Obs e x] = seen_by (Obs e x)) as -> by (unfold seen_by; cbn; by destruct (obs_read (Obs e x))). set_solver.
Qed.

Lemma scoped_tame {A} seen (p : prog Ev A) : tame p → scoped seen p.
Proof. intros [_ H]. apply scoped_only. eapply only_mono; [|exact H]. by intros X []. Qed.

(** Writing the status of what was read. *)
Lemma scoped_update seen rec rec' w (k : RightsizingRecommendation → prog Ev (ResponseWriter ApiBody)) :
  rec ∈ seen → rr_key rec = key → rr_Meta rec' = rr_Meta rec → rr_Spec rec' = rr_Spec rec →
  (∀ x seen', scoped seen' (k x)) → scoped seen (update_or_error rec' w k).
Proof.
  intros Hin Hk Hm Hs Hrest. unfold update_or_error. apply scoped_bind.
  - split; [|done]. split; [unfold rr_key in *; by rewrite Hm|eauto].
  - intros [x|e] seen' _; [apply Hrest|done].
Qed.
End Scoped.

(** The reading of the path's object, the answers being stored under their key. *)
Lemma scoped_read whole u key (f : result RightsizingRecommendation → prog Ev (ResponseWriter ApiBody)) :
  (∀ e, scoped key whole u [] (f (Err e))) →
  (∀ rec, rr_key rec = key → scoped key whole u [rec] (f (Ok rec))) →
  scoped key whole u [] (got ← call (KGetRec key); f got).
Proof. intros He Ho. split; [done|]. intros [rec|e] Hk; [apply Ho, Hk; done|apply He]. Qed.

Lemma scoped_can_access key whole user seen s ns verb :
  scoped key whole user seen (canUserAccessNamespace s (Some user) ns verb).
Proof. unfold canUserAccessNamespace. by destruct (s_Clientset s). Qed.
Lemma scoped_filter_namespaces {A} key whole user seen s (ns_of : A → string) checked items :
  scoped key whole user seen (filter_namespaces s user ns_of checked items).
Proof.
  revert seen checked. induction items as [|i items IH]; intros seen checked; [done|].
  cbn [filter_namespaces]. apply scoped_bind.
  - unfold check_namespace. destruct (checked !! _); [done|].
    apply scoped_bind; [apply scoped_can_access|done].
  - intros [b checked'] seen' _. apply scoped_bind; [apply IH|done].
Qed.
Lemma scoped_filter key whole user seen s r items : UserInfoFromContext r = Some user →
  scoped key whole user seen (filterByNamespaceAccess s r items).
Proof. intros Hu. unfold filterByNamespaceAccess. rewrite Hu. apply scoped_filter_namespaces. Qed.

(** Handlers of an object, and of the whole cluster. *)
Definition scoped_handler (whole : bool) (h : Handler) : Prop :=
  ∀ w r u, UserInfoFromContext r = Some u → scoped (path_key r) whole u [] (h w r).

Lemma scoped_direct whole u seen req rec w r :
  rec ∈ seen → rr_key rec = path_key r → scoped (path_key r) whole u seen (handleApply_direct req rec w r).
Proof.
  intros Hin Hk. split; [done|]. intros now _. cbn zeta. cbn [mbind prog_mbind prog_bind].
  destruct (apply_state req now _) as [rec'|] eqn:Ha; [|done]. apply apply_state_meta in Ha as (Hm & Hs & _).
  by apply (scoped_update _ _ _ _ rec); [set_solver|..].
Qed.

Lemma scoped_resolve whole u seen res rec key : rec ∈ seen →
  scoped key whole u seen (ResolveOwner res (nn_Name (vm_of rec)) (nn_Namespace (vm_of rec))).
Proof.
  intros Hin. split; [by exists rec|]. intros [vm|e] _; [|done]. cbn. destruct (GetLabels vm !! _); [done|].
  split; [exists rec; split; [set_solver|done]|]. intros [l|e] _; [|done]. cbn. by destruct (l !! _).
Qed.

Lemma scoped_token key whole u seen tm ns name owner ttl : scoped key whole u seen (GenerateToken tm ns name owner ttl).
Proof. by split. Qed.

Lemma scoped_handleApply s : tame_server s → scoped_handler false (handleApply s).
Proof.
  intros Hs w r u Hu. unfold handleApply. destruct (DecodeBody _ _ _ _) as [req|]; [|done].
  apply scoped_read; [done|]. intros rec Hk. destruct (negb _); [done|].
  pose proof (scoped_direct false u [rec] req rec w r (list_elem_of_here _ _) Hk) as Hd.
  destruct (s_DemoMode s), (s_TokenManager s) as [tm|]; try by destruct (s_OwnerResolver s).
  { unfold handleApply_demo. apply scoped_bind; [apply scoped_token|]. intros [tok|] seen' Hin; [|done].
    split; [done|]. intros now _. apply (scoped_update _ _ _ _ rec); [set_solver|done..]. }
  destruct (s_OwnerResolver s) as [res|], (s_Notifier s) as [d|] eqn:Hn; try done.
  apply scoped_bind; [apply (scoped_resolve _ _ _ _ rec), list_elem_of_here|]. intros o seen1 H1. destruct (negb _).
  2: { apply scoped_direct; [set_solver|done]. }
  unfold handleApply_owner. apply scoped_bind; [apply scoped_token|]. intros [tok|] seen2 H2; [|done].
  split; [done|]. intros now _. apply (scoped_update _ _ _ _ rec); [set_solver|done..|].
  intros x seen3. apply scoped_bind; [by apply scoped_tame, tame_SendAll, Hs|done].
Qed.

Lemma scoped_objects s :
  scoped_handler false (handleGetRecommendation s) ∧ scoped_handler false (handleRevert s) ∧
  scoped_handler false (handleExclude s) ∧ scoped_handler false (handleRemoveExclusion s) ∧
  scoped_handler false (handleReject s).
Proof.
  split_and!; intros w r u Hu.
  - by apply scoped_read.
  - apply scoped_read; [done|]. intros rec Hk. destruct (_ && _); [done|]. destruct (st_RevertConfig _); [|done].
    by apply (scoped_update _ _ _ _ rec); [apply list_elem_of_here|..].
  - unfold handleExclude. destruct (negb _); [done|]. split; [by split_and!; [..|left]|]. by intros [|] _.
  - unfold handleRemoveExclusion. destruct (negb _); [done|]. split; [by split_and!; [..|right]|]. by intros [|] _.
  - unfold handleReject. destruct (DecodeBody _ _ _ _); [|done]. apply scoped_read; [done|]. intros rec Hk.
    destruct (negb _); [done|]. split; [done|]. intros now _. rewrite Hu.
    by apply (scoped_update _ _ _ _ rec); [apply list_elem_of_here|..].
Qed.

Lemma scoped_collections s :
  scoped_handler true (handleListRecommendations s) ∧ scoped_handler true (handleOverview s) ∧
  scoped_handler true (handleListVMs s) ∧ scoped_handler true (handleGetPolicy s) ∧ scoped_handler true (handleUpdatePolicy s).
Proof.
  split_and!; intros w r u Hu.
  - split; [done|]. intros [l|] _; [|done]. apply scoped_bind; [by apply scoped_filter|done].
  - split; [done|]. intros [l|] _; [|done]. apply scoped_bind; [by apply scoped_filter|done].
  - unfold handleListVMs. destruct (negb _); [done|]. rewrite Hu. split; [done|]. intros [l|] _; [|done].
    apply scoped_bind; [apply scoped_filter_namespaces|done].
  - split; [done|]. intros [|] _; [done|]. apply scoped_only. unfold defaultPolicy. by destruct DefaultPolicySpec.
  - unfold handleUpdatePolicy. destruct (DecodeBody _ _ _ _); [|done]. destruct (validate_policy _); [done|].
    split; [done|]. intros [|] _; [|done]. split; [done|]. by intros [|] _.
Qed.

(** ** Routes *)

(** A route of an object or of the whole cluster, behind the middleware, or an
    internal one. *)
Definition item_pattern (pat : list segment) : Prop :=
  ∃ res rest, pat = Lit "api" :: Lit "v1" :: Lit res :: Wild "namespace" :: Wild "name" :: rest ∧
    (res = "recommendations" ∨ res = "vms").
Definition collection_pattern (pat : list segment) : Prop := ∃ res, pat = [Lit "api"; Lit "v1"; Lit res].

Definition authorized_route (s : Server) (rt : Route) : Prop :=
  ∃ h whole, rt_Handler rt = AuthMiddleware (s_Clientset s) h ∧ scoped_handler whole h ∧
    if (whole : bool) then collection_pattern (rt_Pattern rt) else item_pattern (rt_Pattern rt).

Lemma routes_split s : tame_server s →
  Forall (λ rt, authorized_route s rt ∨ rt_Pattern rt !! 2%nat = Some (Lit "internal")) (registerRoutes s).
Proof.
  intros Hs. destruct (scoped_objects s) as (?&?&?&?&?), (scoped_collections s) as (?&?&?&?&?).
  pose proof (scoped_handleApply s Hs).
  unfold registerRoutes.
  repeat (apply Forall_cons_2); [..|apply Forall_nil_2];
    first [ by right
          | left; eexists _, true; by split_and!; [..|eexists]
          | left; eexists _, false; by split_and!; [..|do 2 eexists; eauto] ].
Qed.

Lemma match_lookup pat path pv i l : match_segments pat path = Some pv →
  pat !! i = Some (Lit l) → path !! i = Some l.
Proof.
  revert path pv i. induction pat as [|[l'|n] pat IH]; intros [|x path] pv [|i]; simpl; try done.
  - destruct (String.eqb_spec l' x); [|done]. intros _ [= ->]. by subst.
  - destruct (String.eqb l' x); [|done]. apply IH.
  - destruct (String.eqb x ""); [done|].
    destruct (match_segments pat path) eqn:E; [|done]. intros _. by eapply IH.
Qed.

Lemma match_Lit l pat path pv : match_segments (Lit l :: pat) path = Some pv →
  ∃ path', path = l :: path' ∧ match_segments pat path' = Some pv.
Proof. destruct path as [|x path]; simpl; [done|]. destruct (String.eqb_spec l x) as [->|]; [eauto|done]. Qed.
Lemma match_Wild n pat path pv : match_segments (Wild n :: pat) path = Some pv →
  ∃ x path' m, path = x :: path' ∧ x ≠ "" ∧ match_segments pat path' = Some m ∧ pv = (n, x) :: m.
Proof.
  destruct path as [|x path]; simpl; [done|]. destruct (String.eqb_spec x ""); [done|].
  destruct (match_segments pat path) eqn:E; simpl; [|done]. intros [= <-]. eauto 7.
Qed.

(** On a routed path the namespace the middleware asks about is the one the
    handler is given; paths without one have no namespace on either side. *)
Lemma item_namespace pat r pv : item_pattern pat → plain_path r →
  match_segments pat (rq_Segments r) = Some pv →
  ∃ ns name, ns ≠ "" ∧ extractNamespaceFromPath (URL_Path r) = ns ∧ path_key (WithPathValues pv r) = NSName ns name ∧
    nth 3 (rq_Segments r) "" = ns ∧ nth 4 (rq_Segments r) "" = name.
Proof.
  intros (res & rest & -> & Hres) Hplain Hm. unfold extractNamespaceFromPath. rewrite path_parts_segments by done.
  apply match_Lit in Hm as (p1 & Hs & Hm). apply match_Lit in Hm as (p2 & -> & Hm).
  apply match_Lit in Hm as (p3 & -> & Hm). apply match_Wild in Hm as (ns & p4 & m & -> & Hne & Hm & ->).
  apply match_Wild in Hm as (name & p5 & m' & -> & _ & _ & ->). rewrite Hs.
  exists ns, name. by destruct Hres as [-> | ->].
Qed.

Lemma collection_namespace pat r pv : collection_pattern pat → plain_path r →
  match_segments pat (rq_Segments r) = Some pv →
  extractNamespaceFromPath (URL_Path r) = "" ∧ nn_Namespace (path_key (WithPathValues pv r)) = "".
Proof.
  intros (res & ->) Hplain Hm. unfold extractNamespaceFromPath. rewrite path_parts_segments by done.
  apply match_Lit in Hm as (p1 & Hs & Hm). apply match_Lit in Hm as (p2 & -> & Hm).
  apply match_Lit in Hm as (p3 & -> & Hm). rewrite Hs. destruct p3; [|done]. by injection Hm as <-.
Qed.

Lemma find_route_in routes method path h pv :
  find_route routes method path = Some (h, pv) →
  ∃ rt, rt ∈ routes ∧ h = rt_Handler rt ∧ match_segments (rt_Pattern rt) path = Some pv.
Proof.
  induction routes as [|rt routes IH]; [done|]. cbn [find_route].
  destruct (method_matches (rt_Method rt) method); [destruct (match_segments _ _) as [pv'|] eqn:E|].
  - intros [= <- <-]. exists rt. split_and!; [apply list_elem_of_here|done..].
  - intros H. destruct (IH H) as (rt' & ? & ?). exists rt'. split; [by right|done].
  - intros H. destruct (IH H) as (rt' & ? & ?). exists rt'. split; [by right|done].
Qed.

(** C3: What is authorized is what is acted on.  Take any request outside the
    internal endpoints whose path segments hold no slash.  Either it causes
    nothing but review calls; or it was admitted by a token review and an access
    review, for its method and the namespace of its path, and everything it then
    does stays within that: with a namespace, it reads or patches only the object
    that the path names there, writes only the status of the recommendation it
    read, looks up only the VM that this recommendation is about, and creates,
    deletes and lists nothing; lists, the overview and the policy take an access
    review for all namespaces; and any further access review is for the same
    user.  (API server answers are taken to be stored under the key asked for.) *)
Theorem authorized_scope s w r tr out :
  tame_server s → plain_path r → nth 2 (rq_Segments r) "" ≠ "internal" → Forall under_key tr →
  runs (ServeHTTP s w r) tr out →
  Forall review_call tr ∨
  ∃ t key rest, let ns := sar_Namespace (review_of (user_of t) r) in
    tr = admission r t ++ rest ∧ tr_Authenticated t = true ∧ nn_Namespace key = ns ∧
    (ns ≠ "" → key = NSName (nth 3 (rq_Segments r) "") (nth 4 (rq_Segments r) "")) ∧
    Forall (obs_in_scope key (String.eqb ns "") (user_of t) (reads rest)) rest.
Proof.
  intros Hs Hplain Hint Hkeys. unfold ServeHTTP. destruct (negb _); [intros [-> _]; by left|].
  destruct (find_route _ _ _) as [[h pv]|] eqn:E.
  2: { destruct (existsb _ _); intros [-> _]; by left. }
  apply find_route_in in E as (rt & Hin & -> & Hm).
  destruct (proj1 (Forall_forall _ _) (routes_split s Hs) _ Hin) as [(h & whole & -> & Hk & Hpat)|Hi].
  2: { apply (match_lookup _ _ _ _ _ Hm) in Hi. destruct Hint. by apply nth_lookup_Some with (d := "") in Hi. }
  intros [(msg & code & _ & _ & Hf)|(t & rest & -> & _ & _ & Ha & Hr)]%middleware_runs; [by left|].
  right. exists t, (path_key (WithPathValues pv r)), rest. apply Forall_app in Hkeys as [_ Hkeys].
  pose proof (scoped_runs _ _ _ _ _ _ _ (Hk w (WithUser (user_of t) (WithPathValues pv r)) (user_of t) eq_refl) Hkeys Hr) as Hsc.
  rewrite app_nil_r in Hsc. change (path_key (WithUser _ ?r')) with (path_key r') in Hsc.
  change (sar_Namespace (review_of (user_of t) r)) with (extractNamespaceFromPath (URL_Path r)). cbn zeta.
  destruct whole.
  - destruct (collection_namespace _ _ _ Hpat Hplain Hm) as [-> ->]. by split_and!.
  - destruct (item_namespace _ _ _ Hpat Hplain Hm) as (ns & name & Hne & -> & Hkey & H3 & H4). rewrite Hkey in Hsc |- *.
    split_and!; [done..|by rewrite H3, H4|]. by rewrite (proj2 (String.eqb_neq _ _) Hne).
Qed.

(** ** Namespace filtering *)
Definition namespace_review (u : UserInfo) (ns : string) : SubjectAccessReviewSpec := {|
  sar_User := ui_Username u; sar_Groups := ui_Groups u; sar_Verb := "get"; sar_Group := api_group;
  sar_Resource := "rightsizingrecommendations"; sar_Namespace := ns |}.

(** The answers of a run, as a function of the namespace, on top of those known. *)
Definition allowed_by (checked : gmap string bool) (asked : list (string * bool)) (ns : string) : bool :=
  default (default false (snd <$> List.find (λ p, String.eqb p.1 ns) asked)) (checked !! ns).

Lemma check_namespace_runs s u checked ns tr out :
  s_Clientset s = true → runs (check_namespace s u checked ns) tr out →
  ∃ allowed, out = Returns (allowed, <[ns := allowed]> checked) ∧
    ((checked !! ns = Some allowed ∧ tr = []) ∨
     (checked !! ns = None ∧ reviews tr = [(namespace_review u ns, allowed)])).
Proof.
  intros Hc. unfold check_namespace, canUserAccessNamespace. rewrite Hc.
  destruct (checked !! ns) as [b|] eqn:E.
  - intros [-> ->]. exists b. split; [by rewrite insert_id|auto].
  - intros (res & tr' & -> & -> & ->). eexists. split; [done|]. right. by destruct res.
Qed.

(** The namespaces of [items] that are not settled yet, each once, in order. *)
Fixpoint new_namespaces {A} (ns_of : A → string) (known : gset string) (items : list A) : list string :=
  match items with
  | [] => []
  | i :: items' =>
      if decide (ns_of i ∈ known) then new_namespaces ns_of known items'
      else ns_of i :: new_namespaces ns_of ({[ns_of i]} ∪ known) items'
  end.

Lemma filter_namespaces_runs {A} s u (ns_of : A → string) checked items tr out :
  s_Clientset s = true → runs (filter_namespaces s u ns_of checked items) tr out →
  ∃ allow : string → bool,
    (∀ ns b, checked !! ns = Some b → allow ns = b) ∧
    out = Returns (List.filter (λ i, allow (ns_of i)) items) ∧
    reviews tr = ((λ ns, (namespace_review u ns, allow ns)) <$> new_namespaces ns_of (dom checked) items).
Proof.
  intros Hc. revert checked tr out. induction items as [|i items IH]; intros checked tr out; cbn [filter_namespaces].
  - intros [-> ->]. exists (λ ns, default false (checked !! ns)). split_and!; [by intros ? ? ->|done..].
  - intros [([b checked'] & tr1 & tr2 & -> & H1 & H2)|(m & -> & H1)]%runs_bind.
    2: { by apply (check_namespace_runs _ _ _ _ _ _ Hc) in H1 as (? & ? & _). }
    apply (check_namespace_runs _ _ _ _ _ _ Hc) in H1 as (b' & [= -> ->] & Hcase).
    apply runs_bind in H2 as [(l & tr3 & tr4 & -> & H3 & [-> ->])|(m & -> & H3)].
    2: { by apply IH in H3 as (? & _ & ? & _). }
    apply IH in H3 as (allow & Hall & [= ->] & Hrev). rewrite app_nil_r, reviews_app.
    exists allow. assert (allow (ns_of i) = b') as Hb by (apply Hall, lookup_insert_eq).
    split_and!.
    + intros ns b Hns. destruct (decide (ns = ns_of i)) as [->|Hne].
      * destruct Hcase as [[? _]|[? _]]; congruence.
      * apply Hall. by rewrite lookup_insert_ne.
    + cbn [List.filter]. by rewrite Hb.
    + rewrite Hrev, dom_insert_L. cbn [new_namespaces]. destruct Hcase as [[Hin ->]|[Hin ->]].
      * rewrite decide_True by (by apply elem_of_dom). simpl.
        assert ({[ns_of i]} ∪ dom checked = dom checked) as ->; [|done].
        apply elem_of_dom_2 in Hin. set_solver.
      * rewrite decide_False by (by rewrite elem_of_dom, Hin; intros []). cbn. by rewrite Hb.
Qed.

(** Without a client every namespace is refused. *)
Lemma filter_namespaces_denied {A} s u (ns_of : A → string) checked items tr out :
  s_Clientset s = false → (∀ ns, default false (checked !! ns) = false) →
  runs (filter_namespaces s u ns_of checked items) tr out → out = Returns [].
Proof.
  intros Hc. revert checked tr out. induction items as [|i items IH]; intros checked tr out Hall;
    cbn [filter_namespaces]; [by intros [_ ->]|].
  assert (∀ tr out, runs (check_namespace s u checked (ns_of i)) tr out →
    ∃ checked', out = Returns (false, checked') ∧ ∀ ns, default false (checked' !! ns) = false) as Hcheck.
  { intros tr' out'. unfold check_namespace, canUserAccessNamespace. rewrite Hc.
    pose proof (Hall (ns_of i)) as Hi. destruct (checked !! ns_of i) as [b|] eqn:E; intros [-> ->].
    - simpl in Hi. subst b. eauto.
    - eexists. split; [done|]. intros ns. destruct (decide (ns = ns_of i)) as [->|].
      + by rewrite lookup_insert_eq.
      + by rewrite lookup_insert_ne. }
  intros [([b checked'] & tr1 & tr2 & -> & H1 & H2)|(m & -> & H1)]%runs_bind.
  2: { by apply Hcheck in H1 as (? & ? & _). }
  apply Hcheck in H1 as (c & [= -> ->] & Hall').
  apply runs_bind in H2 as [(l & tr3 & tr4 & -> & H3 & [_ ->])|(m & -> & H3)];
    by apply (IH _ _ _ Hall') in H3 as [= ->].
Qed.

Lemma new_namespaces_NoDup {A} (ns_of : A → string) known items :
  NoDup (new_namespaces ns_of known items) ∧
  ∀ ns, ns ∈ new_namespaces ns_of known items ↔ ns ∉ known ∧ ns ∈ ns_of <$> items.
Proof.
  revert known. induction items as [|i items IH]; intros known; simpl.
  - split; [constructor|]. set_solver.
  - destruct (decide _) as [Hin|Hn].
    + destruct (IH known) as [H1 H2]. split; [done|]. set_solver.
    + destruct (IH ({[ns_of i]} ∪ known)) as [H1 H2]. split.
      * constructor; [|done]. rewrite H2. set_solver.
      * intros ns. rewrite elem_of_cons, H2. destruct (decide (ns = ns_of i)); set_solver.
Qed.

(** C27: A list shows exactly what the user may read.  Cutting a list of
    recommendations down asks about each of their namespaces once, as the user
    with the verb get, and keeps, in order, the items of the namespaces where the
    answer was yes (an error counts as no).  Without a user or an access review
    client nothing is shown. *)
Theorem filterByNamespaceAccess_exact s r items tr out :
  runs (filterByNamespaceAccess s r items) tr out →
  match UserInfoFromContext r with
  | Some u =>
      if s_Clientset s then
        ∃ (allow : string → bool) namespaces,
          out = Returns (List.filter (λ i, allow (om_Namespace (rr_Meta i))) items) ∧
          NoDup namespaces ∧ (∀ ns, ns ∈ namespaces ↔ ∃ i, i ∈ items ∧ om_Namespace (rr_Meta i) = ns) ∧
          reviews tr = ((λ ns, (namespace_review u ns, allow ns)) <$> namespaces)
      else out = Returns []
  | None => out = Returns []
  end.
Proof.
  unfold filterByNamespaceAccess. destruct (UserInfoFromContext r) as [u|]; [|by intros [_ ->]].
  destruct (s_Clientset s) eqn:Hc.
  - intros Hr. apply (filter_namespaces_runs _ _ _ _ _ _ _ Hc) in Hr as (allow & _ & -> & Hrev).
    rewrite dom_empty_L in Hrev.
    destruct (new_namespaces_NoDup (λ i, om_Namespace (rr_Meta i)) ∅ items) as [Hnd Hin].
    eexists _, _. split_and!; [done|exact Hnd| |exact Hrev].
    intros ns. rewrite Hin, list_elem_of_fmap. set_solver.
  - intros Hr. eapply filter_namespaces_denied; [done| |exact Hr]. intros ns. by rewrite lookup_empty.
Qed.
End AuthFacts.
