(* ===== verification/HandlerFacts.v ===== *)
(** * What the handlers do to recommendations

    Success is reported exactly when the write was acknowledged; a request in the
    wrong state is refused and changes nothing; applying asks the owner that a
    lookup finds. *)
From S2P Require Import Prelude GoStrings GoTime GoJson External ApiTypes Effects World.
From S2P Require Import Http Approval Owner Notifier NotifierFacts ApiServer Handlers Lifecycle LifecycleFacts.
From S2P Require Controller.
Local Open Scope Z_scope.
Local Open Scope ovro_scope.

Section HandlerFacts.
Context `{P : Platform} `{J : JwtLib}.
Implicit Types (s : Server) (w : ResponseWriter ApiBody) (r : Request).

(** ** Writes of a status, with whether they were acknowledged *)
Definition obs_status_write (o : obs Ev) : option (RightsizingRecommendation * bool) :=
  match obs_write o with Some (WStatus rec, ok) => Some (rec, ok) | _ => None end.
Definition status_writes (tr : list (obs Ev)) : list (RightsizingRecommendation * bool) :=
  omap obs_status_write tr.

Lemma status_writes_app tr1 tr2 : status_writes (tr1 ++ tr2) = status_writes tr1 ++ status_writes tr2.
Proof. apply omap_app. Qed.

Lemma quiet_status_writes {A} (p : prog Ev A) tr out : only quiet p → runs p tr out → status_writes tr = [].
Proof.
  revert tr. induction p as [a|m|X e k IH]; intros tr; simpl; [by intros _ [-> _]..|].
  intros [He Hk] (x & tr' & -> & Hr). unfold status_writes. cbn [omap list_omap].
  replace (obs_status_write (Obs e x)) with (@None (RightsizingRecommendation * bool)) by by destruct e.
  by apply IH with x.
Qed.












(** The handlers that take a recommendation from the state they need. *)
Definition deciders s : list (Handler * list string) := [
  (handleApply s, [StatePending]);
  (handleRevert s, [StateApplied; StateAppliedPendingRestart]);
  (handleReject s, [StateAwaitingApproval]);
  (handleOwnerApprove s, [StateAwaitingApproval]);
  (handleOwnerReject s, [StateAwaitingApproval])].












(** ** The state needed *)

(** The first call reads the object of the path; unless it is in a state of
    [needs] the answer is 409 and nothing more happens. *)
Definition guarded (needs : list string) w r (p : prog Ev (ResponseWriter ApiBody)) : Prop :=
  ∀ tr out rec, runs p tr out → reads tr = [rec] → rr_state rec ∉ needs →
    tr = [Obs (KGetRec (path_key r)) (Ok rec)] ∧ ∃ msg, out = Returns (http_Error msg 409 w).

Lemma guarded_error needs w r w' : guarded needs w r (mret w').
Proof. by intros tr out rec [-> _]. Qed.

Lemma guarded_read needs w r (f : result RightsizingRecommendation → prog Ev (ResponseWriter ApiBody)) :
  (∀ e, ∃ w', f (Err e) = mret w') →
  (∀ rec, rr_state rec ∉ needs → ∃ msg, f (Ok rec) = mret (http_Error msg 409 w)) →
  guarded needs w r (got ← call (KGetRec (path_key r)); f got).
Proof.
  intros He Ho tr out rec (x & tr' & -> & Hr) Hreads Hst. change (runs (f x) tr' out) in Hr.
  destruct x as [rec'|e].
  - assert (rec' = rec) as -> by by injection Hreads.
    destruct (Ho _ Hst) as [msg Hm]. rewrite Hm in Hr. destruct Hr as [-> ->]. eauto.
  - destruct (He e) as [w' Hm]. rewrite Hm in Hr. by destruct Hr as [-> _].
Qed.

Lemma not_in_state rec st : rr_state rec ∉ [st] → negb (String.eqb (rr_state rec) st) = true.
Proof. intros H. apply negb_true_iff, String.eqb_neq. set_solver. Qed.

Ltac guard_tac :=
  apply guarded_read;
  [intros; by eexists
  |intros rec Hst; cbn; rewrite (not_in_state _ _ Hst); by eexists].

Lemma guarded_deciders s h needs w r : (h, needs) ∈ deciders s → guarded needs w r (h w r).
Proof.
  intros Hin. unfold deciders in Hin.
  repeat (apply elem_of_cons in Hin as [[= -> ->]|Hin]); [..|by apply not_elem_of_nil in Hin].
  - unfold handleApply. destruct (DecodeBody _ _ _ _); [|apply guarded_error]. guard_tac.
  - unfold handleRevert. apply guarded_read; [intros; by eexists|]. intros rec Hst. cbn.
    assert (rr_state rec ∉ [StateApplied] ∧ rr_state rec ∉ [StateAppliedPendingRestart]) as [H1 H2] by set_solver.
    rewrite (not_in_state _ _ H1), (not_in_state _ _ H2). by eexists.
  - unfold handleReject. destruct (DecodeBody _ _ _ _); [|apply guarded_error]. guard_tac.
  - unfold handleOwnerApprove. destruct (DecodeBody _ _ _ _); [|apply guarded_error]. guard_tac.
  - unfold handleOwnerReject. destruct (DecodeBody _ _ _ _); [|apply guarded_error]. guard_tac.
Qed.

(** C10: A decision taken in the wrong state is refused.  Apply needs a pending
    recommendation, revert an applied one (or one waiting for its restart), the
    other three one that awaits approval; when the object read is in any other
    state the answer is 409 and the read is the only call made. *)
Theorem wrong_state_refused s h needs w r tr out rec :
  w_sent w = None → (h, needs) ∈ deciders s → runs (h w r) tr out →
  reads tr = [rec] → rr_state rec ∉ needs →
  ∃ w', out = Returns w' ∧ Status w' = 409 ∧ tr = [Obs (KGetRec (path_key r)) (Ok rec)].
Proof.
  intros Hw Hin Hr Hreads Hst.
  destruct (guarded_deciders s h needs w r Hin tr out rec Hr Hreads Hst) as [-> [msg ->]].
  eexists. split_and!; [done| |done]. by apply Status_http_Error.
Qed.

(** ** A VM with an owner *)

Lemma GenerateToken_runs tm ns name owner ttl tr out :
  runs (GenerateToken tm ns name owner ttl) tr out →
  ∃ t0, tr = [Obs TimeNow t0] ∧ out = Returns (SignedString (tm_signingKey tm) (claims_for ns name owner ttl t0)).
Proof. intros (t & tr' & -> & -> & ->). eauto. Qed.

(** A request that asks for the approval of [owner]. *)
Definition asks tm (owner : string) r (rec rec' : RightsizingRecommendation) : Prop :=
  ∃ t0 now token,
    SignedString (tm_signingKey tm)
      (claims_for (PathValue r "namespace") (PathValue r "name") owner fourteenDays t0) = Ok token ∧
    rec' = Controller.await_approval owner token now rec.

Lemma handleApply_owner_runs s tm d owner rec w r tr out :
  tame_dispatcher d → runs (handleApply_owner s tm d owner rec w r) tr out →
  ∀ rec' ok, (rec', ok) ∈ status_writes tr → asks tm owner r rec rec'.
Proof.
  intros Hd Hr rec' ok. unfold handleApply_owner in Hr.
  apply runs_bind in Hr as [(tok & tr1 & tr2 & -> & H1 & Hr)|(m & -> & H1)].
  2: { by apply GenerateToken_runs in H1 as (t & -> & [=]). }
  apply GenerateToken_runs in H1 as (t0 & -> & [= ->]).
  destruct (SignedString _ _) as [token|] eqn:Hs; [|destruct Hr as [-> _]; by intros ?%not_elem_of_nil].
  destruct Hr as (now & tr3 & -> & x & tr4 & -> & Hr). destruct x as [x|e].
  2: { destruct Hr as [-> _]. intros [= -> _]%list_elem_of_singleton. by exists t0, now, token. }
  apply (runs_bind (SendAll d _)) in Hr as [(l & tr5 & tr6 & -> & H1 & [-> _])|(m & _ & H1)].
  all: apply quiet_status_writes in H1; [|by apply quiet_SendAll].
  all: cbn [app status_writes omap list_omap]; change (omap obs_status_write ?l) with (status_writes l).
  all: rewrite ?app_nil_r, ?H1; intros [= -> _]%list_elem_of_singleton; by exists t0, now, token.
Qed.

(** The change without anybody being asked, as the request wants it. *)
Definition applies_directly r (rec rec' : RightsizingRecommendation) : Prop :=
  ∃ req now, DecodeBody maxBodySize r decode_ApplyRequest zero_ApplyRequest = Some req ∧
    apply_state req now (rec |> upd_Status (set_RevertConfig (Controller.revert_config rec))) = Some rec'.

Lemma handleApply_direct_runs req rec w r tr out :
  DecodeBody maxBodySize r decode_ApplyRequest zero_ApplyRequest = Some req →
  runs (handleApply_direct req rec w r) tr out →
  ∀ rec' ok, (rec', ok) ∈ status_writes tr → applies_directly r rec rec'.
Proof.
  intros Hd (now & tr1 & -> & Hr) rec' ok. change (status_writes _) with (status_writes tr1).
  cbn [runs mbind prog_mbind prog_bind] in Hr. cbn zeta in Hr.
  destruct (apply_state _ _ _) as [rec1|] eqn:Ha; [|by destruct Hr as [-> _]; intros ?%not_elem_of_nil].
  destruct Hr as (x & tr2 & -> & Hr). assert (tr2 = []) as -> by (by destruct x, Hr as [-> _]).
  intros [= -> _]%list_elem_of_singleton. by exists req, now.
Qed.

(** C7: Applying asks the owner that is found.  With owners, tokens and a notifier
    configured and demo mode off, a status that apply writes follows from the
    owner lookup it made for the VM of the pending recommendation it read.  With
    an owner (of the VM by its label, or else of its namespace) it is the status
    that awaits this owner's approval, with a token made out for this very
    recommendation and owner; without one it is the change as requested.  A lookup
    that fails counts as no owner, so then nobody is asked either. *)
Theorem apply_asks_owner s res tm d w r tr out rec' ok :
  s_DemoMode s = false → s_OwnerResolver s = Some res → s_TokenManager s = Some tm →
  s_Notifier s = Some d → tame_dispatcher d →
  runs (handleApply s w r) tr out → (rec', ok) ∈ status_writes tr →
  ∃ rec lookup found rest,
    tr = Obs (KGetRec (path_key r)) (Ok rec) :: lookup ++ rest ∧ in_state StatePending rec ∧
    resolved (vm_of rec) lookup found ∧
    match found with
    | Ok o => if String.eqb o "" then applies_directly r rec rec' else asks tm o r rec rec'
    | Err _ => applies_directly r rec rec'
    end.
Proof.
  intros Hdemo Hres Htm Hn Hd Hr Hin. unfold handleApply in Hr. rewrite Hdemo, Hres, Htm, Hn in Hr.
  destruct (DecodeBody _ _ _ _) as [req|] eqn:Hreq; [|destruct Hr as [-> _]; by apply not_elem_of_nil in Hin].
  destruct Hr as (x & tr1 & -> & Hr). destruct x as [rec|e].
  2: { destruct Hr as [-> _]. by apply not_elem_of_nil in Hin. }
  cbn [runs mbind prog_mbind prog_bind] in Hr.
  destruct (negb (String.eqb (rr_state rec) StatePending)) eqn:Hst.
  { destruct Hr as [-> _]. by apply not_elem_of_nil in Hin. }
  change (status_writes (Obs (KGetRec (path_key r)) (Ok rec) :: tr1)) with (status_writes tr1) in Hin.
  apply (runs_bind (ResolveOwner res _ _)) in Hr as [(oo & tr2 & tr3 & -> & H1 & Hr)|(m & _ & H1)].
  2: { by apply ResolveOwner_resolved in H1 as (? & ? & _). }
  rewrite status_writes_app, (quiet_status_writes _ _ _ (quiet_ResolveOwner _ _ _) H1) in Hin.
  apply ResolveOwner_resolved in H1 as (found & [= ->] & Hfound).
  exists rec, tr2, found, tr3. split; [reflexivity|]. split; [by apply state_eqb|]. split; [exact Hfound|].
  destruct found as [o|e]; [|exact (handleApply_direct_runs _ _ _ _ _ _ Hreq Hr _ _ Hin)].
  destruct (String.eqb o "") eqn:Ho; cbn [negb] in Hr; [exact (handleApply_direct_runs _ _ _ _ _ _ Hreq Hr _ _ Hin)|].
  exact (handleApply_owner_runs _ _ _ _ _ _ _ _ _ Hd Hr _ _ Hin).
Qed.
End HandlerFacts.
