(* ===== verification/PolicyFacts.v ===== *)
(** * Policy and overview

    A policy is written only when every bound holds, and refused without a call
    otherwise; the overview counts what it says; a rejection hides later
    reminders. *)
From S2P Require Import Prelude GoStrings GoTime GoJson GoFloat External ApiTypes Effects World.
From S2P Require Import Http Approval Owner Notifier NotifierFacts Controller ApiServer Handlers Lifecycle LifecycleFacts.
Local Open Scope Z_scope.
Local Open Scope ovro_scope.

Section PolicyFacts.
Context `{P : Platform} `{J : JwtLib}.

(** What a policy must satisfy. *)
Record policy_ok (p : RightsizingPolicySpec) : Prop := {
  pk_lookback : 1 <= ps_LookbackDays p <= 365;
  pk_percentile : 1 <= al_Percentile (ps_Algorithm p) <= 100;
  pk_headroom : 0 <= al_HeadroomPercent (ps_Algorithm p);
  pk_savings : 0 <= th_MinCPUSavings (ps_Thresholds p);
  pk_upsize : 1 <= th_UpsizeUtilizationPercent (ps_Thresholds p) <= 100;
  pk_interval : 0 < ps_ReconcileIntervalMinutes p;
  pk_retention : 0 < ps_RevertRetentionDays p
}.

Lemma if_complaint (b : bool) (msg : string) (rest : option string) :
  (if b then Some msg else rest) = None ↔ b = false ∧ rest = None.
Proof. destruct b; naive_solver. Qed.

Lemma validate_policy_ok p : validate_policy p = None ↔ policy_ok p.
Proof.
  unfold validate_policy. rewrite !if_complaint, !orb_false_iff, !Z.ltb_ge, !Z.leb_gt.
  split; [intros; split; lia|intros []; repeat split; lia].
Qed.

(** C23: The policy in force is always within bounds.  The policy handler writes a
    policy only if its spec is the one the body decodes to and satisfies every
    bound, on the object read before (name and version kept); a body that does
    not decode or breaks a bound is answered 400 and causes no call at all, and
    nothing but the policy is ever written. *)
Theorem handleUpdatePolicy_validates s w r tr out :
  w_sent w = None → runs (handleUpdatePolicy s w r) tr out →
  match DecodeBody maxBodySize r decode_PolicySpec zero_PolicySpec with
  | Some spec =>
      (policy_ok spec ∧ ∀ x ok, (x, ok) ∈ writes tr →
         ∃ p, Obs (KGetPolicy "default") (Ok p) ∈ tr ∧
           x = WPolicy {| rp_Name := rp_Name p; rp_ResourceVersion := rp_ResourceVersion p; rp_Spec := spec |}) ∨
      (¬ policy_ok spec ∧ tr = [] ∧ ∃ w', out = Returns w' ∧ Status w' = 400)
  | None => tr = [] ∧ ∃ w', out = Returns w' ∧ Status w' = 400
  end.
Proof.
  intros Hw Hr. unfold handleUpdatePolicy in Hr.
  destruct (DecodeBody _ _ _ _) as [spec|].
  2: { destruct Hr as [-> ->]. split; [done|]. eexists. split; [done|]. by apply Status_http_Error. }
  destruct (validate_policy spec) as [msg|] eqn:Hv.
  { right. rewrite <-validate_policy_ok, Hv. destruct Hr as [-> ->]. split_and!; [done|done|].
    eexists. split; [done|]. by apply Status_http_Error. }
  left. split; [by apply validate_policy_ok|]. intros x ok Hin.
  destruct Hr as (y & tr1 & -> & Hr). destruct y as [p|e].
  2: { destruct Hr as [-> _]. by apply not_elem_of_nil in Hin. }
  exists p. split; [apply list_elem_of_here|].
  destruct Hr as (y & tr2 & -> & Hr).
  assert (tr2 = []) as -> by (by destruct y, Hr as [-> _]).
  change (writes _) with
    [(WPolicy {| rp_Name := rp_Name p; rp_ResourceVersion := rp_ResourceVersion p; rp_Spec := spec |}, is_ok y)] in Hin.
  apply list_elem_of_singleton in Hin. by injection Hin as -> _.
Qed.

(** ** Overview *)
Definition is_pending (dir : string) (i : RightsizingRecommendation) : Prop :=
  sp_Direction (rr_Spec i) = dir ∧ rr_state i = StatePending.
#[export] Instance is_pending_dec dir i : Decision (is_pending dir i).
Proof. unfold is_pending. apply _. Defined.
Definition applied_since (t : Z) (i : RightsizingRecommendation) : Prop :=
  match st_AppliedAt (rr_Status i) with Some a => day_start t < a | None => False end.
#[export] Instance applied_since_dec t i : Decision (applied_since t i).
Proof. unfold applied_since. destruct (st_AppliedAt _); apply _. Defined.

Definition count (Q : RightsizingRecommendation → Prop) `{∀ i, Decision (Q i)}
    (items : list RightsizingRecommendation) : Z := Z.of_nat (length (filter Q items)).
Definition total (f : RightsizingRecommendation → Z) (items : list RightsizingRecommendation) : Z :=
  foldr (λ i a, f i + a) 0 (filter (is_pending DirectionDownsize) items).

Lemma count_cons Q `{∀ i, Decision (Q i)} i items :
  count Q (i :: items) = (if decide (Q i) then 1 else 0) + count Q items.
Proof. unfold count. rewrite filter_cons. destruct (decide (Q i)); cbn [length]; lia. Qed.
Lemma total_cons f i items :
  total f (i :: items) = (if decide (is_pending DirectionDownsize i) then f i else 0) + total f items.
Proof. unfold total. rewrite filter_cons. by destruct (decide _). Qed.

Definition saved_cpu (i : RightsizingRecommendation) : Z := sv_CPU (sp_Savings (rr_Spec i)).
Definition saved_memory (i : RightsizingRecommendation) : Z := Q_Value (sv_Memory (sp_Savings (rr_Spec i))).

(** A counter bumped by [d] when a condition holds, kept at its width. *)
Lemma bump w (b : bool) (Q : Prop) `{Decision Q} x d rest :
  (b = true ↔ Q) →
  wrap w ((if b then wrap w (x + d) else x) + rest) = wrap w (x + ((if decide Q then d else 0) + rest)).
Proof.
  intros [H1 H2]. destruct b, (decide Q) as [HQ|HQ]; try by (first [destruct (HQ (H1 eq_refl))|discriminate (H2 HQ)]).
  - rewrite wrap_add. f_equal. lia.
  - f_equal.
Qed.

Lemma down_iff i : (String.eqb (sp_Direction (rr_Spec i)) DirectionDownsize && String.eqb (rr_state i) StatePending = true)
  ↔ is_pending DirectionDownsize i.
Proof. by rewrite andb_true_iff, !String.eqb_eq. Qed.
Lemma up_iff i : (negb (String.eqb (sp_Direction (rr_Spec i)) DirectionDownsize)
  && String.eqb (sp_Direction (rr_Spec i)) DirectionUpsize && String.eqb (rr_state i) StatePending = true)
  ↔ is_pending DirectionUpsize i.
Proof.
  rewrite !andb_true_iff, !String.eqb_eq, negb_true_iff, String.eqb_neq. unfold is_pending.
  split; [naive_solver|]. intros [-> ?]. by split_and!.
Qed.
Lemma applied_iff t i : (match st_AppliedAt (rr_Status i) with Some a => day_start t <? a | None => false end = true)
  ↔ applied_since t i.
Proof. unfold applied_since. destruct (st_AppliedAt _); [apply Z.ltb_lt|done]. Qed.

Lemma overview_fold t items o :
  let o' := foldl (overview_add (day_start t)) o items in
  ov_TotalVMs o' = ov_TotalVMs o ∧
  wrap64 (ov_DownsizeCandidates o') = wrap64 (ov_DownsizeCandidates o + count (is_pending DirectionDownsize) items) ∧
  wrap64 (ov_UpsizeNeeded o') = wrap64 (ov_UpsizeNeeded o + count (is_pending DirectionUpsize) items) ∧
  wrap64 (ov_AppliedToday o') = wrap64 (ov_AppliedToday o + count (applied_since t) items) ∧
  wrap32 (ov_TotalCPUSavings o') = wrap32 (ov_TotalCPUSavings o + total saved_cpu items) ∧
  wrap64 (ov_TotalMemorySavings o') = wrap64 (ov_TotalMemorySavings o + total saved_memory items).
Proof.
  revert o. induction items as [|i items IH]; intros o; cbn [foldl].
  - unfold count, total. cbn. by rewrite !Z.add_0_r.
  - destruct (IH (overview_add (day_start t) o i)) as (H1 & H2 & H3 & H4 & H5 & H6).
    rewrite H1, H2, H3, H4, H5, H6, !count_cons, !total_cons. clear. unfold overview_add, wrap64, wrap32. cbn.
    split_and!; [done|apply bump..];
      first [apply down_iff|apply up_iff|apply applied_iff].
Qed.

Definition fits (o : OverviewResponse) : Prop :=
  int64_range (ov_DownsizeCandidates o) ∧ int64_range (ov_UpsizeNeeded o) ∧ int64_range (ov_AppliedToday o) ∧
  int32_range (ov_TotalCPUSavings o) ∧ int64_range (ov_TotalMemorySavings o).
Lemma overview_add_fits t o i : fits o → fits (overview_add t o i).
Proof.
  intros (?&?&?&?&?). unfold fits, overview_add. cbn. split_and!; repeat case_match;
    done || apply wrap64_range || apply wrap32_range.
Qed.

(** C24: The overview counts what it says: all items, the pending downsizes and
    upsizes among them, and those applied since midnight, exactly; the savings
    are the sums over the pending downsizes, brought to 32 and 64 bits. *)
Theorem overview_counts t items :
  Z.of_nat (length items) < 2 ^ 63 →
  overview_of t items = {|
    ov_TotalVMs := Z.of_nat (length items);
    ov_DownsizeCandidates := count (is_pending DirectionDownsize) items;
    ov_UpsizeNeeded := count (is_pending DirectionUpsize) items;
    ov_AppliedToday := count (applied_since t) items;
    ov_TotalCPUSavings := wrap32 (total saved_cpu items);
    ov_TotalMemorySavings := wrap64 (total saved_memory items) |}.
Proof.
  intros Hlen. unfold overview_of. set (o0 := {| ov_TotalVMs := _ |}).
  assert (fits (foldl (overview_add (day_start t)) o0 items)) as (F1 & F2 & F3 & F4 & F5).
  { assert (fits o0) as H0 by (unfold fits, int64_range, int32_range; cbn; lia).
    generalize o0, H0. clear. induction items as [|i items IH]; intros o Ho; [done|].
    apply IH. by apply overview_add_fits. }
  destruct (overview_fold t items o0) as (H1 & H2 & H3 & H4 & H5 & H6).
  rewrite (wrap64_id _ F1) in H2. rewrite (wrap64_id _ F2) in H3. rewrite (wrap64_id _ F3) in H4.
  rewrite (wrap32_id _ F4) in H5. rewrite (wrap64_id _ F5) in H6.
  assert (∀ Q `{∀ i, Decision (Q i)}, wrap64 (count Q items) = count Q items) as Hc.
  { intros Q ?. apply wrap64_id. unfold int64_range, count.
    pose proof (length_filter Q items). lia. }
  destruct (foldl _ o0 items) as [a b c d e f]. cbn in *. rewrite !Z.add_0_l in *.
  subst. by rewrite !Hc.
Qed.
End PolicyFacts.
