(* ===== verification/SafetyFacts.v ===== *)
(** * Nothing panics

    No request makes the API server panic and no reconciliation the controllers,
    whatever the environment answers: quantities the code parses with MustParse
    do parse, and a user is there where one is dereferenced. *)
From S2P Require Import Prelude GoStrings GoFloat GoJson External ApiTypes Effects World.
From S2P Require Import Http Approval Owner Applier Notifier NotifierFacts Controller Restart ApiServer Handlers.
From S2P Require Import Lifecycle LifecycleFacts.
From S2P Require Calculator.
Local Open Scope Z_scope.
Local Open Scope ovro_scope.

Create HintDb safe.

Section SafetyFacts.
Context `{P : Platform} `{PL : !PlatformLaws P} `{GI : GoImpl} `{J : JwtLib}.

Ltac safe_tac :=
  repeat first
    [ progress intros
    | exact I
    | solve [auto 3 with safe]
    | apply safe_bind
    | progress cbn [safe call mret prog_ret update_or_error UpdateStatus]
    | case_match ].

(** ** Quantities *)
Lemma MustParse_gi n : int32_range n → ∃ q, MustParse (itoa n +:+ "Gi") = Some q.
Proof. intros Hn. destruct (parse_gib n Hn) as (q & Hq & _). by exists q. Qed.

Lemma DefaultPolicySpec_ok : ∃ sp, DefaultPolicySpec = Some sp.
Proof.
  destruct (MustParse_gi 1) as [q1 H1]; [unfold int32_range; lia|].
  destruct (MustParse_gi 50) as [q2 H2]; [unfold int32_range; lia|].
  change (itoa 1 +:+ "Gi") with "1Gi" in H1. change (itoa 50 +:+ "Gi") with "50Gi" in H2.
  unfold DefaultPolicySpec. rewrite H1, H2. by eexists.
Qed.

Lemma safe_gi n : int32_range n → safe (gi n).
Proof. intros Hn. unfold gi. by destruct (MustParse_gi n Hn) as [q ->]. Qed.
Lemma safe_defaultPolicy : safe defaultPolicy.
Proof. unfold defaultPolicy. destruct DefaultPolicySpec_ok as [sp ->]. done. Qed.
#[local] Hint Resolve safe_gi safe_defaultPolicy : safe.

(** ** Parts *)
Lemma safe_tame {A} (p : prog Ev A) : tame p → safe p.
Proof. by intros []. Qed.
Lemma safe_ResolveOwner res name ns : safe (ResolveOwner res name ns).
Proof. unfold ResolveOwner. safe_tac. Qed.
Lemma safe_GenerateToken tm ns name owner ttl : safe (GenerateToken tm ns name owner ttl).
Proof. unfold GenerateToken. safe_tac. Qed.
#[local] Hint Resolve safe_ResolveOwner safe_GenerateToken : safe.
Lemma safe_SendAll d n : tame_dispatcher d → safe (SendAll d n).
Proof. intros. by apply safe_tame, tame_SendAll. Qed.
Lemma safe_SendAllExcept d n l : tame_dispatcher d → safe (SendAllExcept d n l).
Proof. intros. by apply safe_tame, tame_SendAllExcept. Qed.
#[local] Hint Resolve safe_SendAll safe_SendAllExcept : safe.

Lemma safe_filter_namespaces {A} s u (ns_of : A → string) checked items :
  safe (filter_namespaces s u ns_of checked items).
Proof.
  revert checked. induction items as [|i items IH]; intros checked; [done|].
  cbn [filter_namespaces]. unfold check_namespace, canUserAccessNamespace. safe_tac.
Qed.
#[local] Hint Resolve safe_filter_namespaces : safe.
Lemma safe_filterByNamespaceAccess s r items : safe (filterByNamespaceAccess s r items).
Proof. unfold filterByNamespaceAccess. safe_tac. Qed.
#[local] Hint Resolve safe_filterByNamespaceAccess : safe.

(** ** Handlers *)
Lemma safe_handleApply s w r : tame_server s → safe (handleApply s w r).
Proof.
  intros Hs. unfold handleApply.
  assert (∀ req rec, safe (handleApply_direct req rec w r)) by (intros; unfold handleApply_direct; safe_tac).
  assert (∀ tm rec, safe (handleApply_demo s tm rec w r)) by (intros; unfold handleApply_demo; safe_tac).
  assert (∀ tm d o rec, s_Notifier s = Some d → safe (handleApply_owner s tm d o rec w r)).
  { intros tm d o rec Hd. specialize (Hs d Hd). unfold handleApply_owner. safe_tac. }
  safe_tac.
Qed.

(** Behind the middleware there is a user. *)
Definition safe_for_users (h : Handler) : Prop := ∀ w r, is_Some (rq_User r) → safe (h w r).
Definition safe_for_all (h : Handler) : Prop := ∀ w r, safe (h w r).

Lemma safe_auth cs h : safe_for_users h → safe_for_all (AuthMiddleware cs h).
Proof. intros Hh w r. unfold AuthMiddleware. safe_tac; apply Hh; by eexists. Qed.

Lemma safe_handleReject s : safe_for_users (handleReject s).
Proof. intros w r [u Hu]. unfold handleReject. unfold UserInfoFromContext; rewrite Hu. safe_tac. Qed.

Lemma safe_others s :
  safe_for_all (handleListRecommendations s) ∧ safe_for_all (handleGetRecommendation s) ∧
  safe_for_all (handleRevert s) ∧ safe_for_all (handleExclude s) ∧ safe_for_all (handleRemoveExclusion s) ∧
  safe_for_all (handleOverview s) ∧ safe_for_all (handleListVMs s) ∧ safe_for_all (handleGetPolicy s) ∧
  safe_for_all (handleUpdatePolicy s) ∧ safe_for_all (handleOwnerApprove s) ∧ safe_for_all (handleOwnerReject s).
Proof.
  split_and!; intros w r;
    unfold handleListRecommendations, handleGetRecommendation, handleRevert, handleExclude, handleRemoveExclusion,
      handleOverview, handleListVMs, handleGetPolicy, handleUpdatePolicy, handleOwnerApprove, handleOwnerReject;
    safe_tac.
Qed.

Lemma safe_routes s : tame_server s → Forall (λ rt, safe_for_all (rt_Handler rt)) (registerRoutes s).
Proof.
  intros Hs. destruct (safe_others s) as (?&?&?&?&?&?&?&?&?&?&?).
  assert (∀ h, safe_for_all h → safe_for_users h) as Hu by (intros h H' w r _; apply H').
  unfold registerRoutes.
  repeat (apply Forall_cons_2); [..|apply Forall_nil_2]; cbn [rt_Handler];
    first [assumption | apply safe_auth; first [by apply Hu | apply safe_handleReject
                                               | intros w r _; by apply safe_handleApply]].
Qed.

Lemma find_route_safe routes method path h pv :
  Forall (λ rt, safe_for_all (rt_Handler rt)) routes → find_route routes method path = Some (h, pv) → safe_for_all h.
Proof.
  induction 1 as [|rt routes Hrt _ IH]; [done|]. cbn [find_route].
  destruct (if method_matches _ _ then _ else _); [by intros [= <- <-]|done].
Qed.

(** C18: No request crashes the API server.  Whatever the request, and whatever the
    Kubernetes API, the mail and chat servers answer, serving it ends with a
    response. *)
Theorem ServeHTTP_no_panic s w r tr out :
  tame_server s → runs (ServeHTTP s w r) tr out → ∃ w', out = Returns w'.
Proof.
  intros Hs Hr. eapply safe_runs; [|exact Hr]. clear Hr. unfold ServeHTTP. destruct (negb _); [done|].
  destruct (find_route _ _ _) as [[h pv]|] eqn:E; [|by destruct (existsb _ _)].
  apply (find_route_safe _ _ _ _ _ (safe_routes s Hs) E).
Qed.

(** ** The controllers *)
Lemma safe_spec_of c m : int32_range m → safe (spec_of c m).
Proof. intros. unfold spec_of. safe_tac. Qed.
#[local] Hint Resolve safe_spec_of : safe.

Definition result_ok (r : Calculator.AnalysisResult) : Prop :=
  int32_range (Calculator.ar_RecommendedMemoryGiB r) ∧ int32_range (Calculator.ar_MemorySavings r).

Lemma abs_range n : int32_range n → int32_range (abs n).
Proof. unfold abs. destruct (n <? 0); [intros; apply wrap32_range|done]. Qed.
Lemma vm_memoryGiB_range vm : int32_range (vm_memoryGiB vm).
Proof.
  assert (int32_range 0) by (unfold int32_range; lia).
  unfold vm_memoryGiB. repeat case_match; done || apply wrap32_range.
Qed.

Lemma Analyze_ranges i r :
  int32_range (Calculator.ai_CurrentMemoryGiB i) → Calculator.Analyze i = Some r → result_ok r.
Proof.
  intros Hi. assert (int32_range 1) by (unfold int32_range; lia).
  unfold Calculator.Analyze. destruct (_ || _).
  - unfold Calculator.analyzeUpsize. cbv zeta. destruct (_ && _); [done|]. intros Hr.
    injection Hr as <-. split; cbn [Calculator.ar_RecommendedMemoryGiB Calculator.ar_MemorySavings];
      [|apply wrap32_range]. destruct (_ <=? _); [done|apply to_int32_range].
  - unfold Calculator.analyzeDownsize. cbv zeta. destruct (_ || _); [done|]. intros Hr.
    injection Hr as <-. split; cbn [Calculator.ar_RecommendedMemoryGiB Calculator.ar_MemorySavings];
      [|apply wrap32_range]. destruct (_ >=? _); [done|]. destruct (_ <? _); [done|apply to_int32_range].
Qed.

Lemma demo_ranges c m name : int32_range m → result_ok (demoResult c m name).
Proof.
  intros Hm. unfold result_ok, demoResult, demoRecommendedMem, demoRecommended. cbn. split; [|apply wrap32_range].
  destruct (String.eqb _ _); [|apply wrap32_range].
  unfold int32_range in *. pose proof (Z.quot_abs m 2 ltac:(lia)).
  destruct (_ <? _) eqn:?; Z.to_euclidean_division_equations; lia.
Qed.

Lemma safe_recommended r : result_ok r → safe (recommended_of r).
Proof. intros []. unfold recommended_of. safe_tac. Qed.
Lemma safe_savings r : result_ok r → safe (savings_of r).
Proof. intros []. unfold savings_of. apply safe_bind; [by apply safe_gi, abs_range|done]. Qed.
#[local] Hint Resolve safe_recommended safe_savings : safe.

Lemma safe_deleteExisting name ns : safe (deleteExistingRecommendation name ns).
Proof. unfold deleteExistingRecommendation. safe_tac. Qed.
#[local] Hint Resolve safe_deleteExisting : safe.

Lemma safe_expire_or_remind re rec : tame_reconciler re → safe (expire_or_remind re rec).
Proof.
  intros Ht. unfold expire_or_remind. destruct (negb _); [done|]. destruct (st_NotifiedAt _); [|done].
  apply safe_bind; [done|]. intros t. destruct (_ <? _); [safe_tac|]. destruct (_ && _); [|done].
  apply safe_bind; [|safe_tac]. destruct (re_Notifier re) eqn:?; [|done]. by apply safe_SendAllExcept, Ht.
Qed.
#[local] Hint Resolve safe_expire_or_remind : safe.

Lemma safe_upsert re req policy c m res u :
  tame_reconciler re → int32_range m → result_ok res → safe (upsert re req policy c m res u).
Proof.
  intros. unfold upsert, create_recommendation, new_recommendation, refresh_recommendation. safe_tac.
Qed.

Lemma safe_autoApply re rec vm : tame_reconciler re → safe (autoApply re rec vm).
Proof.
  intros Ht. unfold autoApply.
  assert (safe (autoApply_direct re rec vm)).
  { unfold autoApply_direct, PatchVMResources. safe_tac. }
  assert (∀ tm o, safe (autoApply_approval re tm o rec)).
  { intros. unfold autoApply_approval. apply safe_bind; [apply safe_GenerateToken|]. intros [tok|]; [|done].
    apply safe_bind; [done|]. intros now. apply safe_bind; [done|]. intros [rec'|]; [|done].
    destruct (re_Notifier re) eqn:?; [|done]. destruct (negb _); [|done].
    apply safe_bind; [by apply safe_SendAll, Ht|done]. }
  safe_tac.
Qed.
#[local] Hint Resolve safe_autoApply : safe.

(** A metrics query that does not panic on the answers of [G]. *)
Definition safe_querier (G : obs Ev → Prop) (PQ : PrometheusQuerier) : Prop :=
  ∀ name ns days cores bytes, safe_if G (QueryVMUtilization name ns days cores bytes).

Lemma getVM_runs name ns tr vm c m :
  runs (getVM name ns) tr (Returns (Ok (vm, c, m))) →
  tr = [Obs (KGetVM (NSName ns name)) (Ok vm)] ∧ c = vm_cpuCores vm ∧ m = vm_memoryGiB vm.
Proof. intros (x & tr' & -> & Hr). destruct x; by destruct Hr as [-> [= -> -> ->]]. Qed.

(** What an analysis that goes on found. *)
Lemma analyze_runs `{PQ : !PrometheusQuerier} re req policy c m tr res u :
  runs (analyze re req policy c m) tr (Returns (Some (res, u))) →
  (re_DemoMode re = true ∧ res = demoResult c m (nn_Name req)) ∨
  (re_DemoMode re = false ∧ vu_CurrentCPUCores u = c ∧ vu_CurrentMemoryGiB u = m ∧
   minDataPoints <= vu_DataPoints u ∧ Calculator.Analyze (analysis_input policy u) = Some res).
Proof.
  unfold analyze. destruct (re_DemoMode re); [intros [_ [= -> _]]; by left|].
  rewrite runs_bind_returns. intros ([u'|e] & tr1 & tr2 & -> & _ & Hr); [|by destruct Hr].
  destruct (Z.ltb_spec (vu_DataPoints u') minDataPoints).
  { apply runs_bind_returns in Hr as (? & ? & ? & _ & _ & [_ [=]]). }
  destruct (Calculator.Analyze _) as [res'|] eqn:Ha.
  - destruct Hr as [_ [= -> ->]]. right. done.
  - apply runs_bind_returns in Hr as (? & ? & ? & _ & _ & [_ [=]]).
Qed.

Lemma analyze_result_ok `{PQ : !PrometheusQuerier} re req policy c m tr res u :
  int32_range m → runs (analyze re req policy c m) tr (Returns (Some (res, u))) → result_ok res.
Proof.
  intros Hm [[_ ->]|(_ & _ & <- & _ & Ha)]%analyze_runs; [by apply demo_ranges|].
  by eapply Analyze_ranges; [|exact Ha].
Qed.

Lemma safe_analyze `{PQ : !PrometheusQuerier} G re req policy c m :
  safe_querier G PQ → safe_if G (analyze re req policy c m).
Proof.
  intros Hq. unfold analyze. destruct (re_DemoMode re); [done|].
  apply safe_if_bind_runs; [apply Hq|]. intros tr [u|e] _; [|done].
  destruct (_ <? _); [apply safe_safe_if; safe_tac|].
  destruct (Calculator.Analyze _); [done|apply safe_safe_if; safe_tac].
Qed.

Lemma safe_Reconcile `{PQ : !PrometheusQuerier} G re req :
  safe_querier G PQ → tame_reconciler re → safe_if G (Reconcile re req).
Proof.
  intros Hq Ht. unfold Reconcile. apply safe_if_bind_runs; [apply safe_safe_if; unfold fetch_policy; safe_tac|].
  intros _ [policy|] _; [|done]. apply safe_if_bind_runs; [apply safe_safe_if; unfold getVM; safe_tac|].
  intros tr0 [[[vm c] m]|] H0; [|done]. apply getVM_runs in H0 as (_ & _ & ->).
  destruct (excluded vm); [apply safe_safe_if, safe_bind; [apply safe_deleteExisting|done]|].
  pose proof (vm_memoryGiB_range vm) as Hm. apply safe_if_bind_runs; [by apply safe_analyze|].
  intros tr [[res u]|] Hr; [|done]. apply analyze_result_ok in Hr; [|done].
  apply safe_safe_if, safe_bind; [by apply safe_upsert|]. intros [[rec|]|]; [|done..].
  apply safe_bind; [by destruct (_ && _); [apply safe_autoApply|]|done].
Qed.

(** C19: No reconciliation crashes the operator.  On answers with which the metrics
    query itself does not panic, reconciling any VM ends with a result or an
    error; so does the restart controller, whatever the answers. *)
Theorem Reconcile_no_panic `{PQ : !PrometheusQuerier} G re req tr out a req' tr' out' :
  safe_querier G PQ → tame_reconciler re →
  runs (Reconcile re req) tr out → Forall G tr → runs (@RestartReconcile _ (applier_restarter a) req') tr' out' →
  (∃ res, out = Returns res) ∧ (∃ res', out' = Returns res').
Proof.
  intros Hq Ht H1 HG H2. split; [by eapply (safe_if_runs G); [apply safe_Reconcile| |exact H1]|].
  eapply safe_runs; [|exact H2]. unfold RestartReconcile, RestartVM_of, applier_restarter, RestartVM. safe_tac.
Qed.
End SafetyFacts.
