(* ===== verification/ReconcileFacts.v ===== *)
(** * What a reconciliation consults and what it then does

    The policy, the VM and its metrics are consulted first, which gives a verdict
    on the VM; without advice an unprotected recommendation is withdrawn, and only
    with advice is one filed, its owner's time watched, and the VM changed.  The
    courses are an inductive description that the theorems invert. *)
From S2P Require Import Prelude GoStrings GoFloat GoJson External ApiTypes Effects World.
From S2P Require Import Http Approval Owner Applier Notifier NotifierFacts Controller Restart ApiServer Handlers.
From S2P Require Import Lifecycle LifecycleFacts SafetyFacts.
From S2P Require Calculator.
Local Open Scope Z_scope.
Local Open Scope ovro_scope.

Section ReconcileFacts.
Context `{P : Platform} `{GI : GoImpl} `{J : JwtLib} `{PQ : !PrometheusQuerier}.
Implicit Types (re : RightsizingRecommendationReconciler) (req : NamespacedName).

Definition vm_key req : NamespacedName := NSName (nn_Namespace req) (nn_Name req).
Definition rec_key req : NamespacedName := NSName (nn_Namespace req) ("vm-" +:+ nn_Name req).

(** ** What is consulted *)

(** The one call for the policy, and the policy it leads to: the default one of
    the cluster, or the built-in settings when there is none. *)
Inductive policy_answer : list (obs Ev) → RightsizingPolicy → Prop :=
| policy_found p : policy_answer [Obs (KGetPolicy "default") (Ok p)] p
| policy_default e sp : IsNotFound e = true → DefaultPolicySpec = Some sp →
    policy_answer [Obs (KGetPolicy "default") (Err e)]
      {| rp_Name := ""; rp_ResourceVersion := ""; rp_Spec := sp |}.

(** The calculator's input: the size of the VM as it was read, its utilization as
    the metrics say, the settings of the policy. *)
Definition input_of (policy : RightsizingPolicy) (vm : Unstructured) (u : VMUtilization) : Calculator.AnalysisInput :=
  let sp := rp_Spec policy in {|
  Calculator.ai_CurrentCPUCores := vm_cpuCores vm;
  Calculator.ai_CurrentMemoryGiB := vm_memoryGiB vm;
  Calculator.ai_CPUP95Percent := vu_CPUP95Percent u;
  Calculator.ai_MemoryP95Percent := vu_MemoryP95Percent u;
  Calculator.ai_CPUMaxPercent := vu_CPUMaxPercent u;
  Calculator.ai_MemoryMaxPercent := vu_MemoryMaxPercent u;
  Calculator.ai_HeadroomPercent := al_HeadroomPercent (ps_Algorithm sp);
  Calculator.ai_MinCPUSavings := th_MinCPUSavings (ps_Thresholds sp);
  Calculator.ai_MinMemorySavingsGiB := gib (th_MinMemorySavings (ps_Thresholds sp));
  Calculator.ai_UpsizeThresholdPct := th_UpsizeUtilizationPercent (ps_Thresholds sp);
  Calculator.ai_LookbackDays := ps_LookbackDays sp |}.

(** The metrics could not be had; the VM needs no change (or there are too few
    samples to say); or it does. *)
Inductive verdict : Type := NoAnswer | NoChange | Advice (result : Calculator.AnalysisResult).

(** Half a week of samples, one a minute, is 5040. *)
Definition verdict_of policy vm (got : Prelude.result VMUtilization) : verdict :=
  match got with
  | Err _ => NoAnswer
  | Ok u =>
      if vu_DataPoints u <? 5040 then NoChange else
      match Calculator.Analyze (input_of policy vm u) with Some result => Advice result | None => NoChange end
  end.

Definition opted_out (vm : Unstructured) : Prop := GetAnnotations vm !! AnnotationExclude = Some "true".

(** [consulted re req tr policy vm v rest]: the trace [tr] starts with the reading
    of [policy], then of the VM [vm] of the request, then, unless the VM is opted
    out or the operator is in demo mode, with the query for the metrics of this
    very VM over the policy's look-back period; [v] follows from the answers, and
    [rest] is what was called after that. *)
Inductive consulted re req : list (obs Ev) → RightsizingPolicy → Unstructured → verdict → list (obs Ev) → Prop :=
| consulted_opted_out trp policy vm rest :
    policy_answer trp policy → opted_out vm →
    consulted re req (trp ++ Obs (KGetVM (vm_key req)) (Ok vm) :: rest) policy vm NoChange rest
| consulted_demo trp policy vm rest :
    policy_answer trp policy → ¬ opted_out vm → re_DemoMode re = true →
    consulted re req (trp ++ Obs (KGetVM (vm_key req)) (Ok vm) :: rest) policy vm
      (Advice (demoResult (vm_cpuCores vm) (vm_memoryGiB vm) (nn_Name req))) rest
| consulted_metrics trp policy vm trq got rest :
    policy_answer trp policy → ¬ opted_out vm → re_DemoMode re = false →
    runs (QueryVMUtilization (nn_Name req) (nn_Namespace req) (ps_LookbackDays (rp_Spec policy))
            (vm_cpuCores vm) (vm_memoryGiB vm * 2 ^ 30)) trq (Returns got) →
    consulted re req (trp ++ Obs (KGetVM (vm_key req)) (Ok vm) :: trq ++ rest) policy vm
      (verdict_of policy vm got) rest.

(** ** What is done without advice *)
Definition settled (rec : RightsizingRecommendation) : Prop :=
  rr_state rec ∈ [StateApplied; StateAppliedPendingRestart; StateAwaitingApproval].

(** The recommendation of the VM goes away, unless it is applied or awaits approval. *)
Inductive withdrawal req : list (obs Ev) → Prop :=
| withdrawal_unread e : withdrawal req [Obs (KGetRec (rec_key req)) (Err e)]
| withdrawal_kept rec : settled rec → withdrawal req [Obs (KGetRec (rec_key req)) (Ok rec)]
| withdrawal_made rec x : ¬ settled rec →
    withdrawal req [Obs (KGetRec (rec_key req)) (Ok rec); Obs (KDeleteRec (rr_key rec)) x].

(** ** The courses of a run that returns *)
Definition acted re policy vm (up : Prelude.result (option RightsizingRecommendation)) (tr : list (obs Ev))
    (res : Prelude.result Z) : Prop :=
  match up with
  | Err e => tr = [] ∧ res = Err e
  | Ok None => tr = [] ∧ res = Ok (requeue_interval policy)
  | Ok (Some rec) =>
      res = Ok (requeue_interval policy) ∧
      if am_Enabled (ps_AutoMode (rp_Spec policy)) && String.eqb (rr_state rec) StatePending
      then runs (autoApply re rec vm) tr (Returns tt) else tr = []
  end.

Inductive course re req : list (obs Ev) → Prelude.result Z → Prop :=
| course_no_policy e e' : IsNotFound e = false → course re req [Obs (KGetPolicy "default") (Err e)] (Err e')
| course_no_vm trp policy e : policy_answer trp policy →
    course re req (trp ++ [Obs (KGetVM (vm_key req)) (Err e)]) (Ok (requeue_interval policy))
| course_no_answer tr policy vm : consulted re req tr policy vm NoAnswer [] →
    course re req tr (Ok (requeue_interval policy))
| course_no_change tr policy vm rest : consulted re req tr policy vm NoChange rest → withdrawal req rest →
    course re req tr (Ok (requeue_interval policy))
| course_advice tr policy vm result u tr1 up tr2 res :
    consulted re req tr policy vm (Advice result) (tr1 ++ tr2) → result_ok result →
    runs (upsert re req policy (vm_cpuCores vm) (vm_memoryGiB vm) result u) tr1 (Returns up) →
    acted re policy vm up tr2 res → course re req tr res.

Lemma protected_settled rec : protected_state (rr_state rec) = true ↔ settled rec.
Proof.
  unfold protected_state, settled. rewrite !orb_true_iff, !String.eqb_eq, !elem_of_cons, elem_of_nil. naive_solver.
Qed.
Lemma unprotected_unsettled rec : protected_state (rr_state rec) = false ↔ ¬ settled rec.
Proof. by rewrite <-protected_settled, not_true_iff_false. Qed.

Lemma excluded_opted_out vm : excluded vm = true ↔ opted_out vm.
Proof. unfold excluded, opted_out. rewrite String.eqb_eq. by destruct (_ !! _) as [a|]; split; cbn; [intros ->|intros [= ->]|..]. Qed.

Lemma delete_withdrawal req tr :
  runs (deleteExistingRecommendation (nn_Name req) (nn_Namespace req)) tr (Returns tt) → withdrawal req tr.
Proof.
  unfold deleteExistingRecommendation. intros ([rec|e] & tr1 & -> & Hr); cbn [runs mbind prog_mbind prog_bind] in Hr.
  2: { destruct Hr as [-> _]. apply withdrawal_unread. }
  destruct (protected_state (rr_state rec)) eqn:Hp.
  - destruct Hr as [-> _]. by apply withdrawal_kept, protected_settled.
  - destruct Hr as (x & tr2 & -> & [-> _]). by apply withdrawal_made, unprotected_unsettled.
Qed.

Lemma fetch_policy_returns tr got : runs fetch_policy tr (Returns got) →
  match got with
  | Ok policy => policy_answer tr policy
  | Err _ => ∃ e, IsNotFound e = false ∧ tr = [Obs (KGetPolicy "default") (Err e)]
  end.
Proof.
  intros ([p|e] & tr' & -> & Hr); cbn [runs mbind prog_mbind prog_bind mret prog_ret] in Hr.
  { destruct Hr as [-> [= ->]]. constructor. }
  destruct (IsNotFound e) eqn:He; [|destruct Hr as [-> [= ->]]; by exists e].
  apply (runs_bind_returns defaultPolicy) in Hr as (p & tr1 & tr2 & -> & H1 & [-> [= ->]]).
  unfold defaultPolicy in H1. destruct DefaultPolicySpec as [sp|] eqn:Hd; [|by destruct H1 as [_ [=]]].
  destruct H1 as [-> [= ->]]. by constructor.
Qed.

Lemma getVM_returns name ns tr got :
  runs (getVM name ns) tr (Returns got) →
  ∃ x, tr = [Obs (KGetVM (NSName ns name)) x] ∧
    match x with
    | Ok vm => got = Ok (vm, vm_cpuCores vm, vm_memoryGiB vm)
    | Err e => got = Err (EWrap "fetching VM" e)
    end.
Proof. intros (x & tr' & -> & Hr). exists x. destruct x; by destruct Hr as [-> [= ->]]. Qed.

(** The bytes asked about do not overflow. *)
Lemma bytes_of_gib m : int32_range m → wrap64 (wrap64 (wrap64 (m * 1024) * 1024) * 1024) = m * 2 ^ 30.
Proof.
  unfold int32_range. intros Hm.
  rewrite (wrap64_id (m * 1024)), (wrap64_id (m * 1024 * 1024)), wrap64_id; unfold int64_range; lia.
Qed.

(** The analysis, as a verdict on the answer it got. *)
Lemma analyze_returns re req trp policy vm tr a :
  policy_answer trp policy → ¬ opted_out vm →
  runs (analyze re req policy (vm_cpuCores vm) (vm_memoryGiB vm)) tr (Returns a) →
  ∃ v trq rest, tr = trq ++ rest ∧
    (∀ more, consulted re req (trp ++ Obs (KGetVM (vm_key req)) (Ok vm) :: trq ++ more) policy vm v more) ∧
    match a with
    | Some (result, _) => v = Advice result ∧ rest = []
    | None => (v = NoAnswer ∧ rest = []) ∨ (v = NoChange ∧ withdrawal req rest)
    end.
Proof.
  intros Hp Hex Hr. unfold analyze in Hr. destruct (re_DemoMode re) eqn:Hdemo.
  { destruct Hr as [-> [= ->]]. eexists _, [], []. split; [done|]. split; [|done]. intros more. by apply consulted_demo. }
  rewrite (bytes_of_gib _ (vm_memoryGiB_range vm)) in Hr.
  apply runs_bind_returns in Hr as (got & trq & rest & -> & Hq & Hr).
  exists (verdict_of policy vm got), trq, rest. split; [done|]. split; [intros more; by apply consulted_metrics|].
  destruct got as [u|e]; cbn [verdict_of]; [|destruct Hr as [-> [= ->]]; by left].
  change minDataPoints with 5040 in Hr. destruct (vu_DataPoints u <? 5040).
  { apply runs_bind_returns in Hr as ([] & ? & ? & -> & H2%delete_withdrawal & [-> [= ->]]). rewrite app_nil_r. by right. }
  change (analysis_input policy _) with (input_of policy vm u) in Hr.
  destruct (Calculator.Analyze (input_of policy vm u)); [by destruct Hr as [-> [= ->]]|].
  apply runs_bind_returns in Hr as ([] & ? & ? & -> & H2%delete_withdrawal & [-> [= ->]]). rewrite app_nil_r. by right.
Qed.

Lemma Reconcile_course re req tr res : runs (Reconcile re req) tr (Returns res) → course re req tr res.
Proof.
  unfold Reconcile. rewrite runs_bind_returns. intros ([policy|e] & trp & tr2 & -> & Hp%fetch_policy_returns & Hr).
  2: { destruct Hr as [-> [= ->]], Hp as (e' & He & ->). by constructor. }
  apply runs_bind_returns in Hr as (got & ? & tr4 & -> & ([vm|e] & -> & ->)%getVM_returns & Hr).
  2: { destruct Hr as [-> [= ->]]. by apply course_no_vm. }
  cbn [app]. destruct (excluded vm) eqn:Hex.
  { apply excluded_opted_out in Hex.
    apply runs_bind_returns in Hr as ([] & tr5 & ? & -> & H3%delete_withdrawal & [-> [= ->]]). rewrite app_nil_r.
    eapply course_no_change; [|exact H3]. by apply consulted_opted_out. }
  rewrite <-not_true_iff_false, excluded_opted_out in Hex.
  apply runs_bind_returns in Hr as (a & tr5 & tr6 & -> & Ha & Hr). pose proof Ha as Hok.
  apply (analyze_returns _ _ _ _ _ _ _ Hp Hex) in Ha as (v & trq & rest & -> & Hc & Hv).
  destruct a as [[result u]|].
  2: { destruct Hr as [-> [= ->]]. rewrite app_nil_r. specialize (Hc rest).
       destruct Hv as [[-> ->]|[-> Hw]]; [by eapply course_no_answer|by eapply course_no_change]. }
  destruct Hv as [-> ->]. rewrite app_nil_r in *. apply analyze_result_ok in Hok; [|apply vm_memoryGiB_range].
  apply runs_bind_returns in Hr as (up & tr7 & tr8 & -> & H4 & Hr).
  eapply course_advice; [apply Hc|exact Hok|exact H4|]. unfold acted. destruct up as [[rec|]|e]; [|by destruct Hr as [-> [= ->]]..].
  apply runs_bind_returns in Hr as ([] & tr9 & ? & -> & H5 & [-> [= ->]]). rewrite app_nil_r. split; [done|].
  destruct (_ && _); [done|by destruct H5].
Qed.

(** A VM is looked at again after the policy's interval: a reconciliation that
    ends without an error asks to be run again after the interval of the policy
    it read, or of the defaults when there is none. *)
Lemma requeue_follows_policy re req tr d :
  runs (Reconcile re req) tr (Returns (Ok d)) →
  ∃ trp policy rest, tr = trp ++ rest ∧ policy_answer trp policy ∧
    d = wrap64 (ps_ReconcileIntervalMinutes (rp_Spec policy) * Minute).
Proof.
  assert (∀ tr policy vm v rest, consulted re req tr policy vm v rest →
    ∃ trp rest, tr = trp ++ rest ∧ policy_answer trp policy) as Hp by (intros ????? []; eauto).
  intros Hr. apply Reconcile_course in Hr. inversion Hr as [|? policy ? H|? policy ? H|? policy ? ? H|? policy ? ? ? ? up ? ? H _ _ Ha]; subst.
  1: by exists trp, policy, [Obs (KGetVM (vm_key req)) (Err e)].
  1,2: destruct (Hp _ _ _ _ _ H) as (? & ? & ? & ?); eauto 10.
  destruct (Hp _ _ _ _ _ H) as (trp & ? & ? & ?). exists trp, policy.
  destruct up as [[rec|]|e]; cbn in Ha; naive_solver.
Qed.

(** ** Projections of a part by the calls it can make *)
Definition spec_writes (tr : list (obs Ev)) : list World.Write :=
  omap (λ o, match obs_write o with
    | Some (WCreate r, _) => Some (WCreate r) | Some (WUpdate r, _) => Some (WUpdate r) | _ => None end) tr.
Definition patches (tr : list (obs Ev)) : list (NamespacedName * json * list string) :=
  omap (λ o, match obs_write o with Some (WPatchVM k j l, _) => Some (k, j, l) | _ => None end) tr.

Definition no_spec_write (X : Type) (e : Ev X) : Prop :=
  match e with KCreateRec _ | KUpdateRec _ => False | _ => True end.
Definition no_patch (X : Type) (e : Ev X) : Prop :=
  match e with DynPatchVM _ _ _ => False | _ => True end.

(** Calls out of a set never show in a projection that is empty on the set. *)
Lemma only_omap {A B} (G : ∀ X, Ev X → Prop) (f : obs Ev → option B) (p : prog Ev A) tr out :
  (∀ X (e : Ev X) x, G X e → f (Obs e x) = None) → only G p → runs p tr out → omap f tr = [].
Proof.
  intros Hf. revert tr. induction p as [a|m|X e k IH]; intros tr; simpl; [by intros _ [-> _]..|].
  intros [He Hk] (x & tr' & -> & Hr). cbn [omap list_omap]. rewrite (Hf _ _ x He). by apply IH with x.
Qed.

Lemma outward_trace {A} (p : prog Ev A) tr out :
  only outward p → runs p tr out → writes tr = [] ∧ reads tr = [] ∧ spec_writes tr = [] ∧ patches tr = [].
Proof. intros Ho Hr. split_and!; (eapply only_omap; [|exact Ho|exact Hr]); by intros X []. Qed.

Definition outward_querier (Q : PrometheusQuerier) : Prop :=
  ∀ name ns days cores bytes, only outward (@QueryVMUtilization _ Q name ns days cores bytes).

Lemma outward_into {A} (G : ∀ X, Ev X → Prop) (p : prog Ev A) :
  (∀ X (e : Ev X), outward X e → G X e) → only outward p → only G p.
Proof. apply only_mono. Qed.
Lemma outward_no_patch X (e : Ev X) : outward X e → no_patch X e.
Proof. by destruct e. Qed.
Lemma outward_no_spec X (e : Ev X) : outward X e → no_spec_write X e.
Proof. by destruct e. Qed.

(** Reminders and expiry: the clock, status updates and outward calls. *)
Lemma remind_only (G : ∀ X, Ev X → Prop) re rec : tame_reconciler re →
  (∀ X (e : Ev X), outward X e → G X e) → G _ TimeNow → (∀ r, G _ (KUpdateRecStatus r)) →
  only G (expire_or_remind re rec).
Proof.
  intros Ht Ho Hn Hu. unfold expire_or_remind. destruct (negb _); [done|]. destruct (st_NotifiedAt _) as [n|]; [|done].
  assert (∀ rec ctx, only G (upd ← UpdateStatus rec;
    match upd with Err e => mret (Err (EWrap ctx e)) | Ok rec => mret (Ok rec) end)) as Hupd.
  { intros r ctx. apply only_bind; [split; [apply Hu|done]|]. by intros [|]. }
  apply only_bind; [by split|]. intros t. destruct (14 * 24 * Hour <? _); [apply Hupd|].
  destruct (_ && _); [|done]. apply only_bind; [|intros _; apply only_bind; [by split|intros; apply Hupd]].
  destruct (re_Notifier re) as [d|] eqn:E; [|done]. apply (outward_into _ _ Ho). by apply tame_SendAllExcept, Ht.
Qed.


Lemma patches_app tr1 tr2 : patches (tr1 ++ tr2) = patches tr1 ++ patches tr2.
Proof. apply omap_app. Qed.
Lemma spec_writes_app tr1 tr2 : spec_writes (tr1 ++ tr2) = spec_writes tr1 ++ spec_writes tr2.
Proof. apply omap_app. Qed.
Lemma no_patches {A} (p : prog Ev A) tr out : only no_patch p → runs p tr out → patches tr = [].
Proof. apply only_omap. by intros X []. Qed.
Lemma no_spec_writes {A} (p : prog Ev A) tr out : only no_spec_write p → runs p tr out → spec_writes tr = [].
Proof. apply only_omap. by intros X []. Qed.

(** What is consulted writes nothing, reads no recommendation and changes no VM. *)
Lemma consulted_outward re req tr policy vm v rest : outward_querier PQ → consulted re req tr policy vm v rest →
  writes tr = writes rest ∧ reads tr = reads rest ∧ spec_writes tr = spec_writes rest ∧ patches tr = patches rest.
Proof.
  assert (∀ trp policy, policy_answer trp policy → ∀ vm more,
    writes (trp ++ Obs (KGetVM (vm_key req)) (Ok vm) :: more) = writes more ∧
    reads (trp ++ Obs (KGetVM (vm_key req)) (Ok vm) :: more) = reads more ∧
    spec_writes (trp ++ Obs (KGetVM (vm_key req)) (Ok vm) :: more) = spec_writes more ∧
    patches (trp ++ Obs (KGetVM (vm_key req)) (Ok vm) :: more) = patches more) as Hp by (by intros ? ? []).
  intros Hq [trp policy' vm' more H|trp policy' vm' more H|trp policy' vm' trq got more H _ _ Hr]; [exact (Hp _ _ H vm' more)..|].
  destruct (outward_trace _ _ _ (Hq _ _ _ _ _) Hr) as (Hw & Hd & Hs & Hv).
  destruct (Hp _ _ H vm' (trq ++ more)) as (-> & -> & -> & ->).
  by rewrite writes_app, reads_app, spec_writes_app, patches_app, Hw, Hd, Hs, Hv.
Qed.
End ReconcileFacts.
