(* ===== verification/AdviceFacts.v ===== *)
(** * Advice and its consequences

    Without advice the only write is the withdrawal of an unprotected
    recommendation.  With it a specification is written as the analysis says, to a
    new object or to the unprotected one just read, and in automatic mode the VM
    is changed to what was written, unless its owner is to be asked. *)
From S2P Require Import Prelude GoStrings GoFloat GoJson External ApiTypes Effects World.
From S2P Require Import Http Approval Owner Applier Notifier NotifierFacts Controller Restart ApiServer Handlers.
From S2P Require Import Lifecycle LifecycleFacts SafetyFacts ReconcileFacts.
From S2P Require Calculator.
Local Open Scope Z_scope.
Local Open Scope ovro_scope.

Section AdviceFacts.
Context `{P : Platform} `{GI : GoImpl} `{J : JwtLib} `{PQ : !PrometheusQuerier}.
Implicit Types (re : RightsizingRecommendationReconciler) (req : NamespacedName).


(** ** What is written into a specification *)
Context `{!PlatformLaws P}.

Record size_is (r : ResourceSpec) (cores memGiB : Z) : Prop := {
  si_cpu : rs_CPU r = {| cpu_Cores := cores; cpu_Sockets := 1; cpu_Threads := 1 |};
  si_memory : Q_Value (rs_Memory r) = memGiB * 1073741824
}.
Record advises (result : Calculator.AnalysisResult) (rec : RightsizingRecommendation) : Prop := {
  ad_direction : sp_Direction (rr_Spec rec) = Calculator.string_of_Direction (Calculator.ar_Direction result);
  ad_size : size_is (sp_Recommended (rr_Spec rec)) (Calculator.ar_RecommendedCPUCores result)
              (Calculator.ar_RecommendedMemoryGiB result);
  ad_cpu : sv_CPU (sp_Savings (rr_Spec rec)) = Calculator.ar_CPUSavings result;
  ad_memory : Q_Value (sv_Memory (sp_Savings (rr_Spec rec))) = abs (Calculator.ar_MemorySavings result) * 1073741824;
  ad_reason : sp_Reason (rr_Spec rec) = Calculator.ar_Reason result
}.

Lemma gi_returns n tr q : int32_range n → runs (gi n) tr (Returns q) → tr = [] ∧ Q_Value q = n * 1073741824.
Proof.
  intros Hn. destruct (parse_gib n Hn) as (q' & Hq & Hv). unfold gi, MustParse. rewrite Hq.
  by intros [-> [= ->]].
Qed.
Lemma spec_of_returns c m tr r : int32_range m → runs (spec_of c m) tr (Returns r) → tr = [] ∧ size_is r c m.
Proof.
  intros Hm Hr. apply runs_bind_returns in Hr as (q & tr1 & tr2 & -> & H1 & [-> [= ->]]).
  apply gi_returns in H1 as [-> Hv]; [|done]. done.
Qed.
Lemma savings_returns res tr sv : result_ok res → runs (savings_of res) tr (Returns sv) →
  tr = [] ∧ sv_CPU sv = Calculator.ar_CPUSavings res ∧
  Q_Value (sv_Memory sv) = abs (Calculator.ar_MemorySavings res) * 1073741824.
Proof.
  intros [_ Hm] Hr. apply runs_bind_returns in Hr as (q & tr1 & tr2 & -> & H1 & [-> [= ->]]).
  apply gi_returns in H1 as [-> Hv]; [done|by apply abs_range].
Qed.

(** A new object of the VM with the VM's present size; an existing one keeps what
    [revises] says. *)
Definition fresh req vm (rec : RightsizingRecommendation) : Prop :=
  rr_key rec = rec_key req ∧
  sp_VirtualMachineRef (rr_Spec rec) = {| ref_Name := nn_Name req; ref_Namespace := nn_Namespace req |} ∧
  size_is (sp_Current (rr_Spec rec)) (vm_cpuCores vm) (vm_memoryGiB vm).

(** The object as the run last had it: as it was read, or as the server answered
    when its approval request expired or was reminded of. *)
Definition latest (tr : list (obs Ev)) (old old' : RightsizingRecommendation) : Prop :=
  old' = old ∨ Obs (KUpdateRecStatus (expired old)) (Ok old') ∈ tr ∨
  ∃ now, Obs (KUpdateRecStatus (reminded now old)) (Ok old') ∈ tr.

(** A write that carries the advice. *)
Inductive carries req vm result (tr : list (obs Ev)) : World.Write → Prop :=
| carries_new e sent :
    IsNotFound e = true → Obs (KGetRec (rec_key req)) (Err e) ∈ tr →
    advises result sent → fresh req vm sent → carries req vm result tr (WCreate sent)
| carries_revised old old' sent :
    Obs (KGetRec (rec_key req)) (Ok old) ∈ tr → latest tr old old' → ¬ settled old' →
    advises result sent → revises old' sent → carries req vm result tr (WUpdate sent).

(** ** The courses of filing a recommendation *)

(** A specification sent and, once stored, the status that follows it. *)
Inductive filed (e : Ev (Prelude.result RightsizingRecommendation))
    (mark : RightsizingRecommendation → RightsizingRecommendation)
    : list (obs Ev) → Prelude.result (option RightsizingRecommendation) → Prop :=
| filed_refused x e' : filed e mark [Obs e (Err x)] (Err e')
| filed_unmarked stored x e' :
    filed e mark [Obs e (Ok stored); Obs (KUpdateRecStatus (mark stored)) (Err x)] (Err e')
| filed_marked stored rec :
    filed e mark [Obs e (Ok stored); Obs (KUpdateRecStatus (mark stored)) (Ok rec)] (Ok (Some rec)).

Definition recalculated (now : Z) (rec : RightsizingRecommendation) : RightsizingRecommendation :=
  rec |> upd_Status (set_LastCalculated (Some now)).

Inductive upserted re req vm result : list (obs Ev) → Prelude.result (option RightsizingRecommendation) → Prop :=
| up_unread now e e' : upserted re req vm result [Obs TimeNow now; Obs (KGetRec (rec_key req)) (Err e)] (Err e')
| up_created now e sent trw up : IsNotFound e = true → advises result sent → fresh req vm sent →
    filed (KCreateRec sent) (initial now) trw up →
    upserted re req vm result (Obs TimeNow now :: Obs (KGetRec (rec_key req)) (Err e) :: trw) up
| up_left now old trc got up : runs (expire_or_remind re old) trc (Returns got) →
    (∀ rec, up ≠ Ok (Some rec)) →
    upserted re req vm result (Obs TimeNow now :: Obs (KGetRec (rec_key req)) (Ok old) :: trc) up
| up_refreshed now old trc old' sent trw up : runs (expire_or_remind re old) trc (Returns (Ok old')) →
    ¬ settled old' → advises result sent → revises old' sent → filed (KUpdateRec sent) (recalculated now) trw up →
    upserted re req vm result (Obs TimeNow now :: Obs (KGetRec (rec_key req)) (Ok old) :: trc ++ trw) up.

Lemma create_filed req policy vm result u now tr out :
  result_ok result →
  runs (create_recommendation req policy (vm_cpuCores vm) (vm_memoryGiB vm) result u now) tr (Returns out) →
  ∃ sent, advises result sent ∧ fresh req vm sent ∧
    filed (KCreateRec sent) (initial now) tr (match out with Ok rec => Ok (Some rec) | Err e => Err e end).
Proof.
  intros Hres Hr. apply runs_bind_returns in Hr as (sent & tr1 & tr2 & -> & H1 & Hr).
  apply runs_bind_returns in H1 as (cur & ? & ? & -> & Hcur & H1).
  apply runs_bind_returns in H1 as (rcm & ? & ? & -> & Hrcm & H1).
  apply runs_bind_returns in H1 as (sv & ? & ? & -> & Hsv & [-> [= ->]]).
  apply spec_of_returns in Hcur as [-> Hcur]; [|apply vm_memoryGiB_range].
  apply spec_of_returns in Hrcm as [-> Hrcm]; [|apply Hres].
  apply savings_returns in Hsv as (-> & Hc & Hm); [|done].
  lazymatch type of Hr with context [KCreateRec ?sent] => exists sent end.
  split; [by constructor|]. split; [done|]. destruct Hr as ([stored|e] & tr3 & -> & Hr).
  - destruct Hr as ([rec|e] & tr4 & -> & [-> [= ->]]); constructor.
  - destruct Hr as [-> [= ->]]. constructor.
Qed.

Lemma refresh_filed policy result u now old tr out :
  result_ok result → runs (refresh_recommendation policy result u now old) tr (Returns out) →
  ∃ sent, advises result sent ∧ revises old sent ∧
    filed (KUpdateRec sent) (recalculated now) tr (match out with Ok rec => Ok (Some rec) | Err e => Err e end).
Proof.
  intros Hres Hr. apply runs_bind_returns in Hr as (rcm & ? & ? & -> & Hrcm & Hr).
  apply runs_bind_returns in Hr as (sv & ? & ? & -> & Hsv & Hr).
  apply spec_of_returns in Hrcm as [-> Hrcm]; [|apply Hres].
  apply savings_returns in Hsv as (-> & Hc & Hm); [|done].
  cbv zeta in Hr. lazymatch type of Hr with context [KUpdateRec ?sent] => exists sent end.
  split; [by constructor|]. split; [done|]. destruct Hr as ([stored|e] & tr3 & -> & Hr).
  - destruct Hr as ([rec|e] & tr4 & -> & [-> [= ->]]); constructor.
  - destruct Hr as [-> [= ->]]. constructor.
Qed.

Lemma upsert_upserted re req policy vm result u tr up :
  result_ok result → runs (upsert re req policy (vm_cpuCores vm) (vm_memoryGiB vm) result u) tr (Returns up) →
  upserted re req vm result tr up.
Proof.
  intros Hres (now & tr1 & -> & x & tr2 & -> & Hr). destruct x as [old|e].
  - apply (runs_bind_returns (expire_or_remind re old)) in Hr as (got & trc & tr4 & -> & Hc & Hr).
    destruct got as [old'|e]; [|destruct Hr as [-> [= ->]]; rewrite app_nil_r; by eapply up_left].
    destruct (protected_state _) eqn:Hp; [destruct Hr as [-> [= ->]]; rewrite app_nil_r; by eapply up_left|].
    apply runs_bind_returns in Hr as (out & tr5 & tr6 & -> & H2 & [-> [= ->]]). rewrite app_nil_r.
    apply refresh_filed in H2 as (sent & ? & ? & ?); [|done].
    eapply up_refreshed; [exact Hc|by apply unprotected_unsettled|done..].
  - cbn [runs mbind prog_mbind prog_bind] in Hr.
    destruct (IsNotFound e) eqn:He; [|destruct Hr as [-> [= ->]]; by apply up_unread].
    apply (runs_bind_returns (create_recommendation req policy _ _ result u now)) in Hr
      as (out & tr5 & tr6 & -> & H2 & [-> [= ->]]). rewrite app_nil_r.
    apply create_filed in H2 as (sent & ? & ? & ?); [|done]. by eapply up_created.
Qed.

(** ** What the courses write *)
Lemma expiry_latest re old trc old' :
  runs (expire_or_remind re old) trc (Returns (Ok old')) → latest trc old old'.
Proof.
  unfold expire_or_remind, latest, UpdateStatus. destruct (negb _); [intros [_ [= ->]]; by left|].
  destruct (st_NotifiedAt _) as [n|]; [|intros [_ [= ->]]; by left]. rewrite runs_call. intros (t & tr1 & -> & Hr). cbn zeta in Hr.
  destruct (14 * 24 * Hour <? _).
  { destruct Hr as ([rec|e] & tr2 & -> & [-> [= ->]]). right; left. apply list_elem_of_further, list_elem_of_here. }
  destruct (_ && _); [|destruct Hr as [_ [= ->]]; by left].
  apply runs_bind_returns in Hr as (l & sent & tr2 & -> & _ & now & tr3 & -> & [rec|e] & tr4 & -> & [-> [= ->]]).
  right; right. exists now. set_solver.
Qed.

Lemma remind_quiet re old trc got : tame_reconciler re →
  runs (expire_or_remind re old) trc (Returns got) → spec_writes trc = [] ∧ patches trc = [].
Proof.
  intros Ht Hr. split; [eapply no_spec_writes|eapply no_patches]; try exact Hr.
  - by apply remind_only; [|apply outward_no_spec|..].
  - by apply remind_only; [|apply outward_no_patch|..].
Qed.


Lemma latest_mono tr tr' old old' : (∀ o, o ∈ tr → o ∈ tr') → latest tr old old' → latest tr' old old'.
Proof. unfold latest. naive_solver. Qed.

Lemma carries_mono req vm result tr tr' x : (∀ o, o ∈ tr → o ∈ tr') → carries req vm result tr x → carries req vm result tr' x.
Proof.
  intros Hm [e sent He Hin Ha Hf|old old' sent Hin Hl Hp Ha Hr]; [by apply (carries_new _ _ _ _ e); eauto|].
  apply (carries_revised _ _ _ _ old old'); eauto. by eapply latest_mono.
Qed.
Lemma carries_app req vm result tr1 tr2 x : carries req vm result tr1 x → carries req vm result (tr1 ++ tr2) x.
Proof. apply carries_mono. intros o Ho. apply elem_of_app. by left. Qed.

(** What is filed carries the advice. *)
Lemma upserted_spec re req vm result tr up x : tame_reconciler re → upserted re req vm result tr up →
  x ∈ spec_writes tr → spec_writes tr = [x] ∧ carries req vm result tr x.
Proof.
  intros Ht Hu. destruct Hu as [|now e sent trw up' He Ha Hfr Hf|now old trc got up' Hr _|now old trc old' sent trw up' Hr Hp Ha Hrev Hf].
  - by intros ?%not_elem_of_nil.
  - assert (spec_writes (Obs TimeNow now :: Obs (KGetRec (rec_key req)) (Err e) :: trw) = [WCreate sent]) as -> by by destruct Hf.
    intros ->%list_elem_of_singleton. split; [done|]. apply (carries_new _ _ _ _ e); try done.
    apply list_elem_of_further, list_elem_of_here.
  - change (x ∈ spec_writes trc → spec_writes trc = [x] ∧ carries req vm result (Obs TimeNow now :: Obs (KGetRec (rec_key req)) (Ok old) :: trc) x).
    rewrite (proj1 (remind_quiet _ _ _ _ Ht Hr)). by intros ?%not_elem_of_nil.
  - assert (spec_writes (Obs TimeNow now :: Obs (KGetRec (rec_key req)) (Ok old) :: trc ++ trw) = [WUpdate sent]) as ->.
    { change (spec_writes (trc ++ trw) = [WUpdate sent]).
      rewrite spec_writes_app, (proj1 (remind_quiet _ _ _ _ Ht Hr)). by destruct Hf. }
    intros ->%list_elem_of_singleton. split; [done|]. apply (carries_revised _ _ _ _ old old'); try done.
    + apply list_elem_of_further, list_elem_of_here.
    + eapply latest_mono; [|by eapply expiry_latest]. intros o Ho. do 2 apply list_elem_of_further. apply elem_of_app. by left.
Qed.

Lemma autoApply_no_spec re rec vm : tame_reconciler re → only no_spec_write (autoApply re rec vm).
Proof.
  intros Ht. unfold autoApply, autoApply_approval, autoApply_direct, ResolveOwner, GenerateToken, PatchVMResources, UpdateStatus.
  repeat only_step; (apply (outward_into _ _ outward_no_spec); by apply tame_SendAll, Ht).
Qed.

(** C14: A recommendation says what the analysis found.  A reconciliation creates or
    updates at most one specification, after consulting the metrics of this VM
    (or, in demo mode, the demonstration), and it carries the direction, sizes,
    savings and reason of the advice they give, memory in GiB.  A new one is
    written when there was none under the VM's name, with the VM's present size;
    an update goes to the one under that name as it was last seen, which is
    neither applied nor awaiting approval, and leaves its reference and recorded
    size alone. *)
Theorem recommendation_follows_analysis re req tr res x :
  outward_querier PQ → tame_reconciler re → runs (Reconcile re req) tr (Returns res) → x ∈ spec_writes tr →
  spec_writes tr = [x] ∧
  ∃ policy vm result rest, consulted re req tr policy vm (Advice result) rest ∧ carries req vm result rest x.
Proof.
  intros Hq Ht [e e' He|trp policy e H|tr' policy vm H|tr' policy vm rest H Hw|tr' policy vm result u tr1 up tr2 res' H Hok Hu Ha]%Reconcile_course.
  - by intros ?%not_elem_of_nil.
  - by destruct H; intros ?%not_elem_of_nil.
  - destruct (consulted_outward _ _ _ _ _ _ _ Hq H) as (_ & _ & -> & _). by intros ?%not_elem_of_nil.
  - destruct (consulted_outward _ _ _ _ _ _ _ Hq H) as (_ & _ & -> & _). by destruct Hw; intros ?%not_elem_of_nil.
  - destruct (consulted_outward _ _ _ _ _ _ _ Hq H) as (_ & _ & -> & _).
    assert (spec_writes tr2 = []) as H2.
    { unfold acted in Ha. destruct up as [[rec|]|e]; [|by destruct Ha as [-> _]..]. destruct Ha as [_ Ha].
      destruct (_ && _); [|by subst]. refine (no_spec_writes _ _ _ _ Ha). by apply autoApply_no_spec. }
    rewrite spec_writes_app, H2, app_nil_r. intros Hin.
    destruct (upserted_spec _ _ _ _ _ _ _ Ht (upsert_upserted _ _ _ _ _ _ _ _ Hok Hu) Hin) as [-> Hc].
    split; [done|]. exists policy, vm, result, (tr1 ++ tr2). split; [done|]. by apply carries_app.
Qed.

(** ** Automatic changes of a VM *)










End AdviceFacts.
