(* ===== verification/Oversights.v ===== *)
(** * What the code leaves out

    Smaller things the model shows about the code: settings nothing reads, fields
    nothing sets, failures that pass for something else. *)
From S2P Require Import Prelude GoStrings GoTime GoFloat External ApiTypes Effects World.
From S2P Require Import Http Approval Owner Applier Notifier Controller ApiServer Handlers.
From S2P Require Import NotifierFacts Lifecycle LifecycleFacts ReconcileFacts.
From S2P Require Calculator Prometheus.
Local Open Scope Z_scope.
Local Open Scope ovro_scope.

Section Oversights.
Context `{P : Platform} `{GI : GoImpl} `{J : JwtLib}.

(** ** Settings nothing reads

    A reconciliation depends on the look-back period, the headroom, the
    thresholds, the interval and whether automatic mode is on.  The percentile,
    automatic mode's schedule, and the retention of revert configurations and
    metrics make no difference. *)
Definition same_effect (p q : RightsizingPolicy) : Prop :=
  let s := rp_Spec p in let t := rp_Spec q in
  ps_LookbackDays s = ps_LookbackDays t ∧
  al_HeadroomPercent (ps_Algorithm s) = al_HeadroomPercent (ps_Algorithm t) ∧
  ps_Thresholds s = ps_Thresholds t ∧
  ps_ReconcileIntervalMinutes s = ps_ReconcileIntervalMinutes t ∧
  am_Enabled (ps_AutoMode s) = am_Enabled (ps_AutoMode t).

(** The first call of a run, when it is the reading of the policy. *)
Definition obs_policy (o : obs Ev) : option (result RightsizingPolicy) :=
  match o with
  | Obs e x => match e in Ev X return X → option (result RightsizingPolicy) with
               | KGetPolicy _ => Some | _ => λ _, None end x
  end.

Lemma runs_policy {A} name (f : result RightsizingPolicy → prog Ev A) x tr out :
  runs (call (KGetPolicy name) ≫= f) (Obs (KGetPolicy name) x :: tr) out ↔ runs (f x) tr out.
Proof.
  rewrite runs_call. split; [|intros H; eauto]. intros (y & tr' & Heq & H).
  pose proof (f_equal (λ l, head l ≫= obs_policy) Heq) as Hx. pose proof (f_equal tail Heq) as Ht. cbn in Hx, Ht.
  by simplify_eq.
Qed.

Theorem settings_unused `{!PrometheusQuerier} re req p q tr out :
  same_effect p q → runs (Reconcile re req) (Obs (KGetPolicy "default") (Ok p) :: tr) out →
  runs (Reconcile re req) (Obs (KGetPolicy "default") (Ok q) :: tr) out.
Proof.
  destruct p as [n1 v1 [l1 [pc1 hr1] th1 rv1 [en1 sc1] iv1 ms1]], q as [n2 v2 [l2 [pc2 hr2] th2 rv2 [en2 sc2] iv2 ms2]].
  intros (H1 & H2 & H3 & H4 & H5). cbn in H1, H2, H3, H4, H5. subst.
  unfold Reconcile, fetch_policy. unfold mbind, prog_mbind. rewrite !prog_bind_assoc.
  intros Hr%runs_policy. by apply runs_policy.
Qed.

(** A revert stays possible for ever: it never looks at the clock. *)
Theorem revert_never_expires s w r :
  only (λ X (e : Ev X), match e with TimeNow => False | _ => True end) (handleRevert s w r).
Proof. unfold handleRevert, update_or_error. repeat only_step. Qed.

(** A machine that needs a restart is given no time for it by automatic mode: the
    restart controller will not restart it. *)
Theorem automatic_change_unscheduled re rec vm tr out rec' :
  runs (autoApply_direct re rec vm) tr out → st_ScheduledRestartAt (rr_Status rec) = None →
  In (WStatus rec') (map fst (writes tr)) → st_ScheduledRestartAt (rr_Status rec') = None.
Proof.
  intros (now & tr1 & -> & Hr) Hs Hin. cbn in Hin.
  assert (∀ rec1 tr2 out2, st_ScheduledRestartAt (rr_Status rec1) = None →
    runs (_ ← UpdateStatus rec1; mret tt) tr2 out2 → In (WStatus rec') (map fst (writes tr2)) →
    st_ScheduledRestartAt (rr_Status rec') = None) as Hupd.
  { intros rec1 tr2 out2 Hs1 (x & tr3 & -> & [-> _]) Hin2. cbn in Hin2. by destruct Hin2 as [[= <-]|[]]. }
  destruct (re_Applier re) as [a|].
  - destruct Hr as (ans & tr2 & -> & Hr). cbn in Hin. destruct Hin as [[=]|Hin].
    destruct ans; refine (Hupd _ _ _ _ Hr Hin); [by destruct (IsHotplugCapable vm)|done].
  - refine (Hupd _ _ _ _ Hr Hin). by destruct (IsHotplugCapable vm).
Qed.

(** ** A refresh

    It writes the specification, and then, on what the server answered, the time
    of the calculation. *)
Lemma refresh_course p result u now rec tr out :
  runs (refresh_recommendation p result u now rec) tr out →
  tr = [] ∨ ∃ rec1 x, rr_Status rec1 = rr_Status rec ∧
    sp_HotplugCapable (rr_Spec rec1) = sp_HotplugCapable (rr_Spec rec) ∧
    match x with
    | Err _ => tr = [Obs (KUpdateRec rec1) x]
    | Ok stored => ∃ y, tr = [Obs (KUpdateRec rec1) x;
        Obs (KUpdateRecStatus (stored |> upd_Status (set_LastCalculated (Some now)))) y]
    end.
Proof.
  unfold refresh_recommendation, recommended_of, savings_of, spec_of, gi.
  destruct (MustParse (itoa (Calculator.ar_RecommendedMemoryGiB _) +:+ _)) as [m|]; [|intros [-> _]; by left].
  destruct (MustParse _) as [sv|]; [|intros [-> _]; by left].
  intros (x & tr1 & -> & Hr). right. eexists _, x. split; [|split; [|destruct x as [r2|e]]]; [| | |by destruct Hr as [-> _]].
  1-2: reflexivity.
  destruct Hr as (y & tr2 & -> & Hr). exists y. by destruct y, Hr as [-> _].
Qed.

(** New recommendations are not hotplug-capable, and a refresh leaves that as it is. *)
Theorem hotplug_never_set req p cores memory result u now rec tr :
  (∀ rec', runs (new_recommendation req p cores memory result u) tr (Returns rec') →
     sp_HotplugCapable (rr_Spec rec') = false) ∧
  (∀ out rec', runs (refresh_recommendation p result u now rec) tr out → In (WUpdate rec') (map fst (writes tr)) →
     sp_HotplugCapable (rr_Spec rec') = sp_HotplugCapable (rr_Spec rec)).
Proof.
  split.
  - intros rec' (a & tr1 & tr2 & -> & _ & (b & tr3 & tr4 & -> & _ & (c & tr5 & tr6 & -> & _ & [_ [= ->]])%runs_bind_returns)%runs_bind_returns)%runs_bind_returns.
    done.
  - intros out rec' [->|(rec1 & x & _ & <- & Hx)]%refresh_course Hin; [done|].
    destruct x as [stored|e]; [destruct Hx as [y ->]|subst tr]; cbn in Hin; naive_solver.
Qed.

(** A refresh gives no state to a recommendation whose creation stopped halfway:
    neither write changes what the server has. *)
Theorem refresh_keeps_state p result u now rec tr out :
  runs (refresh_recommendation p result u now rec) tr out →
  (∀ rec', In (WUpdate rec') (map fst (writes tr)) → rr_state rec' = rr_state rec) ∧
  (∀ rec', In (WStatus rec') (map fst (writes tr)) →
     ∃ sent stored, In (Obs (KUpdateRec sent) (Ok stored)) tr ∧ rr_state rec' = rr_state stored).
Proof.
  intros [->|(rec1 & x & Hst & _ & Hx)]%refresh_course; [done|].
  destruct x as [stored|e]; [destruct Hx as [y ->]|subst tr]; split; intros rec' Hin; cbn in Hin.
  - destruct Hin as [[= <-]|[[=]|[]]]. unfold rr_state. by rewrite Hst.
  - destruct Hin as [[=]|[[= <-]|[]]]. exists rec1, stored. split; [by left|done].
  - destruct Hin as [[= <-]|[]]. unfold rr_state. by rewrite Hst.
  - by destruct Hin as [[=]|[]].
Qed.

(** ** Applying

    Whatever is applied, reverted or approved over the API, no VM is patched: the
    size of the VM stays as it is. *)
Definition api_tame (s : Server) : Prop := ∀ d, s_Notifier s = Some d → tame_dispatcher d.

Theorem deciding_leaves_vm s w r : api_tame s →
  only no_patch (handleApply s w r) ∧ only no_patch (handleRevert s w r) ∧ only no_patch (handleOwnerApprove s w r).
Proof.
  intros Ht. assert (∀ d n, s_Notifier s = Some d → only no_patch (SendAll d n)) as Hs.
  { intros d n Hd. apply (outward_into _ _ outward_no_patch). by apply tame_SendAll, Ht. }
  split_and!.
  - unfold handleApply, handleApply_demo, handleApply_owner, handleApply_direct, ResolveOwner, GenerateToken, update_or_error.
    repeat only_step; by apply Hs.
  - unfold handleRevert, update_or_error. repeat only_step.
  - unfold handleOwnerApprove, update_or_error. repeat only_step.
Qed.

(** ** Owners that cannot be looked up

    When the lookup fails, applying goes on as for a VM without an owner. *)
Theorem owner_error_applies s resolver tm d w r req rec tr1 e tr2 out :
  s_DemoMode s = false → s_OwnerResolver s = Some resolver → s_TokenManager s = Some tm → s_Notifier s = Some d →
  DecodeBody maxBodySize r decode_ApplyRequest zero_ApplyRequest = Some req →
  rr_state rec = StatePending →
  runs (ResolveOwner resolver (ref_Name (sp_VirtualMachineRef (rr_Spec rec))) (ref_Namespace (sp_VirtualMachineRef (rr_Spec rec))))
    tr1 (Returns (Err e)) →
  runs (handleApply_direct req rec w r) tr2 out →
  runs (handleApply s w r) (Obs (KGetRec (path_key r)) (Ok rec) :: tr1 ++ tr2) out.
Proof.
  intros Hd Hr Ht Hn Hbody Hst H1 H2. unfold handleApply. rewrite Hbody, runs_call. eexists _, _. split; [done|].
  cbv beta iota. rewrite Hst. change (negb (String.eqb StatePending StatePending)) with false. cbv iota. rewrite Hd, Hr, Ht, Hn.
  apply runs_bind. left. by exists (Err e), tr1, tr2.
Qed.

(** ** The content type of a 202 answer

    The status line is out before the type is set. *)
Theorem accepted_without_content_type (w : ResponseWriter ApiBody) owner message url :
  w_sent w = None → w_Header w !! "Content-Type" = None →
  Status (accepted w owner message url) = 202 ∧ SentHeader (accepted w owner message url) "Content-Type" = None.
Proof. intros Hs Hh. unfold accepted, writeJSON, SentHeader, Status, WriteHeader. rewrite Hs. by cbn. Qed.

(** ** Machines below one GiB

    Their memory counts as zero; the samples are then taken for percentages as
    they are, and an analysis that sees one above the threshold can only keep the
    memory at zero. *)
Theorem no_memory_no_percentages samples : Prometheus.toPercent samples (f64_of_Z 0) = samples.
Proof. reflexivity. Qed.

Theorem small_machines_not_downsized i r :
  Calculator.ai_CurrentMemoryGiB i = 0 → 0 <= Calculator.ai_CurrentCPUCores i <= 2147483647 →
  fgeb (Calculator.ai_MemoryP95Percent i) (f64_of_Z (Calculator.ai_UpsizeThresholdPct i)) = true →
  finite (Max (Calculator.ai_MemoryP95Percent i) (Calculator.ai_MemoryMaxPercent i)) = true →
  Calculator.Analyze i = Some r →
  Calculator.ar_Direction r = Calculator.Upsize ∧ Calculator.ar_RecommendedMemoryGiB r = 0.
Proof.
  intros Hm Hc Hp Hf. rewrite Calculator.Analyze_cases. unfold Calculator.wants_upsize. rewrite Hp, orb_true_r. cbn [orb].
  unfold Calculator.analyzeUpsize. rewrite Hm. change (f64_of_Z 0) with (S754_zero false).
  assert (to_int32 (Ceil (fdiv (fdiv (fmul (S754_zero false) (Max (Calculator.ai_MemoryP95Percent i)
    (Calculator.ai_MemoryMaxPercent i))) Calculator.f100) Calculator.f0_70)) = 0) as ->.
  { destruct (Max _ _) as [[]|[]| |[] m e]; done. }
  cbn zeta. change (0 <=? 0) with true. cbv iota. destruct (_ && _); [done|]. intros [= <-]. done.
Qed.
End Oversights.
