(* ===== verification/ClockFacts.v ===== *)
(** * Deadlines

    When an approval request is reminded of and expires in a reconciliation, when
    a VM is restarted, and two things the clocks miss: a reminder after a rejection, and a restart
    asked for at once. *)
From S2P Require Import Prelude GoStrings GoTime GoFloat GoJson External ApiTypes Effects World.
From S2P Require Import Http Approval Owner Applier Notifier NotifierFacts Controller Restart ApiServer Handlers.
From S2P Require Import Lifecycle LifecycleFacts SafetyFacts ReconcileFacts.
From S2P Require Calculator.
Local Open Scope Z_scope.
Local Open Scope ovro_scope.

Section ClockFacts.
Context `{P : Platform} `{J : JwtLib}.
Implicit Types (re : RightsizingRecommendationReconciler) (req : NamespacedName).

Definition reminder re (rec : RightsizingRecommendation) : Notification :=
  rec_notification (sp_VirtualMachineRef (rr_Spec rec)) rec (st_Owner (rr_Status rec))
    (approval_url (re_ApprovalRouteHost re) (st_ApprovalToken (rr_Status rec))).
(** The notifications of a reminder: to every forwarder but ServiceNow. *)
Definition reminder_sent re rec (tr : list (obs Ev)) : Prop :=
  match re_Notifier re with
  | Some d => ∃ errs, runs (SendAllExcept d (reminder re rec) ["servicenow"]) tr (Returns errs)
  | None => tr = []
  end.

(** The result of a status write of the clock: what the server has, or an error. *)
Definition answered (x : Prelude.result RightsizingRecommendation) (res : Prelude.result RightsizingRecommendation) : Prop :=
  match x with Ok rec => res = Ok rec | Err _ => ∃ e, res = Err e end.

Lemma expire_or_remind_returns re rec notifiedAt tr res :
  in_state StateAwaitingApproval rec → st_NotifiedAt (rr_Status rec) = Some notifiedAt →
  runs (expire_or_remind re rec) tr (Returns res) →
  ∃ t rest, tr = Obs TimeNow t :: rest ∧
    let elapsed := time_sub t notifiedAt in
    if fourteenDays <? elapsed then ∃ x, rest = [Obs (KUpdateRecStatus (expired rec)) x] ∧ answered x res
    else if (sevenDays <? elapsed) && bool_decide (st_ReminderSentAt (rr_Status rec) = None) then
      ∃ sent now x, rest = sent ++ [Obs TimeNow now; Obs (KUpdateRecStatus (reminded now rec)) x] ∧
        reminder_sent re rec sent ∧ answered x res
    else rest = [] ∧ res = Ok rec.
Proof.
  intros Hst Hn Hr. unfold expire_or_remind, UpdateStatus in Hr.
  rewrite (proj2 (negb_false_iff _) (proj2 (String.eqb_eq _ _) Hst)), Hn in Hr.
  rewrite runs_call in Hr; destruct Hr as (t & rest & -> & Hr). exists t, rest. split; [done|]. cbn zeta.
  change (14 * 24 * Hour) with fourteenDays in Hr. change (7 * 24 * Hour) with sevenDays in Hr. cbn zeta in Hr.
  destruct (fourteenDays <? time_sub t notifiedAt).
  { rewrite runs_call in Hr; destruct Hr as (x & tr2 & -> & Hr). exists x. unfold answered.
    destruct x, Hr as [-> [= ->]]; split; eauto. }
  destruct (_ && _); [|by destruct Hr as [-> [= ->]]].
  apply runs_bind_returns in Hr as (l & sent & tr2 & -> & Hs & Hr).
  rewrite runs_call in Hr; destruct Hr as (now & tr3 & -> & Hr). rewrite runs_call in Hr; destruct Hr as (x & tr4 & -> & Hr).
  exists sent, now, x. split_and!.
  - by destruct x, Hr as [-> _].
  - unfold reminder_sent. destruct (re_Notifier re); [by exists l|by destruct Hs].
  - unfold answered. destruct x, Hr as [_ [= ->]]; eauto.
Qed.

(** What follows a status write of the clock in a reconciliation: after an error
    nothing more, and the reconciliation fails; when the object is still settled,
    nothing more either. *)
Definition followed (x : Prelude.result RightsizingRecommendation) (more : list (obs Ev)) (res : Prelude.result Z) : Prop :=
  match x with
  | Ok rec' => settled rec' → more = [] ∧ ∃ d, res = Ok d
  | Err _ => more = [] ∧ ∃ e, res = Err e
  end.

(** The clock of a request in a reconciliation at time [t], with what is called
    from then on. *)
Definition clock_course re rec notifiedAt t (more : list (obs Ev)) (res : Prelude.result Z) : Prop :=
  let elapsed := time_sub t notifiedAt in
  (fourteenDays < elapsed →
     ∃ x more', more = Obs (KUpdateRecStatus (expired rec)) x :: more' ∧ followed x more' res) ∧
  (sevenDays < elapsed <= fourteenDays → st_ReminderSentAt (rr_Status rec) = None →
     ∃ sent now x more', more = sent ++ Obs TimeNow now :: Obs (KUpdateRecStatus (reminded now rec)) x :: more' ∧
       reminder_sent re rec sent ∧ followed x more' res) ∧
  (elapsed <= sevenDays ∨ (elapsed <= fourteenDays ∧ st_ReminderSentAt (rr_Status rec) ≠ None) →
     more = [] ∧ ∃ d, res = Ok d).

Section Reconcile.
Context `{GI : GoImpl} `{PQ : !PrometheusQuerier}.

(** Only the one look at the recommendation reads it. *)
Definition no_read (X : Type) (e : Ev X) : Prop := match e with KGetRec _ => False | _ => True end.

Lemma unread_advice re req policy vm result u now rec tr1 tr2 out1 out2 : tame_reconciler re →
  (runs (create_recommendation req policy (vm_cpuCores vm) (vm_memoryGiB vm) result u now) tr1 out1 → reads tr1 = []) ∧
  (runs (autoApply re rec vm) tr2 out2 → reads tr2 = []).
Proof.
  intros Ht. assert (∀ (A : Type) (p : prog Ev A) tr out, only no_read p → runs p tr out → reads tr = []) as Hno.
  { intros A p tr out. apply only_omap. by intros X []. }
  split; apply Hno.
  - unfold create_recommendation, new_recommendation, recommended_of, savings_of, spec_of, gi, UpdateStatus. repeat only_step.
  - unfold autoApply, autoApply_approval, autoApply_direct, ResolveOwner, GenerateToken, PatchVMResources, UpdateStatus.
    repeat only_step; (eapply only_mono; [|by apply tame_SendAll, Ht]; by intros X []).
Qed.

(** The rest of a reconciliation that looked at an approval request. *)
Lemma upsert_clock re req policy vm result u rec notifiedAt t0 tr up tr2 res :
  in_state StateAwaitingApproval rec → st_NotifiedAt (rr_Status rec) = Some notifiedAt →
  runs (res ← expire_or_remind re rec;
        match res with
        | Err e => mret (Err e)
        | Ok rec =>
            if protected_state (rr_state rec) then mret (Ok None) else
            res ← refresh_recommendation policy result u t0 rec;
            mret (match res with Ok rec => Ok (Some rec) | Err e => Err e end)
        end) tr (Returns up) →
  acted re policy vm up tr2 res →
  ∃ t more, tr ++ tr2 = Obs TimeNow t :: more ∧ clock_course re rec notifiedAt t more res.
Proof.
  intros Hst Hn Hr Ha. apply runs_bind_returns in Hr as (got & trc & trd & -> & Hc & Hr).
  apply (expire_or_remind_returns _ _ _ _ _ Hst Hn) in Hc as (t & rest & -> & Hc).
  exists t, (rest ++ trd ++ tr2). split; [by rewrite <-app_assoc|].
  assert (∀ x, answered x got → followed x (trd ++ tr2) res) as Hfol.
  { intros [rec'|e]; cbn [answered followed].
    - intros ->. intros Hset%protected_settled. rewrite Hset in Hr. destruct Hr as [-> [= ->]], Ha as [-> ->]. eauto.
    - intros [e' ->]. destruct Hr as [-> [= ->]], Ha as [-> ->]. eauto. }
  assert (rest = [] ∧ got = Ok rec → rest ++ trd ++ tr2 = [] ∧ ∃ d, res = Ok d) as Hidle.
  { intros [-> ->]. apply (Hfol (Ok rec)); [done|]. unfold settled. rewrite Hst. set_solver. }
  unfold clock_course. cbn zeta in *. assert (sevenDays < fourteenDays) by done.
  destruct (Z.ltb_spec fourteenDays (time_sub t notifiedAt)).
  { destruct Hc as (x & -> & Hx). split; [intros _|split; lia]. exists x, (trd ++ tr2). eauto. }
  split; [lia|]. destruct (Z.ltb_spec sevenDays (time_sub t notifiedAt)); cbn [andb] in Hc; [|split; [lia|by intros _; apply Hidle]].
  destruct (st_ReminderSentAt (rr_Status rec)); cbn in Hc.
  - split; [done|]. intros _. by apply Hidle.
  - destruct Hc as (sent & now & x & -> & Hs & Hx). split; [intros _ _|intros [?|[_ []]]; [lia|done]].
    exists sent, now, x, (trd ++ tr2). split_and!; [by rewrite <-app_assoc|done|by apply Hfol].
Qed.

(** C11: An approval request is watched by the clock, when its VM still gets advice.
    A reconciliation that reads a recommendation awaiting approval has consulted
    the metrics of the VM.  Without advice it does nothing with the request.  With
    advice it takes the time: past fourteen days since the notification the
    request expires (a status write back to pending, with owner, token and times
    cleared, nobody notified); past seven days, if no reminder went out yet, one
    goes to every forwarder but ServiceNow and then the time of sending is written;
    otherwise nothing more happens.  When such a status write fails the
    reconciliation ends with an error, so an expiry is tried again, and a reminder
    is sent again. *)
Theorem approval_clock re req tr res rec notifiedAt :
  outward_querier PQ → tame_reconciler re → runs (Reconcile re req) tr (Returns res) →
  head (reads tr) = Some rec →
  in_state StateAwaitingApproval rec → st_NotifiedAt (rr_Status rec) = Some notifiedAt →
  ∃ policy vm v rest, consulted re req tr policy vm v rest ∧
    match v with
    | NoAnswer => False
    | NoChange => rest = [Obs (KGetRec (rec_key req)) (Ok rec)]
    | Advice _ => ∃ t0 t more,
        rest = Obs TimeNow t0 :: Obs (KGetRec (rec_key req)) (Ok rec) :: Obs TimeNow t :: more ∧
        clock_course re rec notifiedAt t more res
    end.
Proof.
  intros Hq Ht Hr Hread Hst Hn. revert Hread.
  destruct (Reconcile_course _ _ _ _ Hr) as [e e' He|trp policy e H|tr' policy vm H|tr' policy vm rest H Hw|tr' policy vm result u tr1 up tr2 res' H Hok Hu Ha].
  1: done. 1: by destruct H.
  all: destruct (consulted_outward _ _ _ _ _ _ _ Hq H) as (_ & -> & _); intros Hread. 1: done.
  - exists policy, vm, NoChange, rest. split; [done|]. destruct Hw as [e|rec' _|rec' x Hno]; [done|by injection Hread as ->|].
    injection Hread as ->. destruct Hno. unfold settled. rewrite Hst. set_solver.
  - exists policy, vm, (Advice result), (tr1 ++ tr2). split; [done|].
    destruct Hu as (t0 & tr3 & -> & x & tr4 & -> & Hu). exists t0. destruct x as [rec'|e].
    + injection Hread as ->. destruct (upsert_clock re req policy vm result u rec notifiedAt t0 tr4 up tr2 res' Hst Hn Hu Ha)
        as (t & more & Heq & Hc). exists t, more. split; [|done]. by rewrite <-Heq.
    + exfalso. change (head (reads (tr4 ++ tr2)) = Some rec) in Hread. rewrite reads_app in Hread.
      cbn [runs mbind prog_mbind prog_bind] in Hu.
      destruct (IsNotFound e); [|by destruct Hu as [-> [= ->]], Ha as [-> _]].
      apply (runs_bind_returns (create_recommendation req policy _ _ result u t0)) in Hu as (out & tr5 & tr6 & -> & H2 & [-> [= ->]]).
      rewrite app_nil_r in Hread. rewrite (proj1 (unread_advice re req policy vm result u t0 rec tr5 tr2 _ (Returns tt) Ht) H2) in Hread.
      destruct out as [rec'|]; [|by destruct Ha as [-> _]]. destruct Ha as [_ Ha]. destruct (_ && _); [|by subst].
      by rewrite (proj2 (unread_advice re req policy vm result u t0 rec' tr5 tr2 (Returns (Ok rec')) _ Ht) Ha) in Hread.
Qed.
End Reconcile.

(** C29: A rejection silences later reminders.  Rejecting a request leaves the time of
    its reminder in place, so when approval is asked for again no reminder is ever
    sent: every look at the new request does nothing or lets it expire. *)
Theorem reminder_lost_after_rejection re rec who reason owner token t1 t2 reminderAt tr res :
  st_ReminderSentAt (rr_Status rec) = Some reminderAt →
  runs (expire_or_remind re (await_approval owner token t2 (reject who reason t1 rec))) tr (Returns res) →
  ∃ t, tr = [Obs TimeNow t] ∨
    ∃ x, tr = [Obs TimeNow t; Obs (KUpdateRecStatus (expired (await_approval owner token t2 (reject who reason t1 rec)))) x].
Proof.
  intros Hrem Hr. apply (expire_or_remind_returns _ _ t2) in Hr as (t & rest & -> & H); [|done..].
  exists t. cbn zeta in H. destruct (fourteenDays <? _).
  - destruct H as (x & -> & _). right. by exists x.
  - rewrite (bool_decide_eq_false_2 (_ = None)), andb_false_r in H by (cbn; by rewrite Hrem).
    destruct H as [-> _]. by left.
Qed.

(** ** Restarts *)
Definition restart_call (rec : RightsizingRecommendation) (ans : result unit) : obs Ev :=
  let ref := sp_VirtualMachineRef (rr_Spec rec) in
  Obs (DynPatchVM (NSName (ref_Namespace ref) (ref_Name ref)) (JObject []) ["restart"]) ans.

Lemma RestartReconcile_course a req rec tr out :
  runs (@RestartReconcile _ (applier_restarter a) req) (Obs (KGetRec req) (Ok rec) :: tr) out →
  if String.eqb (rr_state rec) StateAppliedPendingRestart then
    match st_ScheduledRestartAt (rr_Status rec) with
    | None => tr = [] ∧ out = Returns (Ok (5 * Minute))
    | Some at_ => ∃ now rest, tr = Obs TimeNow now :: rest ∧
        if now <? at_ then ∃ now', rest = [Obs TimeNow now'] ∧ out = Returns (Ok (time_sub at_ now'))
        else ∃ ans rest', rest = restart_call rec ans :: rest' ∧
          match ans with
          | Ok _ => ∃ now' x, rest' = [Obs TimeNow now'; Obs (KUpdateRecStatus (restart_done now' rec)) x] ∧
              out = Returns (match x with Ok _ => Ok 0 | Err e => Err (EWrap "updating status after restart" e) end)
          | Err e => ∃ e' x, rest' = [Obs (KUpdateRecStatus (restart_failed e' rec)) x] ∧
              out = Returns (Err (EWrap "restarting VM" e'))
          end
    end
  else tr = [] ∧ out = Returns (Ok 0).
Proof.
  unfold RestartReconcile. rewrite runs_call. intros (x & tr' & Heq & Hr).
  pose proof (f_equal tail Heq) as Htr. cbn in Htr. subst tr'.
  pose proof (f_equal (λ l, head l ≫= obs_read) Heq) as Hx. cbn in Hx. clear Heq.
  destruct x as [rec'|e]; [|done]. injection Hx as <-.
  destruct (String.eqb (rr_state rec) StateAppliedPendingRestart); cbn [negb] in Hr; [|done].
  destruct (st_ScheduledRestartAt (rr_Status rec)) as [at_|]; [|done].
  rewrite runs_call in Hr. destruct Hr as (now & rest & -> & Hr). exists now, rest. split; [done|].
  destruct (now <? at_).
  { destruct Hr as (now' & tr2 & -> & [-> ->]). by exists now'. }
  destruct Hr as (ans & rest' & -> & Hr). exists ans, rest'. split; [done|]. destruct ans as [u|e].
  - destruct Hr as (now' & tr2 & -> & x & tr3 & -> & Hr). exists now', x. by destruct x, Hr as [-> ->].
  - destruct Hr as (x & tr2 & -> & [-> ->]). eexists _, x. by split.
Qed.

(** C12: A VM is restarted when its time has come, once, and not before.  On a
    recommendation waiting for its restart: without a schedule the controller
    looks again in five minutes; before the time it does nothing but come back
    when the time is there; from then on it restarts exactly the VM in question
    and records the outcome, applied (schedule cleared) or failed.  In any other
    state it leaves everything alone. *)
Theorem restart_on_schedule a req rec tr out :
  runs (@RestartReconcile _ (applier_restarter a) req) (Obs (KGetRec req) (Ok rec) :: tr) out →
  (rr_state rec ≠ StateAppliedPendingRestart → tr = [] ∧ out = Returns (Ok 0)) ∧
  (in_state StateAppliedPendingRestart rec → st_ScheduledRestartAt (rr_Status rec) = None →
     tr = [] ∧ out = Returns (Ok (5 * Minute))) ∧
  (∀ at_, in_state StateAppliedPendingRestart rec → st_ScheduledRestartAt (rr_Status rec) = Some at_ →
     ∃ now rest, tr = Obs TimeNow now :: rest ∧
       (now < at_ → ∃ now', rest = [Obs TimeNow now'] ∧ out = Returns (Ok (time_sub at_ now'))) ∧
       (at_ <= now →
         (∃ now' x, rest = [restart_call rec (Ok tt); Obs TimeNow now'; Obs (KUpdateRecStatus (restart_done now' rec)) x]) ∨
         (∃ e e' x, rest = [restart_call rec (Err e); Obs (KUpdateRecStatus (restart_failed e' rec)) x] ∧
            out = Returns (Err (EWrap "restarting VM" e'))))).
Proof.
  intros Hr. apply RestartReconcile_course in Hr. unfold in_state.
  destruct (String.eqb_spec (rr_state rec) StateAppliedPendingRestart) as [Hst|Hst]; [|by split_and!].
  split; [done|]. destruct (st_ScheduledRestartAt _) as [at0|]; split_and!; try done.
  intros at_ _ [= <-]. destruct Hr as (now & rest & -> & Hr). exists now, rest. split; [done|].
  destruct (Z.ltb_spec now at0); (split; [|try lia]); try lia; intros _; [done|].
  destruct Hr as (ans & rest' & -> & Hr). destruct ans as [[]|e].
  - destruct Hr as (now' & x & -> & _). left. by exists now', x.
  - destruct Hr as (e' & x & -> & ->). right. by exists e, e', x.
Qed.

(** C28: "Restart now" restarts nothing.  For a VM that cannot be changed live, a
    decision with the option "now" and no earlier schedule records the change as
    applied at once but sets no restart time, and the restart controller, as long
    as it sees this object, only comes back every five minutes. *)
Theorem restart_now_never_restarts a req body now rec rec' tr out :
  sp_HotplugCapable (rr_Spec rec) = false → ap_RestartOption body = "now" →
  st_ScheduledRestartAt (rr_Status rec) = None → apply_state body now rec = Some rec' →
  runs (@RestartReconcile _ (applier_restarter a) req) (Obs (KGetRec req) (Ok rec') :: tr) out →
  in_state StateAppliedPendingRestart rec' ∧ st_AppliedAt (rr_Status rec') = Some now ∧
  tr = [] ∧ out = Returns (Ok (5 * Minute)).
Proof.
  intros Hh Hopt Hs Ha Hr. unfold apply_state in Ha. rewrite Hh, Hopt in Ha. cbn in Ha. injection Ha as <-.
  apply RestartReconcile_course in Hr. cbn in Hr. rewrite Hs in Hr. by destruct Hr.
Qed.
End ClockFacts.
