(* ===== verification/RestartLoop.v ===== *)
(** * From schedule to restart

    The restart controller does not wait: it answers when it wants to be asked
    again.  This file puts it into the loop that asks, controller-runtime's work
    queue, and shows what becomes of a scheduled restart.  The queue is modelled
    by what controller-runtime documents: a positive [RequeueAfter] asks for the
    object again no earlier than that, an error asks for it again some time later,
    anything else drops it; besides, a watch event may ask for it at any time. *)
From S2P Require Import Prelude External ApiTypes Effects World Applier Controller Restart ClockFacts Lifecycle.
Local Open Scope Z_scope.

Section RestartLoop.
Context `{P : Platform} (a : Applier) (req : NamespacedName).

(** ** The world around one recommendation

    The clock, the stored object, and the attempted restarts of its VM with their
    times and outcomes.  Nobody else writes the object, its reads are fresh and
    its writes succeed; a restart may fail.  Any call may take time. *)
Record Loop : Type := {
  lw_clock : Z;
  lw_rec : RightsizingRecommendation;
  lw_restarts : list (Z * bool)
}.
Definition at_time (w : Loop) (t : Z) : Loop :=
  {| lw_clock := t; lw_rec := lw_rec w; lw_restarts := lw_restarts w |}.

Definition loop_step X (w : Loop) (e : Ev X) : X → Loop → Prop :=
  match e in Ev X return X → Loop → Prop with
  | TimeNow => λ t w', w' = at_time w t ∧ lw_clock w <= t
  | KGetRec key => λ x w', ∃ t, w' = at_time w t ∧ lw_clock w <= t ∧ (key = req → x = Ok (lw_rec w))
  | KUpdateRecStatus r => λ x w', ∃ t, lw_clock w <= t ∧ x = Ok r ∧
      w' = {| lw_clock := t; lw_rec := r; lw_restarts := lw_restarts w |}
  | DynPatchVM _ _ _ => λ x w', ∃ t, lw_clock w <= t ∧
      w' = {| lw_clock := t; lw_rec := lw_rec w; lw_restarts := lw_restarts w ++ [(t, is_ok x)] |}
  | _ => λ _ w', ∃ t, w' = at_time w t ∧ lw_clock w <= t
  end.

Definition Reconciles (w : Loop) (out : outcome (result Z)) (w' : Loop) : Prop :=
  ∃ tr, exec loop_step w (@RestartReconcile _ (applier_restarter a) req) tr out w'.

(** An activation that takes the time twice, with [at_] between the readings. *)
Definition raced (at_ : Z) (w w' : Loop) : Prop :=
  ∃ tr out now now', exec loop_step w (@RestartReconcile _ (applier_restarter a) req) tr out w' ∧
    times tr = [now; now'] ∧ now < at_ <= now'.

(** ** The queue: the earliest times the object is to be handled again *)
Definition requeue (out : outcome (result Z)) (now backoff : Z) : list Z :=
  match out with
  | Returns (Ok d) => if 0 <? d then [now + d] else []
  | Returns (Err _) => [now + backoff]
  | Panics _ => []
  end.

Record Queue : Type := { q_world : Loop; q_timers : list Z }.

Inductive queue_step : Queue → Queue → Prop :=
| queue_wait w ts t : lw_clock w <= t → queue_step {| q_world := w; q_timers := ts |} {| q_world := at_time w t; q_timers := ts |}
| queue_fire w ts1 t ts2 out w' backoff : t <= lw_clock w → Reconciles w out w' → 0 <= backoff →
    queue_step {| q_world := w; q_timers := ts1 ++ t :: ts2 |}
      {| q_world := w'; q_timers := requeue out (lw_clock w') backoff ++ ts1 ++ ts2 |}
| queue_event w ts out w' backoff : Reconciles w out w' → 0 <= backoff →
    queue_step {| q_world := w; q_timers := ts |}
      {| q_world := w'; q_timers := requeue out (lw_clock w') backoff ++ ts |}.

(** ** One activation *)
Definition waits (at_ : Z) (w : Loop) : Prop :=
  in_state StateAppliedPendingRestart (lw_rec w) ∧ st_ScheduledRestartAt (rr_Status (lw_rec w)) = Some at_.

(** The restart was attempted once, at [t], and its outcome recorded. *)
Definition restarted (at_ : Z) (w : Loop) : Prop :=
  ∃ t ok, at_ <= t ∧ lw_restarts w = [(t, ok)] ∧
    if (ok : bool) then in_state StateApplied (lw_rec w) ∧ st_ScheduledRestartAt (rr_Status (lw_rec w)) = None
    else in_state StateFailed (lw_rec w).

Lemma Reconciles_waits at_ w out w' : waits at_ w → lw_restarts w = [] → Reconciles w out w' →
  lw_clock w <= lw_clock w' ∧
  ((restarted at_ w' ∧ at_ <= lw_clock w') ∨
   (lw_clock w < at_ ∧ waits at_ w' ∧ lw_restarts w' = [] ∧
    ∃ now', out = Returns (Ok (time_sub at_ now')) ∧ (at_ <= now' → at_ <= lw_clock w' ∧ raced at_ w w'))).
Proof.
  intros [Hst Hat] Hno (tr & Hr & Hs). pose proof (conj Hr Hs) as Hexec. unfold RestartReconcile in Hr.
  rewrite runs_call in Hr. destruct Hr as (x & tr' & -> & Hr).
  destruct Hs as (w1 & (t1 & -> & Ht1 & Hx) & Hs). rewrite (Hx eq_refl) in Hr.
  assert (runs (@RestartReconcile _ (applier_restarter a) req) (Obs (KGetRec req) (Ok (lw_rec w)) :: tr') out) as Hc
    by (eexists _, _; split; [reflexivity|exact Hr]).
  clear Hr. apply RestartReconcile_course in Hc. rewrite (proj2 (String.eqb_eq _ _) Hst), Hat in Hc.
  destruct Hc as (now & rest & -> & Hc). destruct Hs as (w2 & [-> Ht2] & Hs). simpl in *.
  destruct (Z.ltb_spec now at_).
  - destruct Hc as (now' & -> & ->). destruct Hs as (w3 & [-> Ht3] & Hw'). cbn in Hw'. subst w'. simpl in *.
    split; [lia|]. right. split_and!; [lia|done..|]. exists now'. split; [done|]. intros Hle. split; [lia|].
    eexists _, _, now, now'. split; [exact Hexec|]. by split.
  - destruct Hc as (ans & rest' & -> & Hc). destruct Hs as (w3 & (t3 & Ht3 & ->) & Hs). simpl in *. rewrite Hno in Hs.
    destruct ans as [u|e].
    + destruct Hc as (now' & y & -> & _). destruct Hs as (w4 & [-> Ht4] & w5 & (t5 & Ht5 & -> & ->) & Hw'). cbn in Hw'. subst w'. simpl in *.
      split; [lia|]. left. split; [|lia]. exists t3, true. by split_and!; [lia|..].
    + destruct Hc as (e' & y & -> & _). destruct Hs as (w5 & (t5 & Ht5 & -> & ->) & Hw'). cbn in Hw'. subst w'. simpl in *.
      split; [lia|]. left. split; [|lia]. exists t3, false. by split_and!; [lia|..].
Qed.

(** Once it is recorded, the controller leaves the object alone. *)
Lemma Reconciles_done w out w' : rr_state (lw_rec w) ≠ StateAppliedPendingRestart → Reconciles w out w' →
  out = Returns (Ok 0) ∧ ∃ t, lw_clock w <= t ∧ w' = at_time w t.
Proof.
  intros Hst (tr & Hr & Hs). unfold RestartReconcile in Hr.
  rewrite runs_call in Hr. destruct Hr as (x & tr' & -> & Hr).
  destruct Hs as (w1 & (t1 & -> & Ht1 & Hx) & Hs). rewrite (Hx eq_refl) in Hr. cbn in Hr.
  rewrite (proj2 (String.eqb_neq _ _) Hst) in Hr. destruct Hr as [-> ->]. cbn in Hs. subst. eauto.
Qed.

(** ** Executions of the queue *)

(** Waiting for a time that has passed, and nobody asks again. *)
Definition lost (at_ : Z) (q : Queue) : Prop :=
  waits at_ (q_world q) ∧ lw_restarts (q_world q) = [] ∧ q_timers q = [] ∧ at_ <= lw_clock (q_world q).

(** Restarted, or waiting with something in the queue unless [race]. *)
Definition served (at_ : Z) (race : Prop) (q : Queue) : Prop :=
  restarted at_ (q_world q) ∨
  (waits at_ (q_world q) ∧ lw_restarts (q_world q) = [] ∧ (q_timers q ≠ [] ∨ race ∧ at_ <= lw_clock (q_world q))).

Lemma restarted_state at_ w : restarted at_ w → rr_state (lw_rec w) ≠ StateAppliedPendingRestart.
Proof. intros (t & [] & _ & _ & H); [destruct H as [H _]|]; rewrite H; done. Qed.

Lemma Reconciles_restarted at_ w out w' : restarted at_ w → Reconciles w out w' →
  restarted at_ w' ∧ out = Returns (Ok 0) ∧ lw_clock w <= lw_clock w'.
Proof. intros Hw Hr. destruct (Reconciles_done _ _ _ (restarted_state _ _ Hw) Hr) as (-> & t & Ht & ->). by split_and!. Qed.

Lemma requeue_waits at_ now' t backoff :
  now' < at_ → requeue (Returns (Ok (time_sub at_ now'))) t backoff ≠ [].
Proof. intros H. unfold requeue, time_sub, saturate. destruct (Z.ltb_spec 0 (Z.max (-9223372036854775808) (Z.min 9223372036854775807 (at_ - now')))); [done|lia]. Qed.

(** An activation keeps the account, and settles it once the time has come. *)
Lemma served_reconciles at_ (race : Prop) w ts ts' out w' backoff :
  served at_ race {| q_world := w; q_timers := ts |} → Reconciles w out w' → (raced at_ w w' → race) →
  served at_ race {| q_world := w'; q_timers := requeue out (lw_clock w') backoff ++ ts' |} ∧
  lw_clock w <= lw_clock w' ∧ (at_ <= lw_clock w → restarted at_ w').
Proof.
  intros [Hw|(Hw & Hno & _)] Hr Hrace; cbn in *.
  { destruct (Reconciles_restarted _ _ _ _ Hw Hr) as (Hw' & _ & Hc). split; [by left|done]. }
  destruct (Reconciles_waits _ _ _ _ Hw Hno Hr) as [Hc [[Hd _]|(Hn & Hw' & Hno' & now' & -> & Hlate)]].
  { split; [by left|done]. }
  split; [|split; [done|lia]]. right. cbn. split; [done|]. split; [done|].
  destruct (Z.lt_ge_cases now' at_) as [Hlt|Hge]; [left|right; by destruct (Hlate Hge); auto].
  intros [He _]%app_eq_nil. by apply (requeue_waits at_ now' (lw_clock w') backoff Hlt).
Qed.

Lemma served_step at_ (race : Prop) q q' :
  served at_ race q → queue_step q q' → (raced at_ (q_world q) (q_world q') → race) →
  served at_ race q' ∧ lw_clock (q_world q) <= lw_clock (q_world q').
Proof.
  intros Hs Hst. destruct Hst as [w ts t Ht|w ts1 t ts2 out w' backoff _ Hr _|w ts out w' backoff Hr _]; cbn; intros Hrace.
  - split; [|done]. destruct Hs as [Hs|(Hw & Hno & Hor)]; [by left|right]. split; [done|]. split; [done|]. cbn in *.
    destruct Hor as [|[]]; [by left|right; split; [done|lia]].
  - destruct (served_reconciles _ _ _ _ (ts1 ++ ts2) _ _ backoff Hs Hr Hrace) as (? & ? & _). done.
  - destruct (served_reconciles _ _ _ _ ts _ _ backoff Hs Hr Hrace) as (? & ? & _). done.
Qed.

Lemma served_mono at_ (race race' : Prop) q : (race → race') → served at_ race q → served at_ race' q.
Proof. unfold served. tauto. Qed.

(** Time goes on, and what is in the queue is handled eventually. *)
Record fair (σ : nat → Queue) : Prop := {
  fair_steps n : queue_step (σ n) (σ (S n));
  fair_clock T : ∃ n, T <= lw_clock (q_world (σ n));
  fair_queue n : q_timers (σ n) ≠ [] → ∃ m out, (n <= m)%nat ∧ Reconciles (q_world (σ m)) out (q_world (σ (S m)))
}.

(** A race in the first [n] steps. *)
Definition raced_before (σ : nat → Queue) (at_ : Z) (n : nat) : Prop :=
  ∃ m, (m < n)%nat ∧ raced at_ (q_world (σ m)) (q_world (σ (S m))).

Lemma raced_before_S σ at_ n : raced_before σ at_ n → raced_before σ at_ (S n).
Proof. intros (m & ? & ?). exists m. split; [lia|done]. Qed.

Lemma fair_served at_ σ : fair σ → served at_ (raced_before σ at_ 0) (σ 0%nat) → ∀ n k, (n <= k)%nat →
  served at_ (raced_before σ at_ k) (σ k) ∧ lw_clock (q_world (σ n)) <= lw_clock (q_world (σ k)).
Proof.
  intros HF H0.
  assert (∀ k, served at_ (raced_before σ at_ k) (σ k) → served at_ (raced_before σ at_ (S k)) (σ (S k)) ∧
    lw_clock (q_world (σ k)) <= lw_clock (q_world (σ (S k)))) as Hstep.
  { intros k Hk. apply (served_step _ _ (σ k)); [|apply (fair_steps _ HF)|].
    - eapply served_mono; [apply raced_before_S|exact Hk].
    - intros Hr. exists k. split; [lia|done]. }
  assert (∀ k, served at_ (raced_before σ at_ k) (σ k)) as Hs by (induction k as [|k IH]; [done|by apply Hstep]).
  intros n k. induction 1 as [|k _ [_ IH]]; [split; [done|lia]|]. split; [done|].
  destruct (Hstep k (Hs k)). lia.
Qed.

(** C13: A scheduled restart happens, but for a race.  As long as nobody else writes
    the object, its reads are fresh and its status writes succeed, in every fair
    execution of the queue that starts with the object in the queue, whatever else
    wakes the controller: the VM is never restarted before its time nor twice; and
    in the end it has been restarted and the outcome is recorded, or else there
    was an activation between whose two readings of the clock the time passed,
    and nothing is left in the queue.  Without such an activation the VM is
    restarted. *)
Theorem scheduled_restart_happens σ at_ :
  fair σ → waits at_ (q_world (σ 0%nat)) → lw_restarts (q_world (σ 0%nat)) = [] → q_timers (σ 0%nat) ≠ [] →
  (∀ n, lw_restarts (q_world (σ n)) = [] ∨ restarted at_ (q_world (σ n))) ∧
  (∃ n, restarted at_ (q_world (σ n)) ∨ (lost at_ (σ n) ∧ raced_before σ at_ n)) ∧
  ((∀ m, ¬ raced at_ (q_world (σ m)) (q_world (σ (S m)))) → ∃ n, restarted at_ (q_world (σ n))).
Proof.
  intros HF Hw Hno Hq.
  assert (served at_ (raced_before σ at_ 0) (σ 0%nat)) as H0 by (right; auto). pose proof (fair_served _ _ HF H0) as Hs.
  split. { intros n. destruct (Hs n n) as [[?|(_ & ? & _)] _]; auto. }
  assert (∃ n, restarted at_ (q_world (σ n)) ∨ (lost at_ (σ n) ∧ raced_before σ at_ n)) as Hend.
  { destruct (fair_clock _ HF at_) as [n Hn].
    destruct (Hs n n) as [[?|(Hwn & Hnon & Hor)] _]; [done|by exists n; left|].
    destruct (q_timers (σ n)) as [|t ts] eqn:Ht; [exists n; right; destruct Hor as [|[]]; by try split_and!|].
    destruct (fair_queue _ HF n) as (m & out & Hm & Hr); [by rewrite Ht|].
    exists (S m). left. destruct (Hs n m Hm) as [Hsm Hc]. destruct (σ m) as [w tsm] eqn:E.
    eapply (served_reconciles at_ True w tsm [] out _ 0); [by eapply served_mono|done..|]. cbn in *. lia. }
  split; [done|]. intros Hnever. destruct Hend as [n [?|(_ & m & _ & Hr)]]; [by exists n|by destruct (Hnever m)].
Qed.

(** ** Runs of the controller *)
Section Runs.
Context (rec : RightsizingRecommendation) (at_ : Z).
Hypothesis Hst : in_state StateAppliedPendingRestart rec.
Hypothesis Hat : st_ScheduledRestartAt (rr_Status rec) = Some at_.
#[local] Abbreviation reconciliation := (@RestartReconcile _ (applier_restarter a) req).

Lemma runs_early now now' : now < at_ →
  runs reconciliation [Obs (KGetRec req) (Ok rec); Obs TimeNow now; Obs TimeNow now'] (Returns (Ok (time_sub at_ now'))).
Proof.
  intros Hlt%Z.ltb_lt. unfold RestartReconcile. rewrite runs_call. eexists _, _; split; [done|].
  cbv beta iota. rewrite (proj2 (negb_false_iff _) (proj2 (String.eqb_eq _ _) Hst)), Hat.
  rewrite runs_call. eexists _, _; split; [done|]. rewrite Hlt. by eexists _, _; split.
Qed.

Lemma runs_due now now' x : at_ <= now →
  runs reconciliation
    [Obs (KGetRec req) (Ok rec); Obs TimeNow now; restart_call rec (Ok tt); Obs TimeNow now';
     Obs (KUpdateRecStatus (restart_done now' rec)) x]
    (Returns (match x with Ok _ => Ok 0 | Err e => Err (EWrap "updating status after restart" e) end)).
Proof.
  intros Hle%Z.ltb_ge. unfold RestartReconcile. rewrite runs_call. eexists _, _; split; [done|].
  cbv beta iota. rewrite (proj2 (negb_false_iff _) (proj2 (String.eqb_eq _ _) Hst)), Hat.
  rewrite runs_call. eexists _, _; split; [done|]. rewrite Hle.
  eexists _, _; split; [done|]. eexists _, _; split; [done|]. eexists _, _; split; [done|]. by destruct x.
Qed.
End Runs.

(** The two readings of the clock can lie on both sides of the time: then the
    answer asks for nothing and the restart is lost to the queue. *)
Theorem restart_lost_between_readings at_ w :
  waits at_ w → lw_restarts w = [] → lw_clock w < at_ →
  ∃ out w', Reconciles w out w' ∧ ∀ backoff, lost at_ {| q_world := w'; q_timers := requeue out (lw_clock w') backoff |}.
Proof.
  intros [Hst Hat] Hno Hc. exists (Returns (Ok (time_sub at_ at_))), (at_time w at_). split.
  - eexists. split; [by apply (runs_early _ _ Hst Hat (lw_clock w))|].
    exists (at_time w (lw_clock w)). split.
    { exists (lw_clock w). split; [done|]. split; [lia|done]. }
    exists (at_time w (lw_clock w)). split; [split; [done|cbn; lia]|].
    exists (at_time w at_). split; [split; [done|cbn; lia]|done].
  - intros backoff. unfold time_sub. rewrite Z.sub_diag. split; [by split|]. split; [done|]. split; [done|cbn; lia].
Qed.

(** The VM is restarted before this is written: when the write fails, the object
    is due as before and the next reconciliation restarts the VM again. *)
Theorem restart_repeated_after_lost_write rec at_ now e :
  in_state StateAppliedPendingRestart rec → st_ScheduledRestartAt (rr_Status rec) = Some at_ → at_ <= now →
  let tr := [Obs (KGetRec req) (Ok rec); Obs TimeNow now; restart_call rec (Ok tt); Obs TimeNow now;
             Obs (KUpdateRecStatus (restart_done now rec)) (Err e)] in
  runs (_ ← @RestartReconcile _ (applier_restarter a) req; @RestartReconcile _ (applier_restarter a) req)
    (tr ++ tr) (Returns (Err (EWrap "updating status after restart" e))).
Proof.
  intros Hst Hat Hn tr. pose proof (runs_due _ _ Hst Hat now now (Err e) Hn) as Hr.
  apply runs_bind_returns. by exists (Err (EWrap "updating status after restart" e)), tr, tr.
Qed.
End RestartLoop.
