(* ===== verification/ProxyFacts.v ===== *)
(** * The approval proxy against the API server

    Whatever the public sends, the proxy speaks to the API server only for the
    recommendation and the owner of a valid token; an approval arrives as the
    owner gave it, the chosen time being taken for UTC; an exclusion arrives as a
    mere rejection. *)
From S2P Require Import Prelude GoStrings GoTime GoTimeFacts GoJson JsonText JsonTextFacts HttpMessage GoFloat External ApiTypes Effects World.
From S2P Require Import Http Approval Owner Notifier NotifierFacts ApiServer Handlers Lifecycle LifecycleFacts HandlerFacts.
From S2P Require Import Proxy SafetyFacts ReconcileFacts.
Local Open Scope Z_scope.
Local Open Scope ovro_scope.

Section ProxyFacts.
Context `{P : Platform} `{GI : GoImpl} `{J : JwtLib} `{!JwtLaws J}.
Implicit Types (p : ApprovalProxy) (w : ResponseWriter Page) (r : Request) (c : ApprovalClaims).

(** ** The token *)

(** The token a request carries: the page has it in the link, the form in a field. *)
Definition carries r (tok : string) : Prop := tok = Query_Get r "token" ∨ tok = FormValue r "token".

(** The claims of a token signed with the proxy's key and not expired at [now]. *)
Definition vouched p r (now : Z) c : Prop :=
  ∃ tok, carries r tok ∧ jwt_signed (tm_signingKey (px_tokenManager p)) tok c ∧
    ∀ exp, ac_ExpiresAt c = Some exp → now < exp.

(** A request to the API server on behalf of these claims. *)
Inductive on_behalf p c : HttpRequest → Prop :=
| ob_read : on_behalf p c {|
    hq_Method := "GET"; hq_URL := recommendation_url p (ac_Namespace c) (ac_RecName c);
    hq_Header := []; hq_Body := NoBody |}
| ob_decide action restartOption scheduledAt reason endpoint payload :
    decision action restartOption scheduledAt reason = Some (endpoint, payload) →
    on_behalf p c (backend_request p c endpoint payload).

(** A run that sent nothing, or one request for vouched claims. *)
Definition bounded_by_token p r (tr : list (obs Ev)) : Prop :=
  https tr = [] ∨
  ∃ now c req, times tr = [now] ∧ vouched p r now c ∧ https tr = [req] ∧ on_behalf p c req.

Lemma fetchRecommendation_https p ns name tr out : runs (fetchRecommendation p ns name) tr out →
  times tr = [] ∧ (https tr = [] ∨ https tr = [{|
    hq_Method := "GET"; hq_URL := recommendation_url p ns name; hq_Header := []; hq_Body := NoBody |}]).
Proof.
  intros (x & tr' & -> & Hr). destruct x as [u|e]; [|destruct Hr as [-> _]; by split; [|left]].
  destruct Hr as (x & tr2 & -> & Hr). assert (tr2 = []) as ->; [|by split; [|right]].
  destruct x as [resp|e]; [|by destruct Hr]. cbn [runs mbind prog_mbind prog_bind] in Hr.
  destruct (negb _); [by destruct Hr|]. by destruct (mbind _ (hr_first resp)); destruct Hr.
Qed.

Lemma handleGetApprove_bounded p w r tr out :
  runs (handleGetApprove p w r) tr out → bounded_by_token p r tr.
Proof.
  unfold handleGetApprove. destruct (String.eqb _ _); [intros [-> _]; by left|].
  intros [(got & tr1 & tr2 & -> & H1 & Hr)|(m & _ & H1)]%runs_bind.
  2: { destruct (ValidateToken_calls _ _ _ _ H1) as (? & ? & ? & ?). done. }
  destruct got as [c|e].
  2: { apply ValidateToken_calls in H1 as (now & ? & -> & _). destruct Hr as [-> _]. by left. }
  apply ValidateToken_signed in H1 as (now & -> & Hs & Hexp).
  assert (times tr2 = [] ∧ (https tr2 = [] ∨ https tr2 = [{| hq_Method := "GET";
    hq_URL := recommendation_url p (ac_Namespace c) (ac_RecName c); hq_Header := []; hq_Body := NoBody |}])) as [Ht Hh].
  { apply (runs_bind (fetchRecommendation _ _ _)) in Hr as [(x & tr3 & tr4 & -> & H2 & Hr)|(m & _ & H2)].
    - assert (tr4 = []) as -> by (by destruct x; destruct Hr as [-> _]). rewrite app_nil_r.
      by eapply fetchRecommendation_https.
    - by eapply fetchRecommendation_https. }
  destruct Hh as [Hh|Hh].
  - left. by rewrite https_app, Hh.
  - right. eexists now, c, _. split_and!; [|by exists (Query_Get r "token"); split; [left|]|by rewrite https_app, Hh|constructor].
    unfold times. rewrite omap_app. by change (omap obs_time tr2) with (times tr2); rewrite Ht.
Qed.

(** What the form handler sends, if anything. *)
Lemma handlePostApprove_sent p w r tr out : runs (handlePostApprove p w r) tr out →
  https tr = [] ∨
  ∃ now c endpoint payload,
    times tr = [now] ∧ jwt_signed (tm_signingKey (px_tokenManager p)) (FormValue r "token") c ∧
    (∀ exp, ac_ExpiresAt c = Some exp → now < exp) ∧
    decision (FormValue r "action") (FormValue r "restartOption") (FormValue r "scheduledAt")
      (FormValue r "reason") = Some (endpoint, payload) ∧
    https tr = [backend_request p c endpoint payload] ∧
    ∀ resp, responses tr = [resp] → hr_StatusCode resp < 400 →
      out = Returns (result_page w (FormValue r "action") (FormValue r "restartOption") (FormValue r "scheduledAt")).
Proof.
  unfold handlePostApprove. destruct (rq_Form r); [|intros [-> _]; by left].
  destruct (String.eqb _ _); [intros [-> _]; by left|].
  intros [(got & tr1 & tr2 & -> & H1 & Hr)|(m & _ & H1)]%runs_bind.
  2: { destruct (ValidateToken_calls _ _ _ _ H1) as (? & ? & ? & ?). done. }
  destruct got as [c|e].
  2: { apply ValidateToken_calls in H1 as (now & ? & -> & _). destruct Hr as [-> _]. by left. }
  apply ValidateToken_signed in H1 as (now & -> & Hs & Hexp).
  destruct (decision _ _ _ _) as [[endpoint payload]|] eqn:Hd; [|destruct Hr as [-> _]; by left].
  destruct Hr as (x & tr3 & -> & Hr). destruct x as [u|e]; [|destruct Hr as [-> _]; by left].
  destruct Hr as (x & tr4 & -> & Hr). right. exists now, c, endpoint, payload.
  destruct x as [resp|e]; [|by destruct Hr as [-> _]; split_and!].
  cbn [runs mbind prog_mbind prog_bind] in Hr. destruct (Z.leb_spec 400 (hr_StatusCode resp)).
  - destruct Hr as [-> _]. split_and!; [done..|]. intros resp' [= <-]. lia.
  - destruct Hr as [-> ->]. by split_and!.
Qed.

(** C4: The public side cannot act without a token.  Any request to the approval
    proxy makes it send at most one request to the API server, and then the page
    or form carried a token that was signed with the proxy's key and had not
    expired when it was looked at; that request is for the namespace and the
    recommendation of this token and, when it decides, names the token's owner. *)
Theorem proxy_requires_token p w r tr out :
  runs (proxy_ServeHTTP p w r) tr out → bounded_by_token p r tr.
Proof.
  assert (∀ tr out (w' : ResponseWriter Page), runs (mret w' : prog Ev _) tr out → bounded_by_token p r tr) as Hret.
  { intros ? ? ? [-> _]. by left. }
  unfold proxy_ServeHTTP. destruct (negb (rq_Clean r)); [apply Hret|].
  destruct (rq_Segments r) as [|seg [|]]; try apply Hret.
  destruct (String.eqb seg "approve").
  - destruct (_ || _); [apply handleGetApprove_bounded|]. destruct (String.eqb _ _); [|apply Hret].
    intros [Hh|(now & c & endpoint & payload & Ht & Hs & Hexp & Hd & Hh & _)]%handlePostApprove_sent; [by left|].
    right. exists now, c, (backend_request p c endpoint payload). split_and!; [done| |done|by econstructor].
    exists (FormValue r "token"). split; [by right|done].
  - destruct (String.eqb seg "healthz"); [|apply Hret]. destruct (_ || _); apply Hret.
Qed.

(** ** From the form to the recommendation *)

(** A request of the proxy as the API server's handler gets it: the body's bytes, or
    the first of them and then a failure. *)
Definition arrives (req : HttpRequest) r : Prop :=
  rq_Method r = hq_Method req ∧
  (rq_Body r = body_text (hq_Body req) ∨
   ∃ rest, rq_Body r +:+ rest = body_text (hq_Body req) ∧ rq_Complete r = false) ∧
  ∀ k v, (k, v) ∈ hq_Header req → Header_Get r k = v.

Lemma strings_printable kvs : compound (json_of_strings kvs) ∧ printable (json_of_strings kvs) = true ∧
  Z.of_nat (depth (json_of_strings kvs)) <= max_nesting.
Proof.
  split_and!; [done| |].
  - unfold json_of_strings. cbn [printable]. induction kvs as [|kv kvs IH]; [done|exact IH].
  - unfold json_of_strings, max_nesting. cbn [depth].
    enough (list_max (List.map (λ kv : string * json, depth kv.2) ((λ kv, (kv.1, JString kv.2)) <$> kvs)) = O) as ->
      by lia.
    induction kvs as [|kv kvs IH]; [done|exact IH].
Qed.

(** What the handler decodes, if anything, is what the proxy sent. *)
Lemma arrives_reads req r payload x :
  arrives req r → hq_Body req = JsonBody (json_of_strings payload) →
  (let '(body, eof) := MaxBytesReader maxBodySize r in Decode body eof) = Some x →
  x = marshalled (json_of_strings payload).
Proof.
  intros (_ & Hb & _) Hq. rewrite Hq in Hb. cbn [body_text] in Hb.
  destruct (strings_printable payload) as (Hc & Hp & Hd).
  assert (Hcut : ∀ s t, s +:+ t = Marshal (json_of_strings payload) → Decode s false = Some x →
    x = marshalled (json_of_strings payload)) by (intros s t; by apply Decode_cut).
  unfold MaxBytesReader. destruct (_ <=? _).
  - destruct Hb as [->|(rest & Hrest & ->)]; [|by apply (Hcut _ rest)].
    rewrite <-(app_nil_string (Marshal _)), (Decode_Marshal _ _ _ Hc Hp Hd). by intros [= <-].
  - set (n := Z.to_nat maxBodySize). intros Hx.
    destruct Hb as [Hb|(rest & Hrest & _)].
    + apply (Hcut (take n (rq_Body r)) (drop n (rq_Body r))); [|done]. by rewrite take_drop_string.
    + apply (Hcut (take n (rq_Body r)) (drop n (rq_Body r) +:+ rest)); [|done].
      by rewrite <-app_assoc_string, take_drop_string.
Qed.

Lemma arrives_decode {A} p c endpoint payload r (d : decoder A) zero a :
  arrives (backend_request p c endpoint payload) r →
  DecodeBody maxBodySize r d zero = Some a →
  d (marshalled (json_of_strings payload)) zero = Some a ∧ Header_Get r "X-Approval-Owner" = ac_Owner c.
Proof.
  intros Harr Hdec. split; [|apply Harr; set_solver]. unfold DecodeBody in Hdec.
  pose proof (λ x, arrives_reads _ _ payload x Harr eq_refl) as Hx.
  destruct (MaxBytesReader maxBodySize r) as [body eof]. apply bind_Some in Hdec as (x & Hdec & Hd).
  by rewrite <-(Hx x Hdec).
Qed.

Lemma decode_approval restartOption scheduledAt :
  decode_ApplyRequest (marshalled (json_of_strings (("restartOption", restartOption) ::
    (if negb (String.eqb scheduledAt "") then [("scheduledAt", normalize_schedule scheduledAt)] else [])))) zero_ApplyRequest
  = Some {| ap_RestartOption := ToValidUTF8 restartOption;
            ap_ScheduledAt := if negb (String.eqb scheduledAt "") then ToValidUTF8 (normalize_schedule scheduledAt) else "" |}.
Proof. by destruct (negb _). Qed.

Lemma decode_exclusion reason :
  decode_RejectRequest (marshalled (json_of_strings [("exclude", "true"); ("reason", reason)]))
    {| rj_Reason := ""; rj_Action := "" |} = Some {| rj_Reason := ToValidUTF8 reason; rj_Action := "" |}.
Proof. done. Qed.

(** The time of a datetime field is the same instant for the API server. *)
Lemma schedule_kept scheduledAt t : Parse_minutes scheduledAt = Some t →
  negb (String.eqb scheduledAt "") = true ∧ Parse_RFC3339 (ToValidUTF8 (normalize_schedule scheduledAt)) = Some t.
Proof.
  intros Ht. split; [by destruct scheduledAt|]. unfold normalize_schedule.
  rewrite (Parse_exclusive _ _ Ht), Ht, ToValidUTF8_id.
  - by eapply Format_Parse.
  - by eapply is_ascii_valid, Format_ascii.
Qed.

(** The writes of the two owner handlers. *)
Lemma handleOwnerApprove_writes s (wb : ResponseWriter ApiBody) r tr out rec' ok :
  runs (handleOwnerApprove s wb r) tr out → (rec', ok) ∈ status_writes tr →
  ∃ req now rec, DecodeBody maxBodySize r decode_ApplyRequest zero_ApplyRequest = Some req ∧
    head (reads tr) = Some rec ∧ times tr = [now] ∧ in_state StateAwaitingApproval rec ∧
    apply_state req now (approve (Header_Get r "X-Approval-Owner") now rec) = Some rec'.
Proof.
  unfold handleOwnerApprove. destruct (DecodeBody _ _ _ _) as [req|]; [|intros [-> _] Hin; by apply not_elem_of_nil in Hin].
  intros (x & tr1 & -> & Hr) Hin. destruct x as [rec|e].
  2: { destruct Hr as [-> _]. by apply not_elem_of_nil in Hin. }
  cbn [runs mbind prog_mbind prog_bind] in Hr. destruct (negb _) eqn:Hst.
  { destruct Hr as [-> _]. by apply not_elem_of_nil in Hin. }
  destruct Hr as (now & tr2 & -> & Hr). cbn [runs mbind prog_mbind prog_bind] in Hr.
  destruct (apply_state req now (approve (Header_Get r "X-Approval-Owner") now rec)) as [rec1|] eqn:Ha.
  2: { destruct Hr as [-> _]. by apply not_elem_of_nil in Hin. }
  destruct Hr as (x & tr3 & -> & Hr). assert (tr3 = []) as -> by (by destruct x; destruct Hr).
  assert (rec' = rec1) as -> by (by destruct x; apply list_elem_of_singleton in Hin; simplify_eq).
  exists req, now, rec. split_and!; try done. by apply state_eqb.
Qed.

(** C5: An approval arrives as the owner gave it, but for the time zone.  Follow a form with the action
    approve from the proxy to the API server: if the status of the recommendation
    is written, the form's token was signed with the proxy's key for the path of
    the request, the approval is recorded under the owner of this token, the token
    is cleared, and the state is applied or waits for the restart.  A time chosen
    in the form's datetime field, which is the wall clock where the form was filled
    in, is recorded as if that were UTC: in a zone ahead of UTC the restart is
    scheduled by the zone's offset later than the moment meant. *)
Theorem approval_end_to_end p w r tr out req s (wb : ResponseWriter ApiBody) r' tr' out' rec' ok :
  runs (handlePostApprove p w r) tr out → FormValue r "action" = "approve" → https tr = [req] →
  arrives req r' → runs (handleOwnerApprove s wb r') tr' out' → (rec', ok) ∈ status_writes tr' →
  ∃ c now rec,
    jwt_signed (tm_signingKey (px_tokenManager p)) (FormValue r "token") c ∧
    hq_URL req = recommendation_url p (ac_Namespace c) (ac_RecName c) +:+ "/owner-approve" ∧
    head (reads tr') = Some rec ∧ in_state StateAwaitingApproval rec ∧ times tr' = [now] ∧
    st_ApprovedBy (rr_Status rec') = ac_Owner c ∧ st_ApprovedAt (rr_Status rec') = Some now ∧
    st_ApprovalToken (rr_Status rec') = "" ∧
    if sp_HotplugCapable (rr_Spec rec)
    then in_state StateApplied rec' ∧ st_AppliedAt (rr_Status rec') = Some now
    else in_state StateAppliedPendingRestart rec' ∧
      (FormValue r "restartOption" = "schedule" → ∀ clock zone,
       wall_clock_ok clock → FormValue r "scheduledAt" = datetime_local clock →
       st_ScheduledRestartAt (rr_Status rec') = Some (moment zone clock + zone)).
Proof.
  intros Hr Hact Hh Harr Hr' Hin.
  destruct (handlePostApprove_sent _ _ _ _ _ Hr) as [Hh'|(t0 & c & endpoint & payload & _ & Hs & _ & Hd & Hh' & _)];
    rewrite Hh in Hh'; [done|]. injection Hh' as ->. rewrite Hact in Hd. injection Hd as <- <-.
  destruct (handleOwnerApprove_writes _ _ _ _ _ _ _ Hr' Hin) as (req & now & rec & Hdec & Hread & Ht & Hst & Ha).
  apply (arrives_decode _ _ _ _ _ _ _ _ Harr) in Hdec as [Hdec Howner]. rewrite decode_approval in Hdec.
  injection Hdec as <-. rewrite Howner in Ha. exists c, now, rec. split_and!; [done..| | | |].
  all: unfold apply_state in Ha; change (sp_HotplugCapable (rr_Spec (approve (ac_Owner c) now rec)))
    with (sp_HotplugCapable (rr_Spec rec)) in Ha; destruct (sp_HotplugCapable (rr_Spec rec)); [by injection Ha as <-|].
  all: cbn [ap_RestartOption ap_ScheduledAt] in Ha.
  1-3: destruct (String.eqb _ "schedule");
    [by apply bind_Some in Ha as (t & _ & [= <-])|by destruct (String.eqb _ "now"); injection Ha as <-].
  split.
  - destruct (String.eqb _ "schedule"); [by apply bind_Some in Ha as (t & _ & [= <-])|].
    by destruct (String.eqb _ "now"); injection Ha as <-.
  - intros Hopt clock zone Hok Hfield. pose proof (Parse_datetime_local clock zone Hok) as Hmin. rewrite <-Hfield in Hmin.
    destruct (schedule_kept _ _ Hmin) as [Hne Hp]. rewrite Hopt, Hne in Ha.
    change (String.eqb (ToValidUTF8 "schedule") "schedule") with true in Ha. cbv iota in Ha.
    rewrite Hp in Ha. by injection Ha as <-.
Qed.

Lemma handleOwnerReject_course s (wb : ResponseWriter ApiBody) r tr out a :
  runs (handleOwnerReject s wb r) tr out →
  (∀ a', DecodeBody maxBodySize r decode_RejectRequest {| rj_Reason := ""; rj_Action := "" |} = Some a' → a' = a) →
  rj_Action a = "" →
  patches tr = [] ∧ ∀ rec' ok, (rec', ok) ∈ status_writes tr → ∃ now rec,
    head (reads tr) = Some rec ∧ rec' = reject (Header_Get r "X-Approval-Owner") (rj_Reason a) now rec.
Proof.
  unfold handleOwnerReject. intros Hr Hd Ha.
  assert (∀ rec' ok, (rec', ok) ∈ ([] : list (RightsizingRecommendation * bool)) → False) as Hnil
    by (intros ? ? ?%not_elem_of_nil; done).
  destruct (DecodeBody _ _ _ _) as [a'|]; [|by destruct Hr as [-> _]; split; [|intros ? ? ?%Hnil]].
  rewrite (Hd _ eq_refl), Ha in Hr.
  destruct Hr as (x & tr1 & -> & Hr). destruct x as [rec|e].
  2: { destruct Hr as [-> _]. by split; [|intros ? ? ?%Hnil]. }
  cbn [runs mbind prog_mbind prog_bind] in Hr. destruct (negb _).
  { destruct Hr as [-> _]. by split; [|intros ? ? ?%Hnil]. }
  destruct Hr as (now & tr2 & -> & Hr). cbn in Hr. destruct Hr as (x & tr3 & -> & Hr).
  assert (tr3 = []) as -> by (by destruct x; destruct Hr). split; [done|].
  intros rec' ok Hin. exists now, rec. split; [done|].
  by destruct x; apply list_elem_of_singleton in Hin; simplify_eq.
Qed.

(** C31: Excluding a VM from the approval page only rejects.  The proxy sends the
    action exclude as a field the API server does not read: no patch is made to
    the VM, whatever status is written is that of a rejection by the token's
    owner, and the page still says that the VM was excluded if the API server
    answered with success. *)
Theorem exclude_never_excludes p w r tr out req s (wb : ResponseWriter ApiBody) r' tr' out' :
  runs (handlePostApprove p w r) tr out → FormValue r "action" = "exclude" → https tr = [req] →
  (∀ resp, responses tr = [resp] → hr_StatusCode resp < 400 →
     out = Returns (renderResult w "VM Excluded from Rightsizing"
       "The VM has been excluded from future rightsizing recommendations.")) ∧
  (arrives req r' → runs (handleOwnerReject s wb r') tr' out' →
   patches tr' = [] ∧
   ∀ rec' ok, (rec', ok) ∈ status_writes tr' → ∃ c now rec,
     jwt_signed (tm_signingKey (px_tokenManager p)) (FormValue r "token") c ∧ head (reads tr') = Some rec ∧
     rec' = reject (ac_Owner c) (ToValidUTF8 (FormValue r "reason")) now rec).
Proof.
  intros Hr Hact Hh.
  destruct (handlePostApprove_sent _ _ _ _ _ Hr) as [Hh'|(t0 & c & endpoint & payload & _ & Hs & _ & Hd & Hh' & Hpage)];
    rewrite Hh in Hh'; [done|]. injection Hh' as ->. rewrite Hact in Hd, Hpage. injection Hd as <- <-.
  split; [exact Hpage|]. intros Harr Hr'.
  destruct (handleOwnerReject_course _ _ _ _ _ {| rj_Reason := ToValidUTF8 (FormValue r "reason"); rj_Action := "" |} Hr')
    as [Hp Hw]; [|done|].
  { intros a' Hdec. apply (arrives_decode _ _ _ _ _ _ _ _ Harr) in Hdec as [Hdec _].
    rewrite decode_exclusion in Hdec. by injection Hdec as <-. }
  split; [done|]. intros rec' ok Hin. destruct (Hw _ _ Hin) as (now & rec & Hread & ->).
  exists c, now, rec. split_and!; [done..|]. f_equal. apply Harr. set_solver.
Qed.
End ProxyFacts.
