(* ===== verification/PageFacts.v ===== *)
(** * What the owner is shown

    The approval page, followed back to the API server: the recommendation shown
    is the one stored under the key of the token, field by field. *)
From S2P Require Import Prelude GoStrings GoStrconv GoJson JsonText JsonTextFacts HttpMessage GoFloat External ApiTypes.
From S2P Require Import Effects World Http Approval Notifier NotifierFacts ApiServer Handlers Proxy RecJson ProxyFacts.
Local Open Scope Z_scope.

Section PageFacts.
Context `{P : Platform} `{GI : GoImpl} `{J : JwtLib} `{!JwtLaws J} `{JF : !JsonForeign} `{!JsonForeignLaws}.
Context (text : f64 → string).
Implicit Types (p : ApprovalProxy) (w : ResponseWriter Page) (r : Request) (c : ApprovalClaims).

(** ** Between the two servers *)

(** The proxy's request for the recommendation of these claims, and a request with
    this method and path as the API server sees it. *)
Definition get_request p c : HttpRequest :=
  {| hq_Method := "GET"; hq_URL := recommendation_url p (ac_Namespace c) (ac_RecName c); hq_Header := []; hq_Body := NoBody |}.
Definition asks c r : Prop :=
  rq_Method r = "GET" ∧ rq_Clean r = true ∧
  rq_Segments r = ["api"; "v1"; "internal"; "recommendations"; ac_Namespace c; ac_RecName c] ∧
  ac_Namespace c ≠ "" ∧ ac_RecName c ≠ "".

(** The text of what a handler wrote, as far as this path needs it. *)
Definition wire (wb : ResponseWriter ApiBody) : option string :=
  match w_body wb with
  | [] => Some ""
  | [Text s] => Some s
  | [Value (BRec rec)] => Some (Marshal (json_of_Recommendation text rec) +:+ newline)
  | _ => None
  end.

(** The response that arrives: the whole text, or its beginning and a failure. *)
Definition delivers (wb : ResponseWriter ApiBody) (resp : HttpResponse) : Prop :=
  hr_StatusCode resp = Status wb ∧ ∃ whole, wire wb = Some whole ∧
    if hr_Complete resp then hr_Body resp = whole else ∃ rest, hr_Body resp +:+ rest = whole.

(** ** The two handlers *)
Definition fetch_failed w : ResponseWriter Page :=
  renderError w StatusBadGateway "Unable to Load Recommendation"
    "Could not retrieve the recommendation details. Please try again later.".
Definition approval_page w (d : ApprovalPageData) : ResponseWriter Page := Write (Value (ApprovalHtml d)) (html w).

(** What the page is to show of a specification; strings arrive as valid UTF-8. *)
Definition page_of (s : RightsizingRecommendationSpec) (token owner : string) : ApprovalPageData := {|
  ap_VMName := ToValidUTF8 (ref_Name (sp_VirtualMachineRef s));
  ap_Namespace := ToValidUTF8 (ref_Namespace (sp_VirtualMachineRef s));
  ap_Direction := ToValidUTF8 (sp_Direction s);
  ap_CurrentCPU := cpu_Cores (rs_CPU (sp_Current s));
  ap_CurrentMemory := ToValidUTF8 (Q_String (rs_Memory (sp_Current s)));
  ap_RecommendedCPU := cpu_Cores (rs_CPU (sp_Recommended s));
  ap_RecommendedMemory := ToValidUTF8 (Q_String (rs_Memory (sp_Recommended s)));
  ap_CPUSavings := sv_CPU (sp_Savings s);
  ap_MemorySavings := ToValidUTF8 (Q_String (sv_Memory (sp_Savings s)));
  ap_CPUP95 := ms_CPUP95Percent (sp_Metrics s); ap_MemP95 := ms_MemoryP95Percent (sp_Metrics s);
  ap_CPUMax := ms_CPUMaxPercent (sp_Metrics s); ap_MemMax := ms_MemoryMaxPercent (sp_Metrics s);
  ap_LookbackDays := ms_LookbackDays (sp_Metrics s);
  ap_Token := token; ap_Owner := owner; ap_HotplugCapable := sp_HotplugCapable s |}.

Lemma handleGetApprove_course p w r tr w2 resp :
  runs (handleGetApprove p w r) tr (Returns w2) → responses tr = [resp] →
  ∃ c, jwt_signed (tm_signingKey (px_tokenManager p)) (Query_Get r "token") c ∧ https tr = [get_request p c] ∧
    w2 = if negb (hr_StatusCode resp =? 200) then fetch_failed w else
         match (j ← hr_first resp; decode_backendRecommendation j zero_backendRecommendation) with
         | Some rec => approval_page w (page_data rec (Query_Get r "token") (ac_Owner c))
         | None => fetch_failed w
         end.
Proof.
  unfold handleGetApprove. destruct (String.eqb _ _); [by intros [-> _]|].
  intros (got & tr1 & tr2 & -> & H1 & Hr)%runs_bind_returns Hresp.
  destruct got as [c|e].
  2: { apply ValidateToken_calls in H1 as (now & ? & -> & _). by destruct Hr as [-> _]. }
  apply ValidateToken_signed in H1 as (now & -> & Hs & _). exists c. split; [done|].
  apply runs_bind_returns in Hr as (x & tr3 & tr4 & -> & H2 & Hr).
  assert (tr4 = []) as -> by (by destruct x; destruct Hr as [-> _]). rewrite app_nil_r in *.
  destruct H2 as (u & tr5 & -> & H2). destruct u as [u|e]; [|by destruct H2 as [-> _]].
  destruct H2 as (y & tr6 & -> & H2). destruct y as [resp'|e].
  2: { by destruct H2 as [-> _]. }
  assert (tr6 = []) as ->.
  { cbn [runs mbind prog_mbind prog_bind] in H2. destruct (negb _); [by destruct H2|].
    by destruct (mbind _ (hr_first resp')); destruct H2. }
  cbn in Hresp. injection Hresp as ->. split; [done|].
  cbn [runs mbind prog_mbind prog_bind] in H2. destruct (negb _).
  - destruct H2 as [_ [= ->]]. by destruct Hr as [_ [= ->]].
  - destruct (mbind _ (hr_first resp)); destruct H2 as [_ [= ->]]; by destruct Hr as [_ [= ->]].
Qed.

Lemma served_recommendation c s r tr wb rec :
  asks c r → runs (ServeHTTP s new_writer r) tr (Returns wb) → reads tr = [rec] →
  tr = [Obs (KGetRec (NSName (ac_Namespace c) (ac_RecName c))) (Ok rec)] ∧ Status wb = 200 ∧
  wire wb = Some (if rec_encodes rec then Marshal (json_of_Recommendation text rec) +:+ newline else "").
Proof.
  intros (Hm & Hc & Hseg & Hns & Hn) Hr Hread. unfold ServeHTTP in Hr. rewrite Hc, Hm, Hseg in Hr. cbn [negb] in Hr.
  assert (find_route (registerRoutes s) "GET" ["api"; "v1"; "internal"; "recommendations"; ac_Namespace c; ac_RecName c]
    = Some (handleGetRecommendation s, [("namespace", ac_Namespace c); ("name", ac_RecName c)])) as Hrt.
  { destruct (ac_Namespace c), (ac_RecName c); done || reflexivity. }
  rewrite Hrt in Hr. destruct Hr as (x & tr' & -> & Hr).
  destruct x as [rec'|e]; destruct Hr as [-> [= ->]]; [|done]. cbn in Hread. injection Hread as ->.
  split; [done|]. unfold writeJSON, wire. cbn [encodes]. by destruct (rec_encodes rec).
Qed.

(** C6: The owner decides on what is stored.  When the approval page asks the API
    server for the recommendation of its token and gets an answer, the page shows,
    field by field, the recommendation stored under the namespace and name in the
    token, in its own words and numbers; or it says that it could not load it, and
    then the answer broke off or the recommendation has a number that JSON does not
    know. *)
Theorem page_shows_recommendation p w r tr w2 resp :
  runs (handleGetApprove p w r) tr (Returns w2) → responses tr = [resp] →
  ∃ c, jwt_signed (tm_signingKey (px_tokenManager p)) (Query_Get r "token") c ∧ https tr = [get_request p c] ∧
    ∀ s r' tr' wb rec,
      asks c r' → runs (ServeHTTP s new_writer r') tr' (Returns wb) → reads tr' = [rec] →
      in_range (rr_Spec rec) → (rec_encodes rec = true → reads_back text (rr_Spec rec)) → delivers wb resp →
      tr' = [Obs (KGetRec (NSName (ac_Namespace c) (ac_RecName c))) (Ok rec)] ∧
      (w2 = approval_page w (page_of (rr_Spec rec) (Query_Get r "token") (ac_Owner c)) ∨
       (w2 = fetch_failed w ∧ (hr_Complete resp = false ∨ rec_encodes rec = false))).
Proof.
  intros Hr Hresp. destruct (handleGetApprove_course _ _ _ _ _ _ Hr Hresp) as (c & Hs & Hh & ->).
  exists c. split; [done|]. split; [done|]. intros s r' tr' wb rec Ha Hr' Hread Hi Hf [Hst (whole & Hw & Hd)].
  destruct (served_recommendation _ _ _ _ _ _ Ha Hr' Hread) as (-> & Hst' & Hw'). split; [done|].
  rewrite Hw in Hw'. injection Hw' as ->. rewrite Hst, Hst'. cbn [negb Z.eqb Pos.eqb].
  unfold hr_first. destruct (rec_encodes rec).
  - specialize (Hf eq_refl). destruct (small_rec _ _ Hf) as [Hp Hdep].
    assert (∀ eof, Decode (Marshal (json_of_Recommendation text rec) +:+ newline) eof
      = Some (marshalled (json_of_Recommendation text rec))) as Hdec.
    { intros eof. apply Decode_Marshal; [done|done|]. unfold max_nesting. lia. }
    pose proof (decode_shown text rec Hi Hf) as Hpage.
    assert (∀ j, j = marshalled (json_of_Recommendation text rec) →
      decode_backendRecommendation j zero_backendRecommendation = Some (shown (rr_Spec rec))) as Hj by by intros j ->.
    destruct (hr_Complete resp).
    + rewrite Hd, Hdec. left. cbn [mbind option_bind]. by rewrite (Hj _ eq_refl).
    + destruct Hd as [rest Hd]. destruct (Decode (hr_Body resp) false) as [j|] eqn:Hx; [|right; auto].
      apply (read_value_app _ _ rest false) in Hx. rewrite Hd in Hx. unfold Decode in Hdec. rewrite Hdec in Hx.
      left. cbn [mbind option_bind]. rewrite (Hj j); [done|]. congruence.
  - right. split; [|by right]. destruct (hr_Complete resp).
    + by rewrite Hd.
    + destruct Hd as [rest Hd]. by destruct (hr_Body resp).
Qed.
End PageFacts.
