(* ===== verification/MainFacts.v ===== *)
(** * What main wires satisfies what the theorems assume

    Whatever the settings, the server, the reconciler and the metrics query that
    [setup] puts together are tame, so that the guarantees of the other files hold
    of the operator that runs; server and controller share key and notifiers. *)
From S2P Require Import Prelude GoFloat GoJson HttpMessage External ApiTypes Effects World.
From S2P Require Import Approval Owner Applier Notifier NotifierFacts ApiServer Handlers.
From S2P Require Import Lifecycle LifecycleFacts SafetyFacts ReconcileFacts Main.
From S2P Require Prometheus PrometheusFacts Controller Restart Proxy.
Local Open Scope Z_scope.

Section MainFacts.
Context `{P : Platform} `{GI : GoImpl} `{J : JwtLib}.
Implicit Types (s : Settings) (op : Operator).

(** ** The metrics query *)
Definition bounded (o : obs Ev) : Prop :=
  ∀ r, obs_response o = Some r → PrometheusFacts.answer_bounded r.

Lemma bounded_responses tr : Forall bounded tr → ∀ r, r ∈ responses tr → PrometheusFacts.answer_bounded r.
Proof.
  intros HG r (o & Ho & Hr)%list_elem_of_omap. rewrite Forall_forall in HG. by eapply HG.
Qed.

Lemma outward_QueryRange c query : only outward (Prometheus.QueryRange c query).
Proof.
  cbn. split; [done|]. intros [|]; cbn; [|done]. split; [done|]. intros [r|]; cbn; [|done].
  destruct (negb _); cbn; [done|]. by destruct (mbind _ (hr_first r)).
Qed.

Lemma outward_adapter client : outward_querier (prometheusAdapter client).
Proof.
  intros name ns days cores bytes. unfold Controller.QueryVMUtilization, prometheusAdapter.
  apply only_bind; [|by intros [|]].
  unfold Prometheus.GetVMUtilization, Prometheus.GetVMMetrics, Prometheus.get_metrics.
  apply only_bind.
  - apply only_bind; [apply outward_QueryRange|]. intros [|]; [|done].
    apply only_bind; [apply outward_QueryRange|]. by intros [|].
  - intros [m|]; [|done]. unfold Prometheus.summarize. cbv zeta.
    repeat (apply only_bind; [apply only_must|]; intros). done.
Qed.

Lemma safe_adapter client : safe_querier bounded (prometheusAdapter client).
Proof.
  intros name ns days cores bytes. unfold Controller.QueryVMUtilization, prometheusAdapter.
  apply safe_if_bind_runs; [|by intros ? [|]].
  apply safe_if_runs. intros tr out HG Hr.
  refine (PrometheusFacts.utilization_total client _ _ _ _
    (λ l, Prometheus.toPercent l (f64_of_Z cores)) (λ l, Prometheus.toPercent l (f64_of_Z bytes)) tr out _ _ Hr _);
    intros; try by apply PrometheusFacts.short_toPercent. by apply (bounded_responses tr).
Qed.

Lemma quiet_adapter client : quiet_querier (prometheusAdapter client).
Proof.
  intros name ns days cores bytes. eapply only_mono; [|apply outward_adapter]. by intros X [].
Qed.

(** ** The wiring *)

(** The parts agree: same key, same notifiers, same mode. *)
Definition agrees op : Prop :=
  s_TokenManager (op_Server op) = Controller.re_TokenManager (op_Reconciler op) ∧
  s_Notifier (op_Server op) = Controller.re_Notifier (op_Reconciler op) ∧
  s_DemoMode (op_Server op) = Controller.re_DemoMode (op_Reconciler op) ∧
  s_Clientset (op_Server op) = true ∧ s_DynamicClient (op_Server op) = true.

Definition wired op : Prop :=
  tame_server (op_Server op) ∧ tame_reconciler (op_Reconciler op) ∧ outward_querier (op_Querier op) ∧
  quiet_querier (op_Querier op) ∧ safe_querier bounded (op_Querier op).

Lemma operator_wired s host tm d opts :
  s_Notifier (NewServer true true opts) = d → (∀ d', d = Some d' → tame_dispatcher d') →
  wired (operator s host tm d opts).
Proof.
  intros Hn Hd. split_and!.
  - intros d' Hd'. cbn [operator op_Server] in Hd'. rewrite Hn in Hd'. by apply Hd.
  - done.
  - apply outward_adapter.
  - apply quiet_adapter.
  - apply safe_adapter.
Qed.

(** With a key file, the approval workflow is there on both sides. *)
Definition approval_ready s op : Prop :=
  se_SigningKeyPath s ≠ "" → ∃ key, se_SigningKey s = Ok key ∧
    s_TokenManager (op_Server op) = Some (NewTokenManager key) ∧
    s_OwnerResolver (op_Server op) = Some mkResolver ∧
    Controller.re_OwnerResolver (op_Reconciler op) = Some mkResolver.

(** A proxy started with the same key file verifies what the server signs. *)
Definition shares_key s op : Prop :=
  ∀ getenv readFile fl p l, proxy_main getenv readFile fl = Ok (p, l) →
    or_env getenv "SIGNING_KEY_PATH" (pf_signingKeyPath fl) = se_SigningKeyPath s →
    readFile (se_SigningKeyPath s) = se_SigningKey s →
    s_TokenManager (op_Server op) = Some (Proxy.px_tokenManager p).

Lemma ready_shares s op : approval_ready s op → shares_key s op.
Proof.
  intros Hready getenv readFile fl p l Hp Hpath Hkey. unfold proxy_main in Hp.
  destruct (String.eqb _ ""); [done|]. rewrite Hpath in Hp.
  destruct (String.eqb_spec (se_SigningKeyPath s) "") as [|Hne]; [done|].
  destruct (Hready Hne) as (key & Hk & -> & _). rewrite Hkey, Hk in Hp. by injection Hp as <- _.
Qed.

Lemma setup_signed_wired s tr op :
  runs (setup_signed s (if se_DemoMode s then [WithDemoMode true] else [])) tr (Returns (Ok op)) →
  wired op ∧ agrees op ∧ approval_ready s op.
Proof.
  unfold setup_signed. destruct (se_SigningKey s) as [key|] eqn:Hk; [|by intros [_ [=]]].
  destruct (se_NotificationConfig s) as [[cfg|e]|]; [|by intros [_ [=]]|].
  - intros (res & tr1 & tr2 & -> & Hd & [_ Hop])%runs_bind_returns. destruct res as [d|]; [|done].
    injection Hop as ->. apply NewDispatcher_loop_names in Hd as [_ Hd]; [|constructor]. split_and!.
    + apply operator_wired; [by destruct (se_DemoMode s), (negb _)|]. by intros d' [= <-].
    + unfold agrees. by destruct (se_DemoMode s) eqn:Hm, (negb _); cbn; rewrite Hm.
    + intros _. exists key. by destruct (se_DemoMode s), (negb _).
  - intros [_ [= ->]]. split_and!.
    + apply operator_wired; [by destruct (se_DemoMode s), (negb _)|done].
    + unfold agrees. by destruct (se_DemoMode s) eqn:Hm, (negb _); cbn; rewrite Hm.
    + intros _. exists key. by destruct (se_DemoMode s), (negb _).
Qed.

Lemma setup_parts s tr op :
  runs (setup s) tr (Returns (Ok op)) → wired op ∧ agrees op ∧ approval_ready s op.
Proof.
  unfold setup. destruct (String.eqb_spec (se_SigningKeyPath s) "") as [Hp|Hp].
  - destruct (se_DemoMode s) eqn:Hm; cbn [andb negb].
    + unfold setup_demo. destruct (se_DemoKey s) as [key|]; [|by intros [_ [=]]].
      intros [_ [= ->]]. split_and!; [by apply operator_wired| |by intros ?].
      unfold agrees. cbn. by rewrite Hm.
    + intros [_ [= ->]]. split_and!; [by apply operator_wired| |by intros ?].
      unfold agrees. cbn. by rewrite Hm.
  - rewrite andb_false_r. cbn [negb]. apply setup_signed_wired.
Qed.

(** C20: What runs is what the other theorems are about.  Whatever the settings, if
    the operator starts at all its API server and reconciler only have notifiers
    that reach outward and never panic, its metrics query makes outward calls
    only and cannot panic on bounded answers, and both sides use the same signing
    key, notifiers and mode; when a key file is configured, the key is the file's,
    both sides resolve owners, and an approval proxy started on the same key file
    verifies the tokens the server signs. *)
Theorem setup_wires s tr op :
  runs (setup s) tr (Returns (Ok op)) → wired op ∧ agrees op ∧ approval_ready s op ∧ shares_key s op.
Proof.
  intros Hr. assert (wired op ∧ agrees op ∧ approval_ready s op) as (Hw & Ha & Hready).
  { by apply (setup_parts s tr). }
  split_and!; [done..|by apply ready_shares].
Qed.
End MainFacts.
