(* ===== verification/ManagerFacts.v ===== *)
(** * How the operator comes up

    The manager is started only after every step of main succeeded, and with the
    parts that the settings describe; the two servers' TLS options; and why no
    notifier that needs a secret survives the start: its secret is read through
    the manager's cache before the manager runs. *)
From S2P Require Import Prelude GoStrings GoFloat External ApiTypes Effects World.
From S2P Require Import Http Approval Notifier NotifierFacts ApiServer Handlers Main Scheme Manager.
From S2P Require Controller Restart.

Section ManagerFacts.
Context `{P : Platform} `{GI : GoImpl} `{J : JwtLib} `{!Growth}.

(** ** The servers' certificates *)

(** The options as they are when the servers read them: appending the metrics
    certificate reuses the array that holds the webhook's, if there is room. *)
Definition shares_array (fl : ManagerFlags) : bool :=
  negb (mf_enableHTTP2 fl) && (1 <? grow 1)%nat
  && bool_decide (is_Some (webhookCertWatcher fl)) && bool_decide (is_Some (metricsCertWatcher fl)).

(** C33: The metrics server offers its own certificate, the webhook server too unless
    [append] leaves room in the array of the shared options, in which case, with
    both certificates configured and HTTP/2 off, the webhook server offers the
    metrics certificate; both offer HTTP/1.1 only, unless HTTP/2 is enabled. *)
Theorem server_certificates fl : ∃ webhook metrics,
  start_manager fl = Start webhook metrics ∧
  tls_config metrics = {|
    tc_NextProtos := if mf_enableHTTP2 fl then None else Some ["http/1.1"];
    tc_cert := metricsCertWatcher fl |} ∧
  tls_config webhook = {|
    tc_NextProtos := if mf_enableHTTP2 fl then None else Some ["http/1.1"];
    tc_cert := if shares_array fl then metricsCertWatcher fl else webhookCertWatcher fl |}.
Proof.
  unfold start_manager, shares_array, tls_options, append_watcher, append.
  pose proof (grow_enough 1) as Hg.
  destruct (mf_enableHTTP2 fl), (webhookCertWatcher fl) as [w|], (metricsCertWatcher fl) as [m|];
    cbn -[grow tls_config]; destruct (grow 1) as [|[|n]];
    first [lia | cbn -[grow tls_config]; eauto].
Qed.

(** ** The steps of a start *)

(** A step with its answer. *)
Definition step_of (o : obs BootEv) : option (Step * result unit) :=
  match o with
  | Obs e x =>
      match e in BootEv X return X → option (Step * result unit) with
      | Client _ => λ _, None
      | Boot s => λ r, Some (s, r)
      end x
  end.
Definition steps_of (tr : list (obs BootEv)) : list (Step * result unit) := omap step_of tr.
(** Steps taken with success. *)
Definition succeeds (steps : list Step) : list (obs BootEv) := (λ s, Obs (Boot s) (Ok tt)) <$> steps.

Definition is_start (s : Step) : bool := match s with Start _ _ => true | _ => false end.
Definition started (tr : list (obs BootEv)) : Prop :=
  ∃ s r, (s, r) ∈ steps_of tr ∧ is_start s = true.

Lemma steps_of_client (tr : list (obs Ev)) : steps_of (embed_obs (@Client _) <$> tr) = [].
Proof. by induction tr as [|[X e x] tr IH]. Qed.

Lemma steps_of_succeeds steps : steps_of (succeeds steps) = (λ s, (s, Ok tt)) <$> steps.
Proof. induction steps as [|s steps IH]; [done|]. cbn. by f_equal. Qed.
Lemma steps_of_app tr1 tr2 : steps_of (tr1 ++ tr2) = steps_of tr1 ++ steps_of tr2.
Proof. apply omap_app. Qed.

(** The trace of steps the last of which failed. *)
Inductive cut_short (steps : list Step) : list (obs BootEv) → Prop :=
| cut_short_at don s rest e : steps = don ++ s :: rest →
    cut_short steps (succeeds don ++ [Obs (Boot s) (Err e)]).

(** Either a step failed, the ones before succeeding, and that was the end; or all
    succeeded and the rest ran. *)
Lemma runs_boot steps k tr out :
  runs (boot steps k) tr out →
  (cut_short steps tr ∧ out = Returns 1%Z) ∨ ∃ tr2, tr = succeeds steps ++ tr2 ∧ runs k tr2 out.
Proof.
  revert tr. induction steps as [|s steps IH]; intros tr; simpl; [by right; exists tr|].
  intros ([[]|e] & tr' & -> & Hr).
  - destruct (IH _ Hr) as [[[don s' rest e ->] ->]|(tr2 & -> & Hk)].
    + left. split; [|done]. by apply (cut_short_at _ (s :: don) s' rest).
    + right. by exists tr2.
  - destruct Hr as [-> ->]. left. split; [|done]. by apply (cut_short_at _ [] s steps).
Qed.

(** ** Building the parts never panics *)
Ltac safe_tac :=
  repeat first [ exact I | progress intros | case_match
               | apply safe_bind | progress simpl ].

Lemma safe_NewForwarder cfg p : @NewForwarder _ k8sSecretGetter cfg = Some p → safe p.
Proof.
  unfold NewForwarder. intros Hp.
  repeat (destruct (String.eqb _ _); [injection Hp as <-; unfold as_forwarder; apply safe_bind;
    [unfold NewSlackForwarder, NewTeamsForwarder, NewSMTPForwarder, NewPagerDutyForwarder,
       NewRocketChatForwarder, NewServiceNowForwarder, GetSecretData, k8sSecretGetter; safe_tac|done]|]).
  done.
Qed.

Lemma safe_NewDispatcher_loop cfgs fs : safe (@NewDispatcher_loop _ k8sSecretGetter cfgs fs).
Proof.
  revert fs. induction cfgs as [|c cfgs IH]; intros fs; simpl; [done|].
  destruct (negb _); [done|]. destruct (NewForwarder c) as [p|] eqn:Hp; [|done].
  apply safe_bind; [by apply (safe_NewForwarder c)|]. by intros [].
Qed.

Lemma safe_setup s : safe (setup s).
Proof.
  unfold setup, setup_signed, setup_demo. safe_tac; apply safe_NewDispatcher_loop.
Qed.

(** ** Notifiers that need a secret *)
Definition needs_secret (cfg : ForwarderConfig) : bool :=
  fc_Enabled cfg &&
  (bool_decide (fc_Type cfg ∈ ["slack"; "teams"; "pagerduty"; "rocketchat"; "servicenow"])
   || String.eqb (fc_Type cfg) "smtp" && negb (String.eqb (fc_SecretRef cfg) "")).

(** No secret was read with success. *)
Definition refused (tr : list (obs Ev)) : Prop :=
  ∀ key data, Obs (KGetSecretData key) (Ok data) ∉ tr.

Lemma refused_app tr1 tr2 : refused (tr1 ++ tr2) → refused tr1 ∧ refused tr2.
Proof. intros Hno. split; intros key data Hin; apply (Hno key data), elem_of_app; auto. Qed.

(** A forwarder that needs its secret is created only when it was read. *)
Definition reads_secret {F} (p : prog Ev (result F)) : Prop :=
  wp p (λ tr out, ∀ f, out = Returns (Ok f) → ¬ refused tr).

Ltac reads_secret_tac :=
  unfold reads_secret, GetSecretData, k8sSecretGetter; simpl;
  repeat first [progress intros | case_match; simpl in *];
  first [ discriminate
        | intros Hno; eapply Hno, list_elem_of_here ].

Lemma reads_secret_as {F} (wrap : F → Forwarder) p : reads_secret p → reads_secret (as_forwarder wrap p).
Proof.
  intros Hp. apply (wp_bind_mono _ _ _ _ Hp). intros tr [r|m] Hr; simpl; [|done].
  intros f. rewrite app_nil_r. destruct r; [|done]. intros _. by eapply Hr.
Qed.

Lemma NewForwarder_reads_secret cfg p :
  needs_secret cfg = true → @NewForwarder _ k8sSecretGetter cfg = Some p → reads_secret p.
Proof.
  unfold needs_secret, NewForwarder. intros [_ Hn]%andb_true_iff.
  destruct (String.eqb_spec (fc_Type cfg) "slack").
  { intros [= <-]. apply reads_secret_as. unfold NewSlackForwarder. reads_secret_tac. }
  destruct (String.eqb_spec (fc_Type cfg) "teams").
  { intros [= <-]. apply reads_secret_as. unfold NewTeamsForwarder. reads_secret_tac. }
  destruct (String.eqb_spec (fc_Type cfg) "smtp") as [Ht|].
  { intros [= <-]. apply reads_secret_as. unfold NewSMTPForwarder. rewrite Ht in Hn. simpl in Hn.
    rewrite Hn. reads_secret_tac. }
  destruct (String.eqb_spec (fc_Type cfg) "snmp") as [Ht|]; [by rewrite Ht in Hn|].
  destruct (String.eqb_spec (fc_Type cfg) "pagerduty").
  { intros [= <-]. apply reads_secret_as. unfold NewPagerDutyForwarder. reads_secret_tac. }
  destruct (String.eqb_spec (fc_Type cfg) "rocketchat").
  { intros [= <-]. apply reads_secret_as. unfold NewRocketChatForwarder. reads_secret_tac. }
  destruct (String.eqb_spec (fc_Type cfg) "servicenow").
  { intros [= <-]. apply reads_secret_as. unfold NewServiceNowForwarder. reads_secret_tac. }
  done.
Qed.

Lemma NewForwarder_some cfg : needs_secret cfg = true → is_Some (@NewForwarder _ k8sSecretGetter cfg).
Proof.
  unfold needs_secret, NewForwarder. intros [_ Hn]%andb_true_iff.
  repeat match goal with
  | |- context [String.eqb (fc_Type cfg) ?t] => destruct (String.eqb_spec (fc_Type cfg) t); [by eexists|]
  end.
  exfalso. apply orb_true_iff in Hn as [Hn%bool_decide_eq_true|[[=] _]%andb_true_iff].
  rewrite !elem_of_cons in Hn. by destruct Hn as [|[|[|[|[|?%elem_of_nil]]]]].
Qed.

Lemma refused_no_dispatcher cfgs fs tr d :
  (∃ c, c ∈ cfgs ∧ needs_secret c = true) → refused tr →
  ¬ runs (@NewDispatcher_loop _ k8sSecretGetter cfgs fs) tr (Returns (Ok d)).
Proof.
  revert fs tr. induction cfgs as [|c cfgs IH]; intros fs tr (c' & Hc & Hn) Hno; simpl; [by apply elem_of_nil in Hc|].
  destruct (fc_Enabled c) eqn:He; simpl.
  - destruct (NewForwarder c) as [p|] eqn:Hp.
    + intros (r & tr1 & tr2 & -> & Hr & Hd)%runs_bind_returns. apply refused_app in Hno as [Hno1 Hno2].
      destruct r as [f|e]; [|by destruct Hd].
      apply elem_of_cons in Hc as [->|Hc]; [|by apply (IH (fs ++ [f]) tr2); [by exists c'| |]].
      pose proof (NewForwarder_reads_secret c p Hn Hp) as Hreads.
      by apply (proj1 (wp_runs _ _) Hreads _ _ Hr f).
    + apply IH; [|done]. apply elem_of_cons in Hc as [->|Hc]; [|by exists c'].
      apply NewForwarder_some in Hn as [? Hn]. by rewrite Hn in Hp.
  - apply IH; [|done]. apply elem_of_cons in Hc as [->|Hc]; [|by exists c'].
    unfold needs_secret in Hn. by rewrite He in Hn.
Qed.

Lemma refused_no_setup s cfg tr op :
  se_SigningKeyPath s ≠ "" → se_NotificationConfig s = Some (Ok cfg) →
  (∃ c, c ∈ nc_Forwarders cfg ∧ needs_secret c = true) → refused tr →
  ¬ runs (setup s) tr (Returns (Ok op)).
Proof.
  intros Hk Hcfg Hc Hno. unfold setup.
  rewrite (proj2 (String.eqb_neq _ _) Hk), andb_false_r. simpl.
  unfold setup_signed. destruct (se_SigningKey s); [|by intros [_ ?]]. rewrite Hcfg.
  intros (r & tr1 & tr2 & -> & Hr & Hd)%runs_bind_returns. destruct r as [d|]; [|by destruct Hd].
  apply refused_app in Hno as [Hno _]. by apply (refused_no_dispatcher _ _ _ _ Hc Hno) in Hr.
Qed.

(** ** main *)
Section Start.
Context (getenv : string → string) (readFile : string → result string).
Context (notifications : string → option (result NotifierConfig)) (randomKey : result string).
Context (fl : ManagerFlags).
#[local] Abbreviation settings := (settings_of getenv readFile notifications randomKey (mf_flags fl)).
#[local] Abbreviation operator_main := (main getenv readFile notifications randomKey fl).

Definition exit_code (r : result unit) : Z := match r with Ok _ => 0 | Err _ => 1 end.

(** *** What has to be in place, step by step

    Written out from the source: a pair of certificate files for each server whose
    directory is set; the manager with its options; the clients. *)
Definition certificates (path name key : string) : list CertWatcher :=
  if String.eqb path "" then [] else [{| cw_cert := Join path name; cw_key := Join path key |}].
Definition webhook_certificates : list CertWatcher :=
  certificates (mf_webhookCertPath fl) (mf_webhookCertName fl) (mf_webhookCertKey fl).
Definition metrics_certificates : list CertWatcher :=
  certificates (mf_metricsCertPath fl) (mf_metricsCertName fl) (mf_metricsCertKey fl).

Definition steps_before : list Step :=
  (NewCertWatcher <$> webhook_certificates) ++ (NewCertWatcher <$> metrics_certificates) ++ [
  GetConfigOrDie;
  NewManager {|
    mo_MetricsAddr := mf_metricsAddr fl; mo_SecureServing := mf_secureMetrics fl; mo_FilterProvider := mf_secureMetrics fl;
    mo_HealthProbeBindAddress := mf_probeAddr fl; mo_LeaderElection := mf_enableLeaderElection fl;
    mo_LeaderElectionID := "1d6cd375.redhatconsulting.io" |};
  GetConfigOrDie;
  NewForConfig "kubernetes";
  NewForConfig "dynamic"].

(** Both controllers, for VMs and for recommendations; the certificates to be
    watched; the health checks; the API server, with TLS (1.2 at least,
    HTTP/1.1 only) when both files are named in the environment. *)
Definition steps_after (op : Operator) : list Step := [
  RegisterController "rightsizingrecommendation"
    {| gvk_Group := "kubevirt.io"; gvk_Version := "v1"; gvk_Kind := "VirtualMachine" |}
    (RecommendationReconciler (op_Reconciler op) (op_Querier op));
  RegisterController "restart"
    {| gvk_Group := "rightsizing.redhatconsulting.io"; gvk_Version := "v1alpha1"; gvk_Kind := "RightsizingRecommendation" |}
    (RestartReconciler (op_Restarter op))] ++
  ((λ w, AddRunnable (RunWatcher w)) <$> metrics_certificates) ++
  ((λ w, AddRunnable (RunWatcher w)) <$> webhook_certificates) ++ [
  AddHealthzCheck "healthz";
  AddReadyzCheck "readyz";
  AddRunnable (RunServer (op_Server op)
    (let cert := getenv "TLS_CERT_FILE" in let key := getenv "TLS_KEY_FILE" in
     if String.eqb cert "" || String.eqb key "" then ListenAndServe (fl_apiAddr (mf_flags fl))
     else ListenAndServeTLS (fl_apiAddr (mf_flags fl)) {| tls_MinVersion := 771; tls_NextProtos := ["http/1.1"] |} cert key))].

Lemma preparation_steps : preparation fl = steps_before.
Proof.
  unfold preparation, steps_before, webhook_certificates, metrics_certificates, certificates, new_watcher, webhookCertWatcher,
    metricsCertWatcher, watcher_of.
  by destruct (String.eqb (mf_webhookCertPath fl) ""), (String.eqb (mf_metricsCertPath fl) "").
Qed.
Lemma registration_steps op : registration getenv fl op = steps_after op.
Proof.
  unfold registration, steps_after, webhook_certificates, metrics_certificates, certificates, add_watcher, webhookCertWatcher,
    metricsCertWatcher, watcher_of, api_listener, start.
  by destruct (String.eqb (mf_webhookCertPath fl) ""), (String.eqb (mf_metricsCertPath fl) ""),
    (String.eqb (getenv "TLS_CERT_FILE") ""), (String.eqb (getenv "TLS_KEY_FILE") "").
Qed.

Lemma boot_app s1 s2 k : boot (s1 ++ s2) k = boot s1 (boot s2 k).
Proof. induction s1 as [|s s1 IH]; simpl; [done|]. by rewrite IH. Qed.

Lemma start_manager_start : ∃ webhook metrics, start_manager fl = Start webhook metrics.
Proof. unfold start_manager. destruct (tls_options _ _ _) as [[]]. eauto. Qed.

Lemma before_no_start : Forall (λ s, is_start s = false) steps_before.
Proof.
  unfold steps_before, webhook_certificates, metrics_certificates, certificates.
  destruct (String.eqb _ _), (String.eqb _ _); cbn; by repeat constructor.
Qed.
Lemma after_no_start op : Forall (λ s, is_start s = false) (steps_after op).
Proof.
  unfold steps_after, webhook_certificates, metrics_certificates, certificates.
  destruct (String.eqb (mf_metricsCertPath fl) ""), (String.eqb (mf_webhookCertPath fl) ""); cbn; by repeat constructor.
Qed.

Lemma started_app tr1 tr2 : started (tr1 ++ tr2) ↔ started tr1 ∨ started tr2.
Proof. unfold started. rewrite steps_of_app. setoid_rewrite elem_of_app. naive_solver. Qed.
Lemma client_not_started (trs : list (obs Ev)) : ¬ started (embed_obs (@Client _) <$> trs).
Proof. unfold started. rewrite steps_of_client. by intros (s & r & ?%elem_of_nil & _). Qed.
Lemma succeeds_not_started steps : Forall (λ s, is_start s = false) steps → ¬ started (succeeds steps).
Proof.
  unfold started. rewrite steps_of_succeeds. intros Hf (s & r & (s' & [= -> ->] & Hin)%list_elem_of_fmap & Hst).
  rewrite Forall_forall in Hf. by rewrite (Hf _ Hin) in Hst.
Qed.
Lemma cut_short_not_started steps tr : Forall (λ s, is_start s = false) steps → cut_short steps tr → ¬ started tr.
Proof.
  intros Hf [don s rest e ->]. apply Forall_app in Hf as [Hd [Hs _]%Forall_cons].
  intros [Hst|(s' & r & [= -> ->]%list_elem_of_singleton & Hst)]%started_app; [by apply (succeeds_not_started don)|].
  by rewrite Hs in Hst.
Qed.

(** The course of main up to the registrations. *)
Lemma runs_main tr out :
  runs operator_main tr out → (cut_short steps_before tr ∧ out = Returns 1%Z) ∨
  ∃ trs tr2 r, tr = succeeds steps_before ++ (embed_obs (@Client _) <$> trs) ++ tr2 ∧
    runs (setup settings) trs (Returns r) ∧
    match r with
    | Err _ => tr2 = [] ∧ out = Returns 1%Z
    | Ok op => runs (boot (steps_after op ++ [start_manager fl]) (mret 0%Z)) tr2 out
    end.
Proof.
  unfold main. rewrite preparation_steps. intros [|(tr2 & -> & Hr)]%runs_boot; [by left|].
  right. apply runs_bind in Hr as [(r & tr3 & tr4 & -> & Hs & Hr)|(m & -> & Hs)].
  - apply runs_embed in Hs as (trs & -> & Hs). exists trs, tr4, r. split_and!; [done..|].
    destruct r as [op|e]; [by rewrite registration_steps in Hr|done].
  - apply runs_embed in Hs as (trs & -> & Hs). by destruct (safe_runs _ _ _ (safe_setup settings) Hs).
Qed.

Lemma prepared_not_started (trs : list (obs Ev)) : ¬ started (succeeds steps_before ++ (embed_obs (@Client _) <$> trs)).
Proof. intros [|]%started_app; [by apply (succeeds_not_started _ before_no_start)|by apply (client_not_started trs)]. Qed.

(** C21: The manager starts only with everything in place.  Every run of main
    returns, and takes its steps in this order: the certificate watchers, the
    manager and the clients; then the parts are built from the settings; then both
    controllers, the certificate watchers, the health checks and the API server
    are registered; and the start of the manager is the very last.  Either all
    succeeded up to the start, and the exit status is that of the manager's run;
    or one step failed, or the building of the parts did, which ended the run with
    status 1 and the manager not started. *)
Theorem main_starts_complete tr out :
  runs operator_main tr out →
  (∃ trs op webhook metrics last,
     tr = succeeds steps_before ++ (embed_obs (@Client _) <$> trs) ++ succeeds (steps_after op)
          ++ [Obs (Boot (Start webhook metrics)) last] ∧
     runs (setup settings) trs (Returns (Ok op)) ∧
     start_manager fl = Start webhook metrics ∧ out = Returns (exit_code last)) ∨
  (¬ started tr ∧ out = Returns 1%Z ∧
     (cut_short steps_before tr ∨
      (∃ trs e, tr = succeeds steps_before ++ (embed_obs (@Client _) <$> trs) ∧ runs (setup settings) trs (Returns (Err e))) ∨
      (∃ trs op tr2, tr = succeeds steps_before ++ (embed_obs (@Client _) <$> trs) ++ tr2 ∧
         runs (setup settings) trs (Returns (Ok op)) ∧ cut_short (steps_after op) tr2))).
Proof.
  intros [[Hc ->]|(trs & tr2 & r & -> & Hs & Hr)]%runs_main.
  { right. split; [by apply (cut_short_not_started _ _ before_no_start)|]. auto. }
  pose proof (prepared_not_started trs) as Hn. destruct r as [op|e].
  2: { destruct Hr as [-> ->]. right. rewrite app_nil_r. eauto 10. }
  rewrite boot_app in Hr. apply runs_boot in Hr as [[Hc ->]|(tr4 & -> & Hr)].
  - right. split; [|split; [done|right; right; eauto 10]]. rewrite app_assoc.
    intros [|]%started_app; [by apply Hn|by apply (cut_short_not_started _ _ (after_no_start op) Hc)].
  - left. destruct start_manager_start as (webhook & metrics & Hst). rewrite Hst in Hr.
    destruct Hr as (last & tr5 & -> & Hr). exists trs, op, webhook, metrics, last.
    destruct last as [[]|e], Hr as [-> ->]; by rewrite Hst.
Qed.

(** What controller-runtime documents of the manager's client: a read through the
    cache fails as long as the manager was not started. *)
Definition cache_needs_start (tr : list (obs BootEv)) : Prop :=
  ∀ tr1 tr2 key r, tr = tr1 ++ Obs (Client (KGetSecretData key)) r :: tr2 →
    ¬ started tr1 → ∃ e, r = Err e.

(** C30: No notifier with a secret survives the start.  Secrets are read through the
    manager's cache, which refuses reads until the manager is started; so with a
    signing key and an enabled notifier that needs its secret (Slack, Teams,
    PagerDuty, Rocket.Chat, ServiceNow, or SMTP with one) the operator never
    starts: main exits with status 1. *)
Theorem secrets_prevent_start cfg tr out :
  runs operator_main tr out → cache_needs_start tr →
  or_env getenv "SIGNING_KEY_PATH" (fl_signingKeyPath (mf_flags fl)) ≠ "" →
  notifications (fl_notificationConfigPath (mf_flags fl)) = Some (Ok cfg) →
  (∃ c, c ∈ nc_Forwarders cfg ∧ needs_secret c = true) →
  ¬ started tr ∧ out = Returns 1%Z.
Proof.
  intros [[Hcut ->]|(trs & tr2 & r & -> & Hs & Hr)]%runs_main Hcache Hkey Hcfg Hc.
  { split; [by apply (cut_short_not_started _ _ before_no_start)|done]. }
  destruct r as [op|e].
  2: { destruct Hr as [-> ->]. rewrite app_nil_r. split; [by apply prepared_not_started|done]. }
  exfalso. refine (refused_no_setup settings cfg trs op Hkey Hcfg Hc _ Hs).
  intros key data (trs1 & trs2 & ->)%list_elem_of_split.
  destruct (Hcache (succeeds steps_before ++ (embed_obs (@Client _) <$> trs1)) ((embed_obs (@Client _) <$> trs2) ++ tr2)
    key (Ok data)) as (? & [=]); [|by apply prepared_not_started].
  rewrite fmap_app, <- !app_assoc. done.
Qed.
End Start.
End ManagerFacts.
