(* ===== verification/Scenario.v ===== *)
(** * Scenarios: the program run in a concrete environment

    The in-memory API server answering for recommendations, and fixed answers for
    everything else.  Programs run against it by computation; such a run is one
    that the in-memory server allows. *)
From S2P Require Import Prelude GoFloat GoJson JsonText HttpMessage External ApiTypes Effects World Http Lifecycle Cluster InMemory Instances.
From S2P Require Approval Owner Applier Notifier Prometheus Controller ApiServer Handlers AuthFacts Main.
Local Open Scope Z_scope.

Record Outside : Type := {
  ou_now : Z;
  ou_vm : result toy_vm;
  ou_policy : result RightsizingPolicy;
  ou_http : HttpRequest → result HttpResponse;
  ou_review : result TokenReviewStatus;
  ou_access : SubjectAccessReviewSpec → bool
}.

(** A write against the store. *)
Definition serve_write (st : Store) (o : option RightsizingRecommendation)
    : result RightsizingRecommendation * Store :=
  match o with
  | Some r => (Ok r, put st r)
  | None => (Err (EConflict "the object has been modified"), st)
  end.

Definition serve_read {A} (msg : string) (o : option A) : result A :=
  match o with Some a => Ok a | None => Err (ENotFound msg) end.

Definition serve (ou : Outside) X (e : Ev X) (st : Store) : X * Store :=
  match e in Ev X return X * Store with
  | TimeNow => (ou_now ou, st)
  | KGetRec key => (serve_read "recommendation not found" (im_map st !! key), st)
  | KListRec ns => (Ok (List.filter (λ r, String.eqb ns "" || String.eqb ns (om_Namespace (rr_Meta r)))
                          (map_to_list (im_map st)).*2), st)
  | KCreateRec r => serve_write st (created st r)
  | KUpdateRec r => serve_write st (updated st r)
  | KUpdateRecStatus r => serve_write st (status_updated st r)
  | KDeleteRec key => (Ok tt, remove st key)
  | KGetPolicy _ => (ou_policy ou, st)
  | KUpdatePolicy p => (Ok p, st)
  | KGetVM _ | DynGetVM _ => (ou_vm ou, st)
  | DynListVMs => (match ou_vm ou with Ok vm => Ok [vm] | Err e => Err e end, st)
  | KGetNamespaceLabels _ => (Ok ∅, st)
  | KGetSecretData _ => (Ok ∅, st)
  | DynPatchVM _ _ _ => (Ok tt, st)
  | TokenReview _ => (ou_review ou, st)
  | SubjectAccessReview spec => (Ok (ou_access ou spec), st)
  | ParseURL _ => (Ok tt, st)
  | HttpDo req => (ou_http ou req, st)
  | Smtp _ => (Ok tt, st)
  end.

(** ** Running against it *)
Definition trace {A} (ou : Outside) (p : prog Ev A) (st : Store) : list (obs Ev) := (run (serve ou) p st).1.2.
Definition ending {A} (ou : Outside) (p : prog Ev A) (st : Store) : outcome A := (run (serve ou) p st).1.1.
Definition store_after {A} (ou : Outside) (p : prog Ev A) (st : Store) : Store := (run (serve ou) p st).2.

Lemma played {A} ou (p : prog Ev A) st : runs p (trace ou p st) (ending ou p st).
Proof. apply run_runs. Qed.

(** What the server serves is what it allows. *)
Lemma serve_step ou X (e : Ev X) st x st' : im_ok st → serve ou X e st = (x, st') → im_step X st e x st'.
Proof.
  intros Hok. assert (∀ o (y : result RightsizingRecommendation) st', serve_write st o = (y, st') → written st o y st') as Hw.
  { intros [r|] y st'' [= <- <-]; [done|by left]. }
  destruct e; simpl; try (by intros [= <- <-]); try apply Hw.
  - intros [= <- <-]. split; [done|]. intros r Hr. destruct (im_map st !! key) as [r'|] eqn:Hl; [|done].
    injection Hr as <-. by apply (im_stored _ Hok).
  - intros [= <- <-]. split; [done|]. intros l [= <-] r Hin.
    apply list_elem_of_In, filter_In in Hin as [Hin _]. apply list_elem_of_In in Hin.
    apply list_elem_of_fmap in Hin as ([k r'] & -> & Hin%elem_of_map_to_list). by apply (im_stored _ Hok) in Hin as [].
  - intros [= <- <-]. by right.
Qed.

Lemma play_allowed {A} ou (p : prog Ev A) st : im_ok st →
  steps im_step st (trace ou p st) (store_after ou p st) ∧ im_ok (store_after ou p st).
Proof.
  unfold trace, store_after. revert st. induction p as [a|m|X e k IH]; intros st Hok; simpl; [done..|].
  destruct (serve ou X e st) as [x st1] eqn:Es. apply serve_step in Es; [|done].
  assert (im_ok st1) as Hok1 by exact (ks_ok_step X st e x st1 Hok Es).
  specialize (IH x st1 Hok1). destruct (run (serve ou) (k x) st1) as [[out tr] st2]. simpl in *.
  destruct IH. split; [by exists st1|done].
Qed.

(** ** Logs of processes that run one after another *)
Definition by_process (i : nat) (tr : list (obs Ev)) : log := pair i <$> tr.

Lemma by_process_calls i tr : (by_process i tr).*2 = tr.
Proof. unfold by_process. rewrite <-list_fmap_compose. apply list_fmap_id. Qed.
Lemma proj_by_process i j tr : proj i (by_process j tr) = if decide (j = i) then tr else [].
Proof.
  induction tr as [|o tr IH]; simpl; [by destruct (decide _)|]. rewrite IH. by destruct (decide _).
Qed.
Lemma proj_app i g1 g2 : proj i (g1 ++ g2) = proj i g1 ++ proj i g2.
Proof.
  induction g1 as [|[j o] g1 IH]; [done|]. simpl. rewrite IH. by destruct (decide _).
Qed.

(** ** Sample objects *)
Definition sample_vm (labels : gmap string string) : toy_vm := {|
  tv_Name := "vm"; tv_Namespace := "ns"; tv_Annotations := ∅; tv_Labels := labels;
  tv_ints := [(Controller.cores_path, 8)]; tv_strings := [(Controller.requests_path, "16Gi")] |}.

Definition default_spec : RightsizingPolicySpec :=
  default Handlers.zero_PolicySpec DefaultPolicySpec.
Definition sample_policy : RightsizingPolicy :=
  {| rp_Name := "default"; rp_ResourceVersion := "1"; rp_Spec := default_spec |}.

Definition sample_key : NamespacedName := NSName "ns" "vm".
Definition sample_rec : NamespacedName := Controller.recName "vm" "ns".

Definition quiet_world : Outside := {|
  ou_now := 1800000000000000000; ou_vm := Ok (sample_vm ∅); ou_policy := Ok sample_policy;
  ou_http := λ _, Err (EOther "connection refused");
  ou_review := Ok {| tr_Authenticated := true; tr_Username := "bob"; tr_UID := "1"; tr_Groups := [] |};
  ou_access := λ _, true |}.

Definition demo_reconciler : Controller.RightsizingRecommendationReconciler := {|
  Controller.re_DemoMode := true; Controller.re_Applier := Some Applier.mkApplier;
  Controller.re_OwnerResolver := None; Controller.re_TokenManager := None;
  Controller.re_Notifier := None; Controller.re_ApprovalRouteHost := "" |}.

Definition sample_querier : Controller.PrometheusQuerier :=
  Main.prometheusAdapter (Prometheus.NewClient None "http://prometheus").

Definition sample_server : ApiServer.Server := Handlers.NewServer true true [].

(** An authenticated request with a JSON body. *)
Definition sample_request (method : string) (segments : list string) (body : json) : Request := {|
  rq_Method := method; rq_Segments := segments; rq_Clean := true; rq_Query := [];
  rq_Header := {[ "Authorization" := "Bearer secret" ]}; rq_Body := Marshal body; rq_Complete := true;
  rq_Form := None; rq_PathValues := [("namespace", "ns"); ("name", "vm-vm")];
  rq_User := Some {| ui_Username := "bob"; ui_UID := "1"; ui_Groups := [] |} |}.
Definition action_request (action : string) (body : json) : Request :=
  sample_request "POST" ["api"; "v1"; "recommendations"; "ns"; "vm-vm"; action] body.

Definition first_reconcile : prog Ev (result Z) :=
  @Controller.Reconcile _ _ _ sample_querier demo_reconciler sample_key.
Definition apply_request : prog Ev (ResponseWriter ApiServer.ApiBody) :=
  Handlers.ServeHTTP sample_server new_writer (action_request "apply" (JObject [])).

(** A VM reconciled for the first time, then its recommendation applied. *)
Definition reconciled_store : Store := store_after quiet_world first_reconcile no_objects.
Definition applied_store : Store := store_after quiet_world apply_request reconciled_store.
Definition sample_log : log :=
  by_process 0 (trace quiet_world first_reconcile no_objects)
  ++ by_process 1 (trace quiet_world apply_request reconciled_store).

Example sample_run :
  (rr_state <$> im_map reconciled_store !! sample_rec) = Some StatePending ∧
  (rr_state <$> im_map applied_store !! sample_rec) = Some StateAppliedPendingRestart ∧
  (Status <$> match ending quiet_world apply_request reconciled_store with Returns w => Some w | _ => None end) = Some 200.
Proof. vm_compute. repeat split. Qed.

(** ** What a run returned *)
Definition returns {A} (o : outcome A) : bool := match o with Returns _ => true | Panics _ => false end.
Definition returned_or {A} (d : A) (o : outcome A) : A := match o with Returns a => a | Panics _ => d end.

Lemma played_returns {A} ou (p : prog Ev A) st d : returns (ending ou p st) = true →
  runs p (trace ou p st) (Returns (returned_or d (ending ou p st))).
Proof. intros H. pose proof (played ou p st) as Hr. by destruct (ending ou p st). Qed.

(** Objects come back under the key asked for. *)
Lemma steps_under_key st tr st' : steps im_step st tr st' → Forall AuthFacts.under_key tr.
Proof.
  revert st. induction tr as [|[X e x] tr IH]; intros st; [constructor|]. intros (st1 & Hst & Hs).
  constructor; [|by apply IH in Hs]. destruct e; try done. intros r Hr. by apply (proj2 Hst r Hr).
Qed.

(** The first element of a computed list. *)
Lemma first_in {A B} (f : A → B) (l : list A) b : (f <$> head l) = Some b → ∃ a, a ∈ l ∧ b = f a.
Proof. intros (a & Ha & ->)%fmap_Some. exists a. split; [by apply head_Some_elem_of|done]. Qed.

Lemma single {A B} (f : A → B) (l : list A) b : (f <$> l) = [b] → ∃ a, l = [a] ∧ f a = b.
Proof. destruct l as [|a [|]]; [done| |done]. intros [= <-]. eauto. Qed.

(** ** More samples: an owned VM, the approval workflow, automatic mode *)
Definition owned_world : Outside := {|
  ou_now := ou_now quiet_world; ou_vm := Ok (sample_vm {[ LabelOwner := "alice" ]});
  ou_policy := ou_policy quiet_world; ou_http := ou_http quiet_world;
  ou_review := ou_review quiet_world; ou_access := ou_access quiet_world |}.

Definition sample_tokens : Approval.TokenManager := Approval.NewTokenManager "key".
Definition approval_server : ApiServer.Server := Handlers.NewServer true true
  [Handlers.WithTokenManager sample_tokens; Handlers.WithOwnerResolver Owner.mkResolver;
   Handlers.WithNotifier {| Notifier.d_forwarders := [] |}; Handlers.WithApprovalRouteHost "approve.example.com"].

Definition automatic_world : Outside := {|
  ou_now := ou_now quiet_world; ou_vm := ou_vm quiet_world;
  ou_policy := Ok {| rp_Name := "default"; rp_ResourceVersion := "1";
    rp_Spec := Handlers.policy_spec (ps_LookbackDays default_spec) (ps_Algorithm default_spec)
      (ps_Thresholds default_spec) (ps_RevertRetentionDays default_spec)
      {| am_Enabled := true; am_Schedule := "" |} (ps_ReconcileIntervalMinutes default_spec)
      (ps_MetricsStorage default_spec) |};
  ou_http := ou_http quiet_world; ou_review := ou_review quiet_world; ou_access := ou_access quiet_world |}.

(** The recommendation of the sample VM, pending and asked about. *)
Definition pending_rec : RightsizingRecommendation :=
  default {| rr_Meta := {| om_Name := ""; om_Namespace := ""; om_ResourceVersion := "" |};
             rr_Spec := {| sp_VirtualMachineRef := {| ref_Name := ""; ref_Namespace := "" |}; sp_Direction := "";
               sp_Current := {| rs_CPU := {| cpu_Cores := 0; cpu_Sockets := 0; cpu_Threads := 0 |}; rs_Memory := Q_zero |};
               sp_Recommended := {| rs_CPU := {| cpu_Cores := 0; cpu_Sockets := 0; cpu_Threads := 0 |}; rs_Memory := Q_zero |};
               sp_Savings := {| sv_CPU := 0; sv_Memory := Q_zero |};
               sp_Metrics := {| ms_CPUP95Percent := S754_zero false; ms_MemoryP95Percent := S754_zero false;
                 ms_CPUMaxPercent := S754_zero false; ms_MemoryMaxPercent := S754_zero false; ms_LookbackDays := 0 |};
               sp_HotplugCapable := false; sp_Reason := "" |};
             rr_Status := zero_Status |}
    (im_map reconciled_store !! sample_rec).
Definition asked_rec (notifiedAt : Z) : RightsizingRecommendation :=
  Controller.await_approval "alice" "token" notifiedAt pending_rec.
Definition asked_store (notifiedAt : Z) : Store :=
  store_after quiet_world (Controller.UpdateStatus (asked_rec notifiedAt)) reconciled_store.
