(* ===== verification/Witnesses.v ===== *)
(** * The theorems at work

    Each property that has hypotheses is applied to a concrete input on which they
    hold: runs of the program computed against the in-memory server. *)
From S2P Require Import Prelude GoStrings GoTime GoJson HttpMessage GoFloat External ApiTypes Effects World Http.
From S2P Require Import Approval Owner Applier Notifier NotifierFacts ApiServer Handlers Lifecycle LifecycleFacts.
From S2P Require Import Cluster ClusterFacts InMemory Instances Scenario.
From S2P Require Import AuthFacts HandlerFacts PolicyFacts SafetyFacts ReconcileFacts AdviceFacts ClockFacts.
From S2P Require Import Proxy ProxyFacts Main MainFacts.
From S2P Require Prometheus PrometheusFacts Controller Restart RestartLoop.
Local Open Scope Z_scope.

(** ** The cluster *)
Lemma activity_process `{P : Platform, GI : GoImpl, J : JwtLib} tr : activity tr → process tr.
Proof. intros Ha. exists [tr]. split; [by constructor|]. exists []. simpl. by rewrite !app_nil_r. Qed.
Lemma no_process `{P : Platform, GI : GoImpl, J : JwtLib} : process [].
Proof. exists []. split; [constructor|]. by exists []. Qed.

Lemma sample_server_tame : tame_server sample_server.
Proof. done. Qed.
Lemma demo_reconciler_tame : tame_reconciler demo_reconciler.
Proof. done. Qed.

Lemma sample_processes i : process (proj i sample_log).
Proof.
  unfold sample_log. rewrite proj_app, !proj_by_process.
  destruct (decide (0%nat = i)) as [<-|]; [|destruct (decide (1%nat = i)) as [<-|]; [|apply no_process]].
  - rewrite app_nil_r. apply activity_process. refine (act_reconcile sample_querier demo_reconciler sample_key _ _ _ _ (played _ _ _)).
    + apply quiet_adapter.
    + apply demo_reconciler_tame.
  - apply activity_process. exact (act_request sample_server _ _ _ _ sample_server_tame (played _ _ _)).
Qed.

Lemma sample_steps : steps im_step no_objects (sample_log.*2) applied_store.
Proof.
  unfold sample_log. rewrite fmap_app, !by_process_calls. refine (proj2 (steps_app _ _ _ _ _) _). exists reconciled_store.
  destruct (play_allowed quiet_world first_reconcile no_objects no_objects_ok) as [Hs Hok].
  split; [exact Hs|]. exact (proj1 (play_allowed quiet_world apply_request reconciled_store Hok)).
Qed.

Lemma cluster_invariant_witness : ∃ r,
  im_map applied_store !! sample_rec = Some r ∧ rr_state r = StateAppliedPendingRestart ∧ healthy r.
Proof.
  assert ((rr_state <$> im_map applied_store !! sample_rec) = Some StateAppliedPendingRestart) as Hst
    by (vm_compute; reflexivity).
  apply fmap_Some in Hst as (r & Hr & Hst). exists r. split; [exact Hr|split; [exact (eq_sym Hst)|]].
  eapply (cluster_invariant (W := Store) (AS := in_memory) sample_log no_objects applied_store no_objects_ok);
    [intros k; reflexivity|apply sample_processes|apply sample_steps|exact Hr].
Defined.

Definition sample_position : nat := (length sample_log - 1)%nat.
Lemma cluster_state_machine_witness : ∃ i o w1 w2,
  steps im_step no_objects ((List.firstn sample_position sample_log).*2) w1 ∧ steps im_step w1 [o] w2 ∧
  sample_log !! sample_position = Some (i, o) ∧
  ∀ k r r', im_map w1 !! k = Some r → im_map w2 !! k = Some r' →
    (rr_state r' = rr_state r ∨ (rr_state r, rr_state r') ∈ edges
     ∨ rr_Status r = zero_Status ∧ rr_state r' = StatePending) ∧
    (Controller.protected_state (rr_state r) = true → rr_Spec r' = rr_Spec r).
Proof.
  assert ((fst <$> sample_log !! sample_position) = Some 1%nat) as Hi by (vm_compute; reflexivity).
  apply fmap_Some in Hi as ([i o] & Ho & _).
  pose proof (take_drop_middle _ _ _ Ho) as Hlog.
  destruct (cluster_state_machine (W := Store) (AS := in_memory) (List.firstn sample_position sample_log) i o
    (List.skipn (S sample_position) sample_log) no_objects applied_store no_objects_ok) as (w1 & w2 & H1 & H2 & _ & H).
  - intros j. rewrite Hlog. apply sample_processes.
  - rewrite Hlog. apply sample_steps.
  - exists i, o, w1, w2. split; [exact H1|split; [exact H2|split; [exact Ho|exact H]]].
Defined.

(** ** Access *)
Definition overview_request : Request := sample_request "GET" ["api"; "v1"; "overview"] JNull.

Abbreviation gated := (AuthMiddleware true (handleOverview sample_server) new_writer overview_request).
Lemma middleware_gate_witness :
  (∃ w', ending quiet_world gated reconciled_store = Returns w' ∧ Status w' ∈ [401; 403; 500] ∧
     Forall review_call (trace quiet_world gated reconciled_store)) ∨
  (∃ t rest, trace quiet_world gated reconciled_store = admission overview_request t ++ rest ∧ extractBearerToken overview_request ≠ "" ∧
     tr_Authenticated t = true ∧
     runs (handleOverview sample_server new_writer (WithUser (user_of t) overview_request)) rest
       (ending quiet_world gated reconciled_store)).
Proof. exact (middleware_gate true _ new_writer overview_request _ _ eq_refl (played _ _ _)). Defined.

Abbreviation applying := (action_request "apply" (JObject [])).
Abbreviation apply_trace := (trace quiet_world apply_request reconciled_store).

Lemma authorized_scope_witness :
  Forall review_call apply_trace ∨
  ∃ t key rest, apply_trace = admission applying t ++ rest ∧ tr_Authenticated t = true ∧ key = NSName "ns" "vm-vm" ∧
    Forall (obs_in_scope key false (user_of t) (reads rest)) rest.
Proof.
  destruct (authorized_scope sample_server new_writer applying apply_trace (ending quiet_world apply_request reconciled_store) sample_server_tame)
    as [H|(t & key & rest & Heq & Ht & _ & Hkey & H)].
  - split; [done|]. repeat constructor.
  - by intros [=].
  - exact (steps_under_key _ _ _ (proj1 (play_allowed quiet_world apply_request reconciled_store
      (proj2 (play_allowed quiet_world first_reconcile no_objects no_objects_ok))))).
  - exact (played _ _ _).
  - left. exact H.
  - right. exists t, key, rest. split; [exact Heq|split; [exact Ht|split; [by apply Hkey|exact H]]].
Defined.

Lemma filterByNamespaceAccess_exact_witness :
  ∃ (allow : string → bool) namespaces,
    ending quiet_world (filterByNamespaceAccess sample_server overview_request [pending_rec]) no_objects
      = Returns (List.filter (λ i, allow (om_Namespace (rr_Meta i))) [pending_rec]) ∧
    NoDup namespaces ∧ (∀ ns, ns ∈ namespaces ↔ ∃ i, i ∈ [pending_rec] ∧ om_Namespace (rr_Meta i) = ns) ∧
    reviews (trace quiet_world (filterByNamespaceAccess sample_server overview_request [pending_rec]) no_objects)
      = ((λ ns, (namespace_review {| ui_Username := "bob"; ui_UID := "1"; ui_Groups := [] |} ns, allow ns)) <$> namespaces).
Proof. exact (filterByNamespaceAccess_exact sample_server overview_request [pending_rec] _ _ (played _ _ _)). Defined.

(** ** Handlers *)
Definition direct_apply : prog Ev (ResponseWriter ApiBody) :=
  handleApply sample_server new_writer (action_request "apply" (JObject [])).


Lemma wrong_state_refused_witness : ∃ rec w',
  ending quiet_world direct_apply applied_store = Returns w' ∧ Status w' = 409 ∧
  trace quiet_world direct_apply applied_store = [Obs (KGetRec sample_rec) (Ok rec)].
Proof.
  assert ((rr_state <$> reads (trace quiet_world direct_apply applied_store)) = [StateAppliedPendingRestart]) as Hr
    by (vm_compute; reflexivity).
  apply single in Hr as (rec & Hreads & Hst). exists rec.
  refine (wrong_state_refused sample_server (handleApply sample_server) [StatePending] new_writer
    (action_request "apply" (JObject [])) _ _ rec eq_refl _ (played quiet_world direct_apply applied_store) Hreads _).
  - exact (list_elem_of_here _ _).
  - rewrite Hst. by intros [=]%list_elem_of_singleton.
Defined.

Definition owned_apply : prog Ev (ResponseWriter ApiBody) :=
  handleApply approval_server new_writer (action_request "apply" (JObject [])).

Lemma apply_asks_owner_witness : ∃ rec rec' lookup found rest,
  rr_state rec' = StateAwaitingApproval ∧
  trace owned_world owned_apply reconciled_store = Obs (KGetRec sample_rec) (Ok rec) :: lookup ++ rest ∧
  in_state StatePending rec ∧ resolved (vm_of rec) lookup found ∧
  match found with
  | Ok o => if String.eqb o "" then applies_directly applying rec rec' else asks sample_tokens o applying rec rec'
  | Err _ => applies_directly applying rec rec'
  end.
Proof.
  assert (((λ x, (rr_state x.1, x.2)) <$> head (status_writes (trace owned_world owned_apply reconciled_store)))
    = Some (StateAwaitingApproval, true)) as Hw by (vm_compute; reflexivity).
  apply first_in in Hw as ([rec' ok] & Hin & [= Hst _]).
  destruct (apply_asks_owner approval_server mkResolver sample_tokens {| d_forwarders := [] |} new_writer
    applying _ _ rec' ok eq_refl eq_refl eq_refl eq_refl
    (Forall_nil_2 _) (played owned_world owned_apply reconciled_store) Hin) as (rec & lookup & found & rest & Heq & Hp & Hl & Ha).
  exists rec, rec', lookup, found, rest.
  split; [exact (eq_sym Hst)|split; [exact Heq|split; [exact Hp|split; [exact Hl|exact Ha]]]].
Defined.

(** ** Policy and overview *)
Definition policy_body : json := JObject [
  ("lookbackDays", JNumber "14"); ("algorithm", JObject [("percentile", JNumber "95"); ("headroomPercent", JNumber "20")]);
  ("thresholds", JObject [("minCpuSavings", JNumber "1"); ("minMemorySavings", JString "1Gi");
    ("upsizeUtilizationPercent", JNumber "90")]);
  ("revertRetentionDays", JNumber "30"); ("reconcileIntervalMinutes", JNumber "60")].
Definition policy_request : Request := sample_request "PUT" ["api"; "v1"; "policy"] policy_body.

Abbreviation policy_update := (handleUpdatePolicy sample_server new_writer policy_request).
Lemma handleUpdatePolicy_validates_witness :
  match DecodeBody maxBodySize policy_request decode_PolicySpec zero_PolicySpec with
  | Some spec =>
      (policy_ok spec ∧ ∀ x ok, (x, ok) ∈ writes (trace quiet_world policy_update no_objects) →
         ∃ p, Obs (KGetPolicy "default") (Ok p) ∈ trace quiet_world policy_update no_objects ∧
           x = WPolicy {| rp_Name := rp_Name p; rp_ResourceVersion := rp_ResourceVersion p; rp_Spec := spec |}) ∨
      (¬ policy_ok spec ∧ trace quiet_world policy_update no_objects = [] ∧ ∃ w', ending quiet_world policy_update no_objects = Returns w' ∧ Status w' = 400)
  | None => trace quiet_world policy_update no_objects = [] ∧ ∃ w', ending quiet_world policy_update no_objects = Returns w' ∧ Status w' = 400
  end.
Proof. exact (handleUpdatePolicy_validates sample_server new_writer policy_request _ _ eq_refl (played _ _ _)). Defined.
Example policy_written :
  length (writes (trace quiet_world (handleUpdatePolicy sample_server new_writer policy_request) no_objects)) = 1%nat.
Proof. vm_compute. reflexivity. Qed.

Lemma overview_counts_witness :
  overview_of (ou_now quiet_world) [pending_rec] = {|
    ov_TotalVMs := 1;
    ov_DownsizeCandidates := count (is_pending DirectionDownsize) [pending_rec];
    ov_UpsizeNeeded := count (is_pending DirectionUpsize) [pending_rec];
    ov_AppliedToday := count (applied_since (ou_now quiet_world)) [pending_rec];
    ov_TotalCPUSavings := wrap32 (total saved_cpu [pending_rec]);
    ov_TotalMemorySavings := wrap64 (total saved_memory [pending_rec]) |}.
Proof. apply (overview_counts (ou_now quiet_world) [pending_rec]). cbn [length]. lia. Defined.

(** ** No panic *)
Lemma ServeHTTP_no_panic_witness : ∃ w', ending quiet_world apply_request reconciled_store = Returns w'.
Proof.
  exact (ServeHTTP_no_panic sample_server new_writer (action_request "apply" (JObject [])) _ _
    sample_server_tame (played quiet_world apply_request reconciled_store)).
Defined.

Lemma serve_bounded {A} ou (p : prog Ev A) st :
  (∀ req r, ou_http ou req = Ok r → PrometheusFacts.answer_bounded r) → Forall bounded (trace ou p st).
Proof.
  intros Hb. unfold trace. revert st. induction p as [a|m|X e k IH]; intros st; simpl; [constructor..|].
  destruct (serve ou X e st) as [x st1] eqn:Es. specialize (IH x st1).
  destruct (run (serve ou) (k x) st1) as [[out tr] st2]. constructor; [|exact IH].
  intros r Hr. destruct e; try done. simpl in Es, Hr. injection Es as <- <-.
  destruct (ou_http ou req) as [r'|] eqn:Hh; [|done]. injection Hr as <-. by eapply Hb.
Qed.

Definition sample_restart : prog Ev (result Z) := @Restart.RestartReconcile _ (Restart.applier_restarter mkApplier) sample_rec.

Lemma Reconcile_no_panic_witness :
  (∃ res, ending quiet_world first_reconcile no_objects = Returns res) ∧
  (∃ res, ending quiet_world sample_restart applied_store = Returns res).
Proof.
  refine (@Reconcile_no_panic _ _ _ _ sample_querier bounded demo_reconciler sample_key _ _ mkApplier sample_rec _ _
    (safe_adapter _) demo_reconciler_tame (played quiet_world first_reconcile no_objects)
    (serve_bounded quiet_world first_reconcile no_objects _) (played quiet_world sample_restart applied_store)).
  by intros req r [=].
Defined.

(** ** The controller *)
Lemma returned_ok {A} ou (p : prog Ev (result A)) st d :
  (match ending ou p st with Returns (Ok _) => true | _ => false end) = true →
  runs p (trace ou p st) (Returns (returned_or (Ok d) (ending ou p st))).
Proof. intros H. apply played_returns. by destruct (ending ou p st). Qed.

#[local] Existing Instance sample_querier.

Abbreviation automatic_trace := (trace automatic_world first_reconcile no_objects).

Abbreviation first_trace := (trace quiet_world first_reconcile no_objects).

Lemma recommendation_follows_analysis_witness : ∃ x, spec_writes first_trace = [x] ∧
  ∃ policy vm result rest, consulted demo_reconciler sample_key first_trace policy vm (Advice result) rest ∧
    AdviceFacts.carries sample_key vm result rest x.
Proof.
  assert (((λ x, match x with WCreate r => rr_key r | _ => sample_key end) <$> head (spec_writes first_trace)) = Some sample_rec)
    as Hx by (vm_compute; reflexivity).
  apply first_in in Hx as (x & Hin & _). exists x.
  exact (@recommendation_follows_analysis _ _ _ sample_querier _ demo_reconciler sample_key _ _ x (outward_adapter _)
    demo_reconciler_tame (returned_ok quiet_world first_reconcile no_objects 0 ltac:(vm_compute; reflexivity)) Hin).
Defined.

(** ** The clock *)
Definition eight_days_ago : Z := ou_now quiet_world - 8 * 24 * Hour.
Lemma unreminded_runs rec n t r : in_state StateAwaitingApproval rec → st_NotifiedAt (rr_Status rec) = Some n →
  Controller.time_sub t n <= fourteenDays → st_ReminderSentAt (rr_Status rec) = Some r →
  runs (Controller.expire_or_remind demo_reconciler rec) [Obs TimeNow t] (Returns (Ok rec)).
Proof.
  intros Hst Hn H14%Z.ltb_ge Hr. unfold Controller.expire_or_remind.
  rewrite (proj2 (negb_false_iff _) (proj2 (String.eqb_eq _ _) Hst)), Hn. rewrite runs_call. eexists _, _; split; [done|].
  change (14 * 24 * Hour) with fourteenDays. cbv zeta.
  rewrite H14, Hr, bool_decide_false by done. by rewrite andb_false_r.
Qed.

Definition second_look : prog Ev (result Z) := @Controller.Reconcile _ _ _ sample_querier demo_reconciler sample_key.
Abbreviation second_trace := (trace quiet_world second_look (asked_store eight_days_ago)).

Lemma approval_clock_witness : ∃ rec policy vm result rest t0 t more,
  consulted demo_reconciler sample_key second_trace policy vm (Advice result) rest ∧
  rest = Obs TimeNow t0 :: Obs (KGetRec sample_rec) (Ok rec) :: Obs TimeNow t :: more ∧
  clock_course demo_reconciler rec eight_days_ago t more
    (returned_or (Ok 0) (ending quiet_world second_look (asked_store eight_days_ago))).
Proof.
  assert (((λ rec, (rr_state rec, st_NotifiedAt (rr_Status rec))) <$> head (reads second_trace))
    = Some (StateAwaitingApproval, Some eight_days_ago)) as Hx by (vm_compute; reflexivity).
  apply fmap_Some in Hx as (rec & Hread & [= Hst Hn]). exists rec.
  destruct (@approval_clock _ _ _ sample_querier demo_reconciler sample_key _ _ rec eight_days_ago (outward_adapter _)
    demo_reconciler_tame (returned_ok quiet_world second_look (asked_store eight_days_ago) 0 ltac:(vm_compute; reflexivity))
    Hread (eq_sym Hst) (eq_sym Hn)) as (policy & vm & v & rest & Hc & H).
  assert (length (writes second_trace) = 1%nat) as Hlen by (vm_compute; reflexivity).
  pose proof (proj1 (consulted_outward _ _ _ _ _ _ _ (outward_adapter _) Hc)) as Hw.
  destruct v as [| |result]; [destruct H|rewrite Hw, H in Hlen; discriminate Hlen|].
  destruct H as (t0 & t & more & Heq & H). exists policy, vm, result, rest, t0, t, more.
  exact (conj Hc (conj Heq H)).
Defined.
(** The reminder is recorded. *)
Example second_reminded : (λ x, match x.1 with WStatus r => st_ReminderSentAt (rr_Status r) | _ => None end) <$> writes second_trace
  = [Some (ou_now quiet_world)].
Proof. vm_compute. reflexivity. Qed.

(** A request rejected after a reminder, asked again, and not reminded of. *)
Definition reminded_rec : RightsizingRecommendation := reminded 5 (asked_rec 0).
Definition asked_again : RightsizingRecommendation :=
  Controller.await_approval "alice" "token2" eight_days_ago (reject "alice" "no" 6 reminded_rec).

Lemma reminder_lost_after_rejection_witness : ∃ t,
  [Obs TimeNow (ou_now quiet_world)] = [Obs TimeNow t] ∨
  ∃ x, [Obs TimeNow (ou_now quiet_world)] = [Obs TimeNow t; Obs (KUpdateRecStatus (expired asked_again)) x].
Proof.
  refine (reminder_lost_after_rejection demo_reconciler reminded_rec "alice" "no" "alice" "token2" 6 eight_days_ago 5
    _ (Ok asked_again) eq_refl _).
  apply (unreminded_runs asked_again eight_days_ago (ou_now quiet_world) 5 eq_refl eq_refl); [vm_compute; done|reflexivity].
Defined.

(** A restart that is due, and one asked for at once. *)
Definition due_rec : RightsizingRecommendation :=
  upd_Status (set_ScheduledRestartAt (Some 7)) (upd_Status (set_State StateAppliedPendingRestart) pending_rec).

Lemma restart_runs rec at_ t : in_state StateAppliedPendingRestart rec →
  st_ScheduledRestartAt (rr_Status rec) = Some at_ → at_ <= t →
  runs (@Restart.RestartReconcile _ (Restart.applier_restarter mkApplier) sample_rec)
    (Obs (KGetRec sample_rec) (Ok rec) :: [Obs TimeNow t; restart_call rec (Ok tt); Obs TimeNow t;
       Obs (KUpdateRecStatus (Restart.restart_done t rec)) (Ok (Restart.restart_done t rec))])
    (Returns (Ok 0)).
Proof. intros Hst Hat Hle. by apply (RestartLoop.runs_due mkApplier sample_rec rec at_ Hst Hat t t (Ok _)). Qed.

Lemma restart_on_schedule_witness : ∃ now rest,
  [Obs TimeNow 9; restart_call due_rec (Ok tt); Obs TimeNow 9;
   Obs (KUpdateRecStatus (Restart.restart_done 9 due_rec)) (Ok (Restart.restart_done 9 due_rec))] = Obs TimeNow now :: rest ∧
  ((∃ now' x, rest = [restart_call due_rec (Ok tt); Obs TimeNow now'; Obs (KUpdateRecStatus (Restart.restart_done now' due_rec)) x]) ∨
   (∃ e e' x, rest = [restart_call due_rec (Err e); Obs (KUpdateRecStatus (Restart.restart_failed e' due_rec)) x] ∧
      Returns (Ok 0) = Returns (Err (EWrap "restarting VM" e')))).
Proof.
  destruct (restart_on_schedule mkApplier sample_rec due_rec _ _
    (restart_runs due_rec 7 9 eq_refl eq_refl ltac:(lia))) as (_ & _ & H).
  destruct (H 7 eq_refl eq_refl) as (now & rest & Heq & _ & Hdue). exists now, rest. split; [exact Heq|]. apply Hdue.
  pose proof (f_equal (λ l, head l ≫= obs_time) Heq) as Ht. cbn in Ht. injection Ht as <-. lia.
Defined.

(** The restart loop: asked at once, again at the time, and never after that. *)
Definition idle_loop (t : Z) : RestartLoop.Loop :=
  {| RestartLoop.lw_clock := t; RestartLoop.lw_rec := due_rec; RestartLoop.lw_restarts := [] |}.
Definition done_loop (t : Z) : RestartLoop.Loop :=
  {| RestartLoop.lw_clock := t; RestartLoop.lw_rec := Restart.restart_done 9 due_rec;
     RestartLoop.lw_restarts := [(9, true)] |}.
Definition queue_of (w : RestartLoop.Loop) (timers : list Z) : RestartLoop.Queue :=
  {| RestartLoop.q_world := w; RestartLoop.q_timers := timers |}.
Definition punctual (n : nat) : RestartLoop.Queue :=
  match n with
  | 0%nat => queue_of (idle_loop 0) [0]
  | 1%nat => queue_of (idle_loop 0) [7]
  | 2%nat => queue_of (idle_loop 9) [7]
  | S (S (S n)) => queue_of (done_loop (9 + Z.of_nat n)) []
  end.

Lemma punctual_early : RestartLoop.Reconciles mkApplier sample_rec (idle_loop 0) (Returns (Ok (Controller.time_sub 7 0))) (idle_loop 0).
Proof.
  eexists. split; [by apply (RestartLoop.runs_early mkApplier sample_rec due_rec 7 eq_refl eq_refl 0)|].
  exists (idle_loop 0). split; [exists 0; by split_and!|]. exists (idle_loop 0). split; [done|].
  exists (idle_loop 0). by split.
Qed.
Lemma punctual_due : RestartLoop.Reconciles mkApplier sample_rec (idle_loop 9) (Returns (Ok 0)) (done_loop 9).
Proof.
  eexists. split; [by apply (RestartLoop.runs_due mkApplier sample_rec due_rec 7 eq_refl eq_refl 9 9 (Ok (Restart.restart_done 9 due_rec)))|].
  exists (idle_loop 9). split; [exists 9; by split_and!|]. exists (idle_loop 9). split; [done|].
  eexists. split; [exists 9; by split|]. eexists. split; [by split|].
  eexists. split; [exists 9; split; [done|by split]|done].
Qed.
Lemma punctual_fair : RestartLoop.fair mkApplier sample_rec punctual.
Proof.
  split.
  - intros [|[|[|n]]].
    + by apply (RestartLoop.queue_fire mkApplier sample_rec (idle_loop 0) [] 0 [] _ _ 0 ltac:(done) punctual_early).
    + by apply (RestartLoop.queue_wait mkApplier sample_rec (idle_loop 0) [7] 9).
    + by apply (RestartLoop.queue_fire mkApplier sample_rec (idle_loop 9) [] 7 [] _ _ 0 ltac:(done) punctual_due).
    + apply (RestartLoop.queue_wait mkApplier sample_rec (done_loop (9 + Z.of_nat n)) [] (9 + Z.of_nat (S n))). cbn. lia.
  - intros T. exists (S (S (S (Z.to_nat T)))). cbn. lia.
  - intros n Hn. exists 2%nat, (Returns (Ok 0)). split; [|apply punctual_due].
    destruct n as [|[|[|n]]]; [lia..|done].
Qed.

Lemma scheduled_restart_happens_witness :
  ∃ n, RestartLoop.restarted 7 (RestartLoop.q_world (punctual n)) ∨
    (RestartLoop.lost 7 (punctual n) ∧ RestartLoop.raced_before mkApplier sample_rec punctual 7 n).
Proof.
  apply (RestartLoop.scheduled_restart_happens mkApplier sample_rec punctual 7 punctual_fair).
  - split; reflexivity.
  - reflexivity.
  - discriminate.
Defined.

Lemma waiting_runs rec : in_state StateAppliedPendingRestart rec →
  st_ScheduledRestartAt (rr_Status rec) = None →
  runs (@Restart.RestartReconcile _ (Restart.applier_restarter mkApplier) sample_rec)
    [Obs (KGetRec sample_rec) (Ok rec)] (Returns (Ok (5 * Minute))).
Proof.
  intros Hst Hat. unfold Restart.RestartReconcile. rewrite runs_call. eexists _, _; split; [done|].
  cbv beta iota. by rewrite (proj2 (negb_false_iff _) (proj2 (String.eqb_eq _ _) Hst)), Hat.
Qed.

Definition now_request : ApplyRequest := {| ap_RestartOption := "now"; ap_ScheduledAt := "" |}.
Definition now_rec : RightsizingRecommendation :=
  upd_Status (set_AppliedAt (Some 3)) (upd_Status (set_State StateAppliedPendingRestart) pending_rec).

Lemma restart_now_never_restarts_witness :
  in_state StateAppliedPendingRestart now_rec ∧ st_AppliedAt (rr_Status now_rec) = Some 3 ∧
  ([] : list (obs Ev)) = [] ∧ (Returns (Ok (5 * Minute)) : outcome (result Z)) = Returns (Ok (5 * Minute)).
Proof.
  assert (sp_HotplugCapable (rr_Spec pending_rec) = false) as Hh by (vm_compute; reflexivity).
  assert (st_ScheduledRestartAt (rr_Status pending_rec) = None) as Hs by (vm_compute; reflexivity).
  refine (restart_now_never_restarts mkApplier sample_rec now_request 3 pending_rec now_rec [] _ Hh eq_refl Hs _ _).
  - unfold apply_state. rewrite Hh. reflexivity.
  - by apply (waiting_runs now_rec eq_refl).
Defined.
