(* ===== verification/ServiceWitnesses.v ===== *)
(** * The theorems at work: tokens, notifiers, metrics, proxy, wiring

    As in [Witnesses], for the parts around the API server and the controller. *)
From S2P Require Import Prelude GoStrings GoTime GoJson JsonText HttpMessage GoFloat External ApiTypes Effects World Http.
From S2P Require Import Approval Owner Applier Notifier NotifierFacts ApiServer Handlers Lifecycle LifecycleFacts.
From S2P Require Import Cluster InMemory Instances Scenario HandlerFacts ReconcileFacts SafetyFacts.
From S2P Require Import Proxy ProxyFacts RecJson PageFacts Main MainFacts Manager ManagerFacts.
From S2P Require Prometheus PrometheusFacts Calculator Controller Restart.
Local Open Scope Z_scope.

(** ** Tokens *)
Definition sample_claims : ApprovalClaims := claims_for "ns" "vm-vm" "alice" fourteenDays 5000000000.
Definition sample_token : string := toy_token "key" sample_claims.

Lemma sample_token_made :
  runs (GenerateToken sample_tokens "ns" "vm-vm" "alice" fourteenDays) [Obs TimeNow 5000000000]
    (Returns (Ok sample_token)).
Proof. by eexists _, _; split. Qed.
Lemma validation_runs tm tok now : ∃ res, runs (ValidateToken tm tok) [Obs TimeNow now] (Returns res).
Proof. eexists. eexists now, []. split; [done|]. by split. Qed.

Lemma token_lifetime_witness : ∃ res,
  runs (ValidateToken sample_tokens sample_token) [Obs TimeNow 6000000000] (Returns res) ∧ res = Ok sample_claims.
Proof.
  destruct (validation_runs sample_tokens sample_token 6000000000) as [res Hr]. exists res. split; [exact Hr|].
  assert (int64_range (5000000000 + fourteenDays)) as Hrange by (split; vm_compute; discriminate).
  pose proof (token_lifetime sample_tokens "ns" "vm-vm" "alice" fourteenDays 5000000000 sample_token
    [Obs TimeNow 5000000000] sample_token_made eq_refl eq_refl eq_refl eq_refl) as H.
  specialize (H ltac:(vm_compute; discriminate) ltac:(vm_compute; discriminate) Hrange
    [Obs TimeNow 6000000000] 6000000000 res Hr eq_refl).
  assert ((6000000000 <? 5000000000 + fourteenDays - (5000000000 + fourteenDays) mod Second) = true) as Hlt
    by (vm_compute; reflexivity).
  rewrite Hlt in H. exact H.
Defined.

(** ** Notifiers *)
Definition sample_notification : Notification := {|
  n_VMName := "vm"; n_Namespace := "ns"; n_Owner := "alice@example.com"; n_Direction := "downsize";
  n_CurrentCPU := 8; n_CurrentMemory := 16; n_RecCPU := 4; n_RecMemory := 8;
  n_ApprovalURL := "https://approve.example.com/approve?token=t" |}.
Definition sample_smtp : SMTPForwarder := {|
  sm_from := "ovro@example.com"; sm_to := "{{owner}}"; sm_smtpServer := "mail.example.com"; sm_smtpPort := 587;
  sm_tlsMode := "starttls"; sm_tlsSkipVerify := false; sm_username := "ovro"; sm_password := "secret" |}.
Definition sample_mail : prog Ev (result unit) := SMTPForwarder_Send sample_smtp sample_notification.

Lemma credentials_confined_witness :
  confined slack_api (SlackForwarder_Send {| sl_botToken := "xoxb-1"; sl_fallbackChannel := "#ops" |} sample_notification)
    (SlackForwarder_Send {| sl_botToken := "xoxb-2"; sl_fallbackChannel := "#ops" |} sample_notification).
Proof. apply (proj1 (credentials_confined sample_notification)). reflexivity. Defined.

Lemma smtp_encrypted_witness : encrypted false (session (trace quiet_world sample_mail no_objects)).
Proof.
  refine (smtp_encrypted sample_smtp sample_notification _ _ _ (played quiet_world sample_mail no_objects)).
  by intros [=].
Defined.

Lemma smtp_success_means_delivered_witness : ∃ closed, session (trace quiet_world sample_mail no_objects) =
  ((λ c, (c, true)) <$> (opening sample_smtp ++ authentication sample_smtp ++ transfer sample_smtp sample_notification))
  ++ [(SmtpClose, closed)].
Proof.
  apply (smtp_success_means_delivered sample_smtp sample_notification).
  assert (ending quiet_world sample_mail no_objects = Returns (Ok tt)) as <- by (vm_compute; reflexivity).
  exact (played quiet_world sample_mail no_objects).
Defined.

(** A directory that finds alice. *)
Definition slack_world : Outside := {|
  ou_now := ou_now quiet_world; ou_vm := ou_vm quiet_world; ou_policy := ou_policy quiet_world;
  ou_http := λ _, let j := JObject [("ok", JBool true); ("user", JObject [("id", JString "U1")])] in
    Ok {| hr_StatusCode := 200; hr_Body := Marshal j; hr_Complete := true |};
  ou_review := ou_review quiet_world; ou_access := ou_access quiet_world |}.
Definition sample_slack : SlackForwarder := {| sl_botToken := "xoxb"; sl_fallbackChannel := "" |}.
Definition sample_channel : prog Ev (result string) := resolveChannel sample_slack "alice@example.com".

Lemma resolveChannel_sound_witness : ∃ who tr' tr1 tr2,
  who ∈ [before_at "alice@example.com"; "alice@example.com"] ∧
  trace slack_world sample_channel no_objects = tr1 ++ tr' ++ tr2 ∧
  runs (lookupUserByEmail sample_slack who) tr' (Returns (Ok "U1")).
Proof.
  assert (ending slack_world sample_channel no_objects = Returns (Ok "U1")) as Hr by (vm_compute; reflexivity).
  pose proof (played slack_world sample_channel no_objects) as Hp. rewrite Hr in Hp.
  destruct (resolveChannel_sound sample_slack "alice@example.com" _ _ Hp) as (_ & _ & _ & H).
  exact (H eq_refl eq_refl "U1" eq_refl).
Defined.

Definition sample_config (type : string) (enabled : bool) : ForwarderConfig := {|
  fc_Type := type; fc_Enabled := enabled; fc_Channel := "#ops"; fc_SecretRef := "creds"; fc_From := ""; fc_To := "";
  fc_SMTPServer := ""; fc_SMTPPort := 0; fc_SMTPTLS := ""; fc_SMTPTLSSkipVerify := false; fc_Host := ""; fc_Port := 0;
  fc_Community := ""; fc_ServerURL := ""; fc_InstanceURL := ""; fc_AssignmentGroup := ""; fc_Category := "" |}.
Definition sample_configs : NotifierConfig :=
  {| nc_Forwarders := [sample_config "slack" true; sample_config "slack" false; sample_config "pager" true] |}.
Definition sample_secrets : SecretGetter := λ _ _, mret (Ok {[ "botToken" := "xoxb" ]}).

Lemma NewDispatcher_forwarders_witness : ∃ d, Name <$> d_forwarders d = ["slack"] ∧ tame_dispatcher d.
Proof.
  exists {| d_forwarders := [slack {| sl_botToken := "xoxb"; sl_fallbackChannel := "#ops" |}] |}.
  exact (@NewDispatcher_forwarders _ sample_secrets sample_configs [] _ (conj eq_refl eq_refl)).
Defined.

(** ** Metrics *)
Definition sample_series : PrometheusFacts.series := {|
  PrometheusFacts.se_labels := [("name", "vm"); ("namespace", "ns")];
  PrometheusFacts.se_values := [(JNumber "1800000000", "0.25"); (JNumber "1800000060", "0.5")] |}.
Definition metrics_answer : HttpResponse := {|
  hr_StatusCode := 200; hr_Body := Marshal (PrometheusFacts.matrix_json [sample_series]); hr_Complete := true |}.
Definition metrics_world : Outside := {|
  ou_now := ou_now quiet_world; ou_vm := ou_vm quiet_world; ou_policy := ou_policy quiet_world;
  ou_http := λ _, Ok metrics_answer; ou_review := ou_review quiet_world; ou_access := ou_access quiet_world |}.
Definition sample_client : Prometheus.Client := Prometheus.NewClient None "http://prometheus".

(** Every answer received is the one given. *)
Lemma served_responses {A} ou r0 (p : prog Ev A) st : (∀ req, ou_http ou req = Ok r0) →
  ∀ r, r ∈ responses (trace ou p st) → r = r0.
Proof.
  intros Hh r (o & Ho & Hr)%list_elem_of_omap. revert o Ho Hr.
  refine (proj1 (Forall_forall (λ o, obs_response o = Some r → r = r0) _) _). unfold trace.
  revert st. induction p as [a|m|X e k IH]; intros st; simpl; [constructor..|].
  destruct (serve ou X e st) as [x st1] eqn:Es. specialize (IH x st1).
  destruct (run (serve ou) (k x) st1) as [[out tr] st2]. constructor; [|exact IH].
  intros Hr. destruct e; try done. simpl in Es, Hr. injection Es as <- <-. rewrite Hh in Hr. by injection Hr.
Qed.

Definition sample_query : prog Ev (result (list Prometheus.VMMetricSample)) := Prometheus.QueryRange sample_client "up".
Lemma QueryRange_reads_series_witness :
  match returned_or (Err (EOther "")) (ending metrics_world sample_query no_objects) with
  | Ok samples => samples = PrometheusFacts.sample_of_series <$> [sample_series]
  | Err _ => responses (trace metrics_world sample_query no_objects) = []
  end ∧
  (∀ req, req ∈ https (trace metrics_world sample_query no_objects) → hq_URL req = PrometheusFacts.query_url sample_client "up") ∧
  QueryUnescape (QueryEscape "up") = Some "up".
Proof.
  assert (returns (ending metrics_world sample_query no_objects) = true) as Hr by (vm_compute; reflexivity).
  apply (PrometheusFacts.QueryRange_reads_series sample_client "up" _ _ [sample_series]
    (played_returns metrics_world sample_query no_objects (Err (EOther "")) Hr)).
  intros r Hin. rewrite (served_responses metrics_world metrics_answer _ _ (λ _, eq_refl) r Hin). split; [reflexivity|vm_compute; reflexivity].
Defined.

Lemma metrics_answer_bounded : PrometheusFacts.answer_bounded metrics_answer.
Proof.
  intros j pr Hj Hd. assert (forallb (λ s, Z.of_nat (length (Prometheus.pr_Values s)) <? 2 ^ 53) (Prometheus.pp_Result pr) = true) as Hb.
  { assert (hr_first metrics_answer = Some (PrometheusFacts.matrix_json [sample_series])) as Hm by (vm_compute; reflexivity).
    rewrite Hm in Hj. injection Hj as <-. assert (((λ pr, forallb (λ s, Z.of_nat (length (Prometheus.pr_Values s)) <? 2 ^ 53) (Prometheus.pp_Result pr))
      <$> Prometheus.decode_prometheusResponse (PrometheusFacts.matrix_json [sample_series]) Prometheus.zero_prometheusResponse)
      = Some true) as H by (vm_compute; reflexivity). rewrite Hd in H. by injection H. }
  apply Forall_forall. intros s Hs. apply Z.ltb_lt. by apply (proj1 (forallb_forall _ _) Hb), list_elem_of_In.
Qed.

Definition sample_utilization : prog Ev (result Prometheus.VMUtilization) :=
  Prometheus.GetVMUtilization sample_client "vm" "ns" 7 8 17179869184.
Lemma GetUtilization_no_panic_witness : ∃ res, ending metrics_world sample_utilization no_objects = Returns res.
Proof.
  refine (PrometheusFacts.GetUtilization_no_panic sample_client "vm" "ns" 7 8 17179869184 _ _
    (or_introl (played metrics_world sample_utilization no_objects)) _).
  intros r Hin. rewrite (served_responses metrics_world metrics_answer _ _ (λ _, eq_refl) r Hin).
  apply metrics_answer_bounded.
Defined.

(** ** The approval page *)
Definition sample_proxy : ApprovalProxy := New sample_tokens "http://ovro/".
Definition proxy_world : Outside := {|
  ou_now := 6000000000; ou_vm := ou_vm quiet_world; ou_policy := ou_policy quiet_world;
  ou_http := λ _, Ok {| hr_StatusCode := 200; hr_Body := ""; hr_Complete := true |};
  ou_review := ou_review quiet_world; ou_access := ou_access quiet_world |}.

Definition form_request (action : string) : Request := {|
  rq_Method := "POST"; rq_Segments := ["approve"]; rq_Clean := true; rq_Query := []; rq_Header := ∅; rq_Body := ""; rq_Complete := true;
  rq_Form := Some [("token", sample_token); ("action", action); ("restartOption", "schedule");
                   ("scheduledAt", "2027-01-15T08:30"); ("reason", "busy")];
  rq_PathValues := []; rq_User := None |}.
Abbreviation posted action := (handlePostApprove sample_proxy new_writer (form_request action)).
Abbreviation sent action := (https (trace proxy_world (posted action) no_objects)).

Abbreviation proxied := (proxy_ServeHTTP sample_proxy new_writer (form_request "approve")).

Lemma proxy_requires_token_witness : ∃ now c req,
  times (trace proxy_world proxied no_objects) = [now] ∧ vouched sample_proxy (form_request "approve") now c ∧
  https (trace proxy_world proxied no_objects) = [req] ∧ on_behalf sample_proxy c req.
Proof.
  assert (length (https (trace proxy_world proxied no_objects)) = 1%nat) as Hl by (vm_compute; reflexivity).
  pose proof (proxy_requires_token sample_proxy new_writer (form_request "approve")
    (trace proxy_world proxied no_objects) (ending proxy_world proxied no_objects)
    (played proxy_world proxied no_objects)) as H.
  unfold bounded_by_token in H. destruct H as [Hnone|H]; [|exact H].
  rewrite Hnone in Hl. discriminate Hl.
Defined.

Definition approve_payload : list (string * string) :=
  [("restartOption", "schedule"); ("scheduledAt", "2027-01-15T08:30:00Z")].
Definition exclude_payload : list (string * string) := [("exclude", "true"); ("reason", "busy")].
(** What arrives at the API server. *)
Definition arrived (payload : list (string * string)) : Request := {|
  rq_Method := "POST"; rq_Segments := []; rq_Clean := true; rq_Query := [];
  rq_Header := <["X-Approval-Owner" := "alice"]> {[ "Content-Type" := "application/json" ]};
  rq_Body := Marshal (json_of_strings payload); rq_Complete := true; rq_Form := None;
  rq_PathValues := [("namespace", "ns"); ("name", "vm-vm")]; rq_User := None |}.

Lemma arrived_arrives endpoint payload : arrives (backend_request sample_proxy sample_claims endpoint payload) (arrived payload).
Proof.
  split; [done|split].
  - left. reflexivity.
  - intros k v [[= -> ->]|[[= -> ->]|[]%not_elem_of_nil]%elem_of_cons]%elem_of_cons; reflexivity.
Qed.

Abbreviation owner_approves := (handleOwnerApprove sample_server new_writer (arrived approve_payload)).
Abbreviation owner_rejects := (handleOwnerReject sample_server new_writer (arrived exclude_payload)).

Lemma approval_end_to_end_witness : ∃ c rec rec',
  jwt_signed (tm_signingKey (px_tokenManager sample_proxy)) (FormValue (form_request "approve") "token") c ∧
  (rec', true) ∈ status_writes (trace quiet_world owner_approves (asked_store 0)) ∧
  head (reads (trace quiet_world owner_approves (asked_store 0))) = Some rec ∧
  in_state StateAwaitingApproval rec ∧ st_ApprovedBy (rr_Status rec') = ac_Owner c.
Proof.
  assert (sent "approve" = [backend_request sample_proxy sample_claims "owner-approve" approve_payload]) as Hsent
    by (vm_compute; reflexivity).
  assert ((snd <$> head (status_writes (trace quiet_world owner_approves (asked_store 0)))) = Some true) as Hw
    by (vm_compute; reflexivity).
  apply first_in in Hw as ([rec' ok] & Hin & Hok). simpl in Hok. subst ok.
  pose proof (approval_end_to_end sample_proxy new_writer (form_request "approve")
    (trace proxy_world (posted "approve") no_objects) (ending proxy_world (posted "approve") no_objects)
    (backend_request sample_proxy sample_claims "owner-approve" approve_payload) sample_server new_writer
    (arrived approve_payload) (trace quiet_world owner_approves (asked_store 0))
    (ending quiet_world owner_approves (asked_store 0)) rec' true) as H.
  specialize (H (played proxy_world (posted "approve") no_objects)). specialize (H eq_refl).
  specialize (H Hsent). specialize (H (arrived_arrives "owner-approve" approve_payload)).
  specialize (H (played quiet_world owner_approves (asked_store 0))). specialize (H Hin).
  destruct H as (c & now & rec & Hs & _ & Hread & Hst & _ & Hby & _).
  exists c, rec, rec'. exact (conj Hs (conj Hin (conj Hread (conj Hst Hby)))).
Defined.

Lemma exclude_never_excludes_witness :
  patches (trace quiet_world owner_rejects (asked_store 0)) = [] ∧
  ∀ rec' ok, (rec', ok) ∈ status_writes (trace quiet_world owner_rejects (asked_store 0)) → ∃ c now rec,
    jwt_signed (tm_signingKey (px_tokenManager sample_proxy)) (FormValue (form_request "exclude") "token") c ∧
    head (reads (trace quiet_world owner_rejects (asked_store 0))) = Some rec ∧
    rec' = reject (ac_Owner c) (ToValidUTF8 (FormValue (form_request "exclude") "reason")) now rec.
Proof.
  assert (sent "exclude" = [backend_request sample_proxy sample_claims "owner-reject" exclude_payload]) as Hsent
    by (vm_compute; reflexivity).
  pose proof (exclude_never_excludes sample_proxy new_writer (form_request "exclude")
    (trace proxy_world (posted "exclude") no_objects) (ending proxy_world (posted "exclude") no_objects)
    (backend_request sample_proxy sample_claims "owner-reject" exclude_payload) sample_server new_writer
    (arrived exclude_payload) (trace quiet_world owner_rejects (asked_store 0))
    (ending quiet_world owner_rejects (asked_store 0))) as H.
  specialize (H (played proxy_world (posted "exclude") no_objects)). specialize (H eq_refl). specialize (H Hsent).
  destruct H as [_ H]. specialize (H (arrived_arrives "owner-reject" exclude_payload)).
  exact (H (played quiet_world owner_rejects (asked_store 0))).
Defined.
Example exclude_writes_once :
  length (status_writes (trace quiet_world owner_rejects (asked_store 0))) = 1%nat.
Proof. vm_compute. reflexivity. Qed.

(** The recommendation as it comes from the API server: its percentages are whole. *)
#[local] Instance toy_json : JsonForeign := {|
  json_of_time := json_int; json_of_metadata := λ m, JObject [("name", JString (om_Name m))];
  json_of_TypeMeta := λ _, [] |}.
#[local] Instance toy_json_laws : JsonForeignLaws.
Proof.
  split.
  - intros t. split; [apply JsonTextFacts.number_literal_itoa|cbn; lia].
  - intros m. split; [done|cbn; lia].
  - intros r k j Hin. by apply not_elem_of_nil in Hin.
Qed.
Definition whole_text (x : f64) : string :=
  match x with S754_finite false m e => itoa (Z.shiftr (Zpos m) (- e)) | _ => "0" end.

Definition page_request : Request := {|
  rq_Method := "GET"; rq_Segments := ["approve"]; rq_Clean := true; rq_Query := [("token", sample_token)];
  rq_Header := ∅; rq_Body := ""; rq_Complete := true; rq_Form := None; rq_PathValues := []; rq_User := None |}.
Definition read_request : Request := {|
  rq_Method := "GET"; rq_Segments := ["api"; "v1"; "internal"; "recommendations"; "ns"; "vm-vm"]; rq_Clean := true;
  rq_Query := []; rq_Header := ∅; rq_Body := ""; rq_Complete := true; rq_Form := None; rq_PathValues := [];
  rq_User := None |}.
Abbreviation answering := (ServeHTTP sample_server new_writer read_request).
Definition read_rec : RightsizingRecommendation :=
  default pending_rec (head (reads (trace quiet_world answering (asked_store 0)))).
Definition page_answer : HttpResponse := {|
  hr_StatusCode := 200; hr_Body := Marshal (json_of_Recommendation whole_text read_rec) +:+ newline;
  hr_Complete := true |}.
Definition page_world : Outside := {|
  ou_now := 6000000000; ou_vm := ou_vm quiet_world; ou_policy := ou_policy quiet_world;
  ou_http := λ _, Ok page_answer; ou_review := ou_review quiet_world; ou_access := ou_access quiet_world |}.
Abbreviation opening_page := (handleGetApprove sample_proxy new_writer page_request).

Lemma page_shows_recommendation_witness :
  cpu_Cores (rs_CPU (sp_Current (rr_Spec read_rec))) = 8 ∧
  returned_or new_writer (ending page_world opening_page no_objects) =
    approval_page new_writer (page_of (rr_Spec read_rec) (Query_Get page_request "token") (ac_Owner sample_claims)).
Proof.
  split; [vm_compute; reflexivity|].
  assert (responses (trace page_world opening_page no_objects) = [page_answer]) as Hresp by (vm_compute; reflexivity).
  assert (returns (ending page_world opening_page no_objects) = true) as Hret by (vm_compute; reflexivity).
  assert (returns (ending quiet_world answering (asked_store 0)) = true) as Hret' by (vm_compute; reflexivity).
  assert (reads (trace quiet_world answering (asked_store 0)) = [read_rec]) as Hread by (vm_compute; reflexivity).
  destruct (page_shows_recommendation whole_text sample_proxy new_writer page_request _ _ page_answer
    (played_returns page_world opening_page no_objects new_writer Hret) Hresp) as (c & Hs & _ & H).
  assert (jwt_signed "key" sample_token sample_claims) as Hs' by (apply toy_read_token).
  pose proof (jwt_signed_claims _ _ _ _ _ Hs Hs') as ->.
  destruct (H sample_server read_request _ _ read_rec ltac:(split_and!; done || discriminate)
    (played_returns quiet_world answering (asked_store 0) new_writer Hret') Hread) as [_ [Hpage|[_ [?|?]]]].
  - vm_compute. split_and!; done || discriminate.
  - intros _ x Hx. repeat (apply elem_of_cons in Hx as [->|Hx]; [split; vm_compute; reflexivity|]).
    destruct (not_elem_of_nil x Hx).
  - split; [vm_compute; reflexivity|]. exists (hr_Body page_answer). split; [vm_compute; reflexivity|reflexivity].
  - exact Hpage.
  - discriminate.
  - assert (rec_encodes read_rec = true) as He by (vm_compute; reflexivity). congruence.
Defined.

(** ** Wiring *)
Definition sample_settings : Settings := {|
  se_DemoMode := false; se_SigningKeyPath := "/etc/key"; se_SigningKey := Ok "key"; se_DemoKey := Err (EOther "unused");
  se_ApprovalRouteHost := "approve.example.com"; se_NotificationConfig := None;
  se_PrometheusURL := "http://prometheus"; se_PrometheusTokenFile := None |}.

Lemma setup_wires_witness : ∃ op,
  wired op ∧ agrees op ∧ approval_ready sample_settings op ∧ shares_key sample_settings op.
Proof. eexists. exact (setup_wires sample_settings [] _ (conj eq_refl eq_refl)). Defined.

(** ** The start *)

(** On 64-bit machines an array for one function has room for one, on 32-bit
    machines for two. *)
#[local] Instance gc64 : Growth := {| grow := λ n, n; grow_enough := λ n, Nat.le_refl n |}.
Definition gc32 : Growth := {| grow := Nat.max 2; grow_enough := Nat.le_max_r 2 |}.

(** Every step succeeds and the cache refuses to read secrets. *)
Definition boot_serve X (e : BootEv X) (st : Store) : X * Store :=
  match e in BootEv X return X * Store with
  | Client e =>
      match e in Ev X return X * Store with
      | KGetSecretData _ => (Err (EOther "the cache is not started, can not read objects"), st)
      | e => serve quiet_world _ e st
      end
  | Boot _ => (Ok tt, st)
  end.

Definition sample_getenv (name : string) : string := if String.eqb name "SIGNING_KEY_PATH" then "/etc/key" else "".
Definition sample_boot (cfg : option (result NotifierConfig)) : prog BootEv Z :=
  main sample_getenv (λ _, Ok "key") (λ _, cfg) (Err (EOther "unused")) default_manager_flags.
Definition boot_trace cfg : list (obs BootEv) := (run boot_serve (sample_boot cfg) no_objects).1.2.
Definition boot_ending cfg : outcome Z := (run boot_serve (sample_boot cfg) no_objects).1.1.

Definition read_secret {X} (e : Ev X) : X → bool :=
  match e in Ev X return X → bool with
  | KGetSecretData _ => λ r, match r with Ok _ => true | Err _ => false end
  | _ => λ _, false
  end.
Definition client_read_secret (o : obs BootEv) : bool :=
  match o with
  | Obs e x => match e in BootEv X return X → bool with
               | Client e => read_secret e
               | Boot _ => λ _, false
               end x
  end.
Lemma cache_refuses tr : forallb (λ o, negb (client_read_secret o)) tr = true → cache_needs_start tr.
Proof.
  intros Htr tr1 tr2 key r -> _. rewrite forallb_app in Htr. apply andb_true_iff in Htr as [_ Htr].
  simpl in Htr. destruct r as [d|e]; [done|by exists e].
Qed.

Lemma main_starts_complete_witness : ∃ trs op webhook metrics last,
  boot_trace None = succeeds (steps_before default_manager_flags) ++ (embed_obs (@Client _) <$> trs)
    ++ succeeds (steps_after sample_getenv default_manager_flags op) ++ [Obs (Boot (Start webhook metrics)) last] ∧
  runs (setup (settings_of sample_getenv (λ _, Ok "key") (λ _, None) (Err (EOther "unused")) default_flags)) trs
    (Returns (Ok op)) ∧
  start_manager default_manager_flags = Start webhook metrics ∧ boot_ending None = Returns (exit_code last).
Proof.
  destruct (main_starts_complete sample_getenv (λ _, Ok "key") (λ _, None) (Err (EOther "unused"))
    default_manager_flags (boot_trace None) (boot_ending None) (run_runs boot_serve (sample_boot None) no_objects)) as [H|(_ & H & _)].
  - exact H.
  - assert (boot_ending None = Returns 0) as H0 by (vm_compute; reflexivity). rewrite H0 in H. discriminate H.
Defined.
Example boot_succeeds : boot_ending None = Returns 0.
Proof. vm_compute. reflexivity. Qed.

Abbreviation slack_config := (Some (Ok sample_configs)).
Lemma secrets_prevent_start_witness :
  ¬ started (boot_trace slack_config) ∧ boot_ending slack_config = Returns 1.
Proof.
  refine (secrets_prevent_start sample_getenv (λ _, Ok "key") (λ _, slack_config) (Err (EOther "unused"))
    default_manager_flags sample_configs (boot_trace slack_config) (boot_ending slack_config)
    (run_runs boot_serve (sample_boot slack_config) no_objects) _ _ eq_refl _).
  - apply cache_refuses. vm_compute. reflexivity.
  - vm_compute. discriminate.
  - exists (sample_config "slack" true). split; [apply list_elem_of_here|reflexivity].
Defined.

(** The certificates where two of the options share an array. *)
Definition two_certificates : ManagerFlags := {|
  mf_metricsAddr := ":8443";
  mf_metricsCertPath := "/certs/metrics/"; mf_metricsCertName := "tls.crt"; mf_metricsCertKey := "tls.key";
  mf_webhookCertPath := "/certs/./webhook"; mf_webhookCertName := "tls.crt"; mf_webhookCertKey := "tls.key";
  mf_enableLeaderElection := true; mf_probeAddr := ":8081"; mf_secureMetrics := true;
  mf_enableHTTP2 := false; mf_flags := default_flags |}.
Example shared_array : @shares_array gc64 two_certificates = false ∧ @shares_array gc32 two_certificates = true ∧
  webhookCertWatcher two_certificates =
    Some {| cw_cert := "/certs/webhook/tls.crt"; cw_key := "/certs/webhook/tls.key" |}.
Proof. vm_compute. auto. Qed.
